(* ===== verification/_CoqProject ===== *)
-Q . S2P
Prelude.v
Program.v
Text.v
Chain.v
Proto.v
Codec.v
Base58.v
Addr.v
Ip.v
TronTx.v
Rlp.v
EvmTx.v
BtcTx.v
Json.v
Wire.v
Quotes.v
X402Wire.v
Assets.v
Host.v
Eip712.v
SolWire.v
NoPanic.v
Engine.v
Signing.v
Transfer.v
Service.v
Queries.v
LedgerTypes.v
Migration.v
Ledger.v
Store.v
LedgerOps.v
LedgerLogic.v
LedgerSafety.v
LedgerReads.v
LedgerSystem.v
Keys.v
Signer.v
PayHost.v
HostPort.v
Runtime.v
Intent.v
Client.v
Rail.v
PayClient.v
PayService.v
PaySigner.v
Members.v
PayTool.v
Tools.v
Lifecycle.v
