(* ===== verification/Prelude.v ===== *)
(** * tinywallet: a verified model

    tinywallet is a self-custody wallet: a library that validates addresses and
    builds and checks transactions for Bitcoin, Ethereum, Solana and Tron
    ([src/], [crates/tinywallet-crypto]), a wallet engine that prepares, confirms
    and executes transfers, swaps, bridges and dapp calls
    ([crates/tinywallet-web3]), a payment client for the x402 protocol with a
    spending ledger ([crates/tinywallet-x402]), and a loadable module that serves
    them on a bus, with its contract and typed client ([crates/tinywallet-module],
    [crates/tinywallet-bus], [crates/tinywallet-client]).  The development models
    the code that decides what is signed, what is accepted from a node or a
    server, how much may be spent, and who is asked first.

    ** Conventions

    A function of the code is a definition of the same name where Rocq allows
    it.  A [Result] is [res]: [Ok], [Err], or [Panic] where Rust would panic
    (slicing, overflow, [expect]).  A machine integer is a [Z] with its bounds
    written out: wrapping as [mod], saturating and checked arithmetic as
    [sat_add], [sat_sub], [checked_add], [checked_mul].  Bytes are [list Z]; a
    string is its UTF-8 bytes ([str]), and [Text] holds the standard library's
    string functions.  Code that calls a host, a node, a signer, a clock or the
    storage is a [Program.program]: it asks one request at a time and goes on
    with any answer, so a theorem that quantifies over the host covers every
    answer, late, wrong or hostile.  What happened is the trace of events; the
    effects of a run are the requests that sign, send or store.

    ** Files

    Vocabulary: [Prelude] (results, bytes, integers, tactics), [Program]
    (programs over requests, their runs, weakest preconditions), [Text] (Rust's
    strings, integer parsing and printing), [Json], [Ip] (IP literals), [NoPanic]
    (what cannot panic, as a hint database), [Host] (the engine's seams).

    The library ([src/], [crates/tinywallet-crypto]):
    - [Chain], [Codec], [Base58]: chains and errors; third-party codecs and
      hashes as a class with laws; base58 written out, an instance of it.
    - [Addr]: address validators and renderers ([address/]).
    - [Proto], [TronTx]: the protobuf reader against the wire grammar, and the
      checks of node-built Tron transactions ([tx/proto.rs], [tx/tron.rs]).
    - [Rlp], [EvmTx], [BtcTx], [SolWire]: RLP, Ethereum and Bitcoin transactions,
      coin selection and its planner, Solana messages ([tx/]).
    - [Keys], [Signer]: key derivation ([src/key/]); the module's stateless
      signing, construction and one-shot signing ([service/mod.rs],
      [service/construction/]).
    - [Client]: the library's own chain client ([src/client/]).

    The engine ([crates/tinywallet-web3]):
    - [Wire], [Assets]: wire vocabulary, asset and network tables.
    - [Quotes]: the stores of prepared quotes and confirm-then-execute.
    - [Engine], [Signing], [Transfer]: preparing and executing transfers, what
      may be signed, and the whole way from a request to a signature.
    - [Service]: swaps, bridges and dapp calls; [Queries]: everything read-only.
    - [Tools]: the agent tools over both, with their declarations.

    The x402 client ([crates/tinywallet-x402]):
    - [X402Wire], [Eip712]: challenges and which option is paid, EIP-712.
    - [LedgerTypes], [Migration], [Ledger], [Store], [LedgerOps], [LedgerReads]:
      the ledger's records, their first schema and its migration, the budget
      check, storage calls, the operations, and that its reading loop ends.
    - [LedgerLogic], [LedgerSafety], [LedgerSystem]: many ledgers on one storage:
      the contract of the storage, each operation's safety, the whole system.
    - [PayHost], [Rail], [PayClient], [PayTool]: the payment side's requests, the
      crypto rail, the paying clients, the agent's paid-request tool.

    The module and its callers:
    - [HostPort], [Runtime]: callbacks to the host, and the engine and service
      run over them with the host's approval before each execution.
    - [PayService], [PaySigner]: the x402 service and its signer.
    - [Lifecycle]: opening, replacing and closing services by handle.
    - [Members], [Intent]: bus names, stateless members and the typed client; the
      comparison a host may use on what it is asked to approve.

    ** How the parts meet

    [Engine] calls the chain encoders ([EvmTx], [BtcTx], [SolWire], [TronTx]) and
    the quote stores; [Runtime] replays engine programs over the bus, answering
    their seam requests by callbacks ([HostPort]) and by [Signer]'s keys;
    [PayClient] is proved against an interface of payment builders
    ([BuilderLaws]), which the crypto rail ([Rail.crypto_pays]) meets, and uses the
    ledger through one request per operation, whose own programs [LedgerOps] and
    [LedgerSystem] treat; [PayService] composes builder, ledger and approval;
    [Tools] and [PayTool] stand between a model's arguments and the above.

    ** What the theorems show

    - What is signed: a quote executes at most once ([Quotes]), signs only its own
      transaction ([Transfer], [Service]), after the host's approval of exactly
      those terms ([Runtime]), by the key the secret derives ([Signer],
      [PaySigner]); agent tools move nothing without a confirmation ([Tools]).
    - What is accepted: node-built Tron transactions exactly when they are the
      transfer ([TronTx], over [Proto]'s exact grammar); statuses and balances
      only on a node's evidence ([Queries], [Client]).
    - Encodings: payloads bind every field ([EvmTx]); addresses and stored records
      round-trip ([Addr], [LedgerTypes]); derived addresses validate ([Keys]).
    - Money: the planner agrees with the signer and finds a plan whenever there is
      one ([BtcTx]); the budget check is exact ([Ledger]); interleaved ledgers
      never overspend together, whatever fails ([LedgerSystem]); a payment is
      reserved, approved, recorded, and settled only by a receipt ([PayClient],
      [PayService]); the migration loses nothing readable ([Migration]).
    - The surface: each service answers by the history of openings ([Lifecycle]);
      names, secrets and attestation agree ([Members]); the host's comparison
      accepts genuine requests, with the exceptions stated ([Intent]).

    ** Fuel and bounds

    Recursion that is not structural has fuel, and a lemma that the fuel is
    enough: a varint has at most 10 bytes; [show_radix] prints at most 129 digits
    of a [u128]; [strip_ws] is given the text's length; base58 is given the
    number's own size; reading the ledger's stream is given 4096 windows of 512
    entries, and [LedgerReads] shows that it then ends with the result of any
    larger fuel for streams up to 4095 full windows.  A hold update tries 16
    times, as the code does ([HOLD_CAS_ATTEMPTS]); a longer read answers nothing.

    ** Parameters

    Code outside [src/] is a class; its laws are documented behaviour, and each
    has a concrete instance for the examples.  Codecs, hashes and keys: [Codecs],
    [Base64], [KeyHashes], [Bip39], [Bip32], [Secp256k1], [SecpPublic],
    [Ed25519Lib], [Curve25519], [BitcoinLib].  Serde and printing: [Deserialize],
    [JsonPrinter], [Serde], [SerdeReads], [NodeSerde], [RailReads], [ParamSerde],
    [ToolSerde], [ClientSerde], [HostSerde], [LegacySerde], [RequestSize].  HTTP,
    URLs and time: [HttpLib], [WebLib], [Chrono], [ChronoSeconds], [ChronoText].
    Storage answers by the contract [LedgerLogic.port_step]; the host's wallet for
    payments is [Eip712.PaymentSigner]; a bus delivery is a request.

    ** Not modelled

    HTTP clients and their options, serde's spelling of the wire types, the bus
    runtime with its attestation and generated exports, and logging: other code,
    or glue over it.  Cancellation of futures, lock poisoning and the wiping of
    memory on drop: the model has runs to completion (that a request's phrase is
    wiped on return is in [Members]).  The timer of the lease-renewal task: the
    renewal it calls is [LedgerOps]'s.  Connecting to the storage bus: a request.
    Test scaffolding ([test_support], [faulty.rs], [tests/]). *)

From stdpp Require Import base list gmap strings numbers.

#[global] Open Scope Z_scope.

(** * Outcomes

    A Rust function that returns [Result] either returns [Ok], returns [Err],
    or panics (a slice out of range, an arithmetic overflow check). *)
Inductive res (E A : Type) : Type :=
  | Ok (a : A)
  | Err (e : E)
  | Panic.
Arguments Ok {E A} a.
Arguments Err {E A} e.
Arguments Panic {E A}.

#[export] Instance res_ret E : MRet (res E) := fun A a => Ok a.
#[export] Instance res_bind E : MBind (res E) := fun A B f m =>
  match m with Ok a => f a | Err e => Err e | Panic => Panic end.
#[export] Instance res_fmap E : FMap (res E) := fun A B f m =>
  match m with Ok a => Ok (f a) | Err e => Err e | Panic => Panic end.

#[export] Instance res_eq_dec E A `{EqDecision E, EqDecision A} : EqDecision (res E A).
Proof. solve_decision. Defined.

(** [Result::map_err]. *)
Definition map_err {E F A} (f : E -> F) (m : res E A) : res F A :=
  match m with Ok a => Ok a | Err e => Err (f e) | Panic => Panic end.

(** [Option::ok_or_else]. *)
Definition ok_or {E A} (o : option A) (e : E) : res E A :=
  match o with Some a => Ok a | None => Err e end.

(** A guard that returns early: [if c { return Err(e) }]. *)
Definition err_if {E} (c : bool) (e : E) : res E unit :=
  if c then Err e else Ok tt.

Definition is_ok {E A} (m : res E A) : bool :=
  match m with Ok _ => true | _ => false end.

Definition is_panic {E A} (m : res E A) : bool :=
  match m with Panic => true | _ => false end.

Lemma bind_ok {E A B} (m : res E A) (f : A -> res E B) b :
  (m ≫= f) = Ok b <-> exists a, m = Ok a /\ f a = Ok b.
Proof.
  destruct m; simpl; split; try discriminate; eauto.
  - intros (a' & [= <-] & H). exact H.
  - intros (? & [=] & _).
  - intros (? & [=] & _).
Qed.

Lemma bind_panic {E A B} (m : res E A) (f : A -> res E B) :
  (m ≫= f) = Panic <-> m = Panic \/ exists a, m = Ok a /\ f a = Panic.
Proof.
  destruct m; simpl; split; eauto; try discriminate.
  - intros [[=] | (a' & [= <-] & H)]. exact H.
  - intros [[=] | (a' & [=] & H)].
Qed.

Lemma bind_no_panic {E A B} (m : res E A) (f : A -> res E B) :
  m <> Panic -> (forall a, f a <> Panic) -> (m ≫= f) <> Panic.
Proof. intros Hm Hf H. apply bind_panic in H as [H | (a & _ & H)]; [auto | exact (Hf a H)]. Qed.

Lemma fmap_ok {E A B} (f : A -> B) (m : res E A) b :
  (f <$> m) = Ok b <-> exists a, m = Ok a /\ f a = b.
Proof.
  destruct m as [a|e|]; simpl; split; intros H; try discriminate.
  - injection H as <-. eauto.
  - destruct H as (? & [= <-] & <-). reflexivity.
  - destruct H as (? & [=] & _).
  - destruct H as (? & [=] & _).
Qed.

Lemma map_err_ok {E F A} (f : E -> F) (m : res E A) a :
  map_err f m = Ok a <-> m = Ok a.
Proof. destruct m; simpl; split; congruence. Qed.

Lemma ok_or_ok {E A} (o : option A) (e : E) a : ok_or o e = Ok a <-> o = Some a.
Proof. destruct o; simpl; split; congruence. Qed.

Lemma err_if_ok {E} c (e : E) u : err_if c e = Ok u <-> c = false.
Proof. destruct c, u; simpl; split; congruence. Qed.

(** [iter.map(f).collect::<Result<Vec<_>, _>>()]: in order, up to the first failure. *)
Fixpoint collect {E A B} (f : A -> res E B) (l : list A) : res E (list B) :=
  match l with
  | [] => Ok []
  | x :: l' => y ← f x; ys ← collect f l'; Ok (y :: ys)
  end.

Lemma collect_ok {E A B} (f : A -> res E B) l ys :
  collect f l = Ok ys <-> Forall2 (fun x y => f x = Ok y) l ys.
Proof.
  revert ys. induction l as [|x l IH]; intros ys; cbn [collect].
  - split; [intros [= <-]; constructor | inversion 1; reflexivity].
  - rewrite bind_ok. split.
    + intros (y & Hy & H). apply bind_ok in H as (ys' & Hys & [= <-]).
      constructor; [exact Hy | apply IH, Hys].
    + inversion 1 as [|? y ? ys' Hy Hys]; subst. exists y. split; [exact Hy|].
      apply IH in Hys. rewrite Hys. reflexivity.
Qed.

(** Open every monadic success in the context. *)
Ltac inv_ok_step :=
  match goal with
  | H : (_ ≫= _) = Ok _ |- _ => apply bind_ok in H; destruct H as (? & ? & H)
  | H : (_ <$> _) = Ok _ |- _ => apply fmap_ok in H; destruct H as (? & ? & H)
  | H : map_err _ _ = Ok _ |- _ => apply map_err_ok in H
  | H : ok_or _ _ = Ok _ |- _ => apply ok_or_ok in H
  | H : err_if _ _ = Ok ?u |- _ => apply err_if_ok in H; try clear u
  | H : mret _ = Ok _ |- _ => injection H as H
  | H : Ok _ = Ok _ |- _ => injection H as H
  | H : Err _ = Ok _ |- _ => discriminate H
  | H : Panic = Ok _ |- _ => discriminate H
  end.
Ltac inv_ok := repeat (inv_ok_step; simpl in *).

(** Turn boolean tests in the context into propositions. *)
Ltac bool_to_prop :=
  repeat match goal with
  | H : _ && _ = true |- _ => apply andb_prop in H; destruct H
  | H : _ || _ = false |- _ => apply orb_false_elim in H; destruct H
  | H : negb _ = true |- _ => apply negb_true_iff in H
  | H : negb _ = false |- _ => apply negb_false_iff in H
  | H : (_ <? _) = true |- _ => apply Z.ltb_lt in H
  | H : (_ <? _) = false |- _ => apply Z.ltb_ge in H
  | H : (_ <=? _) = true |- _ => apply Z.leb_le in H
  | H : (_ <=? _) = false |- _ => apply Z.leb_gt in H
  | H : (_ =? _) = true |- _ => apply Z.eqb_eq in H
  | H : (_ =? _) = false |- _ => apply Z.eqb_neq in H
  | H : bool_decide _ = true |- _ => apply bool_decide_eq_true in H
  | H : bool_decide _ = false |- _ => apply bool_decide_eq_false in H
  end.

(** Linear arithmetic with division and modulo by constants. *)
Ltac divmod := Z.to_euclidean_division_equations; lia.

(** Case on the innermost boolean test of the goal. *)
Ltac case_bool :=
  match goal with
  | |- context [if ?c then _ else _] =>
      lazymatch type of c with bool => destruct c eqn:? end
  end.

(** * Bytes and machine integers *)

Abbreviation str := (list Z).

(** A string literal as its UTF-8 bytes. *)
Definition lit (s : string) : str :=
  (fun a => Z.of_nat (Ascii.nat_of_ascii a)) <$> String.list_ascii_of_string s.

Definition is_u8 (b : Z) : Prop := 0 <= b < 256.
Abbreviation bytes_ok := (Forall is_u8).

(** Decided by computation, for closed byte strings. *)
Lemma bytes_ok_compute l : forallb (fun b => (0 <=? b) && (b <? 256)) l = true -> bytes_ok l.
Proof.
  intros H. apply Forall_forall. intros b Hb. rewrite forallb_forall in H.
  specialize (H b Hb). unfold is_u8. lia.
Qed.
Ltac bytes_closed := apply bytes_ok_compute; vm_compute; reflexivity.
(** A closed integer range. *)
Ltac range_closed := vm_compute; split; congruence.

Definition u16_max : Z := 2 ^ 16 - 1.
Definition u64_max : Z := 2 ^ 64 - 1.
Definition u128_max : Z := 2 ^ 128 - 1.
Definition i64_max : Z := 2 ^ 63 - 1.
Definition i64_min : Z := - 2 ^ 63.
Definition is_u32 (z : Z) : Prop := 0 <= z < 2 ^ 32.
Definition is_u64 (z : Z) : Prop := 0 <= z <= u64_max.
Definition is_u128 (z : Z) : Prop := 0 <= z <= u128_max.

(** Checked and saturating arithmetic of an unsigned type with maximum [m]. *)
Definition checked_add (m a b : Z) : option Z := if a + b <=? m then Some (a + b) else None.
Definition checked_mul (m a b : Z) : option Z := if a * b <=? m then Some (a * b) else None.
Definition sat_add (m a b : Z) : Z := Z.min (a + b) m.
Definition sat_sub (a b : Z) : Z := Z.max (a - b) 0.

Lemma checked_add_some m a b c : checked_add m a b = Some c <-> c = a + b /\ a + b <= m.
Proof.
  unfold checked_add. case_bool; bool_to_prop; split.
  - intros [= <-]. lia.
  - intros [-> _]. reflexivity.
  - discriminate.
  - lia.
Qed.

Lemma checked_mul_some m a b c : checked_mul m a b = Some c <-> c = a * b /\ a * b <= m.
Proof.
  unfold checked_mul. case_bool; bool_to_prop; split.
  - intros [= <-]. lia.
  - intros [-> _]. reflexivity.
  - discriminate.
  - lia.
Qed.

(** ** Big- and little-endian encodings *)

Fixpoint le_bytes (n : nat) (v : Z) : list Z :=
  match n with O => [] | S n' => v mod 256 :: le_bytes n' (v / 256) end.

(** [to_be_bytes] / [to_le_bytes] of an [n]-byte unsigned integer. *)
Definition be_bytes (n : nat) (v : Z) : list Z := rev (le_bytes n v).

Fixpoint le_value (l : list Z) : Z :=
  match l with [] => 0 | b :: l' => b + 256 * le_value l' end.
Definition be_value (l : list Z) : Z := le_value (rev l).

Lemma le_bytes_length n v : length (le_bytes n v) = n.
Proof. revert v. induction n; intros; simpl; auto. Qed.

Lemma le_bytes_ok n v : bytes_ok (le_bytes n v).
Proof.
  revert v. induction n as [|n IH]; intros v; simpl; constructor; auto.
  unfold is_u8. apply Z.mod_pos_bound. lia.
Qed.

Lemma le_value_bound l : bytes_ok l -> 0 <= le_value l < 256 ^ Z.of_nat (length l).
Proof.
  induction 1 as [|b l Hb Hl IH]; [simpl; lia|].
  rewrite length_cons, Nat2Z.inj_succ, Z.pow_succ_r by lia.
  unfold is_u8 in Hb. cbn [le_value]. lia.
Qed.

Lemma le_value_bytes n v : le_value (le_bytes n v) = v mod 256 ^ Z.of_nat n.
Proof.
  revert v. induction n as [|n IH]; intros v.
  - simpl. rewrite Z.mod_1_r. reflexivity.
  - rewrite Nat2Z.inj_succ, Z.pow_succ_r by lia. cbn [le_bytes le_value]. rewrite IH.
    rewrite Z.rem_mul_r by lia. lia.
Qed.

Lemma le_bytes_value l : bytes_ok l -> le_bytes (length l) (le_value l) = l.
Proof.
  induction 1 as [|b l Hb Hl IH]; [reflexivity|].
  unfold is_u8 in Hb. cbn [length le_bytes le_value]. f_equal.
  - Z.to_euclidean_division_equations; lia.
  - replace ((b + 256 * le_value l) / 256) with (le_value l)
      by (Z.to_euclidean_division_equations; lia). exact IH.
Qed.

Lemma be_bytes_length n v : length (be_bytes n v) = n.
Proof. unfold be_bytes. rewrite length_rev. apply le_bytes_length. Qed.

Lemma be_bytes_ok n v : bytes_ok (be_bytes n v).
Proof. unfold be_bytes. apply Forall_rev, le_bytes_ok. Qed.

Lemma be_value_bytes n v : 0 <= v < 256 ^ Z.of_nat n -> be_value (be_bytes n v) = v.
Proof.
  intros H. unfold be_value, be_bytes. rewrite rev_involutive, le_value_bytes.
  apply Z.mod_small. exact H.
Qed.

Lemma be_bytes_value l : bytes_ok l -> be_bytes (length l) (be_value l) = l.
Proof.
  intros H. unfold be_bytes, be_value. rewrite <- (length_rev l).
  rewrite le_bytes_value by (apply Forall_rev; exact H). apply rev_involutive.
Qed.

Lemma be_value_bound l : bytes_ok l -> 0 <= be_value l < 256 ^ Z.of_nat (length l).
Proof.
  intros H. unfold be_value. rewrite <- (length_rev l). apply le_value_bound.
  apply Forall_rev. exact H.
Qed.

Lemma le_value_app l k :
  le_value (l ++ k) = le_value l + 256 ^ Z.of_nat (length l) * le_value k.
Proof.
  induction l as [|b l IH]; [cbn [app le_value length]; change (Z.of_nat 0) with 0; lia|].
  rewrite <- app_comm_cons, length_cons, Nat2Z.inj_succ, Z.pow_succ_r by lia.
  cbn [le_value]. rewrite IH. ring.
Qed.

Lemma be_value_snoc l b : be_value (l ++ [b]) = 256 * be_value l + b.
Proof. unfold be_value. rewrite rev_app_distr. cbn. lia. Qed.

Lemma be_value_cons b l : be_value (b :: l) = b * 256 ^ Z.of_nat (length l) + be_value l.
Proof.
  unfold be_value. cbn [rev]. rewrite le_value_app, length_rev. cbn [le_value]. lia.
Qed.

Lemma be_value_zeros n l : be_value (replicate n 0 ++ l) = be_value l.
Proof. induction n as [|n IH]; [reflexivity|]. cbn [replicate app]. rewrite be_value_cons, IH. lia. Qed.

(** A value that fits [m] bytes is zero-padded to [n + m]. *)
Lemma be_bytes_pad n m v :
  0 <= v < 256 ^ Z.of_nat m -> be_bytes (n + m) v = replicate n 0 ++ be_bytes m v.
Proof.
  intros Hv. rewrite <- (be_bytes_value (replicate n 0 ++ be_bytes m v)).
  - rewrite length_app, length_replicate, be_bytes_length, be_value_zeros, be_value_bytes by exact Hv.
    reflexivity.
  - apply Forall_app. split; [|apply be_bytes_ok].
    apply Forall_forall. intros x Hx. apply list_elem_of_In, elem_of_replicate in Hx as [-> _].
    unfold is_u8. lia.
Qed.

Lemma u128_be v : is_u128 v -> 0 <= v < 256 ^ Z.of_nat 16.
Proof. unfold is_u128, u128_max. simpl. lia. Qed.

Lemma u64_be v : is_u64 v -> 0 <= v < 256 ^ Z.of_nat 8.
Proof. unfold is_u64, u64_max. simpl. lia. Qed.

Create HintDb bytes.
Create Rewrite HintDb bytes.
#[export] Hint Resolve le_bytes_ok be_bytes_ok : bytes.
#[export] Hint Rewrite be_bytes_length le_bytes_length : bytes.

(** ** Iterators *)

(** [Iterator::position]. *)
Fixpoint position {A} (p : A -> bool) (l : list A) : option nat :=
  match l with
  | [] => None
  | x :: l' => if p x then Some O else S <$> position p l'
  end.

(** [Iterator::find]. *)
Fixpoint find_first {A} (p : A -> bool) (l : list A) : option A :=
  match l with [] => None | x :: l' => if p x then Some x else find_first p l' end.

(** [slice[..position(|b| b != 0).unwrap_or(len)..]]: what is left of a
    big-endian integer once the leading zero bytes are skipped. *)
Definition skip_leading_zeros (l : list Z) : list Z :=
  drop (default (length l) (position (fun b => negb (b =? 0)) l)) l.

Lemma skip_leading_zeros_nil : skip_leading_zeros [] = [].
Proof. reflexivity. Qed.

Lemma skip_leading_zeros_cons b l :
  skip_leading_zeros (b :: l) = if b =? 0 then skip_leading_zeros l else b :: l.
Proof.
  unfold skip_leading_zeros. cbn [position length].
  destruct (b =? 0); cbn [negb]; [|reflexivity].
  destruct (position _ l); reflexivity.
Qed.

Lemma be_value_skip_leading_zeros l : be_value (skip_leading_zeros l) = be_value l.
Proof.
  induction l as [|b l IH]; [reflexivity|].
  rewrite skip_leading_zeros_cons. destruct (b =? 0) eqn:E; [|reflexivity].
  bool_to_prop. subst. rewrite IH, be_value_cons. lia.
Qed.

Lemma skip_leading_zeros_ok l : bytes_ok l -> bytes_ok (skip_leading_zeros l).
Proof. intros H. unfold skip_leading_zeros. apply Forall_drop. exact H. Qed.

Lemma skip_leading_zeros_length l : (length (skip_leading_zeros l) <= length l)%nat.
Proof. unfold skip_leading_zeros. rewrite length_drop. lia. Qed.

(** The result starts with a non-zero byte or is empty. *)
Definition no_leading_zero (l : list Z) : Prop :=
  match l with [] => True | b :: _ => b <> 0 end.

Lemma skip_leading_zeros_canonical l : no_leading_zero (skip_leading_zeros l).
Proof.
  induction l as [|b l IH]; [exact I|].
  rewrite skip_leading_zeros_cons. destruct (b =? 0) eqn:E; [exact IH|].
  bool_to_prop. exact E.
Qed.

(** Big-endian byte strings without leading zeros are determined by their value. *)
Lemma be_value_inj_canonical l k :
  bytes_ok l -> bytes_ok k -> no_leading_zero l -> no_leading_zero k ->
  be_value l = be_value k -> l = k.
Proof.
  assert (Hlow : forall b m, bytes_ok (b :: m) -> b <> 0 ->
            256 ^ Z.of_nat (length m) <= be_value (b :: m)).
  { intros b m Hm Hb. inversion Hm as [|? ? H1 H2]; subst. unfold is_u8 in H1.
    rewrite be_value_cons. pose proof (be_value_bound m H2). nia. }
  assert (Hlen : forall m n, bytes_ok m -> bytes_ok n -> no_leading_zero m ->
            be_value m = be_value n -> (length m <= length n)%nat).
  { intros m n Hm Hn Hz He. destruct m as [|b m]; [simpl; lia|].
    pose proof (Hlow b m Hm Hz) as Hl. pose proof (be_value_bound n Hn) as Hb.
    destruct (le_lt_dec (length (b :: m)) (length n)) as [|Hlt]; [assumption|exfalso].
    cbn [length] in Hlt.
    assert (256 ^ Z.of_nat (length n) <= 256 ^ Z.of_nat (length m))
      by (apply Z.pow_le_mono_r; lia). lia. }
  intros Hl Hk Hzl Hzk He.
  assert (length l = length k)
    by (apply Nat.le_antisymm; eapply Hlen; eauto).
  rewrite <- (be_bytes_value l Hl), <- (be_bytes_value k Hk). congruence.
Qed.

(** The sum of a numeric field over a list. *)
Fixpoint sum_of {A} (key : A -> Z) (l : list A) : Z :=
  match l with [] => 0 | x :: l' => key x + sum_of key l' end.

Lemma sum_of_app {A} (key : A -> Z) l k : sum_of key (l ++ k) = sum_of key l + sum_of key k.
Proof. induction l as [|x l IH]; cbn; [reflexivity | rewrite IH; lia]. Qed.

Lemma sum_of_perm {A} (key : A -> Z) l k : l ≡ₚ k -> sum_of key l = sum_of key k.
Proof. induction 1; cbn; lia. Qed.

Lemma sum_of_nonneg {A} (key : A -> Z) l : Forall (fun x => 0 <= key x) l -> 0 <= sum_of key l.
Proof. induction 1; cbn; lia. Qed.

Lemma sum_of_fmap {A B} (key : B -> Z) (f : A -> B) l : sum_of key (f <$> l) = sum_of (key ∘ f) l.
Proof. induction l as [|x l IH]; cbn; [reflexivity | rewrite IH; reflexivity]. Qed.

(** ** Bit operations *)

(** A boolean property of bytes can be checked by computing it on all of them. *)
Lemma u8_forall (p : Z -> bool) :
  forallb p (Z.of_nat <$> seq 0 256) = true -> forall b, is_u8 b -> p b = true.
Proof.
  intros H b Hb. unfold is_u8 in Hb. rewrite forallb_forall in H. apply H.
  apply list_elem_of_In, list_elem_of_fmap. exists (Z.to_nat b).
  rewrite elem_of_seq. lia.
Qed.

Lemma land_127 v : Z.land v 127 = v mod 128.
Proof. change 127 with (Z.ones 7). apply Z.land_ones. lia. Qed.

Lemma shiftr_7 v : Z.shiftr v 7 = v / 128.
Proof. rewrite Z.shiftr_div_pow2 by lia. reflexivity. Qed.

Lemma land_128_zero b : is_u8 b -> (Z.land b 128 =? 0) = (b <? 128).
Proof.
  intros Hb. apply eqb_prop. revert b Hb. apply u8_forall. vm_compute. reflexivity.
Qed.

Lemma lor_shiftl_add a b k :
  0 <= k -> 0 <= a < 2 ^ k -> Z.lor a (Z.shiftl b k) = a + b * 2 ^ k.
Proof.
  intros Hk Ha. rewrite <- Z.add_nocarry_lor.
  - rewrite Z.shiftl_mul_pow2 by lia. reflexivity.
  - apply Z.bits_inj'. intros n Hn. rewrite Z.land_spec, Z.bits_0.
    destruct (Z.lt_ge_cases n k) as [Hlt | Hge].
    + rewrite Z.shiftl_spec_low by lia. apply andb_false_r.
    + apply andb_false_intro1.
      apply (proj1 (Z.bounded_iff_bits_nonneg k a Hk (proj1 Ha)) (proj2 Ha)). exact Hge.
Qed.

Lemma lor_128_add b : 0 <= b < 128 -> Z.lor b 128 = b + 128.
Proof. intros H. change 128 with (Z.shiftl 1 7) at 1. rewrite lor_shiftl_add; lia. Qed.
