(* ===== verification/Program.v ===== *)
(** Programs that ask their surroundings one request at a time and continue with
    whatever is answered, and how to reason about all their runs.

    A component's outside (host, nodes, wallet, ledger, HTTP) is a type of
    requests with the type of each answer; an operation of the component is a
    [program] over it.  Nothing is assumed of the answers.  [wp] says what every
    run satisfies of the requests made and answers given; [exec] runs a program
    against a host that may answer by all it has seen.  Of the requests some are
    [loud]: they have an effect outside (a signature, a broadcast, a payment, a
    change of a store).  A program is [quietly] such-and-such when no run makes
    a loud request. *)

From stdpp Require Import base list.
From S2P Require Import Prelude.

Inductive program {Q : Type} (ans : Q -> Type) (E A : Type) : Type :=
  | Done (r : res E A)
  | Ask (q : Q) (k : ans q -> program ans E A).
Arguments Done {Q ans E A} r.
Arguments Ask {Q ans E A} q k.

Record event_of {Q : Type} (ans : Q -> Type) := Event { ev_request : Q; ev_answer : ans ev_request }.
Arguments Event {Q ans} ev_request ev_answer.
Arguments ev_request {Q ans} e.
Arguments ev_answer {Q ans} e.

(** A host that answers by the events so far. *)
Definition host_of {Q} (ans : Q -> Type) : Type := list (event_of ans) -> forall q, ans q.

Section Program.
Context {Q : Type} {ans : Q -> Type}.

(** [?] after an await: an error ends the program. *)
Fixpoint io_then {E A B} (p : program ans E A) (f : A -> program ans E B) : program ans E B :=
  match p with
  | Done (Ok a) => f a
  | Done (Err e) => Done (Err e)
  | Done Panic => Done Panic
  | Ask q k => Ask q (fun r => io_then (k r) f)
  end.
#[export] Instance io_ret {E} : MRet (program ans E) := fun A a => Done (Ok a).
#[export] Instance io_bind {E} : MBind (program ans E) := fun A B f p => io_then p f.

(** A result inspected instead of propagated. *)
Fixpoint attempt {E A} (p : program ans E A) : program ans E (res E A) :=
  match p with
  | Done Panic => Done Panic
  | Done r => Done (Ok r)
  | Ask q k => Ask q (fun r => attempt (k r))
  end.

(** [.await.map_err(f)]. *)
Fixpoint with_err {E F A} (f : E -> F) (p : program ans E A) : program ans F A :=
  match p with
  | Done r => Done (map_err f r)
  | Ask q k => Ask q (fun r => with_err f (k r))
  end.

(** A pure [Result] inside a program. *)
Definition lift {E A} (r : res E A) : program ans E A := Done r.

#[local] Abbreviation event := (event_of ans).

(** Every run from [past] ends in a state of which [R] holds. *)
Fixpoint wp {E A} (p : program ans E A) (past : list event) (R : list event -> res E A -> Prop) : Prop :=
  match p with
  | Done r => R past r
  | Ask q k => forall r, wp (k r) (past ++ [Event q r]) R
  end.

Fixpoint exec {E A} (h : host_of ans) (past : list event) (p : program ans E A) : list event * res E A :=
  match p with
  | Done r => (past, r)
  | Ask q k => let r := h past q in exec h (past ++ [Event q r]) (k r)
  end.

Lemma wp_exec {E A} (p : program ans E A) h past R : wp p past R -> R (exec h past p).1 (exec h past p).2.
Proof. revert past. induction p as [r|q k IH]; intros past H; cbn; [exact H | apply IH, H]. Qed.

(** Whatever a run was told, the host said. *)
Lemma exec_answered {E A} (h : host_of ans) (p : program ans E A) past e :
  e ∈ (exec h past p).1 -> e ∈ past \/ exists before, ev_answer e = h before (ev_request e).
Proof.
  revert past. induction p as [r|q k IH]; intros past; cbn; [auto|]. intros Hin.
  destruct (IH _ _ Hin) as [[Hp|He]%elem_of_app|Hg]; [auto | apply list_elem_of_singleton in He as ->; cbn; eauto | auto].
Qed.

Lemma wp_mono {E A} (p : program ans E A) past R R' :
  wp p past R -> (forall tr r, R tr r -> R' tr r) -> wp p past R'.
Proof. intros H HQR. revert past H. induction p as [r|q k IH]; cbn; intros past H; [auto | intros r; apply IH, H]. Qed.

Lemma wp_bind {E A B} (p : program ans E A) (f : A -> program ans E B) past R :
  wp (p ≫= f) past R <->
  wp p past (fun tr r => match r with Ok a => wp (f a) tr R | Err e => R tr (Err e) | Panic => R tr Panic end).
Proof.
  revert past. induction p as [[a|e|]|q k IH]; intros past; try reflexivity.
  split; intros H r; apply IH, H.
Qed.

Lemma wp_attempt {E A} (p : program ans E A) past R :
  wp (attempt p) past R <-> wp p past (fun tr r => R tr (match r with Panic => Panic | r => Ok r end)).
Proof.
  revert past. induction p as [[a|e|]|q k IH]; intros past; try reflexivity.
  split; intros H r; apply IH, H.
Qed.

Lemma wp_with_err {E F A} (f : E -> F) (p : program ans E A) past R :
  wp (with_err f p) past R <-> wp p past (fun tr r => R tr (map_err f r)).
Proof.
  revert past. induction p as [r|q k IH]; intros past; [reflexivity|].
  split; intros H r; apply IH, H.
Qed.

Lemma exec_attempt {E A} h past (p : program ans E A) :
  (exec h past (attempt p)).2 = match (exec h past p).2 with Panic => Panic | r => Ok r end.
Proof. revert past. induction p as [[a|e|]|q k IH]; intros past; [reflexivity..|]. cbn. apply IH. Qed.

Lemma exec_bind_ret {E A B} h past (p : program ans E A) (f : A -> B) :
  (exec h past (x ← p; mret (f x))).2 = match (exec h past p).2 with Ok a => Ok (f a) | Err e => Err e | Panic => Panic end.
Proof. revert past. induction p as [[a|e|]|q k IH]; intros past; [reflexivity..|]. cbn. apply IH. Qed.

(** A program run to its result, and the result used. *)
Lemma exec_attempt_lift {E A B} h past (p : program ans E A) (f : res E A -> res E B) :
  exec h past (r ← attempt p; lift (f r)) =
  ((exec h past p).1, match (exec h past p).2 with Panic => Panic | r => f r end).
Proof. revert past. induction p as [[a|e|]|q k IH]; intros past; [reflexivity..|]. cbn. apply IH. Qed.

(** * Effects *)

Section Loud.
Context {loud : Q -> bool}.

Definition is_loud (e : event) : bool := loud (ev_request e).
Definition effects_of (tr : list event) : list event := List.filter is_loud tr.

Lemma effects_app a b : effects_of (a ++ b) = effects_of a ++ effects_of b.
Proof. apply List.filter_app. Qed.

Lemma effects_quiet tr e : is_loud e = false -> effects_of (tr ++ [e]) = effects_of tr.
Proof. intros H. rewrite effects_app. cbn. rewrite H. apply app_nil_r. Qed.

Lemma effects_loud tr e : is_loud e = true -> effects_of (tr ++ [e]) = effects_of tr ++ [e].
Proof. intros H. rewrite effects_app. cbn. rewrite H. reflexivity. Qed.

(** Every run makes no effect, only extends the past, does not panic, and its
    value satisfies [Post]. *)
Definition quietly_of {E A} (p : program ans E A) (Post : list event -> A -> Prop) : Prop :=
  forall past, wp p past (fun tr r => past `prefix_of` tr /\ effects_of tr = effects_of past /\
    match r with Ok a => Post tr a | Err _ => True | Panic => False end).

Lemma quietly_mono {E A} (p : program ans E A) (P R : list event -> A -> Prop) :
  quietly_of p P -> (forall tr a, P tr a -> R tr a) -> quietly_of p R.
Proof.
  intros H HPR past. eapply wp_mono; [apply H|]. intros tr [a|e|] (Hp & He & Hr); auto.
Qed.

Lemma quietly_bind {E A B} (p : program ans E A) (f : A -> program ans E B) P R :
  quietly_of p P -> (forall a tr0, P tr0 a -> quietly_of (f a) (fun tr b => tr0 `prefix_of` tr -> R tr b)) ->
  quietly_of (p ≫= f) R.
Proof.
  intros Hp Hf past. apply wp_bind. eapply wp_mono; [apply Hp|].
  intros tr [a|e|] (Hpre & He & Hr); [|split_and!; auto..].
  eapply wp_mono; [apply (Hf a tr Hr)|]. intros tr' r (Hpre' & He' & Hr').
  split_and!; [etransitivity; eassumption | congruence|]. destruct r; auto.
Qed.

Lemma quietly_lift {E A} (r : res E A) : r <> Panic -> quietly_of (lift r) (fun _ a => r = Ok a).
Proof. intros H past. destruct r; cbn; split_and!; auto. Qed.

Lemma quietly_ret {E A} (a : A) : quietly_of (mret a : program ans E A) (fun _ x => x = a).
Proof. intros past. cbn. split_and!; auto. Qed.

Lemma quietly_err {E A} (e : E) (P : list event -> A -> Prop) : quietly_of (Done (Err e)) P.
Proof. intros past. cbn. split_and!; auto. Qed.

Lemma quietly_with_err {E F A} (f : E -> F) (p : program ans E A) P : quietly_of p P -> quietly_of (with_err f p) P.
Proof.
  intros Hp past. apply wp_with_err. eapply wp_mono; [apply Hp|]. intros tr [a|e|] (H1 & H2 & H3); auto.
Qed.

Lemma prefix_snoc {A} (l : list A) x : l `prefix_of` l ++ [x].
Proof. exists [x]. reflexivity. Qed.

(** One request without effect, answered [r]. *)
Lemma quietly_ask {E A} q (k : ans q -> program ans E A) R :
  loud q = false ->
  (forall r, quietly_of (k r) (fun tr a => Event q r ∈ tr -> R tr a)) -> quietly_of (Ask q k) R.
Proof.
  intros Hq Hk past r. eapply wp_mono; [apply Hk|]. intros tr res (Hp & He & Hr).
  split_and!.
  - etransitivity; [apply prefix_snoc | exact Hp].
  - rewrite He. apply effects_quiet, Hq.
  - destruct res; auto. apply Hr. eapply elem_of_prefix; [|exact Hp]. apply elem_of_app. right. left.
Qed.

(** After a quiet step: its value, or the error at once. *)
Lemma wp_quietly {E A B} (p : program ans E A) (f : A -> program ans E B) Post past R :
  quietly_of p Post ->
  (forall tr e, past `prefix_of` tr -> effects_of tr = effects_of past -> R tr (Err e)) ->
  (forall tr a, past `prefix_of` tr -> effects_of tr = effects_of past -> Post tr a -> wp (f a) tr R) ->
  wp (p ≫= f) past R.
Proof.
  intros Hp He Hok. apply wp_bind. eapply wp_mono; [apply Hp|].
  intros tr [a|e|] (H1 & H2 & H3); [apply Hok | apply He | contradiction]; auto.
Qed.

(** * Programs that answer *)

(** Quiet programs without an error either. *)
Definition answers_of {E A} (p : program ans E A) (Post : list event -> A -> Prop) : Prop :=
  forall past, wp p past (fun tr r => past `prefix_of` tr /\ effects_of tr = effects_of past /\ exists a, r = Ok a /\ Post tr a).

Lemma answers_ret {E A} (a : A) : answers_of (mret a : program ans E A) (fun _ x => x = a).
Proof. intros past. cbn. split_and!; eauto. Qed.

Lemma answers_mono {E A} (p : program ans E A) (P R : list event -> A -> Prop) :
  answers_of p P -> (forall tr a, P tr a -> R tr a) -> answers_of p R.
Proof. intros Hp HPR past. eapply wp_mono; [apply Hp|]. intros tr r (H1' & H2' & a & -> & Ha). eauto 7. Qed.

Lemma answers_bind {E A B} (p : program ans E A) (f : A -> program ans E B) P R :
  answers_of p P -> (forall a tr0, P tr0 a -> answers_of (f a) (fun tr b => tr0 `prefix_of` tr -> R tr b)) ->
  answers_of (p ≫= f) R.
Proof.
  intros Hp Hf past. apply wp_bind. eapply wp_mono; [apply Hp|]. intros tr r (Hpre & He & a & -> & Ha).
  eapply wp_mono; [apply (Hf a tr Ha)|]. intros tr' r' (Hpre' & He' & b & -> & Hb).
  split_and!; [etransitivity; eassumption | congruence | eauto].
Qed.

(** Inspecting a quiet program's result always answers. *)
Lemma answers_attempt {E A} (p : program ans E A) P :
  quietly_of p P -> answers_of (attempt p) (fun tr r => match r with Ok a => P tr a | Err _ => True | Panic => False end).
Proof.
  intros Hp past. apply wp_attempt. eapply wp_mono; [apply Hp|]. intros tr [a|e|] (Hpre & He & Hr); [eauto 6..|destruct Hr].
Qed.
End Loud.
End Program.

Arguments is_loud {Q ans} loud e.
Arguments effects_of {Q ans} loud tr.
Arguments quietly_of {Q ans} loud {E A} p Post.
Arguments answers_of {Q ans} loud {E A} p Post.

(** * Runs *)

(** [p] can make the requests of [evs], be answered as they say, and end so. *)
Fixpoint runs {Q} {ans : Q -> Type} {E A} (p : program ans E A) (evs : list (event_of ans)) (r : res E A) : Prop :=
  match p with
  | Done r' => evs = [] /\ r = r'
  | Ask q k => exists a evs', evs = Event q a :: evs' /\ runs (k a) evs' r
  end.

Section Runs.
Context {Q : Type} {ans : Q -> Type}.

Lemma runs_wp {E A} (p : program ans E A) past evs r R : wp p past R -> runs p evs r -> R (past ++ evs) r.
Proof.
  revert past evs. induction p as [r'|q k IH]; intros past evs Hw; cbn.
  - intros [-> ->]. rewrite app_nil_r. exact Hw.
  - intros (a & evs' & -> & Hr). specialize (IH a _ _ (Hw a) Hr). rewrite <- app_assoc in IH. exact IH.
Qed.

Lemma wp_runs {E A} (p : program ans E A) past R : (forall evs r, runs p evs r -> R (past ++ evs) r) -> wp p past R.
Proof.
  revert past. induction p as [r'|q k IH]; intros past H; cbn.
  - specialize (H [] r'). rewrite app_nil_r in H. apply H. split; reflexivity.
  - intros a. apply IH. intros evs r Hr. rewrite <- app_assoc. apply H. cbn. eauto.
Qed.

Lemma exec_runs {E A} (p : program ans E A) h past :
  exists evs, (exec h past p).1 = past ++ evs /\ runs p evs (exec h past p).2.
Proof. apply (wp_exec p h past (fun tr r => exists evs, tr = past ++ evs /\ runs p evs r)), wp_runs. eauto. Qed.

(** How a sequence ran: the first part stopped it, or both did. *)
Lemma runs_bind {E A B} (p : program ans E A) (f : A -> program ans E B) evs r :
  runs (p ≫= f) evs r ->
  (exists a evs1 evs2, evs = evs1 ++ evs2 /\ runs p evs1 (Ok a) /\ runs (f a) evs2 r) \/
  (exists e, runs p evs (Err e) /\ r = Err e) \/ (runs p evs Panic /\ r = Panic).
Proof.
  revert evs. induction p as [[a|e|]|q k IH]; intros evs; cbn.
  - intros Hr. left. exists a, [], evs. auto.
  - intros [-> ->]. right. left. exists e. auto.
  - intros [-> ->]. right. right. auto.
  - intros (a & evs' & -> & Hr). destruct (IH a evs' Hr) as [(b & e1 & e2 & -> & H1 & H2) | [(e & He & ->) | [Hp ->]]].
    + left. exists b, (Event q a :: e1), e2. split; [reflexivity|]. eauto.
    + right. left. eauto 6.
    + right. right. eauto 6.
Qed.

(** A sequence whose first part was answered. *)
Lemma runs_lift {E A B} (x : res E A) (f : A -> program ans E B) evs r :
  runs (lift x ≫= f) evs r ->
  (exists a, x = Ok a /\ runs (f a) evs r) \/ (exists e, x = Err e /\ evs = [] /\ r = Err e) \/ (x = Panic /\ evs = [] /\ r = Panic).
Proof. destruct x as [a|e|]; cbn; intros Hr; [left; eauto | right; left; destruct Hr; eauto | right; right; destruct Hr; eauto]. Qed.

Lemma runs_with_err {E F A} (f : E -> F) (p : program ans E A) evs r :
  runs (with_err f p) evs r -> exists r', runs p evs r' /\ r = map_err f r'.
Proof.
  revert evs. induction p as [r'|q k IH]; intros evs; cbn.
  - intros [-> ->]. eauto.
  - intros (a & evs' & -> & Hr). destruct (IH a evs' Hr) as (r' & Hr' & ->). eauto 6.
Qed.
End Runs.

(** A host that answers alike whatever came before is quoted right. *)
Lemma exec_answers {Q} {ans : Q -> Type} {E A} (g : forall q, ans q) (p : program ans E A) past e :
  e ∈ (exec (fun _ => g) past p).1 -> e ∈ past \/ ev_answer e = g (ev_request e).
Proof. intros [Hp|[_ Hg]]%exec_answered; auto. Qed.

(** * Interpretation *)

(** A program run by one that answers its requests, keeping a state: each request
    of the inner program is served by a program of the outer requests. *)
Section Interp.
Context {Q Q' S : Type} {ans : Q -> Type} {ans' : Q' -> Type}.

Definition handler (E : Type) : Type := S -> forall q, program ans' E (S * ans q).

Fixpoint interp {E F A} (h : handler F) (s : S) (p : program ans E A) : program ans' F (S * res E A) :=
  match p with
  | Done r => mret (s, r)
  | Ask q k => x ← h s q; interp h x.1 (k x.2)
  end.

(** The outer events serve the inner ones, one request after the other. *)
Fixpoint serves {F} (h : handler F) (s : S) (inner : list (event_of ans)) (outer : list (event_of ans')) (s' : S) : Prop :=
  match inner with
  | [] => outer = [] /\ s' = s
  | Event q a :: rest => exists s1 now later, outer = now ++ later /\ runs (h s q) now (Ok (s1, a)) /\ serves h s1 rest later s'
  end.

(** Every program has a run, when its requests can be answered. *)
Lemma some_run {E A} (p : program ans E A) : (forall q, Inhabited (ans q)) -> exists evs r, runs p evs r.
Proof.
  intros Ha. induction p as [r|q k IH]; [exists [], r; split; reflexivity|].
  destruct (IH inhabitant) as (evs & r & Hr). exists (Event q inhabitant :: evs), r. cbn. eauto.
Qed.

(** A run of the interpretation serves a run of the program: the whole of it, or
    as much of it as came before a request whose handler failed. *)
Lemma interp_runs {E F A} (h : handler F) (p : program ans E A) s outer x :
  (forall q, Inhabited (ans q)) -> runs (interp h s p) outer x ->
  exists inner rest r s' served last,
    runs p (inner ++ rest) r /\ serves h s inner served s' /\ outer = served ++ last /\
    ((rest = [] /\ last = [] /\ x = Ok (s', r)) \/
     (is_ok x = false /\ exists q y, runs (h s' q) last y /\ is_ok y = false)).
Proof.
  intros Ha. revert s outer. induction p as [r|q k IH]; intros s outer; cbn.
  - intros [-> ->]. exists [], [], r, s, [], []. cbn. split_and!; auto.
  - intros Hr.
    assert (Hstop : forall y, runs (h s q) outer y -> is_ok y = false -> is_ok x = false ->
      exists inner rest r s' served last,
        (exists a evs', inner ++ rest = Event q a :: evs' /\ runs (k a) evs' r) /\ serves h s inner served s' /\
        outer = served ++ last /\
        ((rest = [] /\ last = [] /\ x = Ok (s', r)) \/
         (is_ok x = false /\ exists q0 y0, runs (h s' q0) last y0 /\ is_ok y0 = false))).
    { intros y Hy Hno Hx. destruct (some_run (k inhabitant) Ha) as (evs & r & Hk).
      exists [], (Event q inhabitant :: evs), r, s, [], outer. cbn. split_and!; eauto 8. }
    apply runs_bind in Hr as [([s1 a] & now & later & -> & H1 & H2) | [(e & He & ->) | [Hp ->]]].
    + cbn [fst snd] in H2. destruct (IH a s1 later H2) as (inner & rest & r & s' & served & last & Hi & Hs & -> & Hend).
      exists (Event q a :: inner), rest, r, s', (now ++ served), last. rewrite <- app_assoc. cbn. split_and!; eauto 8.
    + eapply Hstop; [exact He | reflexivity..].
    + eapply Hstop; [exact Hp | reflexivity..].
Qed.

(** When no handler fails, neither does the interpretation. *)
Lemma interp_total {E F A} (h : handler F) (p : program ans E A) s outer r :
  (forall s q evs x, runs (h s q) evs x -> is_ok x = true) -> runs (interp h s p) outer r -> exists y, r = Ok y.
Proof.
  intros Hh. revert s outer. induction p as [r'|q k IH]; intros s outer; cbn; [intros [_ ->]; eauto|].
  intros Hr. apply runs_bind in Hr as [(x & now & later & _ & _ & H2) | [(e & He & _) | [Hp _]]].
  - eapply IH, H2.
  - apply Hh in He. discriminate.
  - apply Hh in Hp. discriminate.
Qed.

Lemma serves_app {F} (h : handler F) inner1 inner2 s outer s' :
  serves h s (inner1 ++ inner2) outer s' <->
  exists s1 outer1 outer2, outer = outer1 ++ outer2 /\ serves h s inner1 outer1 s1 /\ serves h s1 inner2 outer2 s'.
Proof.
  revert s outer. induction inner1 as [|[q a] inner1 IH]; intros s outer; cbn.
  - split; [intros H; exists s, [], outer; auto | intros (s1 & o1 & o2 & -> & [-> ->] & H); exact H].
  - split.
    + intros (s1 & now & later & -> & Hr & H). apply IH in H as (s2 & o1 & o2 & -> & H1 & H2).
      exists s2, (now ++ o1), o2. rewrite <- app_assoc. eauto 8.
    + intros (s2 & o1 & o2 & -> & (s1 & now & later & -> & Hr & H1) & H2).
      exists s1, now, (later ++ o2). rewrite <- app_assoc. split; [reflexivity|]. split; [exact Hr|]. apply IH. eauto 8.
Qed.

(** One inner event, and what served it. *)
Lemma serves_event {F} (h : handler F) inner outer s s' q a :
  serves h s inner outer s' -> Event q a ∈ inner ->
  exists s1 s2 before now after, outer = before ++ now ++ after /\ runs (h s1 q) now (Ok (s2, a)).
Proof.
  intros H Hin. apply list_elem_of_split in Hin as (l1 & l2 & ->).
  apply serves_app in H as (s1 & o1 & o2 & -> & _ & (s2 & now & later & -> & Hr & _)). eauto 8.
Qed.
(** Every outer event serves some inner one. *)
Lemma serves_outer {F} (h : handler F) inner outer s s' e :
  serves h s inner outer s' -> e ∈ outer ->
  exists q a s1 s2 now, Event q a ∈ inner /\ runs (h s1 q) now (Ok (s2, a)) /\ e ∈ now.
Proof.
  revert s outer. induction inner as [|[q a] inner IH]; intros s outer; cbn.
  - intros [-> _] Hin. inversion Hin.
  - intros (s1 & now & later & -> & Hr & Hs) [Hin|Hin]%elem_of_app.
    + exists q, a, s, s1, now. split; [left | auto].
    + destruct (IH _ _ Hs Hin) as (q' & a' & s2 & s3 & now' & Hq & Hr' & He).
      exists q', a', s2, s3, now'. split; [right; exact Hq | auto].
Qed.
(** An outer event, where each handler makes at most one: what came before it
    serves what came before the inner event it serves. *)
Lemma serves_split {F} (h : handler F) inner before e after s s' :
  (forall s q now x, runs (h s q) now x -> (length now <= 1)%nat) ->
  serves h s inner (before ++ e :: after) s' ->
  exists l1 q a l2 s1 s2, inner = l1 ++ Event q a :: l2 /\ serves h s l1 before s1 /\ runs (h s1 q) [e] (Ok (s2, a)) /\
    serves h s2 l2 after s'.
Proof.
  intros Hone. revert s before. induction inner as [|[q a] inner IH]; intros s before; cbn.
  - intros [He _]. destruct before; discriminate.
  - intros (s1 & now & later & He & Hr & Hs). pose proof (Hone _ _ _ _ Hr) as Hl.
    destruct now as [|e' [|? ?]]; cbn in *; [| |lia].
    + rewrite <- He in Hs. destruct (IH _ _ Hs) as (l1 & q' & a' & l2 & s2 & s3 & -> & H1 & H2).
      exists (Event q a :: l1), q', a', l2, s2, s3. split; [reflexivity|]. split; [|exact H2]. cbn. exists s1, [], before. auto.
    + destruct before as [|e0 before]; injection He as <- He.
      * subst later. exists [], q, a, inner, s, s1. cbn. auto.
      * rewrite <- He in Hs. destruct (IH _ _ Hs) as (l1 & q' & a' & l2 & s2 & s3 & -> & H1 & H2).
        exists (Event q a :: l1), q', a', l2, s2, s3. split; [reflexivity|]. split; [|exact H2]. cbn. exists s1, [e0], before. auto.
Qed.
End Interp.

(** Where an element after a prefix without it lies. *)
Lemma split_after {A} (pre run before after : list A) e :
  pre ++ run = before ++ e :: after -> e ∉ pre -> exists before', before = pre ++ before' /\ run = before' ++ e :: after.
Proof.
  intros Heq Hn. apply app_eq_inv in Heq as [(k & -> & Hk) | (k & -> & Hk)]; [|eauto].
  destruct k as [|x k]; [exists []; rewrite !app_nil_r in *; auto|]. injection Hk as <- _.
  destruct Hn. apply elem_of_app. right. left.
Qed.
