(* ===== verification/Text.v ===== *)
(** Rust's string functions, as the sources use them.

    A [&str] is its UTF-8 bytes.  This file holds the parts of the language's
    standard library the components call: slicing on character boundaries,
    [trim], ASCII case, prefix tests, integer parsing and printing, and the
    hex digits.  Nothing here models code of the repository. *)

From stdpp Require Import base list sets strings numbers.
From S2P Require Import Prelude.

(** ** ASCII classes *)

Definition is_ascii_digit (b : Z) : bool := (48 <=? b) && (b <=? 57).
Definition is_ascii_lower (b : Z) : bool := (97 <=? b) && (b <=? 122).
Definition is_ascii_upper (b : Z) : bool := (65 <=? b) && (b <=? 90).
Definition is_ascii_hexdigit (b : Z) : bool :=
  is_ascii_digit b || ((97 <=? b) && (b <=? 102)) || ((65 <=? b) && (b <=? 70)).

Definition to_ascii_lower (b : Z) : Z := if is_ascii_upper b then b + 32 else b.
Definition to_ascii_upper (b : Z) : Z := if is_ascii_lower b then b - 32 else b.
Definition ascii_lowercase (s : str) : str := to_ascii_lower <$> s.

(** [str::eq_ignore_ascii_case]. *)
Definition eq_ignore_case (s t : str) : bool :=
  bool_decide (ascii_lowercase s = ascii_lowercase t).

(** ** UTF-8 *)

Definition is_cont (b : Z) : bool := (128 <=? b) && (b <=? 191).
Definition within (lo hi b : Z) : bool := (lo <=? b) && (b <=? hi).

(** [std::str::from_utf8]: the well-formed byte sequences of the Unicode
    standard (table 3-7). *)
Fixpoint utf8_valid (s : list Z) : bool :=
  match s with
  | [] => true
  | b0 :: r0 =>
    if within 0 127 b0 then utf8_valid r0 else
    match r0 with
    | [] => false
    | b1 :: r1 =>
      if within 194 223 b0 then is_cont b1 && utf8_valid r1 else
      match r1 with
      | [] => false
      | b2 :: r2 =>
        if within 224 239 b0 then
          (if b0 =? 224 then within 160 191 b1
           else if b0 =? 237 then within 128 159 b1
           else is_cont b1) && is_cont b2 && utf8_valid r2
        else
        match r2 with
        | [] => false
        | b3 :: r3 =>
          within 240 244 b0
          && (if b0 =? 240 then within 144 191 b1
              else if b0 =? 244 then within 128 143 b1
              else is_cont b1)
          && is_cont b2 && is_cont b3 && utf8_valid r3
        end
      end
    end
  end.

(** [str::is_char_boundary]. *)
Definition is_char_boundary (s : str) (i : nat) : bool :=
  match i with
  | O => true
  | _ => match s !! i with
         | None => Nat.eqb i (length s)
         | Some b => negb (is_cont b)
         end
  end.

(** [str::get(i..j)]; the indexing form [&s[i..j]] panics where this is [None]. *)
Definition str_get (s : str) (i j : nat) : option str :=
  if (i <=? j)%nat && is_char_boundary s i && is_char_boundary s j
  then Some (take (j - i) (drop i s)) else None.

(** ** Trimming: [char::is_whitespace] is Unicode [White_Space]. *)

(** Byte length of the whitespace character a string starts with, or [0]. *)
Definition ws_prefix (s : str) : nat :=
  match s with
  | b :: r =>
    if within 9 13 b || (b =? 32) then 1%nat else
    match r with
    | c :: r' =>
      if (b =? 194) && ((c =? 133) || (c =? 160)) then 2%nat else
      match r' with
      | d :: _ =>
        if ((b =? 225) && (c =? 154) && (d =? 128))
           || ((b =? 226) && (c =? 128)
               && (within 128 138 d || (d =? 168) || (d =? 169) || (d =? 175)))
           || ((b =? 226) && (c =? 129) && (d =? 159))
           || ((b =? 227) && (c =? 128) && (d =? 128))
        then 3%nat else 0%nat
      | [] => 0%nat
      end
    | [] => 0%nat
    end
  | [] => 0%nat
  end.

(** The same, for the whitespace character a reversed string starts with. *)
Definition ws_suffix (s : str) : nat :=
  match s with
  | d :: r =>
    if within 9 13 d || (d =? 32) then 1%nat else
    match r with
    | c :: r' =>
      if (c =? 194) && ((d =? 133) || (d =? 160)) then 2%nat else
      match r' with
      | b :: _ => if (ws_prefix [b; c; d] =? 3)%nat then 3%nat else 0%nat
      | [] => 0%nat
      end
    | [] => 0%nat
    end
  | [] => 0%nat
  end.

Fixpoint strip_ws (len : str -> nat) (fuel : nat) (s : str) : str :=
  match fuel with
  | O => s
  | S fuel' => match len s with O => s | n => strip_ws len fuel' (drop n s) end
  end.

Definition trim_start (s : str) : str := strip_ws ws_prefix (length s) s.
Definition trim_end (s : str) : str := rev (strip_ws ws_suffix (length s) (rev s)).
Definition trim (s : str) : str := trim_end (trim_start s).

(** ** Prefixes, suffixes and substrings *)

Fixpoint starts_with (s p : str) {struct p} : bool :=
  match p, s with
  | [], _ => true
  | c :: p', b :: s' => (b =? c) && starts_with s' p'
  | _ :: _, [] => false
  end.

Definition ends_with (s p : str) : bool := starts_with (rev s) (rev p).

Definition strip_prefix (s p : str) : option str :=
  if starts_with s p then Some (drop (length p) s) else None.

(** [strip_prefix(p).unwrap_or(s)]. *)
Definition without_prefix (s p : str) : str := default s (strip_prefix s p).

(** [str::contains], and [slice::windows(n).any(|w| w == p)] for a non-empty [p]. *)
Fixpoint contains (s p : str) : bool :=
  starts_with s p || match s with [] => false | _ :: s' => contains s' p end.

(** ** Integers as text *)

Definition digit_value (radix b : Z) : option Z :=
  let v := if is_ascii_digit b then b - 48
           else if is_ascii_lower b then b - 87
           else if is_ascii_upper b then b - 55
           else radix in
  if v <? radix then Some v else None.

Inductive parse_int_error := PEmpty | PInvalidDigit | PPosOverflow | PNegOverflow.
#[export] Instance parse_int_error_eq_dec : EqDecision parse_int_error.
Proof. solve_decision. Defined.

(** [ParseIntError]'s [Display]. *)
Definition parse_int_error_text (e : parse_int_error) : str :=
  match e with
  | PEmpty => lit "cannot parse integer from empty string"
  | PInvalidDigit => lit "invalid digit found in string"
  | PPosOverflow => lit "number too large to fit in target type"
  | PNegOverflow => lit "number too small to fit in target type"
  end.

Fixpoint parse_digits (radix max acc : Z) (s : str) : res parse_int_error Z :=
  match s with
  | [] => Ok acc
  | b :: s' =>
    match digit_value radix b with
    | None => Err PInvalidDigit
    | Some d =>
      if acc * radix + d <=? max then parse_digits radix max (acc * radix + d) s'
      else Err PPosOverflow
    end
  end.

(** [from_str_radix] of an unsigned type with maximum [max]: one leading [+]
    is allowed, a [-] is an invalid digit. *)
Definition parse_unsigned (radix max : Z) (s : str) : res parse_int_error Z :=
  match s with
  | [] => Err PEmpty
  | [b] => if (b =? 43) || (b =? 45) then Err PInvalidDigit else parse_digits radix max 0 s
  | b :: s' => if b =? 43 then parse_digits radix max 0 s' else parse_digits radix max 0 s
  end.

(** [str::parse::<u64>()], [::<u128>()]. *)
Definition parse_u64 : str -> res parse_int_error Z := parse_unsigned 10 u64_max.
Definition parse_u128 : str -> res parse_int_error Z := parse_unsigned 10 u128_max.
Definition parse_u32 : str -> res parse_int_error Z := parse_unsigned 10 (2 ^ 32 - 1).
(** [str::parse::<i64>()]: a [-] before digits too. *)
Definition parse_i64 (s : str) : res parse_int_error Z :=
  match s with
  | b :: (_ :: _ as digits) =>
      if b =? 45 then
        match parse_digits 10 (i64_max + 1) 0 digits with
        | Ok v => Ok (- v)
        | Err PPosOverflow => Err PNegOverflow
        | r => r
        end
      else parse_unsigned 10 i64_max s
  | _ => parse_unsigned 10 i64_max s
  end.
(** [u8::from_str_radix(s, 16)]. *)
Definition parse_hex_u8 : str -> res parse_int_error Z := parse_unsigned 16 255.

(** [to_string] of an unsigned integer: decimal digits, most significant first. *)
Fixpoint digits_rev (radix : Z) (fuel : nat) (v : Z) : list Z :=
  match fuel with
  | O => []
  | S fuel' => if v <? radix then [v] else v mod radix :: digits_rev radix fuel' (v / radix)
  end.

Definition digit_char (d : Z) : Z := if d <? 10 then 48 + d else 87 + d.

(** 128 digits are enough for any [u128] in any radix. *)
Definition show_radix (radix v : Z) : str := digit_char <$> rev (digits_rev radix 129 v).
Definition show_dec (v : Z) : str := show_radix 10 v.
Definition show_hex (v : Z) : str := show_radix 16 v.
(** [Display] of an [i64]. *)
Definition show_signed (z : Z) : str := if z <? 0 then 45 :: show_dec (- z) else show_dec z.

(** [format!("{b:02x}")] for a byte. *)
Definition hex_byte (b : Z) : str := [digit_char (b / 16); digit_char (b mod 16)].
Definition hex_string (bs : list Z) : str := bs ≫= hex_byte.

(** [format!("{s:0>width$}")]. *)
Definition pad_left_zeros (width : nat) (s : str) : str := replicate (width - length s) 48 ++ s.

(** * Facts *)

Lemma starts_with_spec s p : starts_with s p = true <-> exists t, s = p ++ t.
Proof.
  revert s. induction p as [|c p IH]; intros s; simpl.
  - split; [intros _; exists s; reflexivity | reflexivity].
  - destruct s as [|b s]; simpl.
    + split; [discriminate | intros (t & [=])].
    + rewrite andb_true_iff, Z.eqb_eq, IH. split.
      * intros [-> (t & ->)]. eauto.
      * intros (t & [= -> ->]). eauto.
Qed.

Lemma starts_with_app p t : starts_with (p ++ t) p = true.
Proof. apply starts_with_spec. eauto. Qed.

Lemma ends_with_spec s p : ends_with s p = true <-> exists t, s = t ++ p.
Proof.
  unfold ends_with. rewrite starts_with_spec. split; intros (t & H).
  - exists (rev t). rewrite <- (rev_involutive s), H, rev_app_distr, rev_involutive. reflexivity.
  - exists (rev t). rewrite H, rev_app_distr. reflexivity.
Qed.

Lemma contains_spec s p : contains s p = true <-> exists t u, s = t ++ p ++ u.
Proof.
  induction s as [|b s IH]; cbn [contains]; rewrite orb_true_iff, starts_with_spec.
  - split.
    + intros [(t & H) | [=]]. exists [], t. exact H.
    + intros (t & u & H). left. destruct t; [eauto | discriminate].
  - rewrite IH. split.
    + intros [(t & H) | (t & u & ->)]; [exists [], t; exact H | exists (b :: t), u; reflexivity].
    + intros ([|c t] & u & H); [left; eauto | right]. injection H as _ ->. eauto.
Qed.

Lemma strip_prefix_app p t : strip_prefix (p ++ t) p = Some t.
Proof. unfold strip_prefix. rewrite starts_with_app, drop_app_length. reflexivity. Qed.

Lemma strip_prefix_some s p t : strip_prefix s p = Some t <-> s = p ++ t.
Proof.
  split; [|intros ->; apply strip_prefix_app].
  unfold strip_prefix. destruct (starts_with s p) eqn:E; [|discriminate]. intros [= <-].
  apply starts_with_spec in E as (u & ->). rewrite drop_app_length. reflexivity.
Qed.

Lemma without_prefix_app p t : without_prefix (p ++ t) p = t.
Proof. unfold without_prefix. rewrite strip_prefix_app. reflexivity. Qed.

Lemma without_prefix_cases s p :
  (exists t, s = p ++ t /\ without_prefix s p = t) \/ without_prefix s p = s.
Proof.
  destruct (starts_with s p) eqn:E.
  - apply starts_with_spec in E. destruct E as (t & ->). left. exists t.
    rewrite without_prefix_app. eauto.
  - right. unfold without_prefix, strip_prefix. rewrite E. reflexivity.
Qed.

(** Printable ASCII without the space: what hex, decimal and base-58 text is made of. *)
Definition is_graphic (b : Z) : bool := within 33 126 b.

Lemma strip_ws_none len fuel s : len s = 0%nat -> strip_ws len fuel s = s.
Proof. intros H. destruct fuel; simpl; [reflexivity|]. rewrite H. reflexivity. Qed.

Lemma graphic_ws_prefix b s : is_graphic b = true -> ws_prefix (b :: s) = 0%nat.
Proof.
  unfold is_graphic, within. intros H. bool_to_prop.
  assert (Hb : 33 <= b <= 126) by lia. clear H H0.
  unfold ws_prefix, within.
  replace ((9 <=? b) && (b <=? 13)) with false by lia.
  replace (b =? 32) with false by lia. replace (b =? 194) with false by lia.
  replace (b =? 225) with false by lia. replace (b =? 226) with false by lia.
  replace (b =? 227) with false by lia.
  destruct s as [|c [|d s]]; reflexivity.
Qed.

Lemma graphic_ws_suffix b s : is_graphic b = true -> ws_suffix (b :: s) = 0%nat.
Proof.
  unfold is_graphic, within. intros H. bool_to_prop.
  assert (Hb : 33 <= b <= 126) by lia. clear H H0.
  unfold ws_suffix, ws_prefix, within.
  replace ((9 <=? b) && (b <=? 13)) with false by lia.
  replace (b =? 32) with false by lia. replace (b =? 133) with false by lia.
  replace (b =? 160) with false by lia. replace (b =? 128) with false by lia.
  replace (b =? 168) with false by lia. replace (b =? 169) with false by lia.
  replace (b =? 175) with false by lia. replace (b =? 159) with false by lia.
  replace ((128 <=? b) && (b <=? 138)) with false by lia.
  rewrite ?andb_false_r. cbn [orb].
  destruct s as [|c [|d s]]; try reflexivity.
  all: rewrite ?andb_false_r; cbn [orb]. all: try done.
  destruct (_ || (d =? 32)); [reflexivity|]. destruct (_ && _); reflexivity.
Qed.

Lemma trim_graphic s : Forall (fun b => is_graphic b = true) s -> trim s = s.
Proof.
  intros H. unfold trim. assert (Hs : trim_start s = s).
  { unfold trim_start. destruct s as [|b s]; [reflexivity|]. apply strip_ws_none.
    apply graphic_ws_prefix. inversion H; assumption. }
  rewrite Hs. unfold trim_end. destruct (rev s) as [|b t] eqn:E.
  - rewrite <- (rev_involutive s), E. reflexivity.
  - rewrite strip_ws_none.
    + rewrite <- E. apply rev_involutive.
    + apply graphic_ws_suffix. apply Forall_rev in H.
      assert (Hb : Forall (fun b => is_graphic b = true) (b :: t)) by (rewrite <- E; exact H).
      inversion Hb; assumption.
Qed.

Lemma hexdigit_graphic b : is_ascii_hexdigit b = true -> is_graphic b = true.
Proof.
  unfold is_ascii_hexdigit, is_ascii_digit, is_graphic, within. intros H.
  rewrite !orb_true_iff, !andb_true_iff, !Z.leb_le in H. rewrite andb_true_iff, !Z.leb_le. lia.
Qed.

Lemma digit_hexdigit b : is_ascii_digit b = true -> is_ascii_hexdigit b = true.
Proof. unfold is_ascii_hexdigit. intros ->. reflexivity. Qed.

Lemma hexdigit_value b :
  is_ascii_hexdigit b = true -> exists d, digit_value 16 b = Some d /\ 0 <= d < 16.
Proof.
  unfold is_ascii_hexdigit, digit_value, is_ascii_digit, is_ascii_lower, is_ascii_upper.
  intros H. rewrite !orb_true_iff, !andb_true_iff, !Z.leb_le in H.
  destruct H as [[H | H] | H].
  - exists (b - 48). replace ((48 <=? b) && (b <=? 57)) with true by lia.
    replace (b - 48 <? 16) with true by lia. split; [reflexivity | lia].
  - exists (b - 87). replace ((48 <=? b) && (b <=? 57)) with false by lia.
    replace ((97 <=? b) && (b <=? 122)) with true by lia.
    replace (b - 87 <? 16) with true by lia. split; [reflexivity | lia].
  - exists (b - 55). replace ((48 <=? b) && (b <=? 57)) with false by lia.
    replace ((97 <=? b) && (b <=? 122)) with false by lia.
    replace ((65 <=? b) && (b <=? 90)) with true by lia.
    replace (b - 55 <? 16) with true by lia. split; [reflexivity | lia].
Qed.

(** ** Hex text *)

Lemma digit_char_cases d :
  0 <= d < 16 ->
  (0 <= d < 10 /\ digit_char d = 48 + d) \/ (10 <= d < 16 /\ digit_char d = 87 + d).
Proof. unfold digit_char. intros. destruct (Z.ltb_spec d 10); lia. Qed.

Lemma digit_char_value d : 0 <= d < 16 -> digit_value 16 (digit_char d) = Some d.
Proof.
  intros Hd.
  unfold digit_value, is_ascii_digit, is_ascii_lower.
  destruct (digit_char_cases d Hd) as [[? ->] | [? ->]].
  - replace ((48 <=? 48 + d) && (48 + d <=? 57)) with true by lia.
    replace (48 + d - 48) with d by lia. replace (d <? 16) with true by lia. reflexivity.
  - replace ((48 <=? 87 + d) && (87 + d <=? 57)) with false by lia.
    replace ((97 <=? 87 + d) && (87 + d <=? 122)) with true by lia.
    replace (87 + d - 87) with d by lia. replace (d <? 16) with true by lia. reflexivity.
Qed.

Lemma hex_byte_nibbles b :
  is_u8 b -> 0 <= b / 16 < 16 /\ 0 <= b mod 16 < 16 /\ b = 16 * (b / 16) + b mod 16.
Proof. unfold is_u8. intros. divmod. Qed.

Lemma digit_char_graphic d : 0 <= d < 16 -> is_graphic (digit_char d) = true.
Proof.
  intros Hd. unfold is_graphic, within. destruct (digit_char_cases d Hd) as [[? ->] | [? ->]];
    apply andb_true_iff; rewrite !Z.leb_le; lia.
Qed.

Lemma digit_char_hexdigit d : 0 <= d < 16 -> is_ascii_hexdigit (digit_char d) = true.
Proof.
  intros Hd. unfold is_ascii_hexdigit, is_ascii_digit.
  rewrite !orb_true_iff, !andb_true_iff, !Z.leb_le.
  destruct (digit_char_cases d Hd) as [[? ->] | [? ->]]; lia.
Qed.

Lemma digit_char_lower d : 0 <= d < 16 -> to_ascii_lower (digit_char d) = digit_char d.
Proof.
  intros Hd. unfold to_ascii_lower, is_ascii_upper.
  destruct (digit_char_cases d Hd) as [[? ->] | [? ->]];
    (destruct (_ && _) eqn:E; [bool_to_prop; lia | reflexivity]).
Qed.

Lemma hex_string_cons b bs : hex_string (b :: bs) = hex_byte b ++ hex_string bs.
Proof. reflexivity. Qed.

Lemma hex_string_app a b : hex_string (a ++ b) = hex_string a ++ hex_string b.
Proof. unfold hex_string. apply bind_app. Qed.

Lemma hex_string_length bs : length (hex_string bs) = (2 * length bs)%nat.
Proof. induction bs as [|b bs IH]; [reflexivity|]. rewrite hex_string_cons. simpl. lia. Qed.

(** Everything a lowercase hex digit satisfies, [hex_string] satisfies. *)
Lemma hex_string_forall (P : Z -> Prop) bs :
  (forall d, 0 <= d < 16 -> P (digit_char d)) -> bytes_ok bs -> Forall P (hex_string bs).
Proof.
  intros HP. induction 1 as [|b bs Hb Hbs IH]; [constructor|].
  destruct (hex_byte_nibbles b Hb) as (Hh & Hl & _).
  rewrite hex_string_cons. repeat constructor; auto.
Qed.

Lemma hex_string_graphic bs : bytes_ok bs -> Forall (fun b => is_graphic b = true) (hex_string bs).
Proof. apply hex_string_forall. apply digit_char_graphic. Qed.

Lemma hex_string_lower bs : bytes_ok bs -> ascii_lowercase (hex_string bs) = hex_string bs.
Proof.
  intros H. unfold ascii_lowercase. rewrite <- list_fmap_id. apply Forall_fmap_ext.
  apply hex_string_forall; [|exact H]. intros d Hd. apply digit_char_lower. exact Hd.
Qed.

Lemma hex_string_inj a b : bytes_ok a -> bytes_ok b -> hex_string a = hex_string b -> a = b.
Proof.
  intros Ha. revert b. induction Ha as [|x a Hx Ha IH]; intros b Hb H.
  - destruct b; [reflexivity | discriminate].
  - destruct b as [|y b]; [discriminate|]. inversion Hb as [|? ? Hy Hb']; subst.
    rewrite !hex_string_cons in H. injection H as H1 H2 H3.
    apply (f_equal (digit_value 16)) in H1, H2.
    destruct (hex_byte_nibbles x Hx) as (X1 & X2 & X3).
    destruct (hex_byte_nibbles y Hy) as (Y1 & Y2 & Y3).
    rewrite !digit_char_value in H1, H2 by assumption.
    f_equal; [congruence | apply IH; assumption].
Qed.
#[export] Hint Resolve hex_string_graphic hex_string_lower : bytes.

Lemma parse_hex_u8_pair h l :
  is_ascii_hexdigit h = true -> is_ascii_hexdigit l = true ->
  exists dh dl, digit_value 16 h = Some dh /\ digit_value 16 l = Some dl
    /\ parse_hex_u8 [h; l] = Ok (16 * dh + dl).
Proof.
  intros Hh Hl. destruct (hexdigit_value h Hh) as (dh & Eh & Bh).
  destruct (hexdigit_value l Hl) as (dl & El & Bl). exists dh, dl. split_and!; auto.
  unfold parse_hex_u8, parse_unsigned.
  assert (Hp : (h =? 43) = false).
  { apply Z.eqb_neq. intros ->. discriminate. }
  rewrite Hp. cbn [parse_digits]. rewrite Eh, El.
  replace (0 * 16 + dh <=? 255) with true by lia.
  replace ((0 * 16 + dh) * 16 + dl <=? 255) with true by lia. f_equal. lia.
Qed.

(** On ASCII text every index is a character boundary. *)
Lemma ascii_boundary s i :
  Forall (fun b => b < 128) s -> (i <= length s)%nat -> is_char_boundary s i = true.
Proof.
  intros H Hi. unfold is_char_boundary. destruct i as [|i]; [reflexivity|].
  destruct (s !! S i) as [b|] eqn:E.
  - pose proof (Forall_lookup_1 _ _ _ _ H E). cbn in *. unfold is_cont.
    replace (128 <=? b) with false by lia. reflexivity.
  - apply lookup_ge_None_1 in E. apply Nat.eqb_eq. lia.
Qed.

Lemma str_get_ascii s i j :
  Forall (fun b => b < 128) s -> (i <= j)%nat -> (j <= length s)%nat ->
  str_get s i j = Some (take (j - i) (drop i s)).
Proof.
  intros H Hi Hj. unfold str_get. rewrite !ascii_boundary by (auto; lia).
  replace (i <=? j)%nat with true by (symmetry; apply Nat.leb_le; exact Hi). reflexivity.
Qed.

Lemma hex_string_lookup bs i b :
  bs !! i = Some b -> take 2 (drop (2 * i) (hex_string bs)) = hex_byte b.
Proof.
  revert i. induction bs as [|x bs IH]; intros i H; [discriminate|].
  rewrite hex_string_cons. destruct i as [|i].
  - injection H as ->. reflexivity.
  - replace (2 * S i)%nat with (S (S (2 * i))) by lia. cbn [hex_byte app drop].
    apply IH. exact H.
Qed.

Lemma parse_hex_byte b : is_u8 b -> parse_hex_u8 (hex_byte b) = Ok b.
Proof.
  intros Hb. destruct (hex_byte_nibbles b Hb) as (H1 & H2 & H3).
  destruct (parse_hex_u8_pair (digit_char (b / 16)) (digit_char (b mod 16)))
    as (dh & dl & Eh & El & E); [apply digit_char_hexdigit; assumption..|].
  rewrite digit_char_value in Eh, El by assumption.
  unfold hex_byte. rewrite E. simplify_eq. f_equal. lia.
Qed.

Lemma str_get_hex_string bs i b :
  bytes_ok bs -> bs !! i = Some b -> str_get (hex_string bs) (2 * i) (2 * i + 2) = Some (hex_byte b).
Proof.
  intros Hok Hb. pose proof (lookup_lt_Some _ _ _ Hb) as Hi.
  rewrite str_get_ascii; [| | lia | rewrite hex_string_length; lia].
  - replace (2 * i + 2 - 2 * i)%nat with 2%nat by lia. rewrite (hex_string_lookup bs i b Hb). reflexivity.
  - apply hex_string_forall; [|exact Hok]. intros d Hd.
    destruct (digit_char_cases d Hd) as [[? ->] | [? ->]]; lia.
Qed.

Lemma parse_digits_bound radix max acc s v :
  0 < radix -> 0 <= acc <= max -> parse_digits radix max acc s = Ok v -> 0 <= v <= max.
Proof.
  intros Hr. revert acc. induction s as [|b s IH]; intros acc Ha H; cbn in H.
  - injection H as <-. exact Ha.
  - destruct (digit_value radix b) as [d|] eqn:E; [|discriminate].
    case_match eqn:El; [|discriminate]. bool_to_prop.
    assert (0 <= d).
    { unfold digit_value, is_ascii_digit, is_ascii_lower, is_ascii_upper in E.
      repeat case_match; simplify_eq; bool_to_prop; lia. }
    eapply IH; [|exact H]. nia.
Qed.

Lemma parse_unsigned_bound radix max s v :
  0 < radix -> 0 <= max -> parse_unsigned radix max s = Ok v -> 0 <= v <= max.
Proof.
  intros Hr Hm H. unfold parse_unsigned in H.
  repeat case_match; try discriminate; eapply parse_digits_bound; eauto; lia.
Qed.

(** ** Characters

    The characters of a valid UTF-8 string: a byte and the continuation bytes
    that follow it. *)
Fixpoint chars (s : str) : list str :=
  match s with
  | [] => []
  | b :: s' =>
    match chars s' with
    | (c :: cs) :: rest => if is_cont c then (b :: c :: cs) :: rest else [b] :: (c :: cs) :: rest
    | rest => [b] :: rest
    end
  end.

(** A test of one ASCII character, on a character. *)
Definition char_is (p : Z -> bool) (c : str) : bool :=
  match c with [b] => p b | _ => false end.

Lemma chars_head b s : exists cs rest, chars (b :: s) = (b :: cs) :: rest.
Proof.
  cbn [chars]. destruct (chars s) as [|[|c cs] rest]; [eauto..|].
  destruct (is_cont c); eauto.
Qed.

Lemma chars_ascii s : Forall (fun b => b < 128) s -> chars s = (fun b => [b]) <$> s.
Proof.
  induction 1 as [|b s Hb Hs IH]; [reflexivity|].
  cbn [chars]. rewrite IH. destruct Hs as [|c s Hc Hs]; [reflexivity|].
  cbn. unfold is_cont. replace (128 <=? c) with false by lia. reflexivity.
Qed.

Lemma find_first_none {A} (p : A -> bool) l :
  find_first p l = None <-> Forall (fun x => p x = false) l.
Proof.
  induction l as [|x l IH]; simpl; [split; constructor|].
  rewrite Forall_cons_iff. destruct (p x) eqn:E; [split; [discriminate | intros [[=] _]]|].
  tauto.
Qed.

(** All characters pass an ASCII test exactly when all bytes do. *)
Lemma position_spec {A} (p : A -> bool) l i :
  position p l = Some i <->
  exists x, l !! i = Some x /\ p x = true /\ Forall (fun y => p y = false) (take i l).
Proof.
  revert i. induction l as [|x l IH]; intros i; cbn [position].
  - split; [discriminate | intros (? & [=] & _)].
  - destruct (p x) eqn:E; split.
    + intros [= <-]. exists x. split_and!; [reflexivity | exact E | constructor].
    + intros (y & Hy & Hp & Hf). destruct i as [|i]; [reflexivity|]. cbn in Hf. inversion Hf. congruence.
    + intros Hi. apply fmap_Some in Hi as (j & Hj & ->). apply IH in Hj as (y & Hy & Hp & Hf).
      exists y. split_and!; [exact Hy | exact Hp | constructor; assumption].
    + intros (y & Hy & Hp & Hf). destruct i as [|i]; [cbn in Hy; congruence|]. cbn in Hy, Hf. inversion Hf; subst.
      assert (Hi : position p l = Some i) by (apply IH; eauto). rewrite Hi. reflexivity.
Qed.

Lemma position_none {A} (p : A -> bool) l : position p l = None <-> Forall (fun y => p y = false) l.
Proof.
  induction l as [|x l IH]; cbn [position]; [split; auto|].
  destruct (p x) eqn:E.
  - split; [discriminate|]. inversion 1. congruence.
  - rewrite fmap_None, IH. split; [auto | inversion 1; auto].
Qed.

Lemma position_first {A} (p : A -> bool) l i x :
  position p l = Some i -> l !! i = Some x -> find_first p l = Some x.
Proof.
  revert i. induction l as [|y l IH]; intros i; cbn [position find_first]; [discriminate|].
  destruct (p y); [intros [= <-] [= ->]; reflexivity|].
  destruct (position p l) as [j|]; [|discriminate]. intros [= <-]. apply IH. reflexivity.
Qed.

(** [position] and [find_first] stop at the same place. *)
Lemma position_find {A} (p : A -> bool) l :
  match position p l with
  | Some i => exists x, l !! i = Some x /\ find_first p l = Some x
  | None => find_first p l = None
  end.
Proof.
  destruct (position p l) as [i|] eqn:E.
  - pose proof E as E'. apply position_spec in E' as (x & Hx & _). exists x. split; [exact Hx|].
    eapply position_first; eauto.
  - apply find_first_none, position_none, E.
Qed.

Lemma find_first_some {A} (p : A -> bool) l x : find_first p l = Some x -> x ∈ l /\ p x = true.
Proof.
  induction l as [|y l IH]; cbn; [discriminate|]. destruct (p y) eqn:Hy; [intros [= <-]; split; [left | exact Hy]|].
  intros [Hx Hp]%IH. split; [right; exact Hx | exact Hp].
Qed.

Lemma find_first_position {A} (p : A -> bool) l x :
  find_first p l = Some x ->
  exists i, l !! i = Some x /\ p x = true /\ Forall (fun y => p y = false) (take i l).
Proof.
  intros Hf. pose proof (position_find p l) as Hp. destruct (position p l) as [i|] eqn:E; [|congruence].
  destruct Hp as (y & Hy & Hf'). assert (y = x) as -> by congruence. exists i.
  apply position_spec in E as (z & Hz & Hpz & Hall). assert (z = x) as -> by congruence. auto.
Qed.

Lemma chars_all_ascii (p : Z -> bool) s :
  (forall b, p b = true -> b < 128) ->
  find_first (fun c => negb (char_is p c)) (chars s) = None <-> Forall (fun b => p b = true) s.
Proof.
  intros Hp. rewrite find_first_none. split.
  - induction s as [|b s IH]; intros H; [constructor|].
    cbn [chars] in H. destruct s as [|c s].
    + cbn [chars] in H. rewrite Forall_cons_iff in H. destruct H as [H _]. cbn in H. apply negb_false_iff in H. auto.
    + destruct (chars_head c s) as (cs & rest & E). rewrite E in H, IH.
      destruct (is_cont c); rewrite Forall_cons_iff in H; destruct H as [H1 H2].
      * cbn in H1. discriminate.
      * cbn in H1. apply negb_false_iff in H1. constructor; auto.
  - intros H. rewrite chars_ascii by (eapply list.Forall_impl; [exact H | exact Hp]).
    apply Forall_fmap. eapply list.Forall_impl; [exact H|]. intros b Hb. cbn. rewrite Hb. reflexivity.
Qed.

(** ** Reading hex text two characters at a time *)

(** [(0..body.len()).step_by(2).map(|i| u8::from_str_radix(&body[i..i + 2], 16))]:
    slicing off a character boundary panics. *)
Definition hex_pair {E} (err : parse_int_error -> E) (body : str) (i : nat) : res E Z :=
  match str_get body i (i + 2) with
  | None => Panic
  | Some digits => map_err err (parse_hex_u8 digits)
  end.

Definition hex_pairs {E} (err : parse_int_error -> E) (body : str) : res E (list Z) :=
  collect (hex_pair err body) ((fun i => 2 * i)%nat <$> seq 0 (length body / 2)).

Abbreviation hex_text := (Forall (fun b => is_ascii_hexdigit b = true)).

Lemma hexdigit_ascii b : is_ascii_hexdigit b = true -> b < 128.
Proof.
  intros H. apply hexdigit_graphic in H. unfold is_graphic, within in H. bool_to_prop. lia.
Qed.

Lemma hexdigit_value_lower b d :
  is_ascii_hexdigit b = true -> digit_value 16 b = Some d -> digit_char d = to_ascii_lower b.
Proof.
  unfold is_ascii_hexdigit, digit_value, is_ascii_digit, is_ascii_lower, is_ascii_upper,
    to_ascii_lower, is_ascii_upper, digit_char. intros Hb Hd.
  rewrite !orb_true_iff, !andb_true_iff, !Z.leb_le in Hb.
  destruct Hb as [[Hb | Hb] | Hb].
  - replace ((48 <=? b) && (b <=? 57)) with true in Hd by lia.
    destruct (b - 48 <? 16) eqn:E; [|discriminate]. injection Hd as <-.
    replace (b - 48 <? 10) with true by lia. replace ((65 <=? b) && (b <=? 90)) with false by lia. lia.
  - replace ((48 <=? b) && (b <=? 57)) with false in Hd by lia.
    replace ((97 <=? b) && (b <=? 122)) with true in Hd by lia.
    destruct (b - 87 <? 16) eqn:E; [|discriminate]. injection Hd as <-.
    replace (b - 87 <? 10) with false by lia. replace ((65 <=? b) && (b <=? 90)) with false by lia. lia.
  - replace ((48 <=? b) && (b <=? 57)) with false in Hd by lia.
    replace ((97 <=? b) && (b <=? 122)) with false in Hd by lia.
    replace ((65 <=? b) && (b <=? 90)) with true in Hd |- * by lia.
    destruct (b - 55 <? 16) eqn:E; [|discriminate]. injection Hd as <-.
    replace (b - 55 <? 10) with false by lia. lia.
Qed.

Lemma hex_text_bytes s n :
  hex_text s -> length s = (2 * n)%nat ->
  exists bs, length bs = n /\ bytes_ok bs /\ hex_string bs = ascii_lowercase s /\
    forall i b, bs !! i = Some b -> parse_hex_u8 (take 2 (drop (2 * i) s)) = Ok b.
Proof.
  revert s. induction n as [|n IH]; intros s Hs Hl.
  - destruct s; [|discriminate]. exists []. repeat split; [constructor | intros i b; discriminate].
  - destruct s as [|h [|l s]]; cbn [length] in Hl; try lia.
    inversion Hs as [|? ? Hh Hs']; subst. inversion Hs' as [|? ? Hlx Hs'']; subst.
    destruct (IH s Hs'' ltac:(lia)) as (bs & Hlen & Hok & Hhex & Hi).
    destruct (parse_hex_u8_pair h l Hh Hlx) as (dh & dl & Eh & El & Hp).
    destruct (hexdigit_value h Hh) as (dh' & Eh' & Bh). destruct (hexdigit_value l Hlx) as (dl' & El' & Bl).
    rewrite Eh in Eh'. injection Eh' as <-. rewrite El in El'. injection El' as <-.
    exists (16 * dh + dl :: bs). split_and!.
    + cbn. lia.
    + constructor; [unfold is_u8; lia | exact Hok].
    + rewrite hex_string_cons, Hhex. unfold hex_byte, ascii_lowercase. rewrite !fmap_cons.
      replace ((16 * dh + dl) / 16) with dh by divmod.
      replace ((16 * dh + dl) mod 16) with dl by divmod.
      rewrite (hexdigit_value_lower h dh), (hexdigit_value_lower l dl) by assumption. reflexivity.
    + intros [|i] b Hb.
      * injection Hb as <-. exact Hp.
      * replace (2 * S i)%nat with (S (S (2 * i))) by lia. cbn [drop]. apply Hi. exact Hb.
Qed.

(** Hex text of even length reads as bytes, and prints back in lower case. *)
Lemma hex_pairs_text {E} (err : parse_int_error -> E) s n :
  hex_text s -> length s = (2 * n)%nat ->
  exists bs, hex_pairs err s = Ok bs /\ length bs = n /\ bytes_ok bs
    /\ hex_string bs = ascii_lowercase s.
Proof.
  intros Hs Hl. destruct (hex_text_bytes s n Hs Hl) as (bs & Hlen & Hok & Hhex & Hi).
  exists bs. split_and!; auto. unfold hex_pairs. apply collect_ok, Forall2_fmap_l.
  apply Forall2_same_length_lookup. rewrite Hl, Nat.mul_comm, Nat.div_mul by lia.
  split; [rewrite length_seq; congruence|].
  intros i x b Hx Hb. apply lookup_seq in Hx as [-> Hi']. cbn [Nat.add].
  change (hex_pair err s (2 * i)%nat = Ok b). unfold hex_pair.
  rewrite str_get_ascii; [| | lia | lia].
  - replace (2 * i + 2 - 2 * i)%nat with 2%nat by lia. rewrite (Hi i b Hb). reflexivity.
  - eapply list.Forall_impl; [exact Hs|]. apply hexdigit_ascii.
Qed.

(** ** Decimal and hexadecimal text of integers *)

(** The value of digits, most significant first, on top of [acc]. *)
Definition digits_value (radix acc : Z) (ds : list Z) : Z := foldl (fun a d => a * radix + d) acc ds.

Abbreviation digits_ok radix := (Forall (fun d => 0 <= d < radix)).

Lemma digit_char_value_any radix d :
  0 < radix <= 16 -> 0 <= d < radix -> digit_value radix (digit_char d) = Some d.
Proof.
  intros Hr Hd. pose proof (digit_char_value d ltac:(lia)) as H. unfold digit_value in *.
  set (v := if is_ascii_digit (digit_char d) then digit_char d - 48 else
            if is_ascii_lower (digit_char d) then digit_char d - 87 else
            if is_ascii_upper (digit_char d) then digit_char d - 55 else radix).
  assert (Hv : v = d).
  { unfold v. unfold is_ascii_digit, is_ascii_lower.
    destruct (digit_char_cases d ltac:(lia)) as [[? ->] | [? ->]].
    - replace ((48 <=? 48 + d) && (48 + d <=? 57)) with true by lia. lia.
    - replace ((48 <=? 87 + d) && (87 + d <=? 57)) with false by lia.
      replace ((97 <=? 87 + d) && (87 + d <=? 122)) with true by lia. lia. }
  rewrite Hv. replace (d <? radix) with true by lia. reflexivity.
Qed.

Lemma digits_value_mono radix acc ds :
  0 < radix -> 0 <= acc -> digits_ok radix ds -> acc <= digits_value radix acc ds.
Proof.
  intros Hr Ha Hd. revert acc Ha. induction Hd as [|d ds Hd Hds IH]; intros acc Ha; [cbn; lia|].
  unfold digits_value in *. cbn [foldl]. specialize (IH (acc * radix + d) ltac:(nia)). nia.
Qed.

Lemma parse_digits_show radix max acc ds :
  0 < radix <= 16 -> 0 <= acc -> digits_ok radix ds -> digits_value radix acc ds <= max ->
  parse_digits radix max acc (digit_char <$> ds) = Ok (digits_value radix acc ds).
Proof.
  intros Hr Ha Hd. revert acc Ha. induction Hd as [|d ds Hd Hds IH]; intros acc Ha Hm; [reflexivity|].
  rewrite fmap_cons. cbn [parse_digits]. rewrite digit_char_value_any by assumption.
  unfold digits_value in *. cbn [foldl] in *.
  pose proof (digits_value_mono radix (acc * radix + d) ds ltac:(lia) ltac:(nia) Hds) as Hle.
  unfold digits_value in Hle.
  replace (acc * radix + d <=? max) with true by lia. apply IH; [nia | exact Hm].
Qed.

Lemma digits_rev_spec radix fuel v :
  2 <= radix -> 0 <= v < radix ^ Z.of_nat fuel -> (0 < fuel)%nat ->
  digits_ok radix (digits_rev radix fuel v) /\ digits_rev radix fuel v <> [] /\
  digits_value radix 0 (rev (digits_rev radix fuel v)) = v.
Proof.
  intros Hr. revert v. induction fuel as [|fuel IH]; intros v Hv Hf; [lia|].
  rewrite Nat2Z.inj_succ, Z.pow_succ_r in Hv by lia. cbn [digits_rev].
  destruct (Z.ltb_spec v radix).
  - split_and!; [repeat constructor; lia | discriminate | cbn; lia].
  - pose proof (Z.mod_pos_bound v radix ltac:(lia)). pose proof (Z.div_mod v radix ltac:(lia)).
    assert (Hq : 0 <= v / radix < radix ^ Z.of_nat fuel)
      by (split; [apply Z.div_pos; lia | apply Z.div_lt_upper_bound; lia]).
    assert (0 < v / radix) by (apply Z.div_str_pos; lia).
    destruct fuel as [|fuel]; [simpl in Hq; lia|].
    destruct (IH (v / radix) Hq ltac:(lia)) as (I1 & I2 & I3). split_and!.
    + constructor; assumption.
    + discriminate.
    + cbn [rev]. unfold digits_value in *. rewrite foldl_app, I3. cbn. lia.
Qed.

(** Integers small enough for [show_radix]'s fuel. *)
Lemma show_fuel radix v : 2 <= radix -> is_u128 v -> 0 <= v < radix ^ Z.of_nat 129.
Proof.
  unfold is_u128, u128_max. intros Hr Hv. split; [lia|].
  apply Z.lt_le_trans with (2 ^ Z.of_nat 129); [simpl; lia|]. apply Z.pow_le_mono_l. lia.
Qed.

Lemma show_radix_digits radix v :
  2 <= radix -> is_u128 v ->
  exists ds, show_radix radix v = digit_char <$> ds /\ digits_ok radix ds /\ ds <> []
    /\ digits_value radix 0 ds = v.
Proof.
  intros Hr Hv. destruct (digits_rev_spec radix 129 v Hr (show_fuel radix v Hr Hv) ltac:(lia)) as (H1 & H2 & H3).
  exists (rev (digits_rev radix 129 v)). split_and!; auto.
  - apply Forall_rev. exact H1.
  - intros E. apply (f_equal (@rev Z)) in E. rewrite rev_involutive in E. auto.
Qed.

Lemma digit_char_not_sign d : 0 <= d < 16 -> (digit_char d =? 43) = false /\ (digit_char d =? 45) = false.
Proof. intros Hd. rewrite !Z.eqb_neq. destruct (digit_char_cases d Hd) as [[? ->] | [? ->]]; lia. Qed.

(** Parsing what was printed gives it back, or overflows the smaller type. *)
Lemma parse_show_radix radix max v :
  2 <= radix <= 16 -> is_u128 v -> v <= max -> parse_unsigned radix max (show_radix radix v) = Ok v.
Proof.
  intros Hr Hv Hm. destruct (show_radix_digits radix v ltac:(lia) Hv) as (ds & -> & Hd & Hn & Hval).
  destruct ds as [|d ds]; [congruence|]. pose proof Hd as Hd'. inversion Hd' as [|? ? Hd0 _]; subst.
  destruct (digit_char_not_sign d ltac:(lia)) as [Hp Hmi].
  pose proof (parse_digits_show radix max 0 (d :: ds) ltac:(lia) ltac:(lia) Hd ltac:(lia)) as Hshow.
  unfold parse_unsigned. rewrite fmap_cons in *. rewrite Hp, Hmi. cbn [orb].
  destruct (digit_char <$> ds); exact Hshow.
Qed.

Lemma parse_show_dec max v : is_u128 v -> v <= max -> parse_unsigned 10 max (show_dec v) = Ok v.
Proof. intros Hv Hm. apply parse_show_radix; [lia | exact Hv | exact Hm]. Qed.

(** A wider type reads the same value. *)
Lemma parse_unsigned_mono radix m m' s v :
  m <= m' -> parse_unsigned radix m s = Ok v -> parse_unsigned radix m' s = Ok v.
Proof.
  intros Hm. assert (Hd : forall s acc, parse_digits radix m acc s = Ok v -> parse_digits radix m' acc s = Ok v).
  { clear s. induction s as [|b s IH]; intros acc; cbn [parse_digits]; [auto|].
    destruct (digit_value radix b) as [d|]; [|discriminate].
    destruct (Z.leb_spec (acc * radix + d) m); [|discriminate]. replace (acc * radix + d <=? m') with true by lia. apply IH. }
  unfold parse_unsigned. destruct s as [|b [|c s]]; [discriminate | |]; case_match; auto; discriminate.
Qed.

Lemma parse_i64_unsigned s : (forall r, s <> 45 :: r) -> parse_i64 s = parse_unsigned 10 i64_max s.
Proof.
  intros Hs. unfold parse_i64. destruct s as [|b [|c r]]; [reflexivity..|].
  destruct (Z.eqb_spec b 45) as [->|]; [destruct (Hs (c :: r) eq_refl) | reflexivity].
Qed.

Lemma show_dec_inj v w : is_u128 v -> is_u128 w -> show_dec v = show_dec w -> v = w.
Proof.
  intros Hv Hw H.
  pose proof (parse_show_dec u128_max v Hv ltac:(apply Hv)) as H1.
  pose proof (parse_show_dec u128_max w Hw ltac:(apply Hw)) as H2. congruence.
Qed.

(** Decimal text is ASCII digits. *)
Lemma show_dec_digits v : is_u128 v -> Forall (fun b => 48 <= b <= 57) (show_dec v).
Proof.
  intros Hv. destruct (show_radix_digits 10 v ltac:(lia) Hv) as (ds & E & Hd & _ & _).
  unfold show_dec. rewrite E. apply Forall_fmap. eapply list.Forall_impl; [exact Hd|].
  intros d Hd0. cbn in *. destruct (digit_char_cases d ltac:(lia)) as [[? ->] | [? ->]]; lia.
Qed.

(** ** Separators *)

Lemma split_at_sep {A} (x : A) a b c d :
  x ∉ a -> x ∉ c -> a ++ x :: b = c ++ x :: d -> b = d.
Proof.
  revert c. induction a as [|y a IH]; intros [|z c] Ha Hc E; cbn in E.
  - injection E as E. exact E.
  - injection E as E1 E2. subst. set_solver.
  - injection E as E1 E2. subst. set_solver.
  - injection E as E1 E2. apply (IH c); [set_solver | set_solver | exact E2].
Qed.

(** The last field of a text is determined by the separator before it. *)
Lemma split_last_sep {A} (x : A) a b c d :
  x ∉ b -> x ∉ d -> a ++ x :: b = c ++ x :: d -> a = c /\ b = d.
Proof.
  intros Hb Hd E. apply (f_equal (@rev A)) in E. rewrite !rev_app_distr in E. cbn in E. rewrite <- !app_assoc in E.
  assert (Er : rev a = rev c).
  { apply (split_at_sep x (rev b) (rev a) (rev d) (rev c)); [| | exact E];
      intros Hin; apply list_elem_of_In, in_rev, list_elem_of_In in Hin; auto. }
  assert (a = c) as -> by (rewrite <- (rev_involutive a), Er; apply rev_involutive).
  apply (f_equal (@rev A)) in E. rewrite !rev_app_distr, !rev_involutive in E. cbn in E.
  rewrite <- !app_assoc in E. apply app_inv_head in E. injection E as E. auto.
Qed.

(** [str::split] on a one-byte character. *)
Fixpoint split_on (sep : Z) (s : str) : list str :=
  match s with
  | [] => [[]]
  | b :: s' =>
      if b =? sep then [] :: split_on sep s'
      else match split_on sep s' with
           | [] => [[b]]
           | seg :: rest => (b :: seg) :: rest
           end
  end.

Fixpoint join_on (sep : Z) (segments : list str) : str :=
  match segments with
  | [] => []
  | [s] => s
  | s :: rest => s ++ sep :: join_on sep rest
  end.

Lemma split_on_cons sep s : exists seg rest, split_on sep s = seg :: rest.
Proof.
  destruct s as [|b s]; cbn; [eauto|]. destruct (b =? sep); [eauto|]. destruct (split_on sep s); eauto.
Qed.

Lemma join_split sep s : join_on sep (split_on sep s) = s.
Proof.
  induction s as [|b s IH]; [reflexivity|]. cbn [split_on]. destruct (split_on_cons sep s) as (seg & rest & E).
  rewrite E in *. destruct (Z.eqb_spec b sep) as [->|].
  - cbn [join_on app]. f_equal. exact IH.
  - destruct rest; cbn [join_on app] in *; f_equal; exact IH.
Qed.

Lemma split_on_fields sep s : Forall (fun seg => sep ∉ seg) (split_on sep s).
Proof.
  induction s as [|b s IH]; cbn [split_on]; [repeat constructor; set_solver|].
  destruct (Z.eqb_spec b sep); [constructor; [set_solver | exact IH]|].
  destruct (split_on_cons sep s) as (seg & rest & E). rewrite E in *.
  apply Forall_cons_iff in IH as [H1 H2]. constructor; [set_solver | exact H2].
Qed.

Lemma split_on_app sep seg s : sep ∉ seg -> split_on sep (seg ++ sep :: s) = seg :: split_on sep s.
Proof.
  induction seg as [|b seg IH]; intros Hin; cbn [app split_on]; [rewrite Z.eqb_refl; reflexivity|].
  destruct (Z.eqb_spec b sep) as [->|]; [set_solver|]. rewrite IH by set_solver. reflexivity.
Qed.

Lemma split_join sep segments :
  segments <> [] -> Forall (fun seg => sep ∉ seg) segments -> split_on sep (join_on sep segments) = segments.
Proof.
  induction segments as [|seg rest IH]; [congruence|]. intros _ Hall. apply Forall_cons_iff in Hall as [Hseg Hrest].
  destruct rest as [|seg' rest]; cbn [join_on].
  - clear IH Hrest. induction seg as [|b seg IHs]; [reflexivity|]. cbn [split_on].
    destruct (Z.eqb_spec b sep) as [->|]; [set_solver|]. rewrite IHs by set_solver. reflexivity.
  - rewrite split_on_app by exact Hseg. f_equal. apply IH; [discriminate | exact Hrest].
Qed.

(** The bytes of an accepted decimal numeral. *)
Lemma parse_digits_bytes max acc s v : parse_digits 10 max acc s = Ok v -> Forall (fun b => 48 <= b <= 57) s.
Proof.
  revert acc. induction s as [|b s IH]; intros acc Hp; [constructor|]. cbn [parse_digits] in Hp.
  destruct (digit_value 10 b) as [d|] eqn:Hd; [|discriminate]. destruct (_ <=? _); [|discriminate].
  constructor; [|exact (IH _ Hp)]. unfold digit_value, is_ascii_digit, is_ascii_lower, is_ascii_upper in Hd.
  repeat case_match; bool_to_prop; simplify_eq; lia.
Qed.

Lemma parse_unsigned_bytes max s v : parse_unsigned 10 max s = Ok v -> Forall (fun b => b = 43 \/ 48 <= b <= 57) s.
Proof.
  intros Hp. assert (Hd : forall acc t, parse_digits 10 max acc t = Ok v -> Forall (fun b => b = 43 \/ 48 <= b <= 57) t).
  { intros acc t Ht. apply parse_digits_bytes in Ht. eapply list.Forall_impl; [exact Ht|]. auto. }
  unfold parse_unsigned in Hp. destruct s as [|b [|c s]]; [discriminate | |].
  - destruct ((b =? 43) || (b =? 45)); [discriminate | eauto].
  - destruct (Z.eqb_spec b 43) as [->|]; [constructor; [auto | eauto] | eauto].
Qed.

Lemma parse_unsigned_no_panic radix max s : parse_unsigned radix max s <> Panic.
Proof.
  assert (Hd : forall s acc, parse_digits radix max acc s <> Panic).
  { clear s. induction s as [|b s IH]; intros acc; cbn; [discriminate|].
    repeat case_match; try discriminate. apply IH. }
  unfold parse_unsigned. repeat case_match; try discriminate; apply Hd.
Qed.
