(* ===== verification/Chain.v ===== *)
(** The shared vocabulary of the wallet: the supported chains, their names, the
    address and transaction errors, and the contract-version and
    mnemonic-length rules ([tinywallet-bus]: [chain], [error], [version],
    [mnemonic], [transfer]; [tinywallet-crypto]: [tx/mod.rs]). *)

From stdpp Require Import base list strings numbers sets.
From S2P Require Import Prelude Text.

(** * Chains *)

Inductive Chain := Btc | Evm | Solana | Tron.
#[export] Instance Chain_eq_dec : EqDecision Chain.
Proof. solve_decision. Defined.

Definition Chain_ALL : list Chain := [Btc; Evm; Solana; Tron].

Definition Chain_as_str (c : Chain) : str :=
  match c with
  | Btc => lit "btc" | Evm => lit "evm" | Solana => lit "solana" | Tron => lit "tron"
  end.

(** [UnknownChain] carries the trimmed, lowercased input. *)
Definition Chain_from_str (s : str) : res str Chain :=
  let name := ascii_lowercase (trim s) in
  if bool_decide (name = lit "btc") || bool_decide (name = lit "bitcoin") then Ok Btc
  else if bool_decide (name = lit "evm") || bool_decide (name = lit "eth")
          || bool_decide (name = lit "ethereum") then Ok Evm
  else if bool_decide (name = lit "solana") || bool_decide (name = lit "sol") then Ok Solana
  else if bool_decide (name = lit "tron") || bool_decide (name = lit "trx") then Ok Tron
  else Err name.

(** * Errors *)

(** [tinywallet_bus::Error]. *)
Inductive addr_error :=
  | EmptyAddress (chain : Chain)
  | InvalidAddress (chain : Chain) (address reason : str)
  | WrongNetwork (chain : Chain) (address expected reason : str)
  | UnsupportedAddressType (chain : Chain) (address reason : str)
  | ChainNotCompiled (chain : Chain).
#[export] Instance addr_error_eq_dec : EqDecision addr_error.
Proof. solve_decision. Defined.

(** [tinywallet_crypto::tx::Error]. *)
Inductive tx_error :=
  | TxAddress (e : addr_error)
  | InvalidField (field reason : str)
  | InsufficientFunds (available required : Z)
  | UntrustedResponse (reason : str)
  | Signing (reason : str).
#[export] Instance tx_error_eq_dec : EqDecision tx_error.
Proof. solve_decision. Defined.

(** [Display] of the two. *)
Definition addr_error_text (e : addr_error) : str :=
  match e with
  | EmptyAddress chain => Chain_as_str chain ++ lit " address is empty"
  | InvalidAddress chain address reason =>
      lit "invalid " ++ Chain_as_str chain ++ lit " address '" ++ address ++ lit "': " ++ reason
  | WrongNetwork chain address expected reason =>
      Chain_as_str chain ++ lit " address '" ++ address ++ lit "' is not on " ++ expected ++ lit ": " ++ reason
  | UnsupportedAddressType chain address reason =>
      Chain_as_str chain ++ lit " address '" ++ address ++ lit "' is not supported as a sender: " ++ reason
  | ChainNotCompiled chain =>
      lit "tinywallet was built without support for " ++ Chain_as_str chain ++ lit "; enable the '"
      ++ Chain_as_str chain ++ lit "' feature to validate its addresses"
  end.

Definition tx_error_text (e : tx_error) : str :=
  match e with
  | TxAddress e => addr_error_text e
  | InvalidField field reason => lit "invalid transaction field '" ++ field ++ lit "': " ++ reason
  | InsufficientFunds available required =>
      lit "insufficient funds: have " ++ show_dec available ++ lit ", need " ++ show_dec required
  | UntrustedResponse reason => lit "untrusted node response: " ++ reason
  | Signing reason => lit "signing failed: " ++ reason
  end.

(** [tinywallet_bus::TronTransfer]. *)
Inductive TronTransfer :=
  | Native (amount_sun : Z)
  | Trc20 (parameter_hex : str).
#[export] Instance TronTransfer_eq_dec : EqDecision TronTransfer.
Proof. solve_decision. Defined.

(** * Contract version *)

Definition CONTRACT_VERSION : Z * Z := (1, 14).

Definition is_compatible (module : Z * Z) : bool :=
  (module.1 =? CONTRACT_VERSION.1) && (CONTRACT_VERSION.2 <=? module.2).

(** * Mnemonic lengths *)

Definition MNEMONIC_WORD_COUNTS : list Z := [12; 15; 18; 21; 24].

(** The error is the rejected count. *)
Definition validate_mnemonic_word_count (count : Z) : res Z Z :=
  if bool_decide (count ∈ MNEMONIC_WORD_COUNTS) then Ok count else Err count.

Definition validate_mnemonic_word_count_usize (count : Z) : res Z Z :=
  match (if count <=? 255 then Some count else None) with
  | None => Err count
  | Some narrow =>
    match validate_mnemonic_word_count narrow with Ok n => Ok n | _ => Err count end
  end.

(** * Properties *)

(** Every chain's name parses back to it, in any letter case and with
    surrounding whitespace; anything else is reported trimmed and lowercased. *)
Lemma Chain_from_str_as_str c : Chain_from_str (Chain_as_str c) = Ok c.
Proof. destruct c; vm_compute; reflexivity. Qed.

Lemma Chain_ALL_complete c : c ∈ Chain_ALL.
Proof. destruct c; unfold Chain_ALL; set_solver. Qed.

(** BIP-39: a phrase of [n] words carries [32 * n / 3] bits of entropy, from 128
    to 256 in steps of 32. *)
Lemma mnemonic_word_count_bip39 n :
  0 <= n ->
  is_ok (validate_mnemonic_word_count_usize n) = true <->
  exists bits, bits mod 32 = 0 /\ 128 <= bits <= 256 /\ 3 * bits = 32 * n.
Proof.
  intros Hn. unfold validate_mnemonic_word_count_usize, validate_mnemonic_word_count.
  assert (Hmem : n ∈ MNEMONIC_WORD_COUNTS <->
                 n = 12 \/ n = 15 \/ n = 18 \/ n = 21 \/ n = 24).
  { unfold MNEMONIC_WORD_COUNTS. set_solver. }
  split.
  - destruct (n <=? 255); [|discriminate].
    case_bool_decide as H; [|discriminate]. intros _. apply Hmem in H.
    exists (32 * n / 3). divmod.
  - intros (bits & H1 & H2 & H3).
    assert (Hin : n ∈ MNEMONIC_WORD_COUNTS).
    { apply Hmem. divmod. }
    replace (n <=? 255) with true by lia.
    case_bool_decide; [reflexivity | contradiction].
Qed.
