(* ===== verification/Proto.v ===== *)
(** The structural protobuf reader of [crates/tinywallet-crypto/src/tx/proto.rs].

    Definitions first: the writer [encode_varint], the reader [take_varint],
    [take_exact], [parse_fields] and the singular accessors.  Then the wire
    grammar as an independent specification ([varint_repr], [field_repr],
    [message_repr]) and the proofs that the reader accepts exactly it. *)

From stdpp Require Import base list strings numbers sets.
From S2P Require Import Prelude Text Chain.

(** * The reader *)

(** A field's value, as far as the wire format alone can tell. *)
Inductive Value :=
  | Varint (v : Z)
  | Bytes (b : list Z)
  | Other.

Record Field := mkField { number : Z; value : Value }.

Definition invalid (reason : str) : tx_error := InvalidField (lit "protobuf") reason.

(** One turn of the loop emits seven bits; ten turns drain a [u64]. *)
Fixpoint encode_varint_loop (fuel : nat) (value : Z) : list Z :=
  match fuel with
  | O => []
  | S fuel' =>
    let byte := Z.land value 127 in
    let rest := Z.shiftr value 7 in
    let byte := if negb (rest =? 0) then Z.lor byte 128 else byte in
    if rest =? 0 then [byte] else byte :: encode_varint_loop fuel' rest
  end.
Definition encode_varint (value : Z) : list Z := encode_varint_loop 10 value.

(** [for shift in (0..=63).step_by(7)]. *)
Definition shifts : list Z := [0; 7; 14; 21; 28; 35; 42; 49; 56; 63].

Fixpoint take_varint_loop (shifts : list Z) (value : Z) (input : list Z)
  : res tx_error (Z * list Z) :=
  match shifts with
  | [] => Err (invalid (lit "varint is too long"))
  | shift :: shifts' =>
    match input with
    | [] => Err (invalid (lit "truncated varint"))
    | byte :: rest =>
      let part := Z.land byte 127 in
      if (shift =? 63) && (1 <? part) then Err (invalid (lit "varint overflows u64"))
      else
        let value := Z.lor value (Z.shiftl part shift) in
        if Z.land byte 128 =? 0 then Ok (value, rest)
        else take_varint_loop shifts' value rest
    end
  end.
Definition take_varint (input : list Z) : res tx_error (Z * list Z) :=
  take_varint_loop shifts 0 input.

(** [usize::try_from] on a 64-bit target. *)
Definition usize_try_from (v : Z) : option Z := if v <=? u64_max then Some v else None.

Definition take_exact (input : list Z) (length : Z) : res tx_error (list Z * list Z) :=
  if Z.of_nat (List.length input) <? length then Err (invalid (lit "truncated field"))
  else Ok (take (Z.to_nat length) input, drop (Z.to_nat length) input).

(** The value part of one field, by wire type. *)
Definition take_value (wire : Z) (input : list Z) : res tx_error (Value * list Z) :=
  if wire =? 0 then
    '(v, input) ← take_varint input; Ok (Varint v, input)
  else if wire =? 1 then
    '(_, input) ← take_exact input 8; Ok (Other, input)
  else if wire =? 2 then
    '(v, input) ← take_varint input;
    length ← ok_or (usize_try_from v) (invalid (lit "field length is too large"));
    '(b, input) ← take_exact input length; Ok (Bytes b, input)
  else if wire =? 5 then
    '(_, input) ← take_exact input 4; Ok (Other, input)
  else Err (invalid (lit "unsupported wire type " ++ show_dec wire)).

(** One turn of the [while !input.is_empty()] loop. *)
Definition take_field (input : list Z) : res tx_error (Field * list Z) :=
  '(key, input) ← take_varint input;
  let number := Z.shiftr key 3 in
  _ ← err_if (number =? 0) (invalid (lit "contains field zero"));
  '(value, input) ← take_value (Z.land key 7) input;
  Ok (mkField number value, input).

(** Every turn consumes at least one byte, so the input's length is enough
    fuel; running out of it is the (unreachable) [Panic]. *)
Fixpoint parse_fields_loop (fuel : nat) (input : list Z) : res tx_error (list Field) :=
  match input, fuel with
  | [], _ => Ok []
  | _ :: _, O => Panic
  | _ :: _, S fuel' =>
    '(field, rest) ← take_field input;
    fields ← parse_fields_loop fuel' rest;
    Ok (field :: fields)
  end.
Definition parse_fields (input : list Z) : res tx_error (list Field) :=
  parse_fields_loop (length input) input.

Definition matching (fields : list Field) (n : Z) : list Field :=
  filter (fun f => number f = n) fields.

(** "Exactly one, or refuse". *)
Definition single (fields : list Field) (n : Z) (name : str) : res tx_error Value :=
  match matching fields n with
  | [] => Err (invalid (lit "is missing " ++ name))
  | field :: rest =>
    match rest with
    | _ :: _ => Err (invalid (lit "repeats singular field " ++ name))
    | [] => Ok (value field)
    end
  end.

Definition wrong_wire_type (name : str) : tx_error :=
  invalid (lit "field " ++ name ++ lit " has the wrong wire type").

Definition one_bytes (fields : list Field) (n : Z) (name : str) : res tx_error (list Z) :=
  v ← single fields n name;
  match v with Bytes b => Ok b | _ => Err (wrong_wire_type name) end.

Definition optional_varint (fields : list Field) (n : Z) (name : str)
  : res tx_error (option Z) :=
  match matching fields n with
  | [] => Ok None
  | field :: rest =>
    match rest with
    | _ :: _ => Err (invalid (lit "repeats singular field " ++ name))
    | [] => match value field with
            | Varint v => Ok (Some v)
            | _ => Err (wrong_wire_type name)
            end
    end
  end.

Definition one_varint (fields : list Field) (n : Z) (name : str) : res tx_error Z :=
  v ← optional_varint fields n name;
  ok_or v (invalid (lit "is missing " ++ name)).

(** * The wire grammar *)

(** Base-128, least significant group first. *)
Fixpoint base128 (bs : list Z) : Z :=
  match bs with [] => 0 | b :: bs' => b mod 128 + 128 * base128 bs' end.

(** All bytes but the last carry the continuation bit. *)
Fixpoint continued (bs : list Z) : Prop :=
  match bs with
  | [] => False
  | [b] => b < 128
  | b :: bs' => 128 <= b /\ continued bs'
  end.

(** The encodings of [v], padded ones included, that a reader of [u64] accepts. *)
Definition varint_repr (v : Z) (bs : list Z) : Prop :=
  continued bs /\ (length bs <= 10)%nat /\ base128 bs = v /\ v <= u64_max.

Inductive value_repr : Z -> Value -> list Z -> Prop :=
  | repr_varint v bs : varint_repr v bs -> value_repr 0 (Varint v) bs
  | repr_fixed64 bs : length bs = 8%nat -> value_repr 1 Other bs
  | repr_bytes ls bs : varint_repr (Z.of_nat (length bs)) ls -> value_repr 2 (Bytes bs) (ls ++ bs)
  | repr_fixed32 bs : length bs = 4%nat -> value_repr 5 Other bs.

Inductive field_repr : Field -> list Z -> Prop :=
  | repr_field n wire v ks bs :
      0 < n -> varint_repr (8 * n + wire) ks -> value_repr wire v bs ->
      field_repr (mkField n v) (ks ++ bs).

Inductive message_repr : list Field -> list Z -> Prop :=
  | repr_nil : message_repr [] []
  | repr_cons f fs bs rest :
      field_repr f bs -> message_repr fs rest -> message_repr (f :: fs) (bs ++ rest).

(** * Varints *)

Lemma shifts_drop k :
  (k < 10)%nat -> drop k shifts = 7 * Z.of_nat k :: drop (S k) shifts.
Proof. intros H. do 10 (destruct k as [|k]; [reflexivity|]). lia. Qed.

Lemma continued_cons b bs :
  continued (b :: bs) <-> (b < 128 /\ bs = []) \/ (128 <= b /\ continued bs).
Proof.
  destruct bs as [|c bs]; cbn [continued]; [tauto|].
  split; [tauto | intros [[_ [=]] | H]; exact H].
Qed.

Lemma base128_bound bs : 0 <= base128 bs < 128 ^ Z.of_nat (length bs).
Proof.
  induction bs as [|b bs IH]; [simpl; lia|].
  rewrite length_cons, Nat2Z.inj_succ, Z.pow_succ_r by lia. cbn [base128].
  pose proof (Z.mod_pos_bound b 128). lia.
Qed.

(** The invariant of the reading loop: after [k] bytes the accumulator holds
    the value of those bytes, and what is left to read is a run of continued
    bytes that fits the remaining width. *)
Lemma take_varint_loop_spec input : bytes_ok input -> forall k acc v rest,
  (k <= 10)%nat -> 0 <= acc < 2 ^ (7 * Z.of_nat k) ->
  take_varint_loop (drop k shifts) acc input = Ok (v, rest) <->
  exists bs, input = bs ++ rest /\ continued bs /\ (k + length bs <= 10)%nat
    /\ v = acc + 2 ^ (7 * Z.of_nat k) * base128 bs /\ v <= u64_max.
Proof.
  induction 1 as [|b input Hb Hin IH]; intros k acc v rest Hk Hacc.
  - destruct (decide (k = 10%nat)) as [->|Hne].
    + split; [discriminate | intros ([|c bs] & H & Hc & _); [destruct Hc | discriminate]].
    + rewrite shifts_drop by lia. simpl.
      split; [discriminate | intros ([|c bs] & H & Hc & _); [destruct Hc | discriminate]].
  - destruct (decide (k = 10%nat)) as [->|Hne].
    { split; [discriminate|]. intros ([|c bs] & H & Hc & Hl & _); [destruct Hc|simpl in Hl; lia]. }
    rewrite shifts_drop by lia. cbn [take_varint_loop].
    rewrite land_127, land_128_zero, lor_shiftl_add by (auto; lia).
    pose proof (Z.mod_pos_bound b 128 ltac:(lia)) as Hm.
    set (W := 2 ^ (7 * Z.of_nat k)) in *.
    assert (HW : 2 ^ (7 * Z.of_nat (S k)) = 128 * W).
    { replace (7 * Z.of_nat (S k)) with (7 + 7 * Z.of_nat k) by lia.
      rewrite Z.pow_add_r by lia. reflexivity. }
    assert (Hfit : (7 * Z.of_nat k =? 63) && (1 <? b mod 128) = false <->
                   acc + W * (b mod 128) <= u64_max).
    { destruct (Z.eqb_spec (7 * Z.of_nat k) 63) as [E|E]; cbn [andb].
      - unfold W in *. rewrite E in *. unfold u64_max. rewrite Z.ltb_ge. lia.
      - split; [intros _ | reflexivity].
        assert (W <= 2 ^ 56) by (unfold W; apply Z.pow_le_mono_r; lia).
        unfold u64_max. nia. }
    destruct ((7 * Z.of_nat k =? 63) && (1 <? b mod 128)) eqn:E.
    { split; [discriminate|]. intros ([|c bs] & H & Hc & Hl & Hv & Hle); [destruct Hc|].
      injection H as <- ->. cbn [base128] in Hv.
      pose proof (base128_bound bs).
      assert (0 <= W * (128 * base128 bs)) by (unfold W; apply Z.mul_nonneg_nonneg; lia).
      assert (Hle' : acc + W * (b mod 128) <= u64_max) by lia.
      apply Hfit in Hle'. discriminate. }
    destruct (Z.ltb_spec b 128) as [Hlt|Hge].
    + split.
      * intros [= <- <-]. exists [b]. cbn. rewrite Z.mul_0_r, Z.add_0_r.
        repeat split; try lia; apply Hfit; reflexivity.
      * intros ([|c bs] & H & Hc & Hl & Hv & Hle); [destruct Hc|]. injection H as <- ->.
        apply continued_cons in Hc as [[_ ->] | [? _]]; [|lia].
        cbn in Hv. rewrite Z.mul_0_r, Z.add_0_r in Hv. cbn. do 2 f_equal. lia.
    + rewrite IH by (try rewrite HW; nia). rewrite HW. split.
      * intros (bs & -> & Hc & Hl & Hv & Hle). exists (b :: bs). cbn [base128 length].
        rewrite continued_cons. repeat split; try lia; [right; split; [lia|exact Hc]].
      * intros ([|c bs] & H & Hc & Hl & Hv & Hle); [destruct Hc|]. injection H as <- ->.
        apply continued_cons in Hc as [[? _] | [_ Hc]]; [lia|]. exists bs.
        cbn [base128 length] in *. repeat split; auto; lia.
Qed.

Lemma take_varint_spec input v rest :
  bytes_ok input ->
  take_varint input = Ok (v, rest) <-> exists bs, input = bs ++ rest /\ varint_repr v bs.
Proof.
  intros Hin. unfold take_varint. change shifts with (drop 0 shifts) at 1.
  rewrite take_varint_loop_spec by (auto; simpl; lia). unfold varint_repr.
  change (2 ^ (7 * Z.of_nat 0)) with 1. setoid_rewrite Z.mul_1_l. setoid_rewrite Z.add_0_l.
  cbn [Nat.add]. naive_solver.
Qed.

Lemma take_varint_no_panic input : take_varint input <> Panic.
Proof.
  unfold take_varint. generalize 0. generalize shifts. intros sh. revert input.
  induction sh as [|s sh IH]; intros [|b input] acc; simpl; try discriminate.
  repeat (case_bool; try discriminate). apply IH.
Qed.

(** The writer emits a minimal representation. *)
Lemma encode_varint_loop_spec fuel v :
  0 <= v < 128 ^ Z.of_nat fuel -> (0 < fuel)%nat ->
  let bs := encode_varint_loop fuel v in
  continued bs /\ bytes_ok bs /\ (length bs <= fuel)%nat /\ base128 bs = v
  /\ (length bs = 1%nat \/ 128 ^ (Z.of_nat (length bs) - 1) <= v).
Proof.
  revert v. induction fuel as [|fuel IH]; intros v Hv Hf; [lia|].
  rewrite Nat2Z.inj_succ, Z.pow_succ_r in Hv by lia.
  cbn [encode_varint_loop]. rewrite land_127, shiftr_7.
  pose proof (Z.mod_pos_bound v 128 ltac:(lia)) as Hm.
  pose proof (Z.div_mod v 128 ltac:(lia)) as Hdm.
  destruct (Z.eqb_spec (v / 128) 0) as [E|E]; cbn [negb].
  - cbn. rewrite Z.mod_mod by lia. repeat split; try lia.
    constructor; [unfold is_u8; lia | constructor].
  - rewrite lor_128_add by lia.
    assert (Hd : 0 < v / 128) by (pose proof (Z.div_pos v 128); lia).
    assert (Hdlt : v / 128 < 128 ^ Z.of_nat fuel) by (apply Z.div_lt_upper_bound; lia).
    destruct fuel as [|fuel']; [simpl in Hdlt; lia|].
    destruct (IH (v / 128) ltac:(lia) ltac:(lia)) as (Hc & Hok & Hl & Hb & Hmin).
    cbn [length base128]. set (bs := encode_varint_loop (S fuel') (v / 128)) in *.
    rewrite continued_cons, Hb. split; [right; split; [lia|exact Hc]|].
    split; [constructor; [unfold is_u8; lia|exact Hok]|].
    replace ((v mod 128 + 128) mod 128) with (v mod 128)
      by (divmod).
    repeat split; try lia. right. rewrite Nat2Z.inj_succ.
    destruct Hmin as [Hmin | Hmin]; [rewrite Hmin; simpl; lia|].
    replace (Z.succ (Z.of_nat (length bs)) - 1) with (Z.succ (Z.of_nat (length bs) - 1)) by lia.
    rewrite Z.pow_succ_r; [lia|]. destruct bs; [destruct Hc | simpl length; lia].
Qed.

Lemma encode_varint_repr v :
  is_u64 v -> varint_repr v (encode_varint v) /\ bytes_ok (encode_varint v).
Proof.
  unfold is_u64, u64_max. intros Hv.
  destruct (encode_varint_loop_spec 10 v ltac:(lia) ltac:(lia)) as (Hc & Hok & Hl & Hb & _).
  unfold varint_repr, encode_varint, u64_max. repeat split; auto; lia.
Qed.

(** * Fields and messages *)

Lemma take_exact_ok input n a b :
  0 <= n ->
  take_exact input n = Ok (a, b) <-> input = a ++ b /\ Z.of_nat (length a) = n.
Proof.
  intros Hn. unfold take_exact. case_bool; bool_to_prop.
  - split; [discriminate|]. intros (-> & Ha). rewrite length_app in *. lia.
  - split.
    + intros [= <- <-]. rewrite take_drop, length_take. split; [reflexivity | lia].
    + intros (-> & Ha). rewrite take_app_length', drop_app_length' by lia. reflexivity.
Qed.

Lemma take_value_spec wire input v rest :
  bytes_ok input ->
  take_value wire input = Ok (v, rest) <->
  exists bs, input = bs ++ rest /\ value_repr wire v bs.
Proof.
  intros Hin. unfold take_value. split.
  - intros H.
    destruct (Z.eqb_spec wire 0) as [->|_].
    { apply bind_ok in H as ([u i] & Ht & H). cbn in H. injection H as <- <-.
      apply take_varint_spec in Ht as (bs & -> & Hr); [|exact Hin].
      exists bs. split; [reflexivity | constructor; exact Hr]. }
    destruct (Z.eqb_spec wire 1) as [->|_].
    { apply bind_ok in H as ([u i] & Ht & H). cbn in H. injection H as <- <-.
      apply take_exact_ok in Ht as (-> & Hl); [|lia].
      exists u. split; [reflexivity | constructor; lia]. }
    destruct (Z.eqb_spec wire 2) as [->|_].
    { apply bind_ok in H as ([u i] & Ht & H). apply bind_ok in H as (n & Hn & H).
      apply bind_ok in H as ([b i'] & Hb & H). cbn in H. injection H as <- <-.
      apply ok_or_ok in Hn. unfold usize_try_from in Hn. case_match; [|discriminate].
      injection Hn as <-. apply take_varint_spec in Ht as (ls & -> & Hr); [|exact Hin].
      pose proof Hr as (_ & _ & Hv & _). pose proof (base128_bound ls).
      apply take_exact_ok in Hb as (-> & Hl); [|lia].
      exists (ls ++ b). split; [rewrite <- app_assoc; reflexivity|].
      constructor. rewrite Hl. exact Hr. }
    destruct (Z.eqb_spec wire 5) as [->|_]; [|discriminate].
    apply bind_ok in H as ([u i] & Ht & H). cbn in H. injection H as <- <-.
    apply take_exact_ok in Ht as (-> & Hl); [|lia].
    exists u. split; [reflexivity | constructor; lia].
  - intros (bs & -> & Hr). destruct Hr as [v bs Hv | bs Hl | ls bs Hv | bs Hl]; cbn [Z.eqb Pos.eqb].
    + erewrite (proj2 (take_varint_spec _ v rest Hin)) by eauto. reflexivity.
    + rewrite (proj2 (take_exact_ok _ 8 bs rest ltac:(lia))) by (split; [reflexivity | lia]).
      reflexivity.
    + rewrite <- app_assoc in *.
      erewrite (proj2 (take_varint_spec _ _ (bs ++ rest) Hin)) by eauto. cbn [mbind res_bind].
      unfold usize_try_from. destruct Hv as (_ & _ & _ & Hle).
      replace (_ <=? u64_max) with true by lia. cbn [ok_or mbind res_bind].
      rewrite (proj2 (take_exact_ok _ (Z.of_nat (length bs)) bs rest ltac:(lia))) by auto. reflexivity.
    + rewrite (proj2 (take_exact_ok _ 4 bs rest ltac:(lia))) by (split; [reflexivity | lia]).
      reflexivity.
Qed.

Lemma value_repr_wire wire v bs : value_repr wire v bs -> 0 <= wire < 8.
Proof. destruct 1; lia. Qed.

Lemma field_repr_not_nil f : ~ field_repr f [].
Proof.
  inversion 1 as [n wire v ks bs Hn Hk Hv Hf Happ]; subst. apply app_nil in Happ as [-> _].
  destruct Hk as [[] _].
Qed.

Lemma message_repr_nil fs : message_repr fs [] <-> fs = [].
Proof.
  split; [|intros ->; constructor].
  inversion 1 as [|f fs' bs rest Hf Hm H1 Happ]; [reflexivity|].
  apply app_nil in Happ as [-> _]. destruct (field_repr_not_nil _ Hf).
Qed.

Lemma take_field_spec input f rest :
  bytes_ok input ->
  take_field input = Ok (f, rest) <-> exists bs, input = bs ++ rest /\ field_repr f bs.
Proof.
  intros Hin. unfold take_field. split.
  - intros H. apply bind_ok in H as ([key i1] & Hk & H). apply bind_ok in H as (u & Hz & H).
    apply bind_ok in H as ([w i2] & Hv & H). cbn in H. injection H as <- <-.
    apply err_if_ok, Z.eqb_neq in Hz.
    apply take_varint_spec in Hk as (ks & -> & Hk); [|exact Hin].
    apply Forall_app in Hin as [_ Hin'].
    apply take_value_spec in Hv as (bs & -> & Hv); [|assumption].
    exists (ks ++ bs). split; [rewrite app_assoc; reflexivity|].
    pose proof Hk as (_ & _ & Hb & _). pose proof (base128_bound ks).
    change 7 with (Z.ones 3) in Hv. rewrite Z.land_ones in Hv by lia.
    rewrite Z.shiftr_div_pow2 in * by lia. change (2 ^ 3) with 8 in *.
    econstructor; [divmod | | exact Hv].
    replace (8 * (key / 8) + key mod 8) with key by (divmod).
    exact Hk.
  - intros (bs & -> & Hf). destruct Hf as [n wire v ks bs Hn Hk Hv].
    pose proof (value_repr_wire _ _ _ Hv). rewrite <- app_assoc in *.
    erewrite (proj2 (take_varint_spec _ _ (bs ++ rest) Hin)) by eauto. cbn [mbind res_bind].
    change 7 with (Z.ones 3). rewrite Z.land_ones, Z.shiftr_div_pow2 by lia. change (2 ^ 3) with 8.
    replace ((8 * n + wire) / 8) with n by (divmod).
    replace ((8 * n + wire) mod 8) with wire by (divmod).
    replace (n =? 0) with false by lia. cbn [err_if mbind res_bind].
    apply Forall_app in Hin as [_ Hin].
    erewrite (proj2 (take_value_spec _ _ v rest Hin)) by eauto. reflexivity.
Qed.

Lemma take_exact_no_panic input n : take_exact input n <> Panic.
Proof. unfold take_exact. case_match; discriminate. Qed.

Lemma take_field_no_panic input : take_field input <> Panic.
Proof.
  unfold take_field, take_value.
  apply bind_no_panic; [apply take_varint_no_panic | intros [key i1]].
  apply bind_no_panic; [unfold err_if; case_match; discriminate | intros _].
  apply bind_no_panic; [| intros [v i2]; discriminate].
  repeat case_match; try discriminate; (apply bind_no_panic;
    [apply take_exact_no_panic || apply take_varint_no_panic | intros [u i2]; try discriminate]).
  apply bind_no_panic; [unfold ok_or; case_match; discriminate | intros n].
  apply bind_no_panic; [apply take_exact_no_panic | intros [b i3]; discriminate].
Qed.

Lemma take_field_progress input f rest :
  bytes_ok input -> take_field input = Ok (f, rest) ->
  bytes_ok rest /\ (length rest < length input)%nat.
Proof.
  intros Hin H. apply take_field_spec in H as (bs & -> & Hf); [|exact Hin].
  apply Forall_app in Hin as [_ Hin]. split; [exact Hin|]. rewrite length_app.
  destruct bs; [destruct (field_repr_not_nil _ Hf) | simpl; lia].
Qed.

Lemma parse_fields_loop_spec fuel input :
  bytes_ok input -> (length input <= fuel)%nat ->
  parse_fields_loop fuel input <> Panic /\
  forall fs, parse_fields_loop fuel input = Ok fs <-> message_repr fs input.
Proof.
  revert input. induction fuel as [|fuel IH]; intros [|b input] Hin Hl; cbn [length] in Hl; try lia.
  1,2: split; [simpl; discriminate | intros fs; rewrite message_repr_nil; simpl; split; congruence].
  cbn [parse_fields_loop].
  assert (Hle : (length (b :: input) <= S fuel)%nat) by (simpl; lia). clear Hl.
  assert (Hne : b :: input <> []) by discriminate.
  revert Hin Hle Hne. generalize (b :: input). clear b input. intros inp Hin Hle Hne.
  split.
  - intros H. apply bind_panic in H as [H | ([f rest] & Hf & H)].
    { destruct (take_field_no_panic _ H). }
    destruct (take_field_progress _ _ _ Hin Hf) as [Hr Hlt].
    destruct (IH rest Hr ltac:(lia)) as [Hnp _].
    apply bind_panic in H as [H | (? & _ & [=])]. contradiction.
  - intros fs. rewrite bind_ok. split.
    + intros ([f rest] & Hf & H).
      destruct (take_field_progress _ _ _ Hin Hf) as [Hr Hlt].
      destruct (IH rest Hr ltac:(lia)) as [_ Hs]. inv_ok. subst.
      apply take_field_spec in Hf as (bs & -> & Hf); [|exact Hin].
      constructor; [exact Hf|]. apply Hs. assumption.
    + intros Hm. inversion Hm as [|f fs' bs rest Hf Hm' H1 H2]; subst; [congruence|].
      assert (Ht : take_field (bs ++ rest) = Ok (f, rest)).
      { apply take_field_spec; [exact Hin|]. eauto. }
      exists (f, rest). split; [exact Ht|].
      destruct (take_field_progress _ _ _ Hin Ht) as [Hr Hlt].
      destruct (IH rest Hr ltac:(lia)) as [_ Hs].
      rewrite (proj2 (Hs fs') Hm'). reflexivity.
Qed.

Lemma parse_fields_repr bs fs :
  bytes_ok bs -> parse_fields bs = Ok fs <-> message_repr fs bs.
Proof. intros H. apply parse_fields_loop_spec; [exact H | reflexivity]. Qed.

Lemma parse_fields_no_panic bs : bytes_ok bs -> parse_fields bs <> Panic.
Proof. intros H. apply parse_fields_loop_spec; [exact H | reflexivity]. Qed.

(** The grammar is unambiguous. *)
Lemma message_repr_unique bs fs fs' :
  bytes_ok bs -> message_repr fs bs -> message_repr fs' bs -> fs = fs'.
Proof.
  intros Hok H H'. apply (parse_fields_repr _ _ Hok) in H, H'. congruence.
Qed.

Lemma field_repr_bytes_ok f bs b :
  bytes_ok bs -> field_repr f bs -> value f = Bytes b -> bytes_ok b.
Proof.
  intros Hok Hf He. inversion Hf as [n wire v ks vs Hn Hk Hv]; subst. cbn in He. subst v.
  apply Forall_app in Hok as [_ Hok]. inversion Hv; subst. apply Forall_app in Hok as [_ Hok].
  exact Hok.
Qed.

Lemma message_repr_bytes_ok fs bs n b :
  bytes_ok bs -> message_repr fs bs -> mkField n (Bytes b) ∈ fs -> bytes_ok b.
Proof.
  intros Hok Hm. induction Hm as [|f fs bs rest Hf Hm IH]; intros Hin; [set_solver|].
  apply Forall_app in Hok as [Hb Hr]. apply elem_of_cons in Hin as [<- | Hin].
  - exact (field_repr_bytes_ok _ _ _ Hb Hf eq_refl).
  - apply IH; assumption.
Qed.

(** ** Messages with a field that occurs once, or not at all *)

(** The message [bs] has exactly one field [n], with value [v]. *)
Definition has_one (bs : list Z) (n : Z) (v : Value) : Prop :=
  exists fs, message_repr fs bs /\ matching fs n = [mkField n v].

(** The message [bs] has no field [n]. *)
Definition lacks (bs : list Z) (n : Z) : Prop :=
  exists fs, message_repr fs bs /\ matching fs n = [].

Lemma has_one_fields bs fs n v :
  bytes_ok bs -> message_repr fs bs -> has_one bs n v <-> matching fs n = [mkField n v].
Proof.
  intros Hok Hm. split; [|exists fs; auto].
  intros (fs' & Hm' & H). rewrite (message_repr_unique _ _ _ Hok Hm Hm'). exact H.
Qed.

Lemma lacks_fields bs fs n :
  bytes_ok bs -> message_repr fs bs -> lacks bs n <-> matching fs n = [].
Proof.
  intros Hok Hm. split; [|exists fs; auto].
  intros (fs' & Hm' & H). rewrite (message_repr_unique _ _ _ Hok Hm Hm'). exact H.
Qed.

Lemma has_one_unique bs n v v' : bytes_ok bs -> has_one bs n v -> has_one bs n v' -> v = v'.
Proof.
  intros Hok (fs & Hm & H) (fs' & Hm' & H').
  rewrite (message_repr_unique _ _ _ Hok Hm Hm') in H. congruence.
Qed.

Lemma has_one_bytes_ok bs n b : bytes_ok bs -> has_one bs n (Bytes b) -> bytes_ok b.
Proof.
  intros Hok (fs & Hm & H). eapply (message_repr_bytes_ok fs bs n b Hok Hm).
  assert (Hin : mkField n (Bytes b) ∈ matching fs n) by (rewrite H; set_solver).
  apply list_elem_of_filter in Hin as [_ Hin]. exact Hin.
Qed.

(** * Singular fields *)

Lemma matching_singleton fs n f : matching fs n = [f] -> number f = n.
Proof.
  intros H. assert (Hin : f ∈ matching fs n) by (rewrite H; set_solver).
  apply list_elem_of_filter in Hin as [Hin _]. exact Hin.
Qed.

Lemma one_bytes_ok fs n name b :
  one_bytes fs n name = Ok b <-> matching fs n = [mkField n (Bytes b)].
Proof.
  unfold one_bytes, single. split.
  - intros H. destruct (matching fs n) as [|f [|g l]] eqn:E; try discriminate.
    pose proof (matching_singleton _ _ _ E). destruct f as [m []]; try discriminate.
    cbn in *. congruence.
  - intros ->. reflexivity.
Qed.

Lemma optional_varint_none fs n name :
  optional_varint fs n name = Ok None <-> matching fs n = [].
Proof.
  unfold optional_varint. destruct (matching fs n) as [|f [|g l]]; [tauto | | easy].
  destruct (value f); split; discriminate.
Qed.

Lemma optional_varint_some fs n name v :
  optional_varint fs n name = Ok (Some v) <-> matching fs n = [mkField n (Varint v)].
Proof.
  unfold optional_varint. split.
  - intros H. destruct (matching fs n) as [|f [|g l]] eqn:E; try discriminate.
    pose proof (matching_singleton _ _ _ E). destruct f as [m []]; try discriminate.
    cbn in *. congruence.
  - intros ->. reflexivity.
Qed.

Lemma one_varint_ok fs n name v :
  one_varint fs n name = Ok v <-> matching fs n = [mkField n (Varint v)].
Proof.
  unfold one_varint. rewrite bind_ok, <- (optional_varint_some fs n name).
  split.
  - intros ([w|] & H & [= ->]). exact H.
  - intros H. exists (Some v). split; [exact H | reflexivity].
Qed.

(** ** Writing messages

    The canonical writer of a field, as a node that serialises a transaction
    uses it.  The repository only reads messages. *)

Definition write_bytes (n : Z) (b : list Z) : list Z :=
  encode_varint (8 * n + 2) ++ encode_varint (Z.of_nat (length b)) ++ b.
Definition write_varint (n v : Z) : list Z := encode_varint (8 * n) ++ encode_varint v.

Lemma message_repr_app fs gs a b :
  message_repr fs a -> message_repr gs b -> message_repr (fs ++ gs) (a ++ b).
Proof.
  intros Ha Hb. induction Ha as [|f fs x rest Hf Hm IH]; [exact Hb|].
  rewrite <- app_assoc. cbn [app]. constructor; assumption.
Qed.

Lemma message_repr_field f bs : field_repr f bs -> message_repr [f] bs.
Proof. intros H. rewrite <- (app_nil_r bs). constructor; [exact H | constructor]. Qed.

(** A small field number, whose key fits a [u64]. *)
Definition field_number (n : Z) : Prop := 0 < n < 2 ^ 29.

Lemma write_bytes_repr n b :
  field_number n -> is_u64 (Z.of_nat (length b)) ->
  message_repr [mkField n (Bytes b)] (write_bytes n b).
Proof.
  unfold field_number. intros Hn Hb. apply message_repr_field. constructor 1 with (wire := 2); [lia| |].
  - apply encode_varint_repr. unfold is_u64, u64_max. lia.
  - constructor. apply encode_varint_repr, Hb.
Qed.

Lemma write_varint_repr n v :
  field_number n -> is_u64 v -> message_repr [mkField n (Varint v)] (write_varint n v).
Proof.
  unfold field_number. intros Hn Hv. apply message_repr_field.
  unfold write_varint. constructor 1 with (wire := 0); [lia| |].
  - rewrite Z.add_0_r. apply encode_varint_repr. unfold is_u64, u64_max. lia.
  - constructor. apply encode_varint_repr, Hv.
Qed.

Lemma write_bytes_ok n b :
  field_number n -> is_u64 (Z.of_nat (length b)) -> bytes_ok b -> bytes_ok (write_bytes n b).
Proof.
  unfold field_number. intros Hn Hl Hb. unfold write_bytes. rewrite !Forall_app. split_and!; auto;
    apply encode_varint_repr; auto. unfold is_u64, u64_max. lia.
Qed.

Lemma write_varint_ok n v : field_number n -> is_u64 v -> bytes_ok (write_varint n v).
Proof.
  unfold field_number. intros Hn Hv. unfold write_varint. rewrite Forall_app. split;
    apply encode_varint_repr; auto. unfold is_u64, u64_max. lia.
Qed.

Lemma write_bytes_length n b : (length b <= length (write_bytes n b))%nat.
Proof. unfold write_bytes. rewrite !length_app. lia. Qed.

Lemma write_bytes_suffix n b p : p `suffix_of` b -> p `suffix_of` write_bytes n b.
Proof. intros H. unfold write_bytes. do 2 apply suffix_app_r. exact H. Qed.

Lemma write_varint_suffix n v : encode_varint v `suffix_of` write_varint n v.
Proof. unfold write_varint. apply suffix_app_r. reflexivity. Qed.

Lemma matching_app fs gs n : matching (fs ++ gs) n = matching fs n ++ matching gs n.
Proof. unfold matching. apply filter_app. Qed.

(** * Properties *)

(** Varint round trip: what [encode_varint] writes for a [u64] is read
    back by [take_varint] as the same value, whatever bytes follow it, and the
    bytes that follow are left untouched. *)
Theorem varint_roundtrip v rest :
  is_u64 v -> bytes_ok rest -> take_varint (encode_varint v ++ rest) = Ok (v, rest).
Proof.
  intros Hv Hr. destruct (encode_varint_repr v Hv) as [Hrep Hok].
  apply take_varint_spec; [apply Forall_app; auto | eauto].
Qed.

Lemma varint_roundtrip_witness :
  take_varint (encode_varint 300 ++ [7]) = Ok (300, [7]).
Proof.
  apply (varint_roundtrip 300 [7]); [unfold is_u64, u64_max; lia|].
  repeat constructor; vm_compute; congruence.
Defined.

(** C9. The structural reader decides the wire grammar: on every byte string
    [parse_fields] terminates without running out of input positions, and it
    returns a field list exactly when the bytes are a message of the grammar
    with those fields, in order (padded varints, wire types 0, 1, 2 and 5,
    field numbers above zero). *)
Theorem parse_fields_exact bs :
  bytes_ok bs ->
  parse_fields bs <> Panic /\ forall fs, parse_fields bs = Ok fs <-> message_repr fs bs.
Proof. intros H. apply parse_fields_loop_spec; [exact H | reflexivity]. Qed.

Lemma parse_fields_exact_witness :
  parse_fields [10; 2; 1; 2; 144; 1; 5] <> Panic /\
  message_repr [mkField 1 (Bytes [1; 2]); mkField 18 (Varint 5)] [10; 2; 1; 2; 144; 1; 5].
Proof.
  assert (H : bytes_ok [10; 2; 1; 2; 144; 1; 5])
    by (repeat constructor; vm_compute; congruence).
  split; [apply (parse_fields_exact _ H)|].
  apply (parse_fields_exact _ H). vm_compute. reflexivity.
Defined.
