(* ===== verification/Codec.v ===== *)
(** The third-party codecs and hashes the wallet calls, as an interface.

    [bs58], [bech32], [hex], [sha2] and [sha3] are not part of the repository:
    their functions are the fields of [Codecs], and what the code relies on
    of them is [CodecLaws], documented behaviour of those crates.  Every
    definition that calls one takes a [Codecs] argument.  [toy_codecs] is a
    concrete instance that satisfies the laws, for the closed examples. *)

From stdpp Require Import base list strings numbers.
From S2P Require Import Prelude Text.

(** The error of a decoder is its [Display] text. *)
Class Codecs := {
  (** [bs58::decode(s).into_vec()], [bs58::encode(b).into_string()]. *)
  bs58_decode : str -> res str (list Z);
  bs58_encode : list Z -> str;
  (** The same [.with_check(version)] and [.with_check()]. *)
  bs58check_decode : option Z -> str -> res str (list Z);
  bs58check_encode : list Z -> str;
  (** [bech32::segwit::decode]: human-readable part, version, program. *)
  segwit_decode : str -> res str (str * Z * list Z);
  (** [bech32::segwit::encode_v0(hrp::BC, _)]. *)
  segwit_encode_v0_bc : list Z -> res str str;
  (** [hex::encode], [hex::decode]. *)
  hex_encode : list Z -> str;
  hex_decode : str -> res str (list Z);
  sha256 : list Z -> list Z;
  keccak256 : list Z -> list Z
}.

(** Lowercase letters and digits: what an address encoder emits is printable
    ASCII, so trimming leaves it alone. *)
Definition graphic (s : str) : Prop := Forall (fun b => is_graphic b = true) s.

Class CodecLaws `{Codecs} : Prop := {
  bs58_decode_encode b : bytes_ok b -> bs58_decode (bs58_encode b) = Ok b;
  bs58_encode_decode s b : bs58_decode s = Ok b -> bs58_encode b = s;
  bs58_decode_ok s b : bs58_decode s = Ok b -> bytes_ok b;
  bs58_decode_graphic s b : bs58_decode s = Ok b -> graphic s;
  bs58check_decode_encode v b :
    bytes_ok b -> (forall x, v = Some x -> head b = Some x) -> b <> [] ->
    bs58check_decode v (bs58check_encode b) = Ok b;
  bs58check_encode_decode v s b : bs58check_decode v s = Ok b -> bs58check_encode b = s;
  bs58check_decode_version x s b : bs58check_decode (Some x) s = Ok b -> head b = Some x;
  bs58check_decode_ok v s b : bs58check_decode v s = Ok b -> bytes_ok b;
  bs58check_decode_graphic v s b : bs58check_decode v s = Ok b -> graphic s;
  (** The empty string decodes to nothing, and carries no checksum. *)
  bs58_decode_nil : bs58_decode [] = Ok [];
  bs58check_decode_nil v : exists e, bs58check_decode v [] = Err e;
  bs58_decode_total s : bs58_decode s <> Panic;
  bs58check_decode_total v s : bs58check_decode v s <> Panic;
  segwit_decode_total s : segwit_decode s <> Panic;
  segwit_encode_total b : segwit_encode_v0_bc b <> Panic;
  (** BIP-173/BIP-350: a version-0 address is [bc1] and data characters other
      than [1], in lower case; it decodes to the program it encodes. *)
  segwit_encode_shape b s :
    segwit_encode_v0_bc b = Ok s ->
    exists d, s = lit "bc1" ++ d /\ graphic d /\ (49 ∉ d);
  segwit_decode_encode b s :
    segwit_encode_v0_bc b = Ok s -> segwit_decode s = Ok (lit "bc", 0, b);
  segwit_decode_graphic s r : segwit_decode s = Ok r -> graphic s;
  hex_encode_lower b : bytes_ok b -> hex_encode b = hex_string b;
  (** Digits in either case, two per byte, and nothing else. *)
  hex_decode_ok s b : hex_decode s = Ok b -> bytes_ok b /\ hex_string b = ascii_lowercase s;
  hex_decode_text s b : bytes_ok b -> hex_string b = ascii_lowercase s -> hex_decode s = Ok b;
  hex_decode_total s : hex_decode s <> Panic;
  sha256_length b : length (sha256 b) = 32%nat;
  sha256_ok b : bytes_ok (sha256 b);
  keccak256_length b : length (keccak256 b) = 32%nat;
  keccak256_ok b : bytes_ok (keccak256 b)
}.

(** * A concrete instance *)

(** Lowercase hex digits, read back strictly. *)
Definition lower_digit (b : Z) : option Z :=
  if is_ascii_digit b then Some (b - 48)
  else if (97 <=? b) && (b <=? 102) then Some (b - 87) else None.

Fixpoint unhex (s : str) : option (list Z) :=
  match s with
  | [] => Some []
  | [_] => None
  | h :: l :: s' =>
    h ← lower_digit h; l ← lower_digit l; r ← unhex s'; Some (16 * h + l :: r)
  end.

Definition fold_hash (b : list Z) : list Z :=
  be_bytes 32 (foldl (fun acc x => (acc * 257 + x + 1) mod 2 ^ 256) (2 ^ 200 + 77) b).

Definition toy_checked (v : option Z) (s : str) : res str (list Z) :=
  b ← ok_or (unhex s) (lit "not hex");
  match b with
  | [] => Err (lit "empty")
  | x :: _ => match v with
              | Some y => if x =? y then Ok b else Err (lit "version")
              | None => Ok b
              end
  end.

#[export] Instance toy_codecs : Codecs := {
  bs58_decode s := ok_or (unhex s) (lit "not hex");
  bs58_encode := hex_string;
  bs58check_decode := toy_checked;
  bs58check_encode := hex_string;
  segwit_decode s :=
    d ← ok_or (strip_prefix s (lit "bc1")) (lit "no prefix");
    b ← ok_or (unhex ((fun c => if c =? 103 then 49 else c) <$> d)) (lit "not hex");
    if bool_decide (49 ∈ d) then Err (lit "bad character") else Ok (lit "bc", 0, b);
  segwit_encode_v0_bc b :=
    if forallb (fun x => (0 <=? x) && (x <? 256)) b
    then Ok (lit "bc1" ++ ((fun c => if c =? 49 then 103 else c) <$> hex_string b))
    else Err (lit "not bytes");
  hex_encode := hex_string;
  hex_decode s := ok_or (unhex (ascii_lowercase s)) (lit "not hex");
  sha256 := fold_hash;
  keccak256 := fold_hash
}.

Lemma lower_digit_value b d :
  lower_digit b = Some d -> 0 <= d < 16 /\ b = digit_char d.
Proof.
  unfold lower_digit, is_ascii_digit, digit_char. intros H.
  destruct ((48 <=? b) && (b <=? 57)) eqn:E1.
  - injection H as <-. bool_to_prop. replace (b - 48 <? 10) with true by lia. lia.
  - destruct ((97 <=? b) && (b <=? 102)) eqn:E2; [|discriminate]. injection H as <-.
    bool_to_prop. replace (b - 87 <? 10) with false by lia. lia.
Qed.

Lemma lower_digit_char d : 0 <= d < 16 -> lower_digit (digit_char d) = Some d.
Proof.
  intros Hd. unfold lower_digit, is_ascii_digit.
  destruct (digit_char_cases d Hd) as [[? ->] | [? ->]].
  - replace ((48 <=? 48 + d) && (48 + d <=? 57)) with true by lia. f_equal. lia.
  - replace ((48 <=? 87 + d) && (87 + d <=? 57)) with false by lia.
    replace ((97 <=? 87 + d) && (87 + d <=? 102)) with true by lia. f_equal. lia.
Qed.

Lemma unhex_hex_string b : bytes_ok b -> unhex (hex_string b) = Some b.
Proof.
  induction 1 as [|x b Hx Hb IH]; [reflexivity|].
  destruct (hex_byte_nibbles x Hx) as (H1 & H2 & H3).
  rewrite hex_string_cons. cbn [hex_byte app unhex].
  rewrite !lower_digit_char, IH by assumption. cbn. do 2 f_equal. lia.
Qed.

Lemma unhex_some s b : unhex s = Some b -> bytes_ok b /\ hex_string b = s.
Proof.
  revert b. induction s as [s IH] using (induction_ltof1 _ (@length Z)); intros b H.
  destruct s as [|h [|l s]]; [injection H as <-; split; [constructor | reflexivity] | discriminate |].
  cbn [unhex] in H.
  destruct (lower_digit h) as [dh|] eqn:Eh; [|discriminate].
  destruct (lower_digit l) as [dl|] eqn:El; [|discriminate].
  destruct (unhex s) as [r|] eqn:Er; [|discriminate]. cbn in H. injection H as <-.
  apply lower_digit_value in Eh as [Hdh ->]. apply lower_digit_value in El as [Hdl ->].
  destruct (IH s ltac:(unfold ltof; simpl; lia) r Er) as [Hok Hs].
  split; [constructor; [unfold is_u8; lia | exact Hok]|].
  rewrite hex_string_cons, Hs. unfold hex_byte.
  replace ((16 * dh + dl) / 16) with dh by divmod.
  replace ((16 * dh + dl) mod 16) with dl by divmod. reflexivity.
Qed.

Lemma hex_string_unhex_graphic s b : unhex s = Some b -> graphic s.
Proof. intros H. apply unhex_some in H as [Hb <-]. apply hex_string_graphic. exact Hb. Qed.

Lemma toy_checked_ok v s b :
  toy_checked v s = Ok b <->
  unhex s = Some b /\ b <> [] /\ (forall x, v = Some x -> head b = Some x).
Proof.
  unfold toy_checked. split.
  - intros H. inv_ok. destruct x as [|x b']; [discriminate|].
    destruct v as [y|].
    + destruct (Z.eqb_spec x y) as [->|]; [|discriminate]. injection H as <-.
      repeat split; [assumption | discriminate | intros ? [= <-]; reflexivity].
    + injection H as <-. repeat split; [assumption | discriminate | discriminate].
  - intros (H & Hne & Hv). rewrite H. cbn. destruct b as [|x b']; [congruence|].
    destruct v as [y|]; [|reflexivity]. specialize (Hv y eq_refl). injection Hv as ->.
    rewrite Z.eqb_refl. reflexivity.
Qed.

Lemma toy_data_round b :
  bytes_ok b ->
  let d := (fun c => if c =? 49 then 103 else c) <$> hex_string b in
  graphic d /\ (49 ∉ d) /\ ((fun c => if c =? 103 then 49 else c) <$> d) = hex_string b.
Proof.
  intros Hb. cbn. split_and!.
  - apply Forall_fmap. eapply list.Forall_impl; [apply hex_string_graphic; exact Hb|].
    intros c Hc. cbn. destruct (c =? 49); [reflexivity | exact Hc].
  - intros H. apply list_elem_of_fmap in H as (c & Hc & _). destruct (Z.eqb_spec c 49); lia.
  - rewrite <- list_fmap_compose. transitivity (id <$> hex_string b); [|apply list_fmap_id].
    apply Forall_fmap_ext.
    apply hex_string_forall; [|exact Hb]. intros d Hd. cbn.
    destruct (Z.eqb_spec (digit_char d) 49) as [->|]; [reflexivity|].
    destruct (Z.eqb_spec (digit_char d) 103); [|reflexivity].
    destruct (digit_char_cases d Hd) as [[? ?] | [? ?]]; lia.
Qed.

Lemma toy_data_graphic d b :
  unhex ((fun c => if c =? 103 then 49 else c) <$> d) = Some b -> graphic d.
Proof.
  intros H. apply hex_string_unhex_graphic, Forall_fmap in H.
  eapply list.Forall_impl; [exact H|]. intros c. cbn.
  destruct (Z.eqb_spec c 103) as [->|]; [reflexivity | auto].
Qed.

#[export] Instance toy_codec_laws : CodecLaws.
Proof.
  constructor; unfold bs58_decode, bs58_encode, bs58check_decode, bs58check_encode,
    segwit_decode, segwit_encode_v0_bc, hex_encode, hex_decode, sha256, keccak256, toy_codecs; intros.
  all: try (match goal with H : ok_or _ _ = Ok _ |- _ => apply ok_or_ok in H end).
  all: try (match goal with H : toy_checked _ _ = Ok _ |- _ =>
              apply toy_checked_ok in H as (? & ? & ?) end).
  - rewrite unhex_hex_string by assumption. reflexivity.
  - apply unhex_some. assumption.
  - eapply unhex_some. eassumption.
  - eapply hex_string_unhex_graphic. eassumption.
  - apply toy_checked_ok. rewrite unhex_hex_string by assumption. auto.
  - apply unhex_some. assumption.
  - auto.
  - eapply unhex_some. eassumption.
  - eapply hex_string_unhex_graphic. eassumption.
  - reflexivity.
  - eexists. reflexivity.
  - unfold ok_or. case_match; discriminate.
  - unfold toy_checked, ok_or. destruct (unhex s) as [[|x l]|]; cbn; try discriminate.
    destruct v; [case_bool|]; discriminate.
  - unfold ok_or. destruct (strip_prefix _ _); cbn; [|discriminate].
    destruct (unhex _); cbn; [|discriminate]. case_bool; discriminate.
  - case_bool; discriminate.
  - destruct (forallb _ b) eqn:E; [|discriminate].
    match type of H with Ok ?x = _ => assert (s = x) as -> by congruence; clear H end.
    assert (Hb : bytes_ok b).
    { apply Forall_forall. intros x Hx. rewrite forallb_forall in E.
      specialize (E x Hx). unfold is_u8. lia. }
    destruct (toy_data_round b Hb) as (H1 & H2 & _). eauto.
  - destruct (forallb _ b) eqn:E; [|discriminate].
    match type of H with Ok ?x = _ => assert (s = x) as -> by congruence; clear H end.
    assert (Hb : bytes_ok b).
    { apply Forall_forall. intros x Hx. rewrite forallb_forall in E.
      specialize (E x Hx). unfold is_u8. lia. }
    destruct (toy_data_round b Hb) as (H1 & H2 & H3).
    rewrite strip_prefix_app. cbn [ok_or mbind res_bind]. rewrite H3, unhex_hex_string by exact Hb.
    cbn [ok_or mbind res_bind]. rewrite bool_decide_eq_false_2 by exact H2. reflexivity.
  - inv_ok. destruct (strip_prefix s _) as [d|] eqn:Ed; [|discriminate]. simplify_eq.
    apply strip_prefix_some in Ed as ->. apply Forall_app.
    split; [repeat constructor | eapply toy_data_graphic; eassumption].
  - reflexivity.
  - apply unhex_some. assumption.
  - match goal with H : hex_string _ = _ |- _ => rewrite <- H end.
    rewrite unhex_hex_string by assumption. reflexivity.
  - unfold ok_or. case_match; discriminate.
  - apply be_bytes_length.
  - apply be_bytes_ok.
  - apply be_bytes_length.
  - apply be_bytes_ok.
Qed.

(** * Base64 *)

(** [base64]'s standard engine; a decoding error is its [Display] text. *)
Class Base64 := { b64_encode : list Z -> str; b64_decode : str -> str + list Z }.
Class Base64Laws `{Base64} : Prop := {
  b64_decode_encode b : bytes_ok b -> b64_decode (b64_encode b) = inr b
}.

Definition hex_base64 : Base64 := {|
  b64_encode := hex_string;
  b64_decode s := match unhex s with Some b => inr b | None => inl (lit "not hex") end
|}.

Lemma hex_base64_laws : Base64Laws (H := hex_base64).
Proof. constructor. intros b Hb. cbn. rewrite unhex_hex_string by exact Hb. reflexivity. Qed.
