(* ===== verification/Base58.v ===== *)
(** The Bitcoin base58 of the [bs58] crate, concretely.

    [Codecs] takes base58 as a parameter; this file gives the function its
    documentation describes and shows it satisfies the laws assumed of it, so
    the closed examples about Solana keys and programs run on real addresses.
    The other codecs are those of [Codec.toy_codecs]. *)

From stdpp Require Import base list strings numbers.
From S2P Require Import Prelude Text Codec.

(** * Digits in any radix *)

Fixpoint radix_digits (radix : Z) (fuel : nat) (v : Z) (acc : list Z) : list Z :=
  match fuel with
  | O => acc
  | S fuel => if v <=? 0 then acc else radix_digits radix fuel (v / radix) (v mod radix :: acc)
  end.

(** Enough fuel for any radix of at least 2. *)
Definition digits_of (radix v : Z) : list Z := radix_digits radix (S (Z.to_nat (Z.log2 v))) v [].

Definition canonical (ds : list Z) : Prop := head ds <> Some 0.

Lemma digits_value_snoc radix acc ds d :
  digits_value radix acc (ds ++ [d]) = digits_value radix acc ds * radix + d.
Proof. unfold digits_value. rewrite foldl_app. reflexivity. Qed.

Lemma digits_value_nonneg radix ds : 2 <= radix -> digits_ok radix ds -> 0 <= digits_value radix 0 ds.
Proof. intros Hr Hd. apply digits_value_mono; [lia | lia | exact Hd]. Qed.

Lemma canonical_positive radix ds :
  2 <= radix -> digits_ok radix ds -> canonical ds -> ds <> [] -> 0 < digits_value radix 0 ds.
Proof.
  intros Hr Hd Hc Hne. destruct ds as [|d ds]; [congruence|]. inversion Hd as [|? ? Hdd Hds]; subst.
  unfold digits_value. cbn [foldl]. unfold canonical in Hc. cbn in Hc.
  pose proof (digits_value_mono radix (0 * radix + d) ds ltac:(lia) ltac:(lia) Hds) as Hm.
  unfold digits_value in Hm. assert (d <> 0) by congruence. lia.
Qed.

(** Reading a value's digits off gives them back. *)
Lemma radix_digits_canonical radix ds : forall fuel acc,
  2 <= radix -> digits_ok radix ds -> canonical ds -> digits_value radix 0 ds < 2 ^ Z.of_nat fuel ->
  radix_digits radix fuel (digits_value radix 0 ds) acc = ds ++ acc.
Proof.
  induction ds as [|d ds IH] using rev_ind; intros fuel acc Hr Hd Hc Hv.
  - destruct fuel; reflexivity.
  - pose proof (canonical_positive radix _ Hr Hd Hc ltac:(destruct ds; discriminate)) as Hp.
    apply Forall_app in Hd as [Hds Hd]. inversion Hd as [|? ? Hdd _]; subst.
    destruct fuel as [|fuel]; [change (2 ^ Z.of_nat 0) with 1 in Hv; lia|].
    cbn [radix_digits]. rewrite (proj2 (Z.leb_gt _ _)) by lia.
    rewrite Nat2Z.inj_succ, Z.pow_succ_r in Hv by lia.
    rewrite digits_value_snoc in *. pose proof (digits_value_nonneg radix ds Hr Hds) as H0.
    assert (Hq : (digits_value radix 0 ds * radix + d) / radix = digits_value radix 0 ds).
    { symmetry. apply (Z.div_unique _ _ _ d); lia. }
    assert (Hm : (digits_value radix 0 ds * radix + d) mod radix = d).
    { symmetry. apply (Z.mod_unique _ _ (digits_value radix 0 ds)); lia. }
    rewrite Hq, Hm, IH; [rewrite <- app_assoc; reflexivity | exact Hr | exact Hds | | nia].
    destruct ds; [discriminate | exact Hc].
Qed.

Lemma radix_digits_value radix fuel : forall v acc,
  2 <= radix -> 0 <= v < 2 ^ Z.of_nat fuel ->
  exists ds, radix_digits radix fuel v acc = ds ++ acc /\ digits_ok radix ds /\ canonical ds /\
    digits_value radix 0 ds = v.
Proof.
  induction fuel as [|fuel IH]; intros v acc Hr Hv.
  - change (2 ^ Z.of_nat 0) with 1 in Hv. exists []. replace v with 0 by lia.
    repeat split; [constructor | discriminate].
  - cbn [radix_digits]. destruct (Z.leb_spec v 0).
    + exists []. replace v with 0 by lia. repeat split; [constructor | discriminate].
    + rewrite Nat2Z.inj_succ, Z.pow_succ_r in Hv by lia.
      assert (Hq : 0 <= v / radix < 2 ^ Z.of_nat fuel).
      { split; [apply Z.div_pos; lia|]. apply Z.div_lt_upper_bound; nia. }
      pose proof (Z.mod_pos_bound v radix ltac:(lia)) as Hm. pose proof (Z.div_mod v radix ltac:(lia)) as Hdm.
      destruct (IH (v / radix) (v mod radix :: acc) Hr Hq) as (ds & -> & Hd & Hc & Hval).
      exists (ds ++ [v mod radix]). rewrite <- app_assoc, digits_value_snoc, Hval. split_and!.
      * reflexivity.
      * apply Forall_app. split; [exact Hd | repeat constructor; lia].
      * destruct ds as [|d ds]; [|exact Hc]. unfold canonical. cbn in Hval |- *. intros [=]. nia.
      * lia.
Qed.

Lemma log2_fuel v : 0 <= v -> v < 2 ^ Z.of_nat (S (Z.to_nat (Z.log2 v))).
Proof.
  intros Hv. rewrite Nat2Z.inj_succ, Z2Nat.id by apply Z.log2_nonneg.
  destruct (Z.eq_dec v 0) as [->|]; [reflexivity|]. apply Z.log2_spec. lia.
Qed.

Lemma digits_of_value radix v :
  2 <= radix -> 0 <= v ->
  digits_ok radix (digits_of radix v) /\ canonical (digits_of radix v) /\ digits_value radix 0 (digits_of radix v) = v.
Proof.
  intros Hr Hv. destruct (radix_digits_value radix (S (Z.to_nat (Z.log2 v))) v [] Hr) as (ds & E & H).
  { split; [exact Hv | apply log2_fuel, Hv]. }
  unfold digits_of. rewrite E, app_nil_r. exact H.
Qed.

Lemma digits_of_canonical radix ds :
  2 <= radix -> digits_ok radix ds -> canonical ds -> digits_of radix (digits_value radix 0 ds) = ds.
Proof.
  intros Hr Hd Hc. unfold digits_of. rewrite radix_digits_canonical, app_nil_r; try assumption; [reflexivity|].
  apply log2_fuel, digits_value_nonneg; assumption.
Qed.

Lemma be_value_digits l : be_value l = digits_value 256 0 l.
Proof.
  induction l as [|b l IH] using rev_ind; [reflexivity|].
  rewrite be_value_snoc, digits_value_snoc, IH. lia.
Qed.

(** * Leading zeros and ones *)

Fixpoint leading (c : Z) (l : list Z) : nat :=
  match l with b :: l => if b =? c then S (leading c l) else O | [] => O end.

Lemma leading_split c l :
  l = replicate (leading c l) c ++ drop (leading c l) l /\ head (drop (leading c l) l) <> Some c.
Proof.
  induction l as [|b l [IH1 IH2]]; [split; [reflexivity | discriminate]|]. cbn [leading].
  destruct (Z.eqb_spec b c) as [->|]; [split; [cbn; congruence | exact IH2]|].
  split; [reflexivity | cbn; congruence].
Qed.

Lemma leading_replicate c n l : head l <> Some c -> leading c (replicate n c ++ l) = n.
Proof.
  intros H. induction n as [|n IH]; cbn.
  - destruct l as [|b l]; [reflexivity|]. cbn in *. destruct (Z.eqb_spec b c); [congruence | reflexivity].
  - rewrite Z.eqb_refl, IH. reflexivity.
Qed.

(** * Base58 *)

Definition ALPHABET : str := lit "123456789ABCDEFGHJKLMNPQRSTUVWXYZabcdefghijkmnopqrstuvwxyz".

Definition base58_char (d : Z) : Z := nth (Z.to_nat d) ALPHABET 0.
Definition base58_digit (c : Z) : option Z := Z.of_nat <$> position (fun x => x =? c) ALPHABET.

Definition base58_encode (b : list Z) : str :=
  replicate (leading 0 b) 49 ++ (base58_char <$> digits_of 58 (be_value b)).

Definition base58_decode (s : str) : res str (list Z) :=
  ds ← ok_or (mapM base58_digit (drop (leading 49 s) s)) (lit "provided string contained invalid character");
  Ok (replicate (leading 49 s) 0 ++ digits_of 256 (digits_value 58 0 ds)).

Lemma base58_char_digit d : 0 <= d < 58 -> base58_digit (base58_char d) = Some d /\ is_graphic (base58_char d) = true.
Proof.
  intros Hd. assert (H : forallb (fun n => bool_decide (base58_digit (base58_char (Z.of_nat n)) = Some (Z.of_nat n))
                        && is_graphic (base58_char (Z.of_nat n))) (seq 0 58) = true) by (vm_compute; reflexivity).
  rewrite forallb_forall in H. specialize (H (Z.to_nat d)). rewrite Z2Nat.id in H by lia.
  assert (Hin : In (Z.to_nat d) (seq 0 58)) by (apply in_seq; lia).
  apply H in Hin. apply andb_prop in Hin as [H1 H2]. apply bool_decide_eq_true in H1. auto.
Qed.

Lemma base58_digit_char c d : base58_digit c = Some d -> 0 <= d < 58 /\ base58_char d = c.
Proof.
  unfold base58_digit. intros H. apply fmap_Some in H as (i & Hi & ->). apply position_spec in Hi as (x & Hx & Hc & _).
  apply Z.eqb_eq in Hc as ->. pose proof (lookup_lt_Some _ _ _ Hx) as Hl. change (length ALPHABET) with 58%nat in Hl.
  split; [lia|]. unfold base58_char. rewrite Nat2Z.id. apply nth_lookup_Some, Hx.
Qed.

Lemma base58_mapM ds : digits_ok 58 ds -> mapM base58_digit (base58_char <$> ds) = Some ds.
Proof.
  intros H. apply mapM_Some, Forall2_fmap_l. induction H as [|d ds Hd _ IH]; constructor; [apply base58_char_digit, Hd | exact IH].
Qed.

Lemma base58_mapM_inv t ds : mapM base58_digit t = Some ds -> digits_ok 58 ds /\ (base58_char <$> ds) = t.
Proof.
  intros H. apply mapM_Some in H. induction H as [|c d t ds Hd _ [IH1 IH2]]; [split; [constructor | reflexivity]|].
  apply base58_digit_char in Hd as [Hd Hc]. split; [constructor; assumption|]. rewrite fmap_cons, Hc. f_equal. exact IH2.
Qed.

Lemma base58_head ds : digits_ok 58 ds -> canonical ds <-> head (base58_char <$> ds) <> Some 49.
Proof.
  intros H. unfold canonical. destruct ds as [|d ds]; [split; discriminate|]. inversion H as [|? ? Hd _]; subst.
  rewrite fmap_cons. cbn [head]. split; intros Hc E; apply Hc; [|injection E as ->; reflexivity].
  assert (Ec : base58_char d = 49) by congruence. pose proof (base58_char_digit d Hd) as [Hx _].
  rewrite Ec in Hx. vm_compute in Hx. congruence.
Qed.

Lemma base58_decode_encode b : bytes_ok b -> base58_decode (base58_encode b) = Ok b.
Proof.
  intros Hb. destruct (leading_split 0 b) as [Hs Hh]. set (t := drop (leading 0 b) b) in *.
  assert (Ht : digits_ok 256 t) by (apply Forall_drop, Hb).
  assert (Hv : be_value b = digits_value 256 0 t) by (rewrite Hs, be_value_zeros; apply be_value_digits).
  destruct (digits_of_value 58 (be_value b)) as (Hd & Hc & Hval); [lia | rewrite Hv; apply digits_value_nonneg; [lia | exact Ht]|].
  unfold base58_decode, base58_encode. rewrite leading_replicate by (apply base58_head; assumption).
  rewrite drop_app_length' by (symmetry; apply length_replicate). rewrite base58_mapM by exact Hd.
  cbn [ok_or mbind res_bind]. rewrite Hval, Hv, digits_of_canonical; [f_equal; symmetry; exact Hs | lia | exact Ht | exact Hh].
Qed.

Lemma base58_decode_inv s b :
  base58_decode s = Ok b ->
  exists n ds, s = replicate n 49 ++ (base58_char <$> ds) /\ digits_ok 58 ds /\ canonical ds /\
    b = replicate n 0 ++ digits_of 256 (digits_value 58 0 ds).
Proof.
  unfold base58_decode. intros H. apply bind_ok in H as (ds & Hm & [= <-]). apply ok_or_ok in Hm.
  destruct (leading_split 49 s) as [Hs Hh]. apply base58_mapM_inv in Hm as [Hd Hc].
  exists (leading 49 s), ds. rewrite Hc. split_and!; [exact Hs | exact Hd | | reflexivity].
  apply base58_head; [exact Hd | rewrite Hc; exact Hh].
Qed.

Lemma base58_encode_decode s b : base58_decode s = Ok b -> base58_encode b = s.
Proof.
  intros H. apply base58_decode_inv in H as (n & ds & -> & Hd & Hc & ->).
  destruct (digits_of_value 256 (digits_value 58 0 ds)) as (Hd' & Hc' & Hv); [lia | apply digits_value_nonneg; [lia | exact Hd]|].
  unfold base58_encode. rewrite leading_replicate by exact Hc'. rewrite be_value_zeros, be_value_digits, Hv.
  rewrite digits_of_canonical; [reflexivity | lia | exact Hd | exact Hc].
Qed.

Lemma base58_decode_bytes s b : base58_decode s = Ok b -> bytes_ok b /\ graphic s.
Proof.
  intros H. apply base58_decode_inv in H as (n & ds & -> & Hd & Hc & ->). split; apply Forall_app; split.
  - apply Forall_replicate. unfold is_u8. lia.
  - eapply list.Forall_impl; [apply (digits_of_value 256); [lia | apply digits_value_nonneg; [lia | exact Hd]]|].
    unfold is_u8. auto.
  - apply Forall_replicate. reflexivity.
  - apply Forall_fmap. eapply list.Forall_impl; [exact Hd|]. intros d Hdd. apply base58_char_digit, Hdd.
Qed.

(** The example codecs with real base58, and a hash that is quick to evaluate. *)
Definition base58_codecs : Codecs := {|
  bs58_decode := base58_decode;
  bs58_encode := base58_encode;
  bs58check_decode := bs58check_decode (Codecs := toy_codecs);
  bs58check_encode := bs58check_encode (Codecs := toy_codecs);
  segwit_decode := segwit_decode (Codecs := toy_codecs);
  segwit_encode_v0_bc := segwit_encode_v0_bc (Codecs := toy_codecs);
  hex_encode := hex_encode (Codecs := toy_codecs);
  hex_decode := hex_decode (Codecs := toy_codecs);
  sha256 b := be_bytes 32 (foldl Z.add 0 b);
  keccak256 := keccak256 (Codecs := toy_codecs)
|}.

Lemma base58_codec_laws : CodecLaws (H := base58_codecs).
Proof.
  constructor; try (destruct toy_codec_laws; assumption); cbn [bs58_decode bs58_encode sha256 base58_codecs].
  - apply base58_decode_encode.
  - apply base58_encode_decode.
  - intros s b H. eapply base58_decode_bytes, H.
  - intros s b H. eapply base58_decode_bytes, H.
  - intros s. unfold base58_decode. destruct (mapM _ _); discriminate.
  - intros b. apply be_bytes_ok.
Qed.
