(* ===== verification/Addr.v ===== *)
(** Address validation and rendering, one part per chain
    ([crates/tinywallet-crypto/src/address/]: [evm.rs], [tron.rs],
    [solana.rs], [btc.rs], [mod.rs]).

    The codecs of other crates come in through [Codec.Codecs].  Shown here:
    the exact language [evm_validate] accepts and that EIP-55 rendering is a
    canonical form of it; that [tron_encode]/[tron_decode] and
    [solana_encode]/[solana_decode] are inverse; that an encoded P2WPKH
    address validates as a sender; that every validator returns its input
    trimmed. *)

From stdpp Require Import base list strings numbers.
From S2P Require Import Prelude Text Chain Codec.

Definition is_nil {A} (l : list A) : bool := match l with [] => true | _ => false end.

(** * EVM *)

Definition EVM_ADDRESS_HEX_LEN : nat := 40.

Definition evm_strip_prefix (address : str) : str := without_prefix address (lit "0x").

Definition evm_validate (address : str) : res addr_error str :=
  let trimmed := trim address in
  if is_nil trimmed then Err (EmptyAddress Evm)
  else
    let body := evm_strip_prefix trimmed in
    if negb (length body =? EVM_ADDRESS_HEX_LEN)%nat
    then Err (InvalidAddress Evm trimmed
                (lit "expected 40 hex digits, got " ++ show_dec (Z.of_nat (length body))))
    else
      match find_first (fun c => negb (char_is is_ascii_hexdigit c)) (chars body) with
      | Some bad => Err (InvalidAddress Evm trimmed
                           (lit "contains a non-hex character '" ++ bad ++ lit "'"))
      | None => Ok trimmed
      end.

Definition evm_prefixed (body : str) : str := lit "0x" ++ body.

(** Nibble [i] of a hash, high nibble first; indexing past the end panics. *)
Definition nibble {E} (hash : list Z) (i : nat) : res E Z :=
  match hash !! (i / 2)%nat with
  | Some b => Ok (if (i mod 2 =? 0)%nat then Z.shiftr b 4 else Z.land b 15)
  | None => Panic
  end.

(** The loop over [lower.chars().enumerate()]. *)
Fixpoint checksum_loop {E} (hash : list Z) (i : nat) (cs : str) : res E str :=
  match cs with
  | [] => Ok []
  | c :: cs' =>
    n ← nibble hash i;
    rest ← checksum_loop hash (S i) cs';
    Ok ((if is_ascii_digit c || (n <? 8) then c else to_ascii_upper c) :: rest)
  end.

Definition to_checksummed `{Codecs} (address : str) : res addr_error str :=
  validated ← evm_validate address;
  let lower := ascii_lowercase (evm_strip_prefix validated) in
  let hash := keccak256 lower in
  body ← checksum_loop hash 0 lower;
  Ok (lit "0x" ++ body).

Definition is_checksum_valid `{Codecs} (address : str) : res addr_error bool :=
  validated ← evm_validate address;
  rendered ← to_checksummed validated;
  Ok (bool_decide (rendered = evm_prefixed (evm_strip_prefix validated))).

(** * Tron *)

Definition MAINNET_PREFIX : Z := 65.
Definition TRON_ADDRESS_BYTES : nat := 21.

Definition tron_decode `{Codecs} (address : str) : res addr_error (list Z) :=
  let trimmed := trim address in
  if is_nil trimmed then Err (EmptyAddress Tron)
  else
    decoded ← map_err (fun e => InvalidAddress Tron trimmed
                                  (lit "base58check decoding failed: " ++ e))
                (bs58check_decode (Some MAINNET_PREFIX) trimmed);
    if (length decoded =? TRON_ADDRESS_BYTES)%nat then Ok decoded
    else Err (InvalidAddress Tron trimmed
                (lit "expected 21 bytes after base58check, got "
                 ++ show_dec (Z.of_nat (length decoded)))).

Definition tron_validate `{Codecs} (address : str) : res addr_error str :=
  (fun _ => trim address) <$> tron_decode address.

Definition to_hex `{Codecs} (address : str) : res addr_error str :=
  hex_encode <$> tron_decode address.

(** [bytes : &[u8; 21]], so the first byte exists. *)
Definition tron_encode `{Codecs} (bytes : list Z) : res addr_error str :=
  let b0 := nth 0 bytes 0 in
  if negb (b0 =? MAINNET_PREFIX)
  then Err (WrongNetwork Tron (hex_encode bytes) (lit "mainnet")
              (lit "version prefix is 0x" ++ hex_byte b0 ++ lit ", expected 0x41"))
  else Ok (bs58check_encode bytes).

(** * Solana *)

Definition SOLANA_ADDRESS_BYTES : nat := 32.

Definition solana_decode `{Codecs} (address : str) : res addr_error (list Z) :=
  let trimmed := trim address in
  if is_nil trimmed then Err (EmptyAddress Solana)
  else
    decoded ← map_err (fun e => InvalidAddress Solana trimmed (lit "not valid base58: " ++ e))
                (bs58_decode trimmed);
    if (length decoded =? SOLANA_ADDRESS_BYTES)%nat then Ok decoded
    else Err (InvalidAddress Solana trimmed
                (lit "expected 32 bytes, got " ++ show_dec (Z.of_nat (length decoded)))).

Definition solana_validate `{Codecs} (address : str) : res addr_error str :=
  (fun _ => trim address) <$> solana_decode address.

Definition solana_encode `{Codecs} (bytes : list Z) : str := bs58_encode bytes.

(** * Bitcoin *)

Inductive Kind := P2pkh | P2sh | P2wpkh | P2wsh | OtherWitness.
#[export] Instance Kind_eq_dec : EqDecision Kind.
Proof. solve_decision. Defined.

Definition MAINNET_HRP : str := lit "bc".
Definition P2PKH_VERSION : Z := 0.
Definition P2SH_VERSION : Z := 5.
Definition TEST_VERSIONS : list Z := [111; 196].

Definition trimmed_non_empty (address : str) : res addr_error str :=
  let trimmed := trim address in
  if is_nil trimmed then Err (EmptyAddress Btc) else Ok trimmed.

Definition wrong_network (address reason : str) : addr_error :=
  WrongNetwork Btc address (lit "mainnet") reason.

Definition parse_bech32 `{Codecs} (address : str) : res addr_error Kind :=
  '(hrp, version, program) ← map_err (InvalidAddress Btc address) (segwit_decode address);
  if negb (bool_decide (hrp = MAINNET_HRP))
  then Err (wrong_network address (lit "a non-mainnet human-readable part"))
  else if negb (version =? 0) then Ok OtherWitness
  else
    let len := Z.of_nat (length program) in
    if len =? 20 then Ok P2wpkh
    else if len =? 32 then Ok P2wsh
    else Err (InvalidAddress Btc address
                (lit "witness v0 program must be 20 or 32 bytes, got " ++ show_dec len)).

Definition parse_base58 `{Codecs} (address : str) : res addr_error Kind :=
  decoded ← map_err (InvalidAddress Btc address) (bs58check_decode None address);
  match decoded with
  | [] => Err (InvalidAddress Btc address (lit "empty base58check payload"))
  | version :: payload =>
    if bool_decide (version ∈ TEST_VERSIONS)
    then Err (wrong_network address (lit "a test network version byte"))
    else if negb (length payload =? 20)%nat
    then Err (InvalidAddress Btc address
                (lit "hash must be 20 bytes, got " ++ show_dec (Z.of_nat (length payload))))
    else if version =? P2PKH_VERSION then Ok P2pkh
    else if version =? P2SH_VERSION then Ok P2sh
    else Err (InvalidAddress Btc address
                (lit "unknown base58check version byte 0x" ++ hex_byte version))
  end.

(** [str::rfind] of an ASCII character. *)
Definition rfind (b : Z) (s : str) : option nat :=
  (fun i => length s - 1 - i)%nat <$> position (Z.eqb b) (rev s).

Definition btc_parse `{Codecs} (address : str) : res addr_error Kind :=
  let lower := ascii_lowercase address in
  match rfind 49 lower with
  | Some separator =>
    let hrp := take separator lower in
    if negb (is_nil hrp) && forallb (char_is is_ascii_lower) (chars hrp)
    then parse_bech32 address
    else parse_base58 address
  | None => parse_base58 address
  end.

Definition btc_validate `{Codecs} (address : str) : res addr_error str :=
  trimmed ← trimmed_non_empty address;
  _ ← btc_parse trimmed;
  Ok trimmed.

Definition validate_sender `{Codecs} (address : str) : res addr_error str :=
  trimmed ← trimmed_non_empty address;
  kind ← btc_parse trimmed;
  if negb (bool_decide (kind = P2wpkh))
  then Err (UnsupportedAddressType Btc trimmed
              (lit "only P2WPKH (bc1q… native segwit) can be signed for"))
  else Ok trimmed.

Definition encode_p2wpkh `{Codecs} (pubkey_hash : list Z) : res addr_error str :=
  map_err (InvalidAddress Btc []) (segwit_encode_v0_bc pubkey_hash).

(** * Dispatch

    [compiled] is the set of chains whose cargo feature is on. *)
Definition address_validate `{Codecs} (compiled : Chain -> bool) (chain : Chain) (address : str)
  : res addr_error str :=
  let validator :=
    if compiled chain then
      Some (match chain with
            | Btc => btc_validate
            | Evm => evm_validate
            | Solana => solana_validate
            | Tron => tron_validate
            end)
    else None in
  validator ← ok_or validator (ChainNotCompiled chain);
  validator address.

(** * EVM: facts *)

Lemma hex_text_graphic s : hex_text s -> graphic s.
Proof. intros H. eapply list.Forall_impl; [exact H|]. apply hexdigit_graphic. Qed.

Lemma graphic_0x s : graphic s -> graphic (lit "0x" ++ s).
Proof. intros H. repeat (constructor; [reflexivity|]). exact H. Qed.

(** A hex body never starts with [0x], so the prefix is unambiguous. *)
Lemma hex_text_no_0x s : hex_text s -> evm_strip_prefix s = s.
Proof.
  intros H. unfold evm_strip_prefix.
  destruct (without_prefix_cases s (lit "0x")) as [(t & -> & _) | E]; [|exact E].
  exfalso. apply Forall_app in H as [H _].
  apply (Forall_lookup_1 _ _ 1 120) in H; [vm_compute in H; discriminate | reflexivity].
Qed.

(** The two shapes of a well-formed EVM address with hex digits [body]. *)
Definition evm_address (t body : str) : Prop :=
  (t = body \/ t = lit "0x" ++ body) /\ length body = EVM_ADDRESS_HEX_LEN /\ hex_text body.

Lemma evm_address_strip t body : evm_address t body -> evm_strip_prefix t = body.
Proof.
  intros ([-> | ->] & _ & Hh).
  - apply hex_text_no_0x. exact Hh.
  - apply without_prefix_app.
Qed.

Lemma evm_address_trim t body : evm_address t body -> trim t = t.
Proof.
  intros ([-> | ->] & _ & Hh); apply trim_graphic; [|apply graphic_0x];
    apply hex_text_graphic, Hh.
Qed.

Lemma evm_address_not_nil t body : evm_address t body -> is_nil t = false.
Proof. intros ([-> | ->] & Hl & _); [destruct body; [discriminate|]|]; reflexivity. Qed.

Lemma evm_validate_ok s t :
  evm_validate s = Ok t <-> t = trim s /\ exists body, evm_address t body.
Proof.
  unfold evm_validate. split.
  - intros H. destruct (is_nil (trim s)) eqn:En; [discriminate|].
    set (body := evm_strip_prefix (trim s)) in *.
    destruct (length body =? EVM_ADDRESS_HEX_LEN)%nat eqn:El; [|discriminate]. cbn [negb] in H.
    destruct (find_first _ _) eqn:Ef; [discriminate|]. injection H as <-.
    apply chars_all_ascii in Ef; [|apply hexdigit_ascii]. apply Nat.eqb_eq in El.
    split; [reflexivity|]. exists body. split; [|auto].
    unfold body, evm_strip_prefix.
    destruct (without_prefix_cases (trim s) (lit "0x")) as [(u & E & E') | E]; rewrite ?E', ?E; auto.
  - intros (-> & body & Hb). pose proof Hb as (_ & Hl & Hh).
    rewrite (evm_address_not_nil _ _ Hb), (evm_address_strip _ _ Hb), Hl. cbn [Nat.eqb negb].
    rewrite Nat.eqb_refl. cbn [negb].
    rewrite (proj2 (chars_all_ascii _ body hexdigit_ascii)) by exact Hh. reflexivity.
Qed.

Lemma evm_validate_address t body : evm_address t body -> evm_validate t = Ok t.
Proof.
  intros H. apply evm_validate_ok. rewrite (evm_address_trim _ _ H). eauto.
Qed.

(** ** EIP-55 *)

Lemma nibble_total {E} hash i :
  (i < 2 * length hash)%nat -> exists n, nibble (E:=E) hash i = Ok n.
Proof.
  intros Hi. unfold nibble.
  destruct (lookup_lt_is_Some_2 hash (i / 2)%nat) as [b ->]; [|eauto].
  apply Nat.Div0.div_lt_upper_bound. lia.
Qed.

Lemma upper_lower c : to_ascii_lower (to_ascii_upper c) = to_ascii_lower c.
Proof.
  unfold to_ascii_lower, to_ascii_upper, is_ascii_upper, is_ascii_lower.
  repeat case_match; bool_to_prop; try lia;
    rewrite ?andb_true_iff, ?andb_false_iff, ?Z.leb_le, ?Z.leb_gt in *; lia.
Qed.

Lemma upper_hexdigit c : is_ascii_hexdigit c = true -> is_ascii_hexdigit (to_ascii_upper c) = true.
Proof.
  unfold to_ascii_upper, is_ascii_lower. intros H.
  destruct ((97 <=? c) && (c <=? 122)) eqn:E; [|exact H].
  unfold is_ascii_hexdigit, is_ascii_digit in *.
  rewrite !orb_true_iff, !andb_true_iff, !Z.leb_le in *. lia.
Qed.

Lemma lower_hexdigit c : is_ascii_hexdigit c = true -> is_ascii_hexdigit (to_ascii_lower c) = true.
Proof.
  unfold to_ascii_lower, is_ascii_upper. intros H.
  destruct ((65 <=? c) && (c <=? 90)) eqn:E; [|exact H].
  unfold is_ascii_hexdigit, is_ascii_digit in *.
  rewrite !orb_true_iff, !andb_true_iff, !Z.leb_le in *. lia.
Qed.

Lemma ascii_lowercase_hex s : hex_text s -> hex_text (ascii_lowercase s).
Proof.
  intros H. unfold ascii_lowercase. apply Forall_fmap.
  eapply list.Forall_impl; [exact H|]. apply lower_hexdigit.
Qed.

Lemma ascii_lowercase_idem s : ascii_lowercase (ascii_lowercase s) = ascii_lowercase s.
Proof.
  unfold ascii_lowercase. rewrite <- list_fmap_compose. apply list_fmap_ext. intros _ c _. cbn.
  unfold to_ascii_lower, is_ascii_upper.
  destruct ((65 <=? c) && (c <=? 90)) eqn:E; [|rewrite E; reflexivity]. bool_to_prop.
  destruct ((65 <=? c + 32) && (c + 32 <=? 90)) eqn:E2; bool_to_prop; lia.
Qed.

Lemma checksum_loop_spec {E} hash cs i :
  hex_text cs -> (i + length cs <= 2 * length hash)%nat ->
  exists r, checksum_loop (E:=E) hash i cs = Ok r
    /\ hex_text r /\ length r = length cs /\ ascii_lowercase r = ascii_lowercase cs.
Proof.
  intros H. revert i. induction H as [|c cs Hc Hcs IH]; intros i Hl.
  - exists []. repeat split; constructor.
  - cbn [length] in Hl. destruct (nibble_total (E:=E) hash i ltac:(lia)) as [n Hn].
    destruct (IH (S i) ltac:(lia)) as (r & Hr & Hh & Hlen & Hlow).
    cbn [checksum_loop]. rewrite Hn. cbn [mbind res_bind]. rewrite Hr. cbn [mbind res_bind].
    eexists. split; [reflexivity|]. split; [|split].
    + constructor; [|exact Hh]. case_bool; [exact Hc | apply upper_hexdigit, Hc].
    + cbn. congruence.
    + unfold ascii_lowercase in *. rewrite !fmap_cons, Hlow.
      case_bool; rewrite ?upper_lower; reflexivity.
Qed.

Section Eip55.
Context `{CodecLaws}.

Lemma to_checksummed_spec t body :
  evm_address t body ->
  exists r, to_checksummed t = Ok (lit "0x" ++ r) /\
    checksum_loop (E:=addr_error) (keccak256 (ascii_lowercase body)) 0 (ascii_lowercase body) = Ok r
    /\ evm_address (lit "0x" ++ r) r /\ ascii_lowercase r = ascii_lowercase body.
Proof.
  intros Ha. pose proof Ha as (_ & Hl & Hh).
  destruct (checksum_loop_spec (E:=addr_error) (keccak256 (ascii_lowercase body))
              (ascii_lowercase body) 0) as (r & Hr & Hhr & Hlr & Hlow).
  { apply ascii_lowercase_hex, Hh. }
  { unfold ascii_lowercase at 1. rewrite length_fmap, Hl, keccak256_length. unfold EVM_ADDRESS_HEX_LEN. lia. }
  exists r. unfold to_checksummed. rewrite (evm_validate_address _ _ Ha). cbn [mbind res_bind].
  rewrite (evm_address_strip _ _ Ha), Hr. cbn [mbind res_bind]. split_and!; auto.
  - split; [right; reflexivity|]. split; [|exact Hhr]. rewrite Hlr. unfold ascii_lowercase.
    rewrite length_fmap. exact Hl.
  - rewrite Hlow. apply ascii_lowercase_idem.
Qed.

Lemma to_checksummed_case t t' body body' :
  evm_address t body -> evm_address t' body' ->
  ascii_lowercase body = ascii_lowercase body' -> to_checksummed t = to_checksummed t'.
Proof.
  intros Ha Ha' He. destruct (to_checksummed_spec _ _ Ha) as (r & -> & Hr & _).
  destruct (to_checksummed_spec _ _ Ha') as (r' & -> & Hr' & _).
  rewrite He in Hr. congruence.
Qed.
End Eip55.

(** * Facts about the other chains *)

Lemma trim_is_nil s : graphic s -> s <> [] -> is_nil (trim s) = false.
Proof. intros H Hn. rewrite trim_graphic by exact H. destruct s; [congruence | reflexivity]. Qed.

Section Chains.
Context `{CodecLaws}.

Lemma tron_decode_ok s b :
  tron_decode s = Ok b <->
  trim s <> [] /\ bs58check_decode (Some MAINNET_PREFIX) (trim s) = Ok b
  /\ length b = TRON_ADDRESS_BYTES.
Proof.
  unfold tron_decode. split.
  - intros Hd. destruct (trim s) as [|c r] eqn:E; [discriminate|]. cbn [is_nil] in Hd.
    inv_ok. destruct (length x =? TRON_ADDRESS_BYTES)%nat eqn:El; [|discriminate].
    injection Hd as ->. apply Nat.eqb_eq in El. auto.
  - intros (Hn & Hd & Hl). destruct (trim s) as [|c r] eqn:E; [congruence|]. cbn [is_nil].
    rewrite Hd. cbn. rewrite Hl, Nat.eqb_refl. reflexivity.
Qed.

Lemma solana_decode_ok s b :
  solana_decode s = Ok b <->
  trim s <> [] /\ bs58_decode (trim s) = Ok b /\ length b = SOLANA_ADDRESS_BYTES.
Proof.
  unfold solana_decode. split.
  - intros Hd. destruct (trim s) as [|c r] eqn:E; [discriminate|]. cbn [is_nil] in Hd.
    inv_ok. destruct (length x =? SOLANA_ADDRESS_BYTES)%nat eqn:El; [|discriminate].
    injection Hd as ->. apply Nat.eqb_eq in El. auto.
  - intros (Hn & Hd & Hl). destruct (trim s) as [|c r] eqn:E; [congruence|]. cbn [is_nil].
    rewrite Hd. cbn. rewrite Hl, Nat.eqb_refl. reflexivity.
Qed.

Lemma tron_decode_facts s b :
  tron_decode s = Ok b ->
  bytes_ok b /\ length b = 21%nat /\ head b = Some MAINNET_PREFIX /\ graphic (trim s).
Proof.
  intros Hd. apply tron_decode_ok in Hd as (_ & Hd & Hl).
  repeat split; [eapply bs58check_decode_ok | | eapply bs58check_decode_version
    | eapply bs58check_decode_graphic]; eauto.
Qed.

Lemma tron_to_hex_ok s h :
  to_hex s = Ok h <-> exists b, tron_decode s = Ok b /\ h = hex_string b.
Proof.
  unfold to_hex. rewrite fmap_ok. split; intros (b & Hd & Hh); exists b; split; auto;
    (destruct (tron_decode_facts s b Hd) as (Hok & _));
    [rewrite <- Hh; apply hex_encode_lower | rewrite Hh; apply hex_encode_lower]; exact Hok.
Qed.

Lemma trimmed_non_empty_ok s t : trimmed_non_empty s = Ok t <-> t = trim s /\ trim s <> [].
Proof.
  unfold trimmed_non_empty. destruct (trim s) as [|c r]; cbn.
  - split; [discriminate | tauto].
  - split; [intros [= <-]; split; [reflexivity | discriminate] | intros [-> _]; reflexivity].
Qed.

Lemma btc_parse_no_panic s : btc_parse s <> Panic.
Proof.
  assert (H1 : parse_bech32 s <> Panic).
  { unfold parse_bech32. apply bind_no_panic.
    - pose proof (segwit_decode_total s). destruct (segwit_decode s); cbn; congruence.
    - intros [[hrp v] p]. repeat case_bool; discriminate. }
  assert (H2 : parse_base58 s <> Panic).
  { unfold parse_base58. apply bind_no_panic.
    - pose proof (bs58check_decode_total None s).
      destruct (bs58check_decode None s); cbn; congruence.
    - intros [|v p]; [discriminate|]. repeat case_bool; discriminate. }
  unfold btc_parse. destruct (rfind _ _); [case_bool|]; assumption.
Qed.

Lemma btc_parse_graphic s k : btc_parse s = Ok k -> graphic s.
Proof.
  assert (H1 : parse_bech32 s = Ok k -> graphic s).
  { unfold parse_bech32. intros Hk. inv_ok. eapply segwit_decode_graphic. eassumption. }
  assert (H2 : parse_base58 s = Ok k -> graphic s).
  { unfold parse_base58. intros Hk. inv_ok. eapply bs58check_decode_graphic. eassumption. }
  unfold btc_parse. destruct (rfind _ _); [case_bool|]; assumption.
Qed.

(** One lemma for every chain: a validator that looks only at the trimmed
    text, returns it, and accepts printable text only, is idempotent. *)
Lemma validator_shape compiled c s t :
  address_validate compiled c s = Ok t <->
  compiled c = true /\ t = trim s /\ trim s <> [] /\ graphic t /\
  match c with
  | Btc => is_ok (btc_parse t) = true
  | Evm => exists body, evm_address t body
  | Solana => exists b, bs58_decode t = Ok b /\ length b = SOLANA_ADDRESS_BYTES
  | Tron => exists b, bs58check_decode (Some MAINNET_PREFIX) t = Ok b
                      /\ length b = TRON_ADDRESS_BYTES
  end.
Proof.
  unfold address_validate. destruct (compiled c); cbn [ok_or mbind res_bind];
    [|split; [discriminate | intros ([=] & _)]].
  destruct c.
  - unfold btc_validate. rewrite bind_ok. split.
    + intros (x & Hx & Hk). apply trimmed_non_empty_ok in Hx as [-> Hn].
      inv_ok. subst. repeat split; auto; [eapply btc_parse_graphic; eauto|].
      match goal with Hp : btc_parse _ = _ |- _ => rewrite Hp end. reflexivity.
    + intros (_ & -> & Hn & Hg & Hk). exists (trim s).
      split; [apply trimmed_non_empty_ok; auto|].
      destruct (btc_parse (trim s)); [reflexivity | discriminate..].
  - rewrite evm_validate_ok. split.
    + intros (-> & body & Hb). repeat split; eauto.
      * intros E. pose proof (evm_address_not_nil _ _ Hb). rewrite E in *. discriminate.
      * destruct Hb as ([-> | ->] & _ & Hh); [|apply graphic_0x]; apply hex_text_graphic, Hh.
    + intros (_ & -> & _ & _ & Hb). auto.
  - unfold solana_validate. rewrite fmap_ok. setoid_rewrite solana_decode_ok. split.
    + intros (b & (Hn & Hd & Hl) & <-). repeat split; eauto using bs58_decode_graphic.
    + intros (_ & -> & Hn & Hg & b & Hd & Hl). eauto 10.
  - unfold tron_validate. rewrite fmap_ok. setoid_rewrite tron_decode_ok. split.
    + intros (b & (Hn & Hd & Hl) & <-). repeat split; eauto using bs58check_decode_graphic.
    + intros (_ & -> & Hn & Hg & b & Hd & Hl). eauto 10.
Qed.

Lemma address_validate_no_panic compiled c s : address_validate compiled c s <> Panic.
Proof.
  unfold address_validate. destruct (compiled c); [|discriminate]. cbn [ok_or mbind res_bind].
  destruct c.
  - unfold btc_validate. apply bind_no_panic.
    + unfold trimmed_non_empty. case_bool; discriminate.
    + intros x. apply bind_no_panic; [apply btc_parse_no_panic | discriminate].
  - unfold evm_validate. repeat case_match; discriminate.
  - unfold solana_validate, solana_decode. destruct (is_nil _); [discriminate|].
    pose proof (bs58_decode_total (trim s)). destruct (bs58_decode _); cbn; try congruence.
    case_match; discriminate.
  - unfold tron_validate, tron_decode. destruct (is_nil _); [discriminate|].
    pose proof (bs58check_decode_total (Some MAINNET_PREFIX) (trim s)).
    destruct (bs58check_decode _ _); cbn; try congruence. case_match; discriminate.
Qed.
End Chains.

Lemma position_cons_ne b l :
  b ∉ l -> forall m, position (Z.eqb b) (l ++ b :: m) = Some (length l).
Proof.
  intros Hn m. induction l as [|c l IH]; cbn.
  - rewrite Z.eqb_refl. reflexivity.
  - apply not_elem_of_cons in Hn as [Hc Hn]. rewrite (proj2 (Z.eqb_neq b c) Hc), IH by exact Hn.
    reflexivity.
Qed.

(** The separator of [bc1<data>] is the [1] after the human-readable part. *)
Lemma rfind_separator p d : 49 ∉ d -> rfind 49 (p ++ 49 :: d) = Some (length p).
Proof.
  intros Hd. unfold rfind.
  rewrite rev_app_distr. cbn [rev]. rewrite <- app_assoc. cbn [app].
  rewrite position_cons_ne by (rewrite list_elem_of_In, <- in_rev, <- list_elem_of_In; exact Hd).
  cbn. f_equal. rewrite length_app, length_rev. cbn. lia.
Qed.

Lemma lower_not_elem d : 49 ∉ d -> 49 ∉ ascii_lowercase d.
Proof.
  intros Hd H. apply Hd. unfold ascii_lowercase in H. apply list_elem_of_fmap in H as (c & Hc & Hin).
  unfold to_ascii_lower, is_ascii_upper in Hc. case_match; bool_to_prop; [lia|]. subst. exact Hin.
Qed.

Lemma btc_parse_bc1 `{CodecLaws} d :
  49 ∉ d -> btc_parse (lit "bc1" ++ d) = parse_bech32 (lit "bc1" ++ d).
Proof.
  intros Hd. unfold btc_parse.
  replace (ascii_lowercase (lit "bc1" ++ d)) with (lit "bc" ++ 49 :: ascii_lowercase d) by reflexivity.
  rewrite rfind_separator by (apply lower_not_elem; exact Hd).
  rewrite take_app_length. reflexivity.
Qed.

(** * Properties *)

(** EIP-55 rendering is a canonical form.  For every address the EVM
    validator accepts, [to_checksummed] succeeds (no hash index is out of
    range); its result is itself accepted unchanged, carries a valid checksum,
    is a fixed point of the rendering and has the same hex digits up to letter
    case; every other spelling of the same digits renders to it; and
    [is_checksum_valid] of the input says whether it is spelled that way. *)
Theorem eip55_canonical `{CodecLaws} s t :
  evm_validate s = Ok t ->
  exists c, to_checksummed s = Ok c
    /\ evm_validate c = Ok c
    /\ to_checksummed c = Ok c
    /\ is_checksum_valid c = Ok true
    /\ ascii_lowercase (evm_strip_prefix c) = ascii_lowercase (evm_strip_prefix t)
    /\ is_checksum_valid s = Ok (bool_decide (evm_strip_prefix t = evm_strip_prefix c))
    /\ (forall s' t', evm_validate s' = Ok t' ->
          ascii_lowercase (evm_strip_prefix t') = ascii_lowercase (evm_strip_prefix t) ->
          to_checksummed s' = Ok c).
Proof.
  assert (Hvia : forall s t, evm_validate s = Ok t -> to_checksummed s = to_checksummed t).
  { intros s0 t0 Hv. unfold to_checksummed. rewrite Hv.
    apply evm_validate_ok in Hv as (-> & body & Hb).
    rewrite (evm_validate_address _ _ Hb). reflexivity. }
  intros Hs. pose proof Hs as Hs'. apply evm_validate_ok in Hs' as (Ht & body & Hb).
  destruct (to_checksummed_spec _ _ Hb) as (r & Hc & _ & Hr & Hlow).
  exists (lit "0x" ++ r).
  assert (Hcc : to_checksummed (lit "0x" ++ r) = Ok (lit "0x" ++ r))
    by (rewrite <- Hc; eapply to_checksummed_case; eauto).
  split_and!.
  - rewrite (Hvia _ _ Hs). exact Hc.
  - exact (evm_validate_address _ _ Hr).
  - exact Hcc.
  - unfold is_checksum_valid. rewrite (evm_validate_address _ _ Hr). cbn [mbind res_bind].
    rewrite Hcc. cbn [mbind res_bind]. rewrite (evm_address_strip _ _ Hr).
    f_equal. apply bool_decide_eq_true. reflexivity.
  - rewrite (evm_address_strip _ _ Hr), (evm_address_strip _ _ Hb). exact Hlow.
  - unfold is_checksum_valid. rewrite Hs. cbn [mbind res_bind]. rewrite Hc. cbn [mbind res_bind].
    rewrite (evm_address_strip _ _ Hr), (evm_address_strip _ _ Hb). f_equal.
    apply bool_decide_ext. unfold evm_prefixed. split; [intros E%app_inv_head; auto | intros ->; auto].
  - intros s' t' Hs' He. rewrite (Hvia _ _ Hs').
    apply evm_validate_ok in Hs' as (_ & body' & Hb'). rewrite <- Hc.
    eapply to_checksummed_case; eauto.
    rewrite <- (evm_address_strip _ _ Hb), <- (evm_address_strip _ _ Hb'). exact He.
Qed.

Lemma eip55_canonical_witness :
  exists c, to_checksummed (lit " 0x52908400098527886e0f7030069857d2e4169ee7") = Ok c
    /\ is_checksum_valid c = Ok true.
Proof.
  destruct (eip55_canonical (lit " 0x52908400098527886e0f7030069857d2e4169ee7")
              (lit "0x52908400098527886e0f7030069857d2e4169ee7")) as (c & H1 & _ & _ & H2 & _).
  - vm_compute. reflexivity.
  - exact (ex_intro _ c (conj H1 H2)).
Defined.

(** Validation of any compiled chain never panics, and a success means: the
    result is the input trimmed, non-empty printable ASCII, and validating the
    result again returns it unchanged.  A chain whose feature is off is
    reported as such and never accepted. *)
Theorem address_validate_stable `{CodecLaws} compiled c s :
  address_validate compiled c s <> Panic /\
  (compiled c = false -> address_validate compiled c s = Err (ChainNotCompiled c)) /\
  forall t, address_validate compiled c s = Ok t ->
    t = trim s /\ t <> [] /\ graphic t /\ address_validate compiled c t = Ok t.
Proof.
  split; [apply address_validate_no_panic|]. split.
  - intros E. unfold address_validate. rewrite E. reflexivity.
  - intros t Ht. apply validator_shape in Ht as (Hc & -> & Hn & Hg & Hx).
    repeat split; auto. apply validator_shape. rewrite (trim_graphic (trim s)) by exact Hg. auto.
Qed.

Lemma address_validate_stable_witness :
  let s := lit " 52908400098527886E0F7030069857D2E4169EE7 " in
  address_validate (fun _ => true) Evm (trim s) = Ok (trim s).
Proof.
  cbn zeta.
  destruct (address_validate_stable (fun _ => true) Evm
              (lit " 52908400098527886E0F7030069857D2E4169EE7 ")) as (_ & _ & H).
  destruct (H (trim (lit " 52908400098527886E0F7030069857D2E4169EE7 ")))
    as (_ & _ & _ & H'); [vm_compute; reflexivity | exact H'].
Defined.

(** ** Rendered addresses *)

Lemma tron_encode_validates `{CodecLaws} b s :
  bytes_ok b -> length b = TRON_ADDRESS_BYTES -> tron_encode b = Ok s ->
  tron_decode s = Ok b /\ tron_validate s = Ok s /\ head b = Some MAINNET_PREFIX.
Proof.
  intros Hok Hl He. unfold tron_encode in He.
  destruct b as [|b0 b]; [discriminate|]. cbn [nth] in He.
  destruct (Z.eqb_spec b0 MAINNET_PREFIX) as [->|]; [|discriminate].
  cbn [negb] in He. injection He as He.
  assert (Hd : bs58check_decode (Some MAINNET_PREFIX) s = Ok (MAINNET_PREFIX :: b)).
  { rewrite <- He. apply bs58check_decode_encode; [exact Hok | intros x [= <-]; reflexivity | discriminate]. }
  pose proof (bs58check_decode_graphic _ _ _ Hd) as Hg.
  assert (Hn : s <> []).
  { intros ->. destruct (bs58check_decode_nil (Some MAINNET_PREFIX)) as [e Hnil]. congruence. }
  assert (Ht : tron_decode s = Ok (MAINNET_PREFIX :: b))
    by (apply tron_decode_ok; rewrite trim_graphic by exact Hg; auto).
  split_and!; [exact Ht | | reflexivity].
  unfold tron_validate. rewrite Ht. cbn. f_equal. apply trim_graphic, Hg.
Qed.

Lemma solana_encode_validates `{CodecLaws} b :
  bytes_ok b -> length b = SOLANA_ADDRESS_BYTES ->
  solana_decode (solana_encode b) = Ok b /\ solana_validate (solana_encode b) = Ok (solana_encode b).
Proof.
  intros Hok Hl. pose proof (bs58_decode_encode b Hok) as Hd.
  pose proof (bs58_decode_graphic _ _ Hd) as Hg.
  assert (Hs : solana_decode (solana_encode b) = Ok b).
  { apply solana_decode_ok. unfold solana_encode. rewrite trim_graphic by exact Hg.
    split_and!; auto. intros E. rewrite E, bs58_decode_nil in Hd. injection Hd as <-. discriminate. }
  split; [exact Hs|]. unfold solana_validate. rewrite Hs. cbn. f_equal. apply trim_graphic, Hg.
Qed.

Lemma p2wpkh_validates `{CodecLaws} b s : length b = 20%nat -> encode_p2wpkh b = Ok s -> validate_sender s = Ok s.
Proof.
  intros Hl He. unfold encode_p2wpkh in He. apply map_err_ok in He.
  destruct (segwit_encode_shape _ _ He) as (d & -> & Hg & Hd).
  unfold validate_sender. unfold trimmed_non_empty.
  rewrite trim_graphic by (repeat (constructor; [reflexivity|]); exact Hg).
  cbn [is_nil app lit String.list_ascii_of_string fmap list_fmap mbind res_bind].
  change (_ :: _ :: _ :: d) with (lit "bc1" ++ d).
  rewrite btc_parse_bc1 by exact Hd. unfold parse_bech32.
  rewrite (segwit_decode_encode _ _ He). cbn. rewrite Hl. reflexivity.
Qed.

(** C22. Rendering and decoding are inverse on the base-58 chains, and
    every rendered address validates: for Tron on exactly the 21-byte strings
    with the mainnet prefix (any other prefix is refused by [tron_encode]), for
    Solana on all 32-byte strings; and an encoded P2WPKH program is accepted
    as a Bitcoin sender. *)
Theorem address_render_roundtrip `{CodecLaws} b :
  bytes_ok b ->
  (forall s, tron_decode s = Ok b -> tron_encode b = Ok (trim s)) /\
  (forall s, length b = TRON_ADDRESS_BYTES -> tron_encode b = Ok s ->
     tron_decode s = Ok b /\ tron_validate s = Ok s /\ head b = Some MAINNET_PREFIX) /\
  (forall s, solana_decode s = Ok b -> solana_encode b = trim s) /\
  (length b = SOLANA_ADDRESS_BYTES ->
     solana_decode (solana_encode b) = Ok b /\ solana_validate (solana_encode b) = Ok (solana_encode b)) /\
  (forall s, length b = 20%nat -> encode_p2wpkh b = Ok s -> validate_sender s = Ok s).
Proof.
  intros Hok. split_and!.
  - intros s Hd. pose proof (tron_decode_facts _ _ Hd) as (_ & _ & Hh & _).
    apply tron_decode_ok in Hd as (_ & Hd & _). unfold tron_encode.
    destruct b as [|b0 b]; [discriminate|]. injection Hh as ->. cbn [nth negb Z.eqb Pos.eqb MAINNET_PREFIX].
    f_equal. eapply bs58check_encode_decode. exact Hd.
  - intros s. apply tron_encode_validates. exact Hok.
  - intros s Hd. apply solana_decode_ok in Hd as (_ & Hd & _).
    apply bs58_encode_decode. exact Hd.
  - apply solana_encode_validates. exact Hok.
  - intros s. apply p2wpkh_validates.
Qed.

Lemma address_render_roundtrip_witness :
  let b := 65 :: replicate 20 7 in
  tron_decode (hex_string b) = Ok b /\ tron_validate (hex_string b) = Ok (hex_string b).
Proof.
  cbn zeta.
  assert (Hok : bytes_ok (65 :: replicate 20 7)) by (repeat constructor; vm_compute; congruence).
  destruct (address_render_roundtrip _ Hok) as (_ & Ht & _).
  destruct (Ht (hex_string (65 :: replicate 20 7)) eq_refl eq_refl) as (H1 & H2 & _).
  exact (conj H1 H2).
Defined.
