(* ===== verification/Ip.v ===== *)
(** [std::net::IpAddr] and its [FromStr], as the standard library's parser reads
    addresses: four decimal octets without leading zeros, or eight groups of up
    to four hex digits, one run of zero groups written "::", the last two groups
    possibly as octets. *)

From stdpp Require Import base list strings numbers.
From S2P Require Import Prelude Text Chain Codec Addr.

Inductive IpAddr := V4 (octets : list Z) | V6 (groups : list Z).
#[export] Instance IpAddr_eq_dec : EqDecision IpAddr.
Proof. solve_decision. Defined.

(** The longest run of digits, and what follows. *)
Fixpoint digit_run (radix : Z) (s : str) : list Z * str :=
  match s with
  | c :: rest =>
      match digit_value radix c with
      | Some d => let '(ds, rest') := digit_run radix rest in (d :: ds, rest')
      | None => ([], s)
      end
  | [] => ([], [])
  end.

(** [read_number] of a type up to [max]. *)
Definition read_number (radix : Z) (max_digits : nat) (allow_zero_prefix : bool) (max : Z) (s : str) : option (Z * str) :=
  let '(ds, rest) := digit_run radix s in
  let n := digits_value radix 0 ds in
  if (max_digits <? length ds)%nat || is_nil ds then None
  else if negb allow_zero_prefix && (1 <? length ds)%nat && match s with 48 :: _ => true | _ => false end then None
  else if n <=? max then Some (n, rest) else None.

(** [read_separator]: before every item but the first. *)
Definition read_separator {A} (sep : Z) (index : nat) (read : str -> option (A * str)) (s : str) : option (A * str) :=
  match index with
  | O => read s
  | S _ => match s with c :: rest => if c =? sep then read rest else None | [] => None end
  end.

Fixpoint read_octets (remaining index : nat) (s : str) : option (list Z * str) :=
  match remaining with
  | O => Some ([], s)
  | S remaining =>
      '(o, rest) ← read_separator 46 index (read_number 10 3 false 255) s;
      '(os, rest') ← read_octets remaining (S index) rest;
      Some (o :: os, rest')
  end.

Definition read_ipv4_addr : str -> option (list Z * str) := read_octets 4 0.

(** The groups read, and whether octets ended them. *)
Fixpoint read_groups (remaining index : nat) (s : str) : list Z * bool * str :=
  match remaining with
  | O => ([], false, s)
  | S remaining =>
      match (if is_nil (seq 0 remaining) then None else read_separator 58 index read_ipv4_addr s) with
      | Some ([a; b; c; d], rest) => ([a * 256 + b; c * 256 + d], true, rest)
      | _ =>
          match read_separator 58 index (read_number 16 4 true 65535) s with
          | Some (g, rest) => let '(gs, v4, rest') := read_groups remaining (S index) rest in (g :: gs, v4, rest')
          | None => ([], false, s)
          end
      end
  end.

Definition read_ipv6_addr (s : str) : option (list Z * str) :=
  let '(groups, v4, rest) := read_groups 8 0 s in
  if (length groups =? 8)%nat then Some (groups, rest)
  else if v4 then None
  else match rest with
       | 58 :: 58 :: rest =>
           let '(tail, _, rest) := read_groups (7 - length groups) 0 rest in
           Some (groups ++ replicate (8 - length groups - length tail) 0 ++ tail, rest)
       | _ => None
       end.

(** [str::parse::<IpAddr>().ok()]. *)
Definition ip_parse (s : str) : option IpAddr :=
  match read_ipv4_addr s with
  | Some (octets, rest) => if is_nil rest then Some (V4 octets) else None
  | None =>
      match read_ipv6_addr s with
      | Some (groups, rest) => if is_nil rest then Some (V6 groups) else None
      | None => None
      end
  end.

Example ip_examples :
  ip_parse (lit "192.168.0.1") = Some (V4 [192; 168; 0; 1]) /\ ip_parse (lit "192.168.00.1") = None /\
  ip_parse (lit "256.1.1.1") = None /\ ip_parse (lit "1.2.3") = None /\ ip_parse (lit "1.2.3.4 ") = None /\
  ip_parse (lit "::1") = Some (V6 [0; 0; 0; 0; 0; 0; 0; 1]) /\ ip_parse (lit "::") = Some (V6 (replicate 8 0)) /\
  ip_parse (lit "2001:db8::ff00:42:8329") = Some (V6 [8193; 3512; 0; 0; 0; 65280; 66; 33577]) /\
  ip_parse (lit "::ffff:10.0.0.1") = Some (V6 [0; 0; 0; 0; 0; 65535; 2560; 1]) /\
  ip_parse (lit "1:2:3:4:5:6:7:8") = Some (V6 [1; 2; 3; 4; 5; 6; 7; 8]) /\ ip_parse (lit "1:2:3:4:5:6:7:8:9") = None /\
  ip_parse (lit "1::2::3") = None /\ ip_parse (lit "example.com") = None /\ ip_parse (lit "12345::") = None.
Proof. vm_compute. repeat split. Qed.
