(* ===== verification/TronTx.v ===== *)
(** Tron transactions ([crates/tinywallet-crypto/src/tx/tron.rs]).

    The node builds the transaction; the client checks it before signing.
    [verify_transfer] is the byte-run scan, [verify_contract] the structural
    check.  [describes] is what a transaction must be for the structural check
    to pass, stated over the wire grammar of [Proto]; [verify_contract] is
    shown to decide it, and a transaction to describe at most one transfer. *)

From stdpp Require Import base list strings numbers.
From S2P Require Import Prelude Text Chain Proto Codec Addr.

(** * Hex *)

Definition hex_error (reason : str) : tx_error := InvalidField (lit "raw_data_hex") reason.

Definition decode_hex (raw : str) : res tx_error (list Z) :=
  let body := trim raw in
  if negb (length body mod 2 =? 0)%nat then Err (hex_error (lit "odd length"))
  else hex_pairs (fun e => hex_error (parse_int_error_text e)) body.

Definition hex_lower (bytes : list Z) : str := hex_string bytes.

(** * Verification *)

Definition untrusted (reason : str) : tx_error := UntrustedResponse reason.

Definition recompute_txid `{Codecs} (raw_data_hex : str) : res tx_error str :=
  raw ← decode_hex raw_data_hex;
  Ok (hex_lower (sha256 raw)).

Definition verify_transfer `{Codecs} (raw_data_hex to txid : str) (transfer : TronTransfer)
  : res tx_error unit :=
  expected_id ← recompute_txid raw_data_hex;
  _ ← err_if (negb (eq_ignore_case expected_id (trim txid)))
        (untrusted (lit "txID does not match sha256(raw_data); the response was altered"));
  to_hex ← map_err TxAddress (to_hex to);
  _ ← err_if (negb (contains (ascii_lowercase raw_data_hex) (ascii_lowercase to_hex)))
        (untrusted (lit "the node's transaction does not pay the requested recipient"));
  raw ← decode_hex raw_data_hex;
  expected ← match transfer with
             | Native amount_sun => Ok (encode_varint amount_sun)
             | Trc20 parameter_hex => decode_hex parameter_hex
             end;
  err_if (is_nil expected || negb (contains raw expected))
    (untrusted (lit "the node's transaction does not contain the requested "
                ++ match transfer with
                   | Native _ => lit "amount"
                   | Trc20 _ => lit "TRC20 transfer parameter"
                   end)).

Definition CONTRACT_TYPE_TRANSFER : Z := 1.
Definition CONTRACT_TYPE_TRIGGER_SMART_CONTRACT : Z := 31.
Definition TRC20_TRANSFER_SELECTOR_HEX : str := lit "a9059cbb".

Record ParsedContract := mkContract { kind : Z; type_url : str; payload : list Z }.

Definition parse_single_contract (raw_fields : list Field) : res tx_error ParsedContract :=
  contract_bytes ← one_bytes raw_fields 11 (lit "Transaction.raw.contract");
  contract_fields ← parse_fields contract_bytes;
  kind ← one_varint contract_fields 1 (lit "Transaction.Contract.type");
  any_bytes ← one_bytes contract_fields 2 (lit "Transaction.Contract.parameter");
  any_fields ← parse_fields any_bytes;
  url ← one_bytes any_fields 1 (lit "Any.type_url");
  _ ← err_if (negb (utf8_valid url)) (InvalidField (lit "Any.type_url") (lit "is not UTF-8"));
  payload ← one_bytes any_fields 2 (lit "Any.value");
  Ok (mkContract kind url payload).

(** The arm of [verify_contract] for a native transfer. *)
Definition verify_native (contract : ParsedContract) (expected_recipient : list Z) (amount_sun : Z)
  : res tx_error unit :=
  _ ← err_if (negb (kind contract =? CONTRACT_TYPE_TRANSFER)
              || negb (ends_with (type_url contract) (lit ".TransferContract")))
        (untrusted (lit "the transaction is not a native transfer"));
  payload ← parse_fields (payload contract);
  to ← one_bytes payload 2 (lit "TransferContract.to_address");
  _ ← err_if (negb (bool_decide (to = expected_recipient)))
        (untrusted (lit "the transaction does not pay the requested recipient"));
  amount ← one_varint payload 3 (lit "TransferContract.amount");
  err_if (negb (amount =? amount_sun))
    (untrusted (lit "the transaction has a different native amount")).

(** The arm for a TRC-20 transfer. *)
Definition verify_trc20 (raw_fields : list Field) (contract : ParsedContract)
    (expected_recipient : list Z) (parameter_hex : str) (fee_limit_sun : option Z)
  : res tx_error unit :=
  _ ← err_if (negb (kind contract =? CONTRACT_TYPE_TRIGGER_SMART_CONTRACT)
              || negb (ends_with (type_url contract) (lit ".TriggerSmartContract")))
        (untrusted (lit "the transaction is not a smart-contract trigger"));
  payload ← parse_fields (payload contract);
  to ← one_bytes payload 2 (lit "TriggerSmartContract.contract_address");
  _ ← err_if (negb (bool_decide (to = expected_recipient)))
        (untrusted (lit "the transaction targets a different contract"));
  call_value ← default 0 <$> optional_varint payload 3 (lit "TriggerSmartContract.call_value");
  _ ← err_if (negb (call_value =? 0))
        (untrusted (lit "the transaction has a non-zero TRC20 call_value"));
  fee_limit ← optional_varint raw_fields 18 (lit "Transaction.raw.fee_limit");
  _ ← match fee_limit_sun, fee_limit with
      | Some expected, Some actual =>
          err_if (negb (actual =? expected))
            (untrusted (lit "the transaction has a different fee_limit"))
      | _, _ => Ok tt
      end;
  selector ← decode_hex TRC20_TRANSFER_SELECTOR_HEX;
  parameter ← decode_hex parameter_hex;
  data ← one_bytes payload 4 (lit "TriggerSmartContract.data");
  err_if (negb (bool_decide (data = selector ++ parameter)))
    (untrusted (lit "the transaction has different TRC20 transfer data")).

Definition verify_contract `{Codecs} (raw_data_hex to txid : str) (transfer : TronTransfer)
    (fee_limit_sun : option Z) : res tx_error unit :=
  expected_id ← recompute_txid raw_data_hex;
  _ ← err_if (negb (eq_ignore_case expected_id (trim txid)))
        (untrusted (lit "txID does not match sha256(raw_data); the response was altered"));
  raw ← decode_hex raw_data_hex;
  to_hex ← map_err TxAddress (to_hex to);
  expected_recipient ← decode_hex to_hex;
  raw_fields ← parse_fields raw;
  contract ← parse_single_contract raw_fields;
  match transfer with
  | Native amount_sun => verify_native contract expected_recipient amount_sun
  | Trc20 parameter_hex =>
      verify_trc20 raw_fields contract expected_recipient parameter_hex fee_limit_sun
  end.

(** * Signing *)

Definition tron_digest `{Codecs} (raw_data_hex : str) : res tx_error (list Z) :=
  raw ← decode_hex raw_data_hex;
  Ok (sha256 raw).

(** [rs : &[u8; 64]]; the result is the 65-byte array. *)
Definition tron_attach_signature (rs : list Z) (recovery_id : Z) : res tx_error (list Z) :=
  if 3 <? recovery_id
  then Err (Signing (lit "recovery id must be 0..=3, got " ++ show_dec recovery_id))
  else Ok (rs ++ [recovery_id]).

Definition signature_hex (signature : list Z) : str := hex_lower signature.

(** * What a transaction says *)

(** [raw] carries one contract, of type [kind], whose [Any] has this type and payload. *)
Definition carries (raw : list Z) (kind : Z) (url payload : list Z) : Prop :=
  exists contract any,
    has_one raw 11 (Bytes contract) /\ has_one contract 1 (Varint kind) /\
    has_one contract 2 (Bytes any) /\ has_one any 1 (Bytes url) /\
    utf8_valid url = true /\ has_one any 2 (Bytes payload).

(** If the caller pinned a fee limit and the transaction states one, they agree. *)
Definition fee_limit_matches (raw : list Z) (fee_limit_sun : option Z) : Prop :=
  lacks raw 18 \/ exists limit, has_one raw 18 (Varint limit) /\
                    (forall pinned, fee_limit_sun = Some pinned -> limit = pinned).

(** [raw] is a transaction for [transfer] to the 21 bytes [to]. *)
Definition describes (raw to : list Z) (transfer : TronTransfer) (fee_limit_sun : option Z) : Prop :=
  exists url payload,
    match transfer with
    | Native amount_sun =>
        carries raw CONTRACT_TYPE_TRANSFER url payload /\
        ends_with url (lit ".TransferContract") = true /\
        has_one payload 2 (Bytes to) /\ has_one payload 3 (Varint amount_sun)
    | Trc20 parameter_hex =>
        carries raw CONTRACT_TYPE_TRIGGER_SMART_CONTRACT url payload /\
        ends_with url (lit ".TriggerSmartContract") = true /\
        has_one payload 2 (Bytes to) /\
        (lacks payload 3 \/ has_one payload 3 (Varint 0)) /\
        fee_limit_matches raw fee_limit_sun /\
        exists parameter, decode_hex parameter_hex = Ok parameter /\
          has_one payload 4 (Bytes ([169; 5; 156; 187] ++ parameter))
    end.

(** * Hex facts *)

(** What [hex_lower] writes, [decode_hex] reads. *)
Lemma decode_hex_string bs : bytes_ok bs -> decode_hex (hex_string bs) = Ok bs.
Proof.
  intros Hok. unfold decode_hex, hex_pairs.
  rewrite trim_graphic by (apply hex_string_graphic; exact Hok).
  rewrite hex_string_length.
  replace (2 * length bs)%nat with (length bs * 2)%nat by lia.
  rewrite Nat.Div0.mod_mul, Nat.div_mul by lia. cbn [Nat.eqb negb].
  apply collect_ok. apply Forall2_fmap_l. apply Forall2_same_length_lookup.
  split; [rewrite length_seq; reflexivity|].
  intros i x b Hx Hb. apply lookup_seq in Hx as [-> Hi]. cbn [Nat.add].
  change (hex_pair (fun e => hex_error (parse_int_error_text e)) (hex_string bs) (2 * i)%nat = Ok b).
  unfold hex_pair. rewrite (str_get_hex_string _ _ _ Hok Hb), parse_hex_byte; [reflexivity|].
  eapply Forall_lookup_1; eauto.
Qed.

Lemma decode_hex_ok s bs : decode_hex s = Ok bs -> bytes_ok bs.
Proof.
  unfold decode_hex. case_bool; [discriminate|]. intros H. unfold hex_pairs in H. apply collect_ok in H.
  apply Forall_lookup. intros i b Hb.
  destruct (Forall2_lookup_r _ _ _ _ _ H Hb) as (x & _ & Hx). unfold hex_pair in Hx.
  case_match; [|discriminate]. apply map_err_ok in Hx.
  apply parse_unsigned_bound in Hx; [|lia..]. unfold is_u8. lia.
Qed.

(** * The structural check decides [describes] *)

Section Fields.
Variables (bs : list Z) (fs : list Field).
Hypothesis (Hok : bytes_ok bs) (Hm : message_repr fs bs).

Lemma one_bytes_has n name b : one_bytes fs n name = Ok b <-> has_one bs n (Bytes b).
Proof. rewrite one_bytes_ok, (has_one_fields bs fs) by assumption. reflexivity. Qed.

Lemma one_varint_has n name v : one_varint fs n name = Ok v <-> has_one bs n (Varint v).
Proof. rewrite one_varint_ok, (has_one_fields bs fs) by assumption. reflexivity. Qed.

Lemma optional_varint_has n name o :
  optional_varint fs n name = Ok o <->
  match o with None => lacks bs n | Some v => has_one bs n (Varint v) end.
Proof.
  destruct o as [v|].
  - rewrite optional_varint_some, (has_one_fields bs fs) by assumption. reflexivity.
  - rewrite optional_varint_none, (lacks_fields bs fs) by assumption. reflexivity.
Qed.
End Fields.

Lemma has_one_fields_of bs n v :
  bytes_ok bs -> has_one bs n v -> exists fs, parse_fields bs = Ok fs /\ message_repr fs bs.
Proof.
  intros Hok (fs & Hm & _). exists fs. split; [apply parse_fields_repr; assumption | exact Hm].
Qed.

Lemma parse_single_contract_spec raw fs k u p :
  bytes_ok raw -> message_repr fs raw ->
  parse_single_contract fs = Ok (mkContract k u p) <-> carries raw k u p.
Proof.
  intros Hok Hm. unfold parse_single_contract, carries. split.
  - intros H. apply bind_ok in H as (cb & Hcb & H). apply (one_bytes_has raw) in Hcb; [|assumption..].
    pose proof (has_one_bytes_ok _ _ _ Hok Hcb) as Hcbok.
    apply bind_ok in H as (cf & Hcf & H). apply parse_fields_repr in Hcf; [|assumption].
    apply bind_ok in H as (k' & Hk & H). apply (one_varint_has cb) in Hk; [|assumption..].
    apply bind_ok in H as (ab & Hab & H). apply (one_bytes_has cb) in Hab; [|assumption..].
    pose proof (has_one_bytes_ok _ _ _ Hcbok Hab) as Habok.
    apply bind_ok in H as (af & Haf & H). apply parse_fields_repr in Haf; [|assumption].
    apply bind_ok in H as (u' & Hu & H). apply (one_bytes_has ab) in Hu; [|assumption..].
    apply bind_ok in H as ([] & Hutf & H). apply err_if_ok, negb_false_iff in Hutf.
    apply bind_ok in H as (p' & Hp & H). apply (one_bytes_has ab) in Hp; [|assumption..].
    injection H as -> -> ->. eauto 10.
  - intros (cb & ab & Hcb & Hk & Hab & Hu & Hutf & Hp).
    pose proof (has_one_bytes_ok _ _ _ Hok Hcb) as Hcbok.
    pose proof (has_one_bytes_ok _ _ _ Hcbok Hab) as Habok.
    destruct (has_one_fields_of _ _ _ Hcbok Hk) as (cf & Hcf & Hcm).
    destruct (has_one_fields_of _ _ _ Habok Hu) as (af & Haf & Ham).
    rewrite (proj2 (one_bytes_has raw fs Hok Hm _ _ _) Hcb). cbn [mbind res_bind].
    rewrite Hcf. cbn [mbind res_bind].
    rewrite (proj2 (one_varint_has cb cf Hcbok Hcm _ _ _) Hk). cbn [mbind res_bind].
    rewrite (proj2 (one_bytes_has cb cf Hcbok Hcm _ _ _) Hab). cbn [mbind res_bind].
    rewrite Haf. cbn [mbind res_bind].
    rewrite (proj2 (one_bytes_has ab af Habok Ham _ _ _) Hu). cbn [mbind res_bind].
    rewrite Hutf. cbn [negb err_if mbind res_bind].
    rewrite (proj2 (one_bytes_has ab af Habok Ham _ _ _) Hp). reflexivity.
Qed.

Lemma carries_payload_ok raw k u p : bytes_ok raw -> carries raw k u p -> bytes_ok p.
Proof.
  intros Hok (cb & ab & Hcb & _ & Hab & _ & _ & Hp).
  eauto using has_one_bytes_ok.
Qed.

Lemma verify_native_spec c to amount :
  bytes_ok (payload c) ->
  verify_native c to amount = Ok tt <->
  kind c = CONTRACT_TYPE_TRANSFER /\ ends_with (type_url c) (lit ".TransferContract") = true /\
  has_one (payload c) 2 (Bytes to) /\ has_one (payload c) 3 (Varint amount).
Proof.
  intros Hok. unfold verify_native. split.
  - intros H. apply bind_ok in H as ([] & Hk & H).
    apply err_if_ok, orb_false_elim in Hk as [Hk Hu]. bool_to_prop.
    apply bind_ok in H as (fs & Hfs & H). apply parse_fields_repr in Hfs; [|assumption].
    apply bind_ok in H as (to' & Hto & H). apply (one_bytes_has (payload c)) in Hto; [|assumption..].
    apply bind_ok in H as ([] & He & H). apply err_if_ok in He. bool_to_prop. subst to'.
    apply bind_ok in H as (am & Ham & H). apply (one_varint_has (payload c)) in Ham; [|assumption..].
    apply err_if_ok in H. bool_to_prop. subst am. auto.
  - intros (Hk & Hu & Hto & Ham). rewrite Hk, Hu.
    destruct (has_one_fields_of _ _ _ Hok Hto) as (fs & Hfs & Hm). cbn [negb orb Z.eqb Pos.eqb CONTRACT_TYPE_TRANSFER err_if mbind res_bind].
    rewrite Hfs. cbn [mbind res_bind].
    rewrite (proj2 (one_bytes_has (payload c) fs Hok Hm _ _ _) Hto). cbn [mbind res_bind].
    rewrite bool_decide_eq_true_2 by reflexivity. cbn [negb err_if mbind res_bind].
    rewrite (proj2 (one_varint_has (payload c) fs Hok Hm _ _ _) Ham). cbn [mbind res_bind].
    rewrite Z.eqb_refl. reflexivity.
Qed.

Lemma selector_bytes : decode_hex TRC20_TRANSFER_SELECTOR_HEX = Ok [169; 5; 156; 187].
Proof. vm_compute. reflexivity. Qed.

Lemma verify_trc20_spec raw fs c to parameter_hex limit :
  bytes_ok raw -> message_repr fs raw -> bytes_ok (payload c) ->
  verify_trc20 fs c to parameter_hex limit = Ok tt <->
  kind c = CONTRACT_TYPE_TRIGGER_SMART_CONTRACT /\
  ends_with (type_url c) (lit ".TriggerSmartContract") = true /\
  has_one (payload c) 2 (Bytes to) /\
  (lacks (payload c) 3 \/ has_one (payload c) 3 (Varint 0)) /\
  fee_limit_matches raw limit /\
  exists parameter, decode_hex parameter_hex = Ok parameter /\
    has_one (payload c) 4 (Bytes ([169; 5; 156; 187] ++ parameter)).
Proof.
  intros Hraw Hm Hok. unfold verify_trc20, fee_limit_matches. split.
  - intros H. apply bind_ok in H as ([] & Hk & H).
    apply err_if_ok, orb_false_elim in Hk as [Hk Hu]. bool_to_prop.
    apply bind_ok in H as (pf & Hpf & H). apply parse_fields_repr in Hpf; [|assumption].
    apply bind_ok in H as (to' & Hto & H). apply (one_bytes_has (payload c)) in Hto; [|assumption..].
    apply bind_ok in H as ([] & He & H). apply err_if_ok in He. bool_to_prop. subst to'.
    apply bind_ok in H as (cv & Hcv & H). apply fmap_ok in Hcv as (o & Ho & Hcv).
    apply (optional_varint_has (payload c)) in Ho; [|assumption..].
    apply bind_ok in H as ([] & Hz & H). apply err_if_ok in Hz. bool_to_prop. subst cv.
    apply bind_ok in H as (fl & Hfl & H). apply (optional_varint_has raw) in Hfl; [|assumption..].
    apply bind_ok in H as ([] & Hlim & H). rewrite selector_bytes in H. cbn [mbind res_bind] in H.
    apply bind_ok in H as (par & Hpar & H).
    apply bind_ok in H as (data & Hd & H). apply (one_bytes_has (payload c)) in Hd; [|assumption..].
    apply err_if_ok in H. bool_to_prop. subst data.
    split_and!; eauto.
    + destruct o; cbn in Hz; subst; auto.
    + destruct fl as [l|]; [right; exists l; split; [exact Hfl|] | left; exact Hfl].
      intros pinned ->. apply err_if_ok in Hlim. bool_to_prop. assumption.
  - intros (Hk & Hu & Hto & Hcv & Hlim & par & Hpar & Hd). rewrite Hk, Hu.
    destruct (has_one_fields_of _ _ _ Hok Hto) as (pf & Hpf & Hpm).
    cbn [negb orb Z.eqb Pos.eqb CONTRACT_TYPE_TRIGGER_SMART_CONTRACT err_if mbind res_bind].
    rewrite Hpf. cbn [mbind res_bind].
    rewrite (proj2 (one_bytes_has (payload c) pf Hok Hpm _ _ _) Hto). cbn [mbind res_bind].
    rewrite bool_decide_eq_true_2 by reflexivity. cbn [negb err_if mbind res_bind].
    assert (Hcv' : exists o, optional_varint pf 3 (lit "TriggerSmartContract.call_value") = Ok o
                             /\ default 0 o = 0).
    { destruct Hcv; [exists None | exists (Some 0)]; (split; [|reflexivity]);
        apply (optional_varint_has (payload c)); assumption. }
    destruct Hcv' as (o & Ho & Hz). rewrite Ho. cbn [fmap res_fmap mbind res_bind]. rewrite Hz.
    cbn [negb Z.eqb err_if mbind res_bind].
    assert (Hlim' : exists fl, optional_varint fs 18 (lit "Transaction.raw.fee_limit") = Ok fl
              /\ match limit, fl with
                 | Some expected, Some actual =>
                   err_if (negb (actual =? expected))
                     (untrusted (lit "the transaction has a different fee_limit"))
                 | _, _ => Ok tt end = Ok tt).
    { destruct Hlim as [Hl | (l & Hl & Hp)]; [exists None | exists (Some l)]; split.
      - apply (optional_varint_has raw); assumption.
      - destruct limit; reflexivity.
      - apply (optional_varint_has raw); assumption.
      - destruct limit as [p|]; [|reflexivity]. rewrite (Hp p eq_refl), Z.eqb_refl. reflexivity. }
    destruct Hlim' as (fl & -> & Hl). cbn [mbind res_bind]. rewrite Hl. cbn [mbind res_bind].
    rewrite selector_bytes. cbn [mbind res_bind]. rewrite Hpar. cbn [mbind res_bind].
    rewrite (proj2 (one_bytes_has (payload c) pf Hok Hpm _ _ _) Hd). cbn [mbind res_bind].
    rewrite bool_decide_eq_true_2 by reflexivity. reflexivity.
Qed.

Section Verify.
Context `{CodecLaws}.

Lemma verify_contract_decides raw_data_hex to txid tr limit :
  verify_contract raw_data_hex to txid tr limit = Ok tt <->
  exists raw to_bytes,
    decode_hex raw_data_hex = Ok raw /\
    eq_ignore_case (hex_lower (sha256 raw)) (trim txid) = true /\
    tron_decode to = Ok to_bytes /\
    describes raw to_bytes tr limit.
Proof.
  unfold verify_contract, recompute_txid, describes. split.
  - intros Hv. apply bind_ok in Hv as (id & Hid & Hv). apply bind_ok in Hid as (raw & Hraw & Hid).
    injection Hid as <-. pose proof (decode_hex_ok _ _ Hraw) as Hok.
    apply bind_ok in Hv as ([] & Heq & Hv). apply err_if_ok, negb_false_iff in Heq.
    rewrite Hraw in Hv. cbn [mbind res_bind] in Hv.
    apply bind_ok in Hv as (th & Hth & Hv). apply map_err_ok, tron_to_hex_ok in Hth as (tb & Htb & ->).
    destruct (tron_decode_facts _ _ Htb) as (Htbok & _).
    rewrite decode_hex_string in Hv by exact Htbok. cbn [mbind res_bind] in Hv.
    apply bind_ok in Hv as (fs & Hfs & Hv). apply parse_fields_repr in Hfs; [|assumption].
    apply bind_ok in Hv as ([k u p] & Hc & Hv).
    apply (parse_single_contract_spec raw) in Hc; [|assumption..].
    pose proof (carries_payload_ok _ _ _ _ Hok Hc) as Hpok.
    exists raw, tb. split_and!; auto. exists u, p. destruct tr as [a|ph].
    + apply verify_native_spec in Hv as (Hk & Hu & Hto & Ha); [|exact Hpok]. cbn in *. subst k. auto.
    + apply (verify_trc20_spec raw) in Hv as (Hk & Hu & Hrest); [|assumption..]. cbn in *. subst k. auto.
  - intros (raw & tb & Hraw & Heq & Htb & u & p & Hd). pose proof (decode_hex_ok _ _ Hraw) as Hok.
    destruct (tron_decode_facts _ _ Htb) as (Htbok & _).
    rewrite Hraw. cbn [mbind res_bind]. rewrite Heq. cbn [negb err_if mbind res_bind].
    rewrite (proj2 (tron_to_hex_ok _ _) (ex_intro _ tb (conj Htb eq_refl))).
    cbn [map_err mbind res_bind]. rewrite decode_hex_string by exact Htbok. cbn [mbind res_bind].
    assert (Hc : carries raw (match tr with Native _ => CONTRACT_TYPE_TRANSFER
                              | Trc20 _ => CONTRACT_TYPE_TRIGGER_SMART_CONTRACT end) u p)
      by (destruct tr; apply Hd).
    pose proof (carries_payload_ok _ _ _ _ Hok Hc) as Hpok.
    pose proof Hc as (cb & ab & Hcb & _).
    destruct (has_one_fields_of _ _ _ Hok Hcb) as (fs & Hfs & Hm).
    rewrite Hfs. cbn [mbind res_bind].
    rewrite (proj2 (parse_single_contract_spec raw fs _ u p Hok Hm) Hc). cbn [mbind res_bind].
    destruct tr as [a|ph].
    + apply verify_native_spec; [exact Hpok|]. destruct Hd as (_ & Hd). auto.
    + apply (verify_trc20_spec raw); auto. destruct Hd as (_ & Hd). auto.
Qed.
End Verify.

(** Two transfers that mean the same on chain. *)
Definition same_transfer (tr tr' : TronTransfer) : Prop :=
  match tr, tr' with
  | Native a, Native a' => a = a'
  | Trc20 p, Trc20 p' => decode_hex p = decode_hex p'
  | _, _ => False
  end.

Lemma carries_unique raw k u p k' u' p' :
  bytes_ok raw -> carries raw k u p -> carries raw k' u' p' -> k = k' /\ u = u' /\ p = p'.
Proof.
  intros Hok (c & a & Hc & Hk & Ha & Hu & _ & Hp) (c' & a' & Hc' & Hk' & Ha' & Hu' & _ & Hp').
  pose proof (has_one_bytes_ok _ _ _ Hok Hc) as Hcok.
  pose proof (has_one_unique _ _ _ _ Hok Hc Hc') as [= <-].
  pose proof (has_one_unique _ _ _ _ Hcok Hk Hk') as [= <-].
  pose proof (has_one_unique _ _ _ _ Hcok Ha Ha') as [= <-].
  pose proof (has_one_bytes_ok _ _ _ Hcok Ha) as Haok.
  pose proof (has_one_unique _ _ _ _ Haok Hu Hu') as [= <-].
  pose proof (has_one_unique _ _ _ _ Haok Hp Hp') as [= <-]. auto.
Qed.

Lemma describes_unique raw to to' tr tr' l l' :
  bytes_ok raw -> describes raw to tr l -> describes raw to' tr' l' ->
  to = to' /\ same_transfer tr tr'.
Proof.
  intros Hok (u & p & Hd) (u' & p' & Hd').
  destruct tr as [a|ph], tr' as [a'|ph']; destruct Hd as (Hc & _ & Hto & Hx);
    destruct Hd' as (Hc' & _ & Hto' & Hx');
    destruct (carries_unique _ _ _ _ _ _ _ Hok Hc Hc') as (Hk & -> & ->); try discriminate Hk;
    pose proof (carries_payload_ok _ _ _ _ Hok Hc) as Hpok;
    pose proof (has_one_unique _ _ _ _ Hpok Hto Hto') as [= <-]; split; auto; cbn.
  - pose proof (has_one_unique _ _ _ _ Hpok Hx Hx') as [= <-]. reflexivity.
  - destruct Hx as (_ & _ & par & Hpar & Hb), Hx' as (_ & _ & par' & Hpar' & Hb').
    pose proof (has_one_unique _ _ _ _ Hpok Hb Hb') as Heq. injection Heq as Heq. congruence.
Qed.

(** * Panics *)

Lemma collect_no_panic {E A B} (f : A -> res E B) l :
  (forall x, x ∈ l -> f x <> Panic) -> collect f l <> Panic.
Proof.
  induction l as [|x l IH]; intros Hf; cbn [collect]; [discriminate|].
  apply bind_no_panic; [apply Hf; left|]. intros y.
  apply bind_no_panic; [|discriminate]. apply IH. intros z Hz. apply Hf. right. exact Hz.
Qed.

Definition ascii (s : str) : Prop := Forall (fun b => b < 128) s.

Lemma ascii_compute s : forallb (fun b => b <? 128) s = true -> ascii s.
Proof.
  intros H. apply Forall_forall. intros b Hb. rewrite forallb_forall in H.
  specialize (H b Hb). lia.
Qed.

Lemma decode_hex_ascii s : ascii (trim s) -> decode_hex s <> Panic.
Proof.
  intros Ha. unfold decode_hex. destruct (length (trim s) mod 2 =? 0)%nat eqn:E; [|discriminate].
  apply Nat.eqb_eq in E. cbn [negb]. unfold hex_pairs. apply collect_no_panic. intros i Hi.
  apply list_elem_of_fmap in Hi as (j & -> & Hj). apply elem_of_seq in Hj.
  pose proof (Nat.div_mod_eq (length (trim s)) 2).
  unfold hex_pair. rewrite str_get_ascii by (auto; lia).
  pose proof (parse_unsigned_no_panic 16 255 (take (2 * j + 2 - 2 * j) (drop (2 * j) (trim s)))) as Hp.
  unfold parse_hex_u8. destruct (parse_unsigned _ _ _); cbn; congruence.
Qed.

Lemma err_if_no_panic {E} c (e : E) : err_if c e <> Panic.
Proof. unfold err_if. case_match; discriminate. Qed.

Lemma one_bytes_no_panic fs n name : one_bytes fs n name <> Panic.
Proof.
  unfold one_bytes, single.
  destruct (matching fs n) as [|f [|g l]]; cbn; [discriminate | | discriminate].
  destruct (value f); discriminate.
Qed.

Lemma optional_varint_no_panic fs n name : optional_varint fs n name <> Panic.
Proof.
  unfold optional_varint.
  destruct (matching fs n) as [|f [|g l]]; cbn; [discriminate | | discriminate].
  destruct (value f); discriminate.
Qed.

Lemma one_varint_no_panic fs n name : one_varint fs n name <> Panic.
Proof.
  unfold one_varint. apply bind_no_panic; [apply optional_varint_no_panic|].
  intros [v|]; discriminate.
Qed.

Lemma parse_single_contract_no_panic raw fs :
  bytes_ok raw -> message_repr fs raw -> parse_single_contract fs <> Panic.
Proof.
  intros Hok Hm Hp. unfold parse_single_contract in Hp.
  apply bind_panic in Hp as [Hp | (cb & Hcb & Hp)]; [exact (one_bytes_no_panic _ _ _ Hp)|].
  apply (one_bytes_has raw) in Hcb; [|assumption..].
  pose proof (has_one_bytes_ok _ _ _ Hok Hcb) as Hcbok.
  apply bind_panic in Hp as [Hp | (cf & Hcf & Hp)]; [exact (parse_fields_no_panic _ Hcbok Hp)|].
  apply parse_fields_repr in Hcf; [|assumption].
  apply bind_panic in Hp as [Hp | (k & Hk & Hp)]; [exact (one_varint_no_panic _ _ _ Hp)|].
  apply bind_panic in Hp as [Hp | (ab & Hab & Hp)]; [exact (one_bytes_no_panic _ _ _ Hp)|].
  apply (one_bytes_has cb) in Hab; [|assumption..].
  pose proof (has_one_bytes_ok _ _ _ Hcbok Hab) as Habok.
  apply bind_panic in Hp as [Hp | (af & Haf & Hp)]; [exact (parse_fields_no_panic _ Habok Hp)|].
  revert Hp. apply bind_no_panic; [apply one_bytes_no_panic | intros u].
  apply bind_no_panic; [apply err_if_no_panic | intros _].
  apply bind_no_panic; [apply one_bytes_no_panic | discriminate].
Qed.

Lemma verify_native_no_panic c to amount : bytes_ok (payload c) -> verify_native c to amount <> Panic.
Proof.
  intros Hok. unfold verify_native.
  apply bind_no_panic; [apply err_if_no_panic | intros _].
  apply bind_no_panic; [apply parse_fields_no_panic, Hok | intros fs].
  apply bind_no_panic; [apply one_bytes_no_panic | intros to'].
  apply bind_no_panic; [apply err_if_no_panic | intros _].
  apply bind_no_panic; [apply one_varint_no_panic | intros v]. apply err_if_no_panic.
Qed.

Lemma verify_trc20_no_panic fs c to ph limit :
  bytes_ok (payload c) -> decode_hex ph <> Panic -> verify_trc20 fs c to ph limit <> Panic.
Proof.
  intros Hok Hph. unfold verify_trc20.
  apply bind_no_panic; [apply err_if_no_panic | intros _].
  apply bind_no_panic; [apply parse_fields_no_panic, Hok | intros pf].
  apply bind_no_panic; [apply one_bytes_no_panic | intros to'].
  apply bind_no_panic; [apply err_if_no_panic | intros _].
  apply bind_no_panic; [|intros cv].
  { pose proof (optional_varint_no_panic pf 3 (lit "TriggerSmartContract.call_value")).
    destruct (optional_varint pf 3 _); cbn; congruence. }
  apply bind_no_panic; [apply err_if_no_panic | intros _].
  apply bind_no_panic; [apply optional_varint_no_panic | intros fl].
  apply bind_no_panic; [destruct limit, fl; try discriminate; apply err_if_no_panic | intros _].
  apply bind_no_panic; [rewrite selector_bytes; discriminate | intros s].
  apply bind_no_panic; [exact Hph | intros par].
  apply bind_no_panic; [apply one_bytes_no_panic | intros d]. apply err_if_no_panic.
Qed.

(** * Transactions of an honest node *)

Definition any_contract (kind : Z) (url payload : list Z) : list Z :=
  write_varint 1 kind ++ write_bytes 2 (write_bytes 1 url ++ write_bytes 2 payload).

Definition TRANSFER_URL : str := lit "type.googleapis.com/protocol.TransferContract".
Definition TRIGGER_URL : str := lit "type.googleapis.com/protocol.TriggerSmartContract".

Definition transfer_payload (owner to : list Z) (amount : Z) : list Z :=
  write_bytes 1 owner ++ write_bytes 2 to ++ write_varint 3 amount.

Definition trigger_payload (owner to data : list Z) : list Z :=
  write_bytes 1 owner ++ write_bytes 2 to ++ write_bytes 4 data.

(** The contract the node would write for [tr], where [parameter] is the
    decoded TRC-20 parameter. *)
Definition honest_contract (owner to : list Z) (tr : TronTransfer) (parameter : list Z) : list Z :=
  match tr with
  | Native amount =>
      any_contract CONTRACT_TYPE_TRANSFER TRANSFER_URL (transfer_payload owner to amount)
  | Trc20 _ =>
      any_contract CONTRACT_TYPE_TRIGGER_SMART_CONTRACT TRIGGER_URL
        (trigger_payload owner to ([169; 5; 156; 187] ++ parameter))
  end.

(** [head] and [tail] are the reference block, expiration, timestamp, fee limit
    and so on. *)
Definition honest_raw (head owner to : list Z) (tr : TronTransfer) (parameter tail : list Z) : list Z :=
  head ++ write_bytes 11 (honest_contract owner to tr parameter) ++ tail.

Ltac lengths := repeat rewrite length_app in *; unfold is_u64 in *; lia.
Ltac small_number := unfold field_number; lia.

Lemma any_contract_carries kind url payload head tail fh ft :
  is_u64 kind -> is_u64 (Z.of_nat (length (any_contract kind url payload))) ->
  utf8_valid url = true ->
  message_repr fh head -> message_repr ft tail -> matching fh 11 = [] -> matching ft 11 = [] ->
  carries (head ++ write_bytes 11 (any_contract kind url payload) ++ tail) kind url payload.
Proof.
  intros Hk Hl Hu Hh Ht Hfh Hft. unfold any_contract in Hl.
  set (ab := write_bytes 1 url ++ write_bytes 2 payload) in *.
  pose proof (write_bytes_length 2 ab). pose proof (write_bytes_length 1 url).
  pose proof (write_bytes_length 2 payload).
  exists (any_contract kind url payload), ab.
  assert (Hab : message_repr ([mkField 1 (Bytes url)] ++ [mkField 2 (Bytes payload)]) ab).
  { apply message_repr_app; apply write_bytes_repr; try small_number; unfold ab in *; lengths. }
  assert (Hc : message_repr ([mkField 1 (Varint kind)] ++ [mkField 2 (Bytes ab)])
                 (any_contract kind url payload)).
  { apply message_repr_app; [apply write_varint_repr | apply write_bytes_repr];
      try small_number; auto; unfold ab in *; lengths. }
  split_and!; auto; try (eexists; split; [eassumption | reflexivity]).
  exists (fh ++ [mkField 11 (Bytes (any_contract kind url payload))] ++ ft). split.
  - repeat apply message_repr_app; auto. apply write_bytes_repr; [small_number|].
    unfold any_contract. fold ab. exact Hl.
  - rewrite !matching_app, Hfh, Hft. reflexivity.
Qed.

Lemma honest_describes head owner to tr ph tail fh ft limit :
  is_u64 (Z.of_nat (length (honest_contract owner to tr ph))) ->
  message_repr fh head -> message_repr ft tail -> matching fh 11 = [] -> matching ft 11 = [] ->
  match tr with
  | Native amount => is_u64 amount
  | Trc20 parameter => decode_hex parameter = Ok ph /\
      fee_limit_matches (honest_raw head owner to tr ph tail) limit
  end ->
  describes (honest_raw head owner to tr ph tail) to tr limit.
Proof.
  intros Hl Hh Ht Hfh Hft Htr. unfold honest_raw in *. destruct tr as [amount|ph_hex]; cbn [honest_contract] in *.
  - exists TRANSFER_URL, (transfer_payload owner to amount).
    pose proof (write_bytes_length 1 owner). pose proof (write_bytes_length 2 to).
    pose proof (write_bytes_length 2 (transfer_payload owner to amount)).
    pose proof (write_bytes_length 2 (write_bytes 1 TRANSFER_URL ++ write_bytes 2 (transfer_payload owner to amount))).
    assert (Hp : message_repr ([mkField 1 (Bytes owner)] ++ [mkField 2 (Bytes to)] ++ [mkField 3 (Varint amount)])
                   (transfer_payload owner to amount)).
    { unfold any_contract, transfer_payload in *.
      repeat apply message_repr_app; [apply write_bytes_repr.. | apply write_varint_repr];
        try small_number; auto; lengths. }
    split_and!; [| reflexivity | eexists; split; [exact Hp | reflexivity]..].
    eapply any_contract_carries; eauto. unfold is_u64, u64_max, CONTRACT_TYPE_TRANSFER. lia.
  - destruct Htr as [Hph Hlim]. set (data := [169; 5; 156; 187] ++ ph) in *.
    exists TRIGGER_URL, (trigger_payload owner to data).
    pose proof (write_bytes_length 1 owner). pose proof (write_bytes_length 2 to).
    pose proof (write_bytes_length 4 data).
    pose proof (write_bytes_length 2 (trigger_payload owner to data)).
    pose proof (write_bytes_length 2 (write_bytes 1 TRIGGER_URL ++ write_bytes 2 (trigger_payload owner to data))).
    assert (Hp : message_repr ([mkField 1 (Bytes owner)] ++ [mkField 2 (Bytes to)] ++ [mkField 4 (Bytes data)])
                   (trigger_payload owner to data)).
    { unfold any_contract, trigger_payload in *.
      repeat apply message_repr_app; apply write_bytes_repr; try small_number; lengths. }
    split_and!; [| reflexivity | eexists; split; [exact Hp | reflexivity] | left; eexists; split; [exact Hp | reflexivity] | exact Hlim |].
    + eapply any_contract_carries; eauto.
      unfold is_u64, u64_max, CONTRACT_TYPE_TRIGGER_SMART_CONTRACT. lia.
    + exists ph. split; [exact Hph|]. eexists. split; [exact Hp | reflexivity].
Qed.

Lemma eq_ignore_case_refl s : eq_ignore_case s s = true.
Proof. unfold eq_ignore_case. apply bool_decide_eq_true. reflexivity. Qed.

Lemma contains_app_mid a p b : contains (a ++ p ++ b) p = true.
Proof. apply contains_spec. eauto. Qed.

Lemma contains_suffix l p : p `suffix_of` l -> contains l p = true.
Proof. intros [t ->]. apply contains_spec. exists t, []. rewrite app_nil_r. reflexivity. Qed.

Lemma contains_hex raw b :
  bytes_ok raw -> contains raw b = true -> contains (hex_string raw) (hex_string b) = true.
Proof.
  intros Hok H. apply contains_spec in H as (t & u & ->). rewrite !hex_string_app.
  apply contains_app_mid.
Qed.

Section Honest.
Context `{CodecLaws}.

Lemma txid_matches raw :
  eq_ignore_case (hex_lower (sha256 raw)) (trim (hex_lower (sha256 raw))) = true.
Proof.
  unfold hex_lower. rewrite trim_graphic by (apply hex_string_graphic, sha256_ok).
  apply eq_ignore_case_refl.
Qed.

(** What the byte-run scan accepts. *)
Lemma verify_transfer_decides raw to tb tr expected :
  bytes_ok raw -> tron_decode to = Ok tb ->
  match tr with Native a => Ok (encode_varint a) | Trc20 p => decode_hex p end = Ok expected ->
  verify_transfer (hex_lower raw) to (hex_lower (sha256 raw)) tr = Ok tt <->
  contains (hex_string raw) (hex_string tb) = true /\ expected <> [] /\ contains raw expected = true.
Proof.
  intros Hok Hto He. destruct (tron_decode_facts _ _ Hto) as (Htb & _).
  unfold verify_transfer, recompute_txid.
  pose proof (txid_matches raw) as Hid. unfold hex_lower in *.
  rewrite decode_hex_string by exact Hok. cbn [mbind res_bind]. rewrite Hid.
  cbn [negb err_if mbind res_bind].
  rewrite (proj2 (tron_to_hex_ok _ _) (ex_intro _ tb (conj Hto eq_refl))).
  cbn [map_err mbind res_bind]. rewrite !hex_string_lower by assumption.
  destruct (contains (hex_string raw) (hex_string tb)) eqn:Ec; cbn [negb err_if mbind res_bind];
    [|split; [discriminate | intros ([=] & _)]].
  rewrite He. cbn [mbind res_bind]. rewrite err_if_ok.
  destruct expected as [|x xs]; cbn [is_nil orb].
  - split; [discriminate | intros (_ & [] & _); reflexivity].
  - destruct (contains raw (x :: xs)); cbn; (split; [|intros (_ & _ & Hc)]); try discriminate; auto.
Qed.
End Honest.

(** * Properties *)

(** C4. [verify_contract] decides exactly what it promises.  It accepts if and
    only if the hex decodes, the transaction id is the hash of the decoded
    bytes (up to letter case and surrounding whitespace), the recipient is a
    valid address, and the bytes, read by the protobuf wire grammar, are a
    transaction with one contract of the right type whose singular fields are
    the decoded recipient and the requested amount, or the whole TRC-20 call
    data with no call value and no conflicting fee limit. *)
Theorem verify_contract_exact `{CodecLaws} raw_data_hex to txid transfer fee_limit_sun :
  verify_contract raw_data_hex to txid transfer fee_limit_sun = Ok tt <->
  exists raw to_bytes,
    decode_hex raw_data_hex = Ok raw /\
    eq_ignore_case (hex_lower (sha256 raw)) (trim txid) = true /\
    tron_decode to = Ok to_bytes /\
    describes raw to_bytes transfer fee_limit_sun.
Proof. apply verify_contract_decides. Qed.

(** One transaction is accepted for at most one transfer: if the same bytes
    pass the structural check twice, the two requests name the same recipient
    bytes and the same native amount, or the same TRC-20 call data.  A node
    cannot answer two different requests with one transaction. *)
Theorem verify_contract_one_transfer `{CodecLaws} raw_data_hex to to' txid txid' tr tr' limit limit' :
  verify_contract raw_data_hex to txid tr limit = Ok tt ->
  verify_contract raw_data_hex to' txid' tr' limit' = Ok tt ->
  tron_decode to = tron_decode to' /\ same_transfer tr tr'.
Proof.
  intros Hv Hv'. apply verify_contract_decides in Hv as (raw & tb & Hr & _ & Ht & Hd).
  apply verify_contract_decides in Hv' as (raw' & tb' & Hr' & _ & Ht' & Hd').
  rewrite Hr in Hr'. injection Hr' as <-. pose proof (decode_hex_ok _ _ Hr) as Hok.
  destruct (describes_unique _ _ _ _ _ _ _ Hok Hd Hd') as [-> Hs]. split; [congruence | exact Hs].
Qed.

(** An honest node is not refused: a transaction that carries the
    requested contract, whatever reference block, expiration, timestamp and
    other fields surround it, passes the structural check for that recipient,
    amount or TRC-20 parameter, provided its fee limit is the pinned one or absent. *)
Theorem verify_contract_complete `{CodecLaws} head owner to to_bytes tr ph tail fh ft limit :
  let raw := honest_raw head owner to_bytes tr ph tail in
  bytes_ok raw -> is_u64 (Z.of_nat (length (honest_contract owner to_bytes tr ph))) ->
  tron_decode to = Ok to_bytes ->
  message_repr fh head -> message_repr ft tail -> matching fh 11 = [] -> matching ft 11 = [] ->
  match tr with
  | Native amount => is_u64 amount
  | Trc20 parameter => decode_hex parameter = Ok ph /\ fee_limit_matches raw limit
  end ->
  verify_contract (hex_lower raw) to (hex_lower (sha256 raw)) tr limit = Ok tt.
Proof.
  intros raw Hok Hl Hto Hh Ht Hfh Hft Htr. apply verify_contract_decides.
  exists raw, to_bytes. split_and!; auto.
  - apply decode_hex_string. exact Hok.
  - apply txid_matches.
  - eapply honest_describes; eauto.
Qed.

(** What the byte-run scan misses and the structural check catches.  A
    transaction that pays [attacker] and merely mentions the requested address
    in an unrelated field is accepted by [verify_transfer], whatever the
    amount, and rejected by [verify_contract]. *)
Theorem decoy_transaction `{CodecLaws} owner to to_bytes attacker amount limit :
  let decoy := write_bytes 10 to_bytes in
  let raw := honest_raw decoy owner attacker (Native amount) [] [] in
  bytes_ok raw ->
  is_u64 (Z.of_nat (length (honest_contract owner attacker (Native amount) []))) ->
  is_u64 amount -> tron_decode to = Ok to_bytes -> attacker <> to_bytes ->
  verify_transfer (hex_lower raw) to (hex_lower (sha256 raw)) (Native amount) = Ok tt /\
  verify_contract (hex_lower raw) to (hex_lower (sha256 raw)) (Native amount) limit <> Ok tt.
Proof.
  intros decoy raw Hok Hl Ha Hto Hne.
  destruct (tron_decode_facts _ _ Hto) as (Htb & Htl & _).
  assert (Hdec : message_repr [mkField 10 (Bytes to_bytes)] decoy)
    by (apply write_bytes_repr; [small_number | rewrite Htl; vm_compute; split; congruence]).
  assert (Hd : describes raw attacker (Native amount) limit)
    by (eapply honest_describes; eauto; constructor).
  split.
  - eapply verify_transfer_decides; [exact Hok | exact Hto | reflexivity |]. split_and!.
    + apply contains_hex; [exact Hok|]. unfold raw, honest_raw, decoy, write_bytes.
      rewrite <- !app_assoc. rewrite (app_assoc _ _ (to_bytes ++ _)). apply contains_app_mid.
    + destruct (encode_varint_repr amount Ha) as [[Hc _] _]. intros E. rewrite E in Hc. exact Hc.
    + apply contains_suffix. unfold raw, honest_raw. rewrite app_nil_r.
      apply suffix_app_r, write_bytes_suffix.
      apply suffix_app_r, write_bytes_suffix, suffix_app_r, write_bytes_suffix.
      do 2 apply suffix_app_r. apply write_varint_suffix.
  - intros Hv. apply verify_contract_decides in Hv as (raw' & tb & Hr & _ & Ht & Hd').
    rewrite decode_hex_string in Hr by exact Hok. injection Hr as <-.
    rewrite Hto in Ht. injection Ht as <-.
    apply Hne, (describes_unique _ _ _ _ _ _ _ Hok Hd Hd').
Qed.

(** The closed examples use a transfer of 5 sun between two made-up accounts. *)
Definition example_owner : list Z := 65 :: replicate 20 1.
Definition example_to : list Z := 65 :: replicate 20 7.
Definition example_attacker : list Z := 65 :: replicate 20 9.
Definition example_raw : list Z := honest_raw [] example_owner example_to (Native 5) [] [].

Lemma decoy_transaction_witness :
  let raw := honest_raw (write_bytes 10 example_to) example_owner example_attacker (Native 5) [] [] in
  verify_transfer (hex_lower raw) (hex_string example_to) (hex_lower (sha256 raw)) (Native 5) = Ok tt.
Proof.
  cbn zeta.
  eapply (decoy_transaction example_owner (hex_string example_to) example_to example_attacker 5 None).
  - bytes_closed.
  - range_closed.
  - range_closed.
  - vm_compute. reflexivity.
  - discriminate.
Defined.

Lemma verify_contract_complete_witness :
  verify_contract (hex_lower example_raw) (hex_string example_to)
    (hex_lower (sha256 example_raw)) (Native 5) None = Ok tt.
Proof.
  unfold example_raw.
  apply (verify_contract_complete [] example_owner (hex_string example_to) example_to (Native 5) [] [] [] [] None).
  - bytes_closed.
  - range_closed.
  - vm_compute. reflexivity.
  - constructor.
  - constructor.
  - reflexivity.
  - reflexivity.
  - range_closed.
Defined.

Lemma verify_contract_one_transfer_witness :
  tron_decode (hex_string example_to) = tron_decode (lit " " ++ hex_string example_to)
  /\ same_transfer (Native 5) (Native 5).
Proof.
  apply (verify_contract_one_transfer (hex_lower example_raw) _ _
           (hex_lower (sha256 example_raw)) (hex_lower (sha256 example_raw)) _ _ None (Some 9)).
  - vm_compute. reflexivity.
  - vm_compute. reflexivity.
Defined.

(** When the checks can panic.  With ASCII hex arguments neither the
    structural check nor the signing digest panics, whatever the node
    answered; but the shared hex reader slices text two bytes at a time, and
    does panic on text where that splits a character (here [a], a two-byte
    [e] with an accent, and [b]), although its documentation promises an error. *)
Theorem verify_contract_panics `{CodecLaws} raw_data_hex to txid tr limit :
  (ascii (trim raw_data_hex) ->
   match tr with Native _ => True | Trc20 p => ascii (trim p) end ->
   verify_contract raw_data_hex to txid tr limit <> Panic /\ tron_digest raw_data_hex <> Panic) /\
  verify_contract [97; 195; 169; 98] to txid tr limit = Panic /\
  tron_digest [97; 195; 169; 98] = Panic.
Proof.
  split; [|split; reflexivity].
  intros Ha Hp. pose proof (decode_hex_ascii _ Ha) as Hd.
  split; [|apply bind_no_panic; [exact Hd | discriminate]].
  unfold verify_contract, recompute_txid.
  destruct (decode_hex raw_data_hex) as [raw|e|] eqn:Er; [|discriminate|congruence].
  pose proof (decode_hex_ok _ _ Er) as Hok. cbn [mbind res_bind].
  apply bind_no_panic; [apply err_if_no_panic | intros _].
  destruct (to_hex to) as [h|e|] eqn:Eh; [|discriminate|].
  2:{ exfalso. unfold to_hex, tron_decode in Eh. destruct (is_nil _); [discriminate|].
      pose proof (bs58check_decode_total (Some MAINNET_PREFIX) (trim to)).
      destruct (bs58check_decode _ _); cbn in Eh; try congruence. case_match; discriminate. }
  cbn [map_err mbind res_bind]. apply tron_to_hex_ok in Eh as (tb & Htb & ->).
  destruct (tron_decode_facts _ _ Htb) as (Htbok & _).
  rewrite decode_hex_string by exact Htbok. cbn [mbind res_bind].
  destruct (parse_fields raw) as [fs|e|] eqn:Ef;
    [|discriminate|destruct (parse_fields_no_panic _ Hok Ef)].
  apply parse_fields_repr in Ef; [|exact Hok]. cbn [mbind res_bind].
  destruct (parse_single_contract fs) as [[k u p]|e|] eqn:Ec;
    [|discriminate | destruct (parse_single_contract_no_panic raw fs Hok Ef Ec)].
  apply (parse_single_contract_spec raw) in Ec; [|assumption..].
  pose proof (carries_payload_ok _ _ _ _ Hok Ec) as Hpok. cbn [mbind res_bind].
  destruct tr as [a|ph]; [apply verify_native_no_panic | apply verify_trc20_no_panic]; auto.
  apply decode_hex_ascii, Hp.
Qed.

Lemma verify_contract_panics_witness :
  verify_contract (hex_lower example_raw) (hex_string example_to)
    (lit "00") (Native 5) None <> Panic
  /\ verify_contract [97; 195; 169; 98] [] [] (Native 5) None = Panic.
Proof.
  destruct (verify_contract_panics (hex_lower example_raw) (hex_string example_to) (lit "00")
              (Native 5) None) as (H & _ & _).
  destruct (verify_contract_panics [] [] [] (Native 5) None) as (_ & H' & _).
  split; [|exact H'].
  apply H; [|exact I]. apply ascii_compute. vm_compute. reflexivity.
Defined.

Lemma verify_contract_exact_witness :
  exists raw to_bytes,
    decode_hex (hex_lower example_raw) = Ok raw /\
    tron_decode (hex_string example_to) = Ok to_bytes /\ describes raw to_bytes (Native 5) (Some 7).
Proof.
  destruct (proj1 (verify_contract_exact (hex_lower example_raw) (hex_string example_to)
                     (hex_lower (sha256 example_raw)) (Native 5) (Some 7)))
    as (raw & tb & H1 & _ & H2 & H3); [vm_compute; reflexivity|].
  exact (ex_intro _ raw (ex_intro _ tb (conj H1 (conj H2 H3)))).
Defined.
