(* ===== verification/Rlp.v ===== *)
(** The RLP encoder of [src/tx/rlp.rs].

    The encoder, then an independent reference reader of canonical RLP
    ([read_string], [read_list], after the Ethereum yellow paper, appendix B),
    and the proofs that the reader accepts exactly what the encoder writes and
    that integers are written in the one canonical form. *)

From stdpp Require Import base list strings numbers.
From S2P Require Import Prelude.

(** * The encoder *)

(** [len : usize], [offset : u8]; the sums stay within a byte. *)
Definition encode_length (len offset : Z) : list Z :=
  if len <=? 55 then [offset + len]
  else
    let significant := skip_leading_zeros (be_bytes 8 len) in
    (offset + 55 + Z.of_nat (length significant)) :: significant.

Definition encode_bytes (bytes : list Z) : list Z :=
  if (length bytes =? 1)%nat && (nth 0 bytes 0 <? 128) then [nth 0 bytes 0]
  else encode_length (Z.of_nat (length bytes)) 128 ++ bytes.

Definition encode_list (items : list (list Z)) : list Z :=
  let payload := concat items in
  encode_length (Z.of_nat (length payload)) 192 ++ payload.

(** [value : u128]. *)
Definition encode_uint (value : Z) : list Z :=
  encode_bytes (skip_leading_zeros (be_bytes 16 value)).

Definition encode_uint_bytes (bytes : list Z) : list Z :=
  encode_bytes (skip_leading_zeros bytes).

(** * The reference reader *)

(** The payload length a prefix byte announces: short form, or long form with
    no leading zero and a length the short form could not state. *)
Definition read_length (offset b : Z) (rest : list Z) : option (Z * list Z) :=
  if b <=? offset + 55 then Some (b - offset, rest)
  else
    let n := Z.to_nat (b - offset - 55) in
    let digits := take n rest in
    if (length digits =? n)%nat && negb (nth 0 digits 0 =? 0) && (55 <? be_value digits)
    then Some (be_value digits, drop n rest)
    else None.

Definition read_payload (len : Z) (rest : list Z) : option (list Z * list Z) :=
  if len <=? Z.of_nat (length rest)
  then Some (take (Z.to_nat len) rest, drop (Z.to_nat len) rest) else None.

(** One byte string. *)
Definition read_string (input : list Z) : option (list Z * list Z) :=
  match input with
  | [] => None
  | b :: rest =>
    if b <? 128 then Some ([b], rest)
    else if b <? 192 then
      '(len, rest) ← read_length 128 b rest;
      '(payload, rest) ← read_payload len rest;
      if (length payload =? 1)%nat && (nth 0 payload 0 <? 128) then None
      else Some (payload, rest)
    else None
  end.

Fixpoint read_strings (fuel : nat) (input : list Z) : option (list (list Z)) :=
  match input, fuel with
  | [], _ => Some []
  | _ :: _, O => None
  | _ :: _, S fuel' =>
    '(s, rest) ← read_string input;
    ss ← read_strings fuel' rest;
    Some (s :: ss)
  end.

(** A list of byte strings that is the whole input. *)
Definition read_list (input : list Z) : option (list (list Z)) :=
  match input with
  | [] => None
  | b :: rest =>
    if b <? 192 then None
    else
      '(len, rest) ← read_length 192 b rest;
      '(payload, rest) ← read_payload len rest;
      match rest with
      | [] => read_strings (length payload) payload
      | _ :: _ => None
      end
  end.

(** The integer a canonical RLP integer string stands for. *)
Definition read_uint (bytes : list Z) : option Z :=
  match bytes with
  | 0 :: _ => None
  | _ => Some (be_value bytes)
  end.

(** * Lengths *)

(** A length the encoder handles: a [usize] on a 64-bit target. *)
Definition rlp_length (len : Z) : Prop := 0 <= len < 2 ^ 64.

Lemma significant_length v n :
  0 <= v < 256 ^ Z.of_nat n ->
  (length (skip_leading_zeros (be_bytes n v)) <= n)%nat
  /\ (0 < v -> (0 < length (skip_leading_zeros (be_bytes n v)))%nat).
Proof.
  intros Hv. split.
  - pose proof (skip_leading_zeros_length (be_bytes n v)). rewrite be_bytes_length in H. exact H.
  - intros Hpos. destruct (skip_leading_zeros (be_bytes n v)) eqn:E; [|simpl; lia].
    pose proof (be_value_skip_leading_zeros (be_bytes n v)) as Hval.
    rewrite E, be_value_bytes in Hval by exact Hv. cbn in Hval. lia.
Qed.

Lemma encode_length_read len offset rest :
  rlp_length len -> 0 <= offset ->
  exists b tail, encode_length len offset = b :: tail /\
    offset <= b <= offset + 63 /\ bytes_ok tail /\
    read_length offset b (tail ++ rest) = Some (len, rest).
Proof.
  unfold rlp_length. intros Hl Ho. unfold encode_length.
  destruct (Z.leb_spec len 55) as [Hs | Hs].
  - exists (offset + len), []. split_and!; auto; try lia.
    unfold read_length. replace (offset + len <=? offset + 55) with true by lia.
    cbn. do 2 f_equal. lia.
  - set (sig := skip_leading_zeros (be_bytes 8 len)).
    destruct (significant_length len 8 ltac:(simpl; lia)) as [H8 Hpos].
    specialize (Hpos ltac:(lia)). fold sig in H8, Hpos.
    eexists _, sig. split; [reflexivity|]. split; [lia|].
    split; [apply skip_leading_zeros_ok, be_bytes_ok|].
    unfold read_length.
    replace (offset + 55 + Z.of_nat (length sig) <=? offset + 55) with false by lia.
    replace (Z.to_nat (offset + 55 + Z.of_nat (length sig) - offset - 55)) with (length sig) by lia.
    rewrite take_app_length, drop_app_length, Nat.eqb_refl.
    assert (Hval : be_value sig = len).
    { unfold sig. rewrite be_value_skip_leading_zeros. apply be_value_bytes. simpl. lia. }
    rewrite Hval. replace (55 <? len) with true by lia.
    pose proof (skip_leading_zeros_canonical (be_bytes 8 len)) as Hc. fold sig in Hc.
    destruct sig as [|x sig']; [simpl in Hpos; lia|]. cbn [nth no_leading_zero] in *.
    rewrite (proj2 (Z.eqb_neq x 0) Hc). reflexivity.
Qed.

(** Conversely, a length that is read was written canonically. *)
Lemma read_length_canonical offset b rest len rest' :
  0 <= offset -> offset <= b <= offset + 63 -> bytes_ok rest ->
  read_length offset b rest = Some (len, rest') ->
  b :: rest = encode_length len offset ++ rest' /\ rlp_length len.
Proof.
  intros Ho Hb Hok. unfold read_length, rlp_length.
  destruct (Z.leb_spec b (offset + 55)) as [Hs | Hs].
  - intros [= <- <-]. unfold encode_length. replace (b - offset <=? 55) with true by lia.
    split; [cbn; f_equal; lia | lia].
  - set (n := Z.to_nat (b - offset - 55)) in *.
    destruct ((length (take n rest) =? n)%nat) eqn:El; cbn [andb]; [|discriminate].
    apply Nat.eqb_eq in El.
    destruct (negb (nth 0 (take n rest) 0 =? 0)) eqn:Ez; cbn [andb]; [|discriminate].
    destruct (Z.ltb_spec 55 (be_value (take n rest))) as [H55|]; [|discriminate].
    intros [= <- <-]. bool_to_prop.
    pose proof (Forall_take _ n rest Hok) as Hd.
    set (digits := take n rest) in *. assert (Hn : (n <= 8)%nat) by lia.
    pose proof (be_value_bound digits Hd) as Hbound. rewrite El in Hbound.
    assert (H64 : 256 ^ Z.of_nat n <= 2 ^ 64).
    { change (2 ^ 64) with (256 ^ 8). apply Z.pow_le_mono_r; lia. }
    split; [|lia]. unfold encode_length.
    replace (be_value digits <=? 55) with false by lia.
    assert (Hsig : skip_leading_zeros (be_bytes 8 (be_value digits)) = digits).
    { apply be_value_inj_canonical.
      - apply skip_leading_zeros_ok, be_bytes_ok.
      - exact Hd.
      - apply skip_leading_zeros_canonical.
      - destruct digits as [|x l]; [exact I | exact Ez].
      - rewrite be_value_skip_leading_zeros. apply be_value_bytes. simpl. lia. }
    rewrite Hsig, El. cbn [app]. unfold digits. rewrite take_drop. f_equal. lia.
Qed.

(** * Strings and lists *)

Lemma read_string_encode b rest :
  bytes_ok b -> rlp_length (Z.of_nat (length b)) ->
  read_string (encode_bytes b ++ rest) = Some (b, rest).
Proof.
  intros Hok Hl. unfold encode_bytes.
  destruct ((length b =? 1)%nat && (nth 0 b 0 <? 128)) eqn:E.
  - apply andb_prop in E as [E1 E2]. apply Nat.eqb_eq in E1.
    destruct b as [|x [|y b]]; try discriminate. cbn in *. rewrite E2. reflexivity.
  - destruct (encode_length_read (Z.of_nat (length b)) 128 (b ++ rest) Hl ltac:(lia))
      as (p & tail & -> & Hp & _ & Hr).
    cbn [app read_string]. rewrite <- app_assoc.
    replace (p <? 128) with false by lia. replace (p <? 192) with true by lia.
    rewrite Hr. cbn [mbind option_bind]. unfold read_payload.
    assert (Hle : Z.of_nat (length b) <= Z.of_nat (length (b ++ rest))) by (rewrite length_app; lia).
    rewrite (proj2 (Z.leb_le _ _) Hle).
    rewrite Nat2Z.id, take_app_length, drop_app_length. cbn [mbind option_bind].
    rewrite E. reflexivity.
Qed.

Lemma read_payload_some len rest payload rest' :
  0 <= len -> read_payload len rest = Some (payload, rest') ->
  rest = payload ++ rest' /\ Z.of_nat (length payload) = len.
Proof.
  intros Hl. unfold read_payload. destruct (Z.leb_spec len (Z.of_nat (length rest))); [|discriminate].
  intros [= <- <-]. rewrite take_drop, length_take. split; [reflexivity | lia].
Qed.

Lemma read_string_canonical input b rest :
  bytes_ok input -> read_string input = Some (b, rest) ->
  input = encode_bytes b ++ rest /\ rlp_length (Z.of_nat (length b)).
Proof.
  intros Hok. destruct input as [|p input]; [discriminate|]. cbn [read_string].
  inversion Hok as [|? ? Hp Hin]; subst. unfold is_u8 in Hp.
  destruct (Z.ltb_spec p 128) as [H1|H1].
  { intros [= <- <-]. unfold encode_bytes, rlp_length. cbn [length Nat.eqb nth].
    replace (p <? 128) with true by lia. split; [reflexivity | simpl; lia]. }
  destruct (Z.ltb_spec p 192) as [H2|H2]; [|discriminate]. intros H.
  destruct (read_length 128 p input) as [[len r1]|] eqn:El; [|discriminate].
  cbn [mbind option_bind] in H.
  apply read_length_canonical in El as [E Hlen]; [|lia|lia|exact Hin].
  destruct (read_payload len r1) as [[payload r2]|] eqn:Ep; [|discriminate].
  cbn [mbind option_bind] in H. unfold rlp_length in Hlen.
  apply read_payload_some in Ep as [-> Hpl]; [|lia].
  destruct (_ && _) eqn:Ec; [discriminate|]. injection H as <- <-.
  unfold encode_bytes. rewrite Ec, Hpl, <- app_assoc. split; [exact E | exact Hlen].
Qed.

Lemma encode_bytes_ok b :
  bytes_ok b -> rlp_length (Z.of_nat (length b)) -> bytes_ok (encode_bytes b).
Proof.
  intros Hok Hl. unfold encode_bytes. case_bool.
  - constructor; [|constructor]. apply andb_prop in Heqb0 as [_ H2].
    destruct b as [|x b]; cbn in *; [unfold is_u8; lia|]. inversion Hok; assumption.
  - destruct (encode_length_read (Z.of_nat (length b)) 128 [] Hl ltac:(lia)) as (p & t & -> & Hp & Ht & _).
    apply Forall_app. split; [|exact Hok]. constructor; [unfold is_u8; lia | exact Ht].
Qed.

Lemma encode_bytes_nonempty b : encode_bytes b <> [].
Proof.
  unfold encode_bytes, encode_length. repeat case_bool; discriminate.
Qed.

(** A list of strings each of which, and all of which together, fit a length. *)
Definition rlp_items (xs : list (list Z)) : Prop :=
  Forall (fun x => bytes_ok x /\ rlp_length (Z.of_nat (length x))) xs
  /\ rlp_length (Z.of_nat (length (concat (encode_bytes <$> xs)))).

Lemma read_strings_encode xs fuel :
  Forall (fun x => bytes_ok x /\ rlp_length (Z.of_nat (length x))) xs ->
  (length (concat (encode_bytes <$> xs)) <= fuel)%nat ->
  read_strings fuel (concat (encode_bytes <$> xs)) = Some xs.
Proof.
  intros H. revert fuel. induction H as [|x xs [Hx Hl] Hxs IH]; intros fuel Hf.
  - destruct fuel; reflexivity.
  - rewrite fmap_cons, concat_cons in *. rewrite length_app in Hf.
    destruct (encode_bytes x) as [|p t] eqn:E; [destruct (encode_bytes_nonempty x E)|].
    destruct fuel as [|fuel]; [simpl in Hf; lia|]. cbn [app read_strings].
    rewrite (app_comm_cons t _ p), <- E, read_string_encode by assumption. cbn [mbind option_bind].
    rewrite IH by (simpl in Hf; lia). reflexivity.
Qed.

Lemma read_list_encode xs :
  rlp_items xs -> read_list (encode_list (encode_bytes <$> xs)) = Some xs.
Proof.
  intros [Hxs Hl]. unfold encode_list. set (payload := concat (encode_bytes <$> xs)) in *.
  destruct (encode_length_read _ 192 payload Hl ltac:(lia)) as (p & t & -> & Hp & _ & Hr).
  cbn [app read_list]. replace (p <? 192) with false by lia.
  rewrite Hr. cbn [mbind option_bind]. unfold read_payload.
  rewrite Z.leb_refl, Nat2Z.id, take_ge, drop_ge by reflexivity. cbn [mbind option_bind].
  apply read_strings_encode; [exact Hxs | reflexivity].
Qed.

Lemma encode_list_inj xs ys :
  rlp_items xs -> rlp_items ys ->
  encode_list (encode_bytes <$> xs) = encode_list (encode_bytes <$> ys) -> xs = ys.
Proof.
  intros Hx Hy H. apply read_list_encode in Hx, Hy. congruence.
Qed.

(** * Integers *)

Lemma skip_zeros_uint v :
  is_u128 v -> let b := skip_leading_zeros (be_bytes 16 v) in
  bytes_ok b /\ (length b <= 16)%nat /\ no_leading_zero b /\ be_value b = v.
Proof.
  unfold is_u128, u128_max. intros Hv. split_and!.
  - apply skip_leading_zeros_ok, be_bytes_ok.
  - pose proof (skip_leading_zeros_length (be_bytes 16 v)). rewrite be_bytes_length in H. exact H.
  - apply skip_leading_zeros_canonical.
  - rewrite be_value_skip_leading_zeros. apply be_value_bytes. simpl. lia.
Qed.

Lemma read_uint_canonical b : no_leading_zero b -> read_uint b = Some (be_value b).
Proof. destruct b as [|[|p|p] b]; cbn; [reflexivity | tauto | reflexivity..]. Qed.
