(* ===== verification/EvmTx.v ===== *)
(** Ethereum legacy transactions ([src/tx/evm.rs]).

    The signing payload, the signed transaction, the EIP-155 [v] and the ERC-20
    call data, as the code builds them over [Rlp].  secp256k1 is a parameter.
    Shown here: what is signed determines every field of the transaction and
    the chain; a signed transaction reads back, by the reference RLP reader, as
    exactly its fields and signature; [v] is EIP-155's and overflow is an error. *)

From stdpp Require Import base list strings numbers.
From S2P Require Import Prelude Text Chain Codec Addr Rlp.

(** * Definitions *)

Record LegacyTransaction := mkTx {
  nonce : Z;
  gas_price : Z;
  gas_limit : Z;
  to : option str;
  tx_value : Z;
  data : list Z;
  chain_id : Z
}.

(** The error of the [Option]-valued [decode_hex] carries nothing. *)
Definition evm_decode_hex (body : str) : res unit (list Z) :=
  if negb (length body mod 2 =? 0)%nat then Err tt
  else hex_pairs (fun _ => tt) body.

Definition require_hex (decoded : res unit (list Z)) (to : str) : res tx_error (list Z) :=
  map_err (fun _ => InvalidField (lit "to") (lit "not hex: " ++ to)) decoded.

(** [recovery : i32]. *)
Definition recovery_as_u64 (recovery : Z) : res tx_error Z :=
  if recovery <? 0 then Err (Signing (lit "negative recovery id")) else Ok recovery.

Definition checked_v (recovery chain_id : Z) : res tx_error Z :=
  chain_component ← ok_or (d ← checked_mul u64_max chain_id 2; checked_add u64_max d 35)
                      (InvalidField (lit "chain_id") (show_dec chain_id ++ lit " overflows EIP-155 v"));
  ok_or (checked_add u64_max recovery chain_component)
    (InvalidField (lit "chain_id") (lit "overflows EIP-155 v")).

(** The 20 address bytes, or nothing for contract creation. *)
Definition to_bytes (tx : LegacyTransaction) : res tx_error (list Z) :=
  match to tx with
  | None => Ok []
  | Some to =>
    validated ← map_err TxAddress (evm_validate to);
    let body := without_prefix validated (lit "0x") in
    require_hex (evm_decode_hex body) to
  end.

Definition base_items (tx : LegacyTransaction) : res tx_error (list (list Z)) :=
  to ← to_bytes tx;
  Ok [encode_uint (nonce tx); encode_uint (gas_price tx); encode_uint (gas_limit tx);
      encode_bytes to; encode_uint (tx_value tx); encode_bytes (data tx)].

Definition signing_payload (tx : LegacyTransaction) : res tx_error (list Z) :=
  items ← base_items tx;
  Ok (encode_list (items ++ [encode_uint (chain_id tx); encode_uint 0; encode_uint 0])).

Definition evm_digest `{Codecs} (tx : LegacyTransaction) : res tx_error (list Z) :=
  payload ← signing_payload tx;
  Ok (keccak256 payload).

(** [rs : &[u8; 64]]. *)
Definition evm_attach_signature (tx : LegacyTransaction) (rs : list Z) (recovery_id : Z)
  : res tx_error (list Z) :=
  if 3 <? recovery_id
  then Err (Signing (lit "recovery id must be 0..=3, got " ++ show_dec recovery_id))
  else
    recovery ← recovery_as_u64 recovery_id;
    v ← checked_v recovery (chain_id tx);
    items ← base_items tx;
    Ok (encode_list (items ++ [encode_uint v; encode_uint_bytes (take 32 rs);
                               encode_uint_bytes (drop 32 rs)])).

(** [secret_key] as [SecretKey::from_slice] accepts it, and the recoverable
    signature [serialize_compact] gives: recovery id and 64 bytes. *)
Class Secp256k1 := {
  secret_valid : list Z -> bool;
  sign_recoverable : list Z -> list Z -> Z * list Z
}.

Definition evm_sign `{Codecs, Secp256k1} (tx : LegacyTransaction) (secret_key : list Z)
  : res tx_error (list Z) :=
  _ ← err_if (negb (secret_valid secret_key)) (Signing (lit "not a valid secp256k1 secret key"));
  digest ← evm_digest tx;
  let '(recovery_id, bytes) := sign_recoverable secret_key digest in
  recovery ← (if (0 <=? recovery_id) && (recovery_id <=? 255) then Ok recovery_id
              else Err (Signing (lit "negative recovery id")));
  evm_attach_signature tx bytes recovery.

Definition hash_of `{Codecs} (signed : list Z) : str := lit "0x" ++ hex_string (keccak256 signed).

(** [amount : u128]. *)
Definition encode_erc20_transfer (to : str) (amount : Z) : res tx_error (list Z) :=
  validated ← map_err TxAddress (evm_validate to);
  let body := without_prefix validated (lit "0x") in
  address ← require_hex (evm_decode_hex body) to;
  Ok ([169; 5; 156; 187] ++ replicate 12 0 ++ address ++ replicate 16 0 ++ be_bytes 16 amount).

(** * The recipient *)

Lemma evm_decode_hex_body body :
  length body = EVM_ADDRESS_HEX_LEN -> hex_text body ->
  exists bs, evm_decode_hex body = Ok bs /\ length bs = 20%nat /\ bytes_ok bs
    /\ hex_string bs = ascii_lowercase body.
Proof.
  intros Hl Hh. destruct (hex_pairs_text (fun _ => tt) body 20 Hh Hl) as (bs & Hp & Hlen & Hok & Hs).
  exists bs. split_and!; auto. unfold evm_decode_hex. rewrite Hl. exact Hp.
Qed.

(** The bytes an address string stands for. *)
Definition address_bytes (address : str) (bs : list Z) : Prop :=
  exists body, evm_address (trim address) body /\ length bs = 20%nat /\ bytes_ok bs
    /\ hex_string bs = ascii_lowercase body.

Lemma address_bytes_unique a bs bs' : address_bytes a bs -> address_bytes a bs' -> bs = bs'.
Proof.
  intros (b & Hb & _ & Hok & Hs) (b' & Hb' & _ & Hok' & Hs').
  rewrite <- (evm_address_strip _ _ Hb) in Hs. rewrite <- (evm_address_strip _ _ Hb') in Hs'.
  apply hex_string_inj; [assumption..|congruence].
Qed.

(** Validation followed by hex decoding: it succeeds exactly on addresses and
    gives their bytes; it never panics. *)
Lemma recipient_bytes a to :
  (forall bs, (v ← map_err TxAddress (evm_validate a);
               require_hex (evm_decode_hex (without_prefix v (lit "0x"))) to) = Ok bs
              <-> address_bytes a bs) /\
  (v ← map_err TxAddress (evm_validate a);
   require_hex (evm_decode_hex (without_prefix v (lit "0x"))) to) <> Panic.
Proof.
  destruct (evm_validate a) as [v|e|] eqn:E; cbn [map_err mbind res_bind].
  - apply evm_validate_ok in E as (-> & body & Hb).
    pose proof (evm_address_strip _ _ Hb) as Hs. unfold evm_strip_prefix in Hs. rewrite Hs.
    destruct Hb as (Hc & Hl & Hh). destruct (evm_decode_hex_body body Hl Hh) as (bs & -> & Hbs).
    cbn [require_hex map_err]. split; [|discriminate]. intros bs'. split.
    + intros [= <-]. exists body. split; [exact (conj Hc (conj Hl Hh)) | exact Hbs].
    + intros Ha. f_equal. eapply address_bytes_unique; [|exact Ha].
      exists body. split; [exact (conj Hc (conj Hl Hh)) | exact Hbs].
  - split; [|discriminate]. intros bs. split; [discriminate|]. intros (body & Hb & _).
    rewrite (proj2 (evm_validate_ok a (trim a)) (conj eq_refl (ex_intro _ body Hb))) in E. discriminate.
  - exfalso. unfold evm_validate in E. repeat case_match; discriminate.
Qed.

Lemma to_bytes_ok tx bs :
  to_bytes tx = Ok bs <->
  match to tx with None => bs = [] | Some a => address_bytes a bs end.
Proof.
  unfold to_bytes. destruct (to tx) as [a|].
  - apply recipient_bytes.
  - split; [intros [= <-]; reflexivity | intros ->; reflexivity].
Qed.

Lemma to_bytes_small tx bs : to_bytes tx = Ok bs -> bytes_ok bs /\ (length bs <= 20)%nat.
Proof.
  intros H. apply to_bytes_ok in H. destruct (to tx) as [a|].
  - destruct H as (_ & _ & Hl & Hok & _). split; [exact Hok | lia].
  - subst. split; [constructor | simpl; lia].
Qed.

(** * What is signed *)

(** The string fields of a transaction whose widths are those of the record:
    [u128] numbers, a [u64] chain id, call data that leaves room for the rest. *)
Definition tx_ok (tx : LegacyTransaction) : Prop :=
  is_u128 (nonce tx) /\ is_u128 (gas_price tx) /\ is_u128 (gas_limit tx) /\
  is_u128 (tx_value tx) /\ is_u64 (chain_id tx) /\
  bytes_ok (data tx) /\ Z.of_nat (length (data tx)) < 2 ^ 63.

Definition uint_bytes (v : Z) : list Z := skip_leading_zeros (be_bytes 16 v).

(** The six strings both encodings start with. *)
Definition base_strings (tx : LegacyTransaction) (tob : list Z) : list (list Z) :=
  [uint_bytes (nonce tx); uint_bytes (gas_price tx); uint_bytes (gas_limit tx); tob;
   uint_bytes (tx_value tx); data tx].

Lemma uint_bytes_inj a b : is_u128 a -> is_u128 b -> uint_bytes a = uint_bytes b -> a = b.
Proof.
  intros Ha Hb H. pose proof (skip_zeros_uint a Ha) as (_ & _ & _ & <-).
  pose proof (skip_zeros_uint b Hb) as (_ & _ & _ & <-). unfold uint_bytes in H. rewrite H. reflexivity.
Qed.

Lemma encode_bytes_length b :
  rlp_length (Z.of_nat (length b)) -> (length (encode_bytes b) <= length b + 9)%nat.
Proof.
  intros Hl. unfold encode_bytes. case_bool.
  - apply andb_prop in Heqb0 as [H _]. simpl. lia.
  - rewrite length_app. unfold encode_length. case_bool; [simpl; lia|].
    pose proof (skip_leading_zeros_length (be_bytes 8 (Z.of_nat (length b)))) as Hs.
    rewrite be_bytes_length in Hs. simpl. lia.
Qed.

(** Nine strings: the data, and eight of at most 32 bytes. *)
Definition small (b : list Z) : Prop := bytes_ok b /\ (length b <= 32)%nat.

Lemma uint_bytes_small v : is_u128 v -> small (uint_bytes v).
Proof.
  intros H. destruct (skip_zeros_uint v H) as (H1 & H2 & _). split; [exact H1|].
  unfold uint_bytes. lia.
Qed.

Lemma is_u64_u128 v : is_u64 v -> is_u128 v.
Proof. unfold is_u64, is_u128, u64_max, u128_max. lia. Qed.

Lemma nine_items tx tob a b c :
  tx_ok tx -> small tob -> small a -> small b -> small c ->
  rlp_items (base_strings tx tob ++ [a; b; c]).
Proof.
  intros (Hn & Hp & Hg & Hv & _ & Hd & Hdl) Ht Ha Hb Hc.
  apply uint_bytes_small in Hn, Hp, Hg, Hv.
  assert (Hsm : forall x, small x -> rlp_length (Z.of_nat (length x)) /\ (length (encode_bytes x) <= 41)%nat).
  { intros x [_ Hx]. assert (rlp_length (Z.of_nat (length x))) by (unfold rlp_length; lia).
    split; [assumption|]. pose proof (encode_bytes_length x ltac:(assumption)). lia. }
  assert (Hdr : rlp_length (Z.of_nat (length (data tx)))) by (unfold rlp_length; lia).
  pose proof (encode_bytes_length (data tx) Hdr) as Hde.
  pose proof (Hsm _ Hn) as [Rn Ln]. pose proof (Hsm _ Hp) as [Rp Lp]. pose proof (Hsm _ Hg) as [Rg Lg].
  pose proof (Hsm _ Hv) as [Rv Lv]. pose proof (Hsm _ Ht) as [Rt Lt]. pose proof (Hsm _ Ha) as [Ra La].
  pose proof (Hsm _ Hb) as [Rb Lb]. pose proof (Hsm _ Hc) as [Rc Lc].
  split.
  - unfold base_strings. cbn [app].
    repeat (apply Forall_cons; [split; [first [exact Hd | apply Hn | apply Hp | apply Hg | apply Hv
      | apply Ht | apply Ha | apply Hb | apply Hc] | assumption]|]). constructor.
  - unfold base_strings, rlp_length. cbn [app fmap list_fmap concat].
    rewrite !length_app. cbn [length]. lia.
Qed.

Lemma signing_payload_ok tx p :
  signing_payload tx = Ok p <->
  exists tob, to_bytes tx = Ok tob /\
    p = encode_list (encode_bytes <$> (base_strings tx tob ++ [uint_bytes (chain_id tx); []; []])).
Proof.
  unfold signing_payload, base_items. rewrite bind_ok. split.
  - intros (items & Hi & [= <-]). apply bind_ok in Hi as (tob & Ht & [= <-]).
    exists tob. split; [exact Ht | reflexivity].
  - intros (tob & Ht & ->). rewrite Ht. cbn [mbind res_bind]. eexists. split; [reflexivity|].
    reflexivity.
Qed.

Lemma signing_payload_items tx tob :
  tx_ok tx -> to_bytes tx = Ok tob ->
  rlp_items (base_strings tx tob ++ [uint_bytes (chain_id tx); []; []]).
Proof.
  intros Hok Ht. destruct (to_bytes_small _ _ Ht) as [Hb Hl].
  apply nine_items; auto; try (split; [constructor | simpl; lia]).
  - split; [exact Hb | lia].
  - apply uint_bytes_small, is_u64_u128, Hok.
Qed.

Lemma checked_v_ok recovery chain v :
  0 <= recovery -> 0 <= chain ->
  checked_v recovery chain = Ok v <-> v = recovery + chain * 2 + 35 /\ v <= u64_max.
Proof.
  intros Hr Hc. unfold checked_v. split.
  - intros H. apply bind_ok in H as (cc & Hcc & H). apply ok_or_ok in Hcc, H.
    destruct (checked_mul u64_max chain 2) as [d|] eqn:Ed; [|discriminate]. cbn in Hcc.
    apply checked_mul_some in Ed. apply checked_add_some in Hcc, H. lia.
  - intros (-> & Hle).
    rewrite (proj2 (checked_mul_some u64_max chain 2 _)) by (split; [reflexivity | lia]).
    cbn [mbind option_bind].
    rewrite (proj2 (checked_add_some u64_max (chain * 2) 35 _)) by (split; [reflexivity | lia]).
    cbn [ok_or mbind res_bind].
    rewrite (proj2 (checked_add_some u64_max recovery _ (recovery + chain * 2 + 35)))
      by (split; lia). reflexivity.
Qed.

Lemma evm_attach_signature_ok tx rs rid signed :
  0 <= rid -> 0 <= chain_id tx ->
  evm_attach_signature tx rs rid = Ok signed <->
  exists tob v, rid <= 3 /\ v = rid + chain_id tx * 2 + 35 /\ v <= u64_max /\ to_bytes tx = Ok tob /\
    signed = encode_list (encode_bytes <$>
               (base_strings tx tob ++ [uint_bytes v; skip_leading_zeros (take 32 rs);
                                        skip_leading_zeros (drop 32 rs)])).
Proof.
  intros Hr Hc. unfold evm_attach_signature. split.
  - destruct (Z.ltb_spec 3 rid); [discriminate|]. intros H'.
    unfold recovery_as_u64 in H'. rewrite (proj2 (Z.ltb_ge rid 0)) in H' by lia.
    cbn [mbind res_bind] in H'. apply bind_ok in H' as (v & Hv & H').
    apply checked_v_ok in Hv as [-> Hv]; [|lia..].
    apply bind_ok in H' as (items & Hi & [= <-]). unfold base_items in Hi.
    apply bind_ok in Hi as (tob & Ht & [= <-]). exists tob. eexists. split_and!; eauto.
  - intros (tob & v & H3 & -> & Hv & Ht & ->).
    rewrite (proj2 (Z.ltb_ge 3 rid)) by lia. unfold recovery_as_u64.
    rewrite (proj2 (Z.ltb_ge rid 0)) by lia. cbn [mbind res_bind].
    rewrite (proj2 (checked_v_ok rid (chain_id tx) _ Hr Hc) (conj eq_refl Hv)).
    cbn [mbind res_bind]. unfold base_items. rewrite Ht. reflexivity.
Qed.

(** * Properties *)

(** C6. What is signed determines what is executed.  If two transactions have
    the same signing payload, they agree on nonce, gas price, gas limit,
    recipient bytes, value, call data and chain id; so a signature made for one
    chain or recipient is a signature over no other transaction (EIP-155
    replay protection at the level of the hashed bytes). *)
Theorem signing_payload_binds tx tx' p :
  tx_ok tx -> tx_ok tx' -> signing_payload tx = Ok p -> signing_payload tx' = Ok p ->
  nonce tx = nonce tx' /\ gas_price tx = gas_price tx' /\ gas_limit tx = gas_limit tx' /\
  to_bytes tx = to_bytes tx' /\ tx_value tx = tx_value tx' /\ data tx = data tx' /\
  chain_id tx = chain_id tx'.
Proof.
  intros Hok Hok' H H'. apply signing_payload_ok in H as (tob & Ht & ->).
  apply signing_payload_ok in H' as (tob' & Ht' & He).
  apply encode_list_inj in He; [|apply signing_payload_items; assumption..].
  destruct Hok as (Hn & Hp & Hg & Hv & Hc & _). destruct Hok' as (Hn' & Hp' & Hg' & Hv' & Hc' & _).
  unfold base_strings in He. cbn [app] in He. injection He as E1 E2 E3 E4 E5 E6 E7.
  split_and!; auto using uint_bytes_inj, is_u64_u128; congruence.
Qed.

(** A signed transaction reads back as itself.  [attach_signature] succeeds
    exactly when the recovery id is at most 3, EIP-155's [v] fits 64 bits and
    the recipient is valid; then the reference RLP reader reads the result as
    nine strings: the transaction's six fields, [v], [r] and [s], each integer
    in its only canonical form. *)
Theorem signed_transaction_reads tx rs rid :
  tx_ok tx -> bytes_ok rs -> length rs = 64%nat -> 0 <= rid ->
  (is_ok (evm_attach_signature tx rs rid) = true <->
     rid <= 3 /\ rid + chain_id tx * 2 + 35 <= u64_max /\ is_ok (to_bytes tx) = true) /\
  forall signed, evm_attach_signature tx rs rid = Ok signed ->
  exists n g l tob val v r s,
    read_list signed = Some [n; g; l; tob; val; data tx; v; r; s] /\
    read_uint n = Some (nonce tx) /\ read_uint g = Some (gas_price tx) /\
    read_uint l = Some (gas_limit tx) /\ to_bytes tx = Ok tob /\
    read_uint val = Some (tx_value tx) /\ read_uint v = Some (rid + chain_id tx * 2 + 35) /\
    read_uint r = Some (be_value (take 32 rs)) /\ read_uint s = Some (be_value (drop 32 rs)).
Proof.
  intros Hok Hrs Hl Hr. pose proof Hok as (Hn & Hp & Hg & Hv & Hc & _).
  assert (Hc0 : 0 <= chain_id tx) by (unfold is_u64 in Hc; lia).
  assert (Hint : forall x, is_u128 x -> read_uint (uint_bytes x) = Some x).
  { intros x Hx. destruct (skip_zeros_uint x Hx) as (_ & _ & Hz & Hx').
    unfold uint_bytes. rewrite read_uint_canonical by exact Hz. f_equal. exact Hx'. }
  assert (Hsig : forall b, read_uint (skip_leading_zeros b) = Some (be_value b)).
  { intros b. rewrite read_uint_canonical by apply skip_leading_zeros_canonical.
    f_equal. apply be_value_skip_leading_zeros. }
  assert (Hsmall : forall b, bytes_ok b -> (length b <= 32)%nat -> small (skip_leading_zeros b)).
  { intros b Hb Hb'. split; [apply skip_leading_zeros_ok, Hb|].
    pose proof (skip_leading_zeros_length b). lia. }
  split.
  - split.
    + destruct (evm_attach_signature tx rs rid) as [s|e|] eqn:E; [|discriminate..]. intros _.
      apply evm_attach_signature_ok in E as (tob & v & H3 & -> & Hle & Ht & _); [|assumption..].
      rewrite Ht. auto.
    + intros (H3 & Hle & Ht). destruct (to_bytes tx) as [tob|e|] eqn:E; [|discriminate..].
      rewrite (proj2 (evm_attach_signature_ok tx rs rid _ Hr Hc0)
                 (ex_intro _ tob (ex_intro _ _ (conj H3 (conj eq_refl (conj Hle (conj E eq_refl))))))).
      reflexivity.
  - intros signed Hs. apply evm_attach_signature_ok in Hs as (tob & v & H3 & -> & Hle & Ht & ->); [|assumption..].
    assert (Hv128 : is_u128 (rid + chain_id tx * 2 + 35))
      by (unfold is_u128, u128_max, u64_max in *; lia).
    destruct (to_bytes_small _ _ Ht) as [Htok Htl].
    rewrite read_list_encode.
    + unfold base_strings. cbn [app]. repeat eexists; eauto.
    + apply nine_items; auto.
      * split; [exact Htok | lia].
      * apply uint_bytes_small, Hv128.
      * apply Hsmall; [apply Forall_take, Hrs | rewrite length_take; lia].
      * apply Hsmall; [apply Forall_drop, Hrs | rewrite length_drop; lia].
Qed.

(** Signing in one call and signing in two agree: [sign] succeeds exactly
    when the key is valid, the payload can be built and [attach_signature]
    accepts the signature the key gives over [digest], and then returns what
    [attach_signature] returns. *)
Theorem sign_is_digest_then_attach `{Codecs, Secp256k1} tx key signed :
  (forall k d, 0 <= (sign_recoverable k d).1 <= 255) ->
  evm_sign tx key = Ok signed <->
  secret_valid key = true /\
  exists digest, evm_digest tx = Ok digest /\
    evm_attach_signature tx (sign_recoverable key digest).2 (sign_recoverable key digest).1 = Ok signed.
Proof.
  intros Hrid. unfold evm_sign.
  destruct (secret_valid key); cbn [negb err_if mbind res_bind]; [|split; [discriminate | intros [[=] _]]].
  rewrite bind_ok. split.
  - intros (d & Hd & Hs). split; [reflexivity|]. exists d. split; [exact Hd|].
    specialize (Hrid key d). destruct (sign_recoverable key d) as [rid rs]. cbn [fst snd] in *.
    rewrite (proj2 (Z.leb_le 0 rid)), (proj2 (Z.leb_le rid 255)) in Hs by lia. exact Hs.
  - intros (_ & d & Hd & Hs). exists d. split; [exact Hd|].
    specialize (Hrid key d). destruct (sign_recoverable key d) as [rid rs]. cbn [fst snd] in *.
    rewrite (proj2 (Z.leb_le 0 rid)), (proj2 (Z.leb_le rid 255)) by lia. exact Hs.
Qed.

(** ERC-20 call data is the ABI encoding of [transfer(address,uint256)]: it
    exists exactly for valid recipients, is 68 bytes, and its two words hold the
    recipient's 20 bytes and the amount; so two calls with the same data pay
    the same amount to the same account. *)
Theorem encode_erc20_transfer_layout a amount :
  is_u128 amount ->
  encode_erc20_transfer a amount <> Panic /\
  forall d, encode_erc20_transfer a amount = Ok d <->
    exists bs, address_bytes a bs /\
      take 4 d = [169; 5; 156; 187] /\ length d = 68%nat /\ bytes_ok d /\
      take 32 (drop 4 d) = replicate 12 0 ++ bs /\ be_value (drop 36 d) = amount.
Proof.
  intros Ha. pose proof (recipient_bytes a a) as [Hb Hp]. split.
  - unfold encode_erc20_transfer. intros H. apply Hp.
    destruct (map_err TxAddress (evm_validate a)) as [v|e|]; [|discriminate|reflexivity].
    cbn [mbind res_bind] in *. destruct (require_hex _ _); [discriminate..|reflexivity].
  - assert (Hform : forall d, encode_erc20_transfer a amount = Ok d <->
      exists bs, address_bytes a bs /\
        d = [169; 5; 156; 187] ++ replicate 12 0 ++ bs ++ replicate 16 0 ++ be_bytes 16 amount).
    { intros d. unfold encode_erc20_transfer. split.
      - intros H. apply bind_ok in H as (v & Hv & H). apply bind_ok in H as (bs & Hbs & [= <-]).
        exists bs. split; [|reflexivity]. apply Hb. rewrite Hv. exact Hbs.
      - intros (bs & Hbs & ->). apply Hb in Hbs. apply bind_ok in Hbs as (v & Hv & Hbs).
        rewrite Hv. cbn [mbind res_bind]. rewrite Hbs. reflexivity. }
    intros d. rewrite Hform. split.
    + intros (bs & Hbs & ->). exists bs. pose proof Hbs as (_ & _ & Hl & Hok & _).
      split_and!; auto.
      * rewrite !length_app, !length_replicate, be_bytes_length, Hl. reflexivity.
      * rewrite !Forall_app. split_and!; auto using be_bytes_ok; bytes_closed.
      * change (drop 4 ([169; 5; 156; 187] ++ ?x)) with x.
        rewrite app_assoc. apply take_app_length'. rewrite length_app, length_replicate. lia.
      * change (drop 36 ([169; 5; 156; 187] ++ ?x)) with (drop 32 x).
        rewrite (app_assoc (replicate 12 0)), drop_app_length'
          by (rewrite length_app, length_replicate; lia).
        rewrite be_value_zeros. apply be_value_bytes. exact (u128_be amount Ha).
    + intros (bs & Hbs & Hsel & Hl & Hok & Hw & Hv). exists bs. split; [exact Hbs|].
      pose proof Hbs as (_ & _ & Hlb & _).
      rewrite <- (take_drop 4 d), Hsel. f_equal.
      rewrite <- (take_drop 32 (drop 4 d)), Hw, <- app_assoc, drop_drop. do 2 f_equal.
      assert (Hw2 : length (drop (4 + 32) d) = 32%nat) by (rewrite length_drop; lia).
      cbn [Nat.add] in *.
      rewrite <- (be_bytes_value (drop 36 d)) by (apply Forall_drop, Hok).
      rewrite Hw2, Hv. apply (be_bytes_pad 16 16). exact (u128_be amount Ha).
Qed.

(** The transaction of EIP-155's worked example. *)
Definition eip155_example : LegacyTransaction :=
  mkTx 9 20000000000 21000 (Some (lit "0x3535353535353535353535353535353535353535"))
    1000000000000000000 [] 1.

Lemma eip155_example_ok : tx_ok eip155_example.
Proof. unfold tx_ok. split_and!; try range_closed. constructor. Qed.

(** The published signing payload of the example. *)
Example eip155_example_payload :
  signing_payload eip155_example
  = Ok [236; 9; 133; 4; 168; 23; 200; 0; 130; 82; 8; 148; 53; 53; 53; 53; 53; 53; 53; 53; 53; 53;
        53; 53; 53; 53; 53; 53; 53; 53; 53; 53; 136; 13; 224; 182; 179; 167; 100; 0; 0; 128; 1;
        128; 128].
Proof. vm_compute. reflexivity. Qed.

Lemma signing_payload_binds_witness :
  let tx' := mkTx 9 20000000000 21000 (Some (lit " 3535353535353535353535353535353535353535"))
               1000000000000000000 [] 1 in
  to_bytes eip155_example = to_bytes tx' /\ chain_id eip155_example = chain_id tx'.
Proof.
  cbn zeta.
  destruct (signing_payload_binds eip155_example
              (mkTx 9 20000000000 21000 (Some (lit " 3535353535353535353535353535353535353535"))
                 1000000000000000000 [] 1)
              (match signing_payload eip155_example with Ok p => p | _ => [] end))
    as (_ & _ & _ & H1 & _ & _ & H2).
  - unfold tx_ok. split_and!; try range_closed. constructor.
  - unfold tx_ok. split_and!; try range_closed. constructor.
  - vm_compute. reflexivity.
  - vm_compute. reflexivity.
  - exact (conj H1 H2).
Defined.

Lemma signed_transaction_reads_witness :
  is_ok (evm_attach_signature eip155_example (replicate 64 7) 0) = true.
Proof.
  refine (proj2 (proj1 (signed_transaction_reads eip155_example (replicate 64 7) 0 _ _ _ _)) _).
  - unfold tx_ok. split_and!; try range_closed. constructor.
  - bytes_closed.
  - reflexivity.
  - vm_compute. discriminate.
  - split_and!; try (vm_compute; congruence).
Defined.

(** A stand-in signer for the closed example. *)
Definition toy_secp : Secp256k1 := {|
  secret_valid := fun k => (length k =? 32)%nat;
  sign_recoverable := fun k d => (1, k ++ d)
|}.

Definition value_of {E} (m : res E (list Z)) : list Z := match m with Ok l => l | _ => [] end.

Lemma sign_is_digest_then_attach_witness :
  let d := value_of (evm_digest eip155_example) in
  evm_sign (H0 := toy_secp) eip155_example (replicate 32 7)
  = Ok (value_of (evm_attach_signature eip155_example (replicate 32 7 ++ d) 1)).
Proof.
  cbn zeta. apply (sign_is_digest_then_attach (H0 := toy_secp)).
  - intros k d. cbn. split; discriminate.
  - split; [reflexivity|]. exists (value_of (evm_digest eip155_example)).
    split; vm_compute; reflexivity.
Defined.

Lemma encode_erc20_transfer_layout_witness :
  exists d, encode_erc20_transfer (lit "0x3535353535353535353535353535353535353535") 1000000 = Ok d
    /\ be_value (drop 36 d) = 1000000.
Proof.
  destruct (encode_erc20_transfer_layout (lit "0x3535353535353535353535353535353535353535") 1000000)
    as [_ H]; [range_closed|].
  destruct (encode_erc20_transfer (lit "0x3535353535353535353535353535353535353535") 1000000)
    as [d|e|] eqn:E; [|vm_compute in E; discriminate E..].
  exists d. split; [reflexivity|].
  destruct (proj1 (H d) eq_refl) as (_ & _ & _ & _ & _ & _ & Hv). exact Hv.
Defined.
