(* ===== verification/BtcTx.v ===== *)
(** Bitcoin transfers: coin selection, the transaction and its signatures
    ([src/tx/btc.rs]), and the fee planner of the wallet engine
    ([crates/tinywallet-web3/src/crypto/chains/btc/mod.rs]).

    The [bitcoin] crate is the parameter [BitcoinLib].  Shown here: what
    [select_coins] chooses and when it refuses; that [build] spends exactly the
    inputs it counted, pays the amount, returns the change and leaks at most
    dust to the fee; and that the planner's selection, fee and change are what
    the signer recomputes from them. *)

From stdpp Require Import base list strings numbers sorting.
From S2P Require Import Prelude Text Chain Codec Addr.

(** * Coin selection *)

Definition DUST_THRESHOLD : Z := 546.

Record Utxo := mkUtxo { txid : str; vout : Z; utxo_value : Z }.

Record Transfer := mkTransfer { tr_from : str; tr_to : str; tr_amount : Z; tr_fee : Z }.

Record Selection := mkSelection { inputs : list Utxo; change : Z }.

(** [sort_by_key(|u| Reverse(key(u)))]: a stable sort, largest first. *)
Fixpoint insert_desc {A} (key : A -> Z) (x : A) (l : list A) : list A :=
  match l with
  | [] => [x]
  | y :: l' => if key y <=? key x then x :: y :: l' else y :: insert_desc key x l'
  end.
Definition sort_desc {A} (key : A -> Z) (l : list A) : list A := foldr (insert_desc key) [] l.

Definition overflow_error : tx_error := InvalidField (lit "utxos") (lit "total value overflows").

(** The loop over the sorted coins; [chosen] is in the order they were pushed. *)
Fixpoint select_loop (target total : Z) (chosen rest : list Utxo) : res tx_error Selection :=
  match rest with
  | [] => Err (InsufficientFunds total target)
  | utxo :: rest' =>
    total ← ok_or (checked_add u64_max total (utxo_value utxo)) overflow_error;
    let chosen := chosen ++ [utxo] in
    if target <=? total then
      let surplus := total - target in
      Ok (mkSelection chosen (if DUST_THRESHOLD <? surplus then surplus else 0))
    else select_loop target total chosen rest'
  end.

Definition select_coins (utxos : list Utxo) (target : Z) : res tx_error Selection :=
  select_loop target 0 [] (sort_desc utxo_value utxos).

(** * The transaction *)

Record TxIn := mkTxIn { prev_txid : list Z; prev_vout : Z; sequence : Z; witness : list (list Z) }.
Record TxOut := mkTxOut { out_value : Z; script_pubkey_bytes : list Z }.
Record Transaction := mkTransaction { version : Z; lock_time : Z; tx_input : list TxIn; tx_output : list TxOut }.

(** The [bitcoin] crate, as the code uses it. *)
Class BitcoinLib := {
  (** [Address::from_str(a)?.assume_checked().script_pubkey()] *)
  address_script : str -> res str (list Z);
  (** [Txid::from_str] *)
  parse_txid : str -> res str (list Z);
  (** [CompressedPublicKey::from_slice] succeeds *)
  public_key_valid : list Z -> bool;
  (** [Address::p2wpkh(..).to_string()] of a compressed public key *)
  p2wpkh_address : list Z -> str;
  (** [SighashCache::p2wpkh_signature_hash(index, script, value, All)] *)
  p2wpkh_signature_hash : Transaction -> nat -> list Z -> Z -> res str (list Z);
  (** [Signature::from_compact], [normalize_s] and [serialize_der] *)
  normalized_der : list Z -> option (list Z);
  (** [encode::serialize_hex] *)
  serialize_hex : Transaction -> str;
  (** [SecretKey::from_slice] succeeds *)
  secret_key_valid : list Z -> bool;
  (** [CompressedPublicKey::from_private_key(..).to_bytes()] *)
  public_key_of : list Z -> option (list Z);
  (** [sign_ecdsa(..).serialize_compact()] *)
  sign_compact : list Z -> list Z -> list Z
}.

Definition RBF_NO_LOCKTIME : Z := 4294967293.

Section Build.
Context `{Codecs, BitcoinLib}.

Definition script_pubkey (address : str) : res tx_error (list Z) :=
  map_err (InvalidField (lit "address")) (address_script address).

Definition build_input (utxo : Utxo) : res tx_error TxIn :=
  id ← map_err (fun e => InvalidField (lit "utxo.txid") (txid utxo ++ lit ": " ++ e))
         (parse_txid (txid utxo));
  Ok (mkTxIn id (vout utxo) RBF_NO_LOCKTIME []).

Definition build (t : Transfer) (utxos : list Utxo) : res tx_error (Transaction * Selection) :=
  from ← map_err TxAddress (validate_sender (tr_from t));
  to ← map_err TxAddress (btc_validate (tr_to t));
  target ← ok_or (checked_add u64_max (tr_amount t) (tr_fee t))
             (InvalidField (lit "amount") (lit "amount + fee overflows"));
  selection ← select_coins utxos target;
  from_spk ← script_pubkey from;
  to_spk ← script_pubkey to;
  input ← collect build_input (inputs selection);
  let output := mkTxOut (tr_amount t) to_spk
                :: (if 0 <? change selection then [mkTxOut (change selection) from_spk] else []) in
  Ok (mkTransaction 2 0 input output, selection).

(** * Signatures *)

Definition check_controls_from (t : Transfer) (public_key : list Z) : res tx_error unit :=
  _ ← err_if (negb (public_key_valid public_key))
        (Signing (lit "not a valid compressed secp256k1 public key"));
  let derived := p2wpkh_address public_key in
  err_if (negb (bool_decide (derived = trim (tr_from t))))
    (Signing (lit "public key does not control the `from` address")).

Definition input_sighash (tx : Transaction) (from_spk : list Z) (p : nat * Utxo)
  : res tx_error (list Z) :=
  map_err (fun e => Signing (lit "sighash failed: " ++ e))
    (p2wpkh_signature_hash tx p.1 from_spk (utxo_value p.2)).

Definition sighashes (t : Transfer) (utxos : list Utxo) (public_key : list Z)
  : res tx_error (Selection * list (list Z)) :=
  _ ← check_controls_from t public_key;
  '(tx, selection) ← build t utxos;
  from ← map_err TxAddress (validate_sender (tr_from t));
  from_spk ← script_pubkey from;
  digests ← collect (input_sighash tx from_spk) (imap pair (inputs selection));
  Ok (selection, digests).

(** [EcdsaSighashType::All]. *)
Definition SIGHASH_ALL : Z := 1.

(** The loop over [tx.input.iter_mut().zip(signatures)]. *)
Definition attach_one (public_key : list Z) (p : TxIn * list Z) : res tx_error TxIn :=
  der ← ok_or (normalized_der p.2)
          (Signing (lit "signature is not a valid secp256k1 (r, s) pair"));
  Ok (mkTxIn (prev_txid p.1) (prev_vout p.1) (sequence p.1) [der ++ [SIGHASH_ALL]; public_key]).

Definition attach_signatures (t : Transfer) (utxos : list Utxo) (public_key : list Z)
    (signatures : list (list Z)) : res tx_error str :=
  _ ← check_controls_from t public_key;
  '(tx, selection) ← build t utxos;
  if negb (length signatures =? length (inputs selection))%nat
  then
    let n := show_dec (Z.of_nat (length (inputs selection))) in
    Err (Signing (lit "expected " ++ n ++ lit " signatures for " ++ n ++ lit " inputs, got "
                  ++ show_dec (Z.of_nat (length signatures))))
  else
    signed ← collect (attach_one public_key) (zip (tx_input tx) signatures);
    Ok (serialize_hex (mkTransaction (version tx) (lock_time tx) signed (tx_output tx))).

Definition btc_sign (t : Transfer) (utxos : list Utxo) (secret_key : list Z) : res tx_error str :=
  _ ← err_if (negb (secret_key_valid secret_key))
        (Signing (lit "not a valid secp256k1 secret key"));
  public ← ok_or (public_key_of secret_key) (Signing (lit "could not derive the public key"));
  let derived := p2wpkh_address public in
  _ ← err_if (negb (bool_decide (derived = trim (tr_from t))))
        (Signing (lit "secret key does not control the `from` address"));
  '(_, digests) ← sighashes t utxos public;
  attach_signatures t utxos public (sign_compact secret_key <$> digests).
End Build.

(** * The fee planner of the engine *)

Definition DEFAULT_FEE_RATE_SAT_VB : Z := 20.
Definition TX_OVERHEAD_VBYTES : Z := 11.
Definition P2WPKH_INPUT_VBYTES : Z := 68.
Definition P2WPKH_OUTPUT_VBYTES : Z := 31.
Definition DUST_THRESHOLD_SATS : Z := 546.

Record EsploraUtxo := mkEsplora { e_txid : str; e_vout : Z; e_value : Z }.

(** The products stay far below 2^64 for any list that fits in memory. *)
Definition estimated_vbytes (inputs outputs : Z) : Z :=
  TX_OVERHEAD_VBYTES + inputs * P2WPKH_INPUT_VBYTES + outputs * P2WPKH_OUTPUT_VBYTES.

Record SpendPlan := mkPlan { selected : list EsploraUtxo; fee_sats : Z; change_sats : Z }.

Definition fee_for (fee_rate_sat_vb inputs outputs : Z) : res str Z :=
  ok_or (checked_mul u64_max fee_rate_sat_vb (estimated_vbytes inputs outputs))
    (lit "amount + fee overflow").

Definition insufficient (total amount_sats fee_rate_sat_vb : Z) (chosen : list EsploraUtxo)
  : res str SpendPlan :=
  fee_sats ← fee_for fee_rate_sat_vb (Z.of_nat (length chosen)) 1;
  let target := sat_add u64_max amount_sats fee_sats in
  Err (lit "insufficient BTC: have " ++ show_dec total ++ lit " sats, need " ++ show_dec target
       ++ lit " (amount " ++ show_dec amount_sats ++ lit " + fee " ++ show_dec fee_sats ++ lit ")").

Fixpoint plan_loop (amount_sats rate total : Z) (chosen rest : list EsploraUtxo)
  : res str SpendPlan :=
  match rest with
  | [] => insufficient total amount_sats rate chosen
  | utxo :: rest' =>
    total ← ok_or (checked_add u64_max total (e_value utxo)) (lit "utxo sum overflow");
    let chosen := chosen ++ [utxo] in
    let inputs := Z.of_nat (length chosen) in
    fee_with_change ← fee_for rate inputs 2;
    fee_without_change ← fee_for rate inputs 1;
    let with_change := sat_add u64_max amount_sats fee_with_change in
    if (with_change <=? total) && (DUST_THRESHOLD_SATS <? total - with_change)
    then Ok (mkPlan chosen fee_with_change (total - with_change))
    else if sat_add u64_max amount_sats fee_without_change <=? total
    then Ok (mkPlan chosen (total - amount_sats) 0)
    else plan_loop amount_sats rate total chosen rest'
  end.

Definition plan_spend (utxos : list EsploraUtxo) (amount_sats fee_rate_sat_vb : Z)
  : res str SpendPlan :=
  let sorted := sort_desc e_value utxos in
  cheapest ← fee_for fee_rate_sat_vb 1 1;
  _ ← ok_or (checked_add u64_max cheapest amount_sats) (lit "amount + fee overflow");
  plan_loop amount_sats fee_rate_sat_vb 0 [] sorted.

(** The coins of a plan, as [execute_btc_quote] hands them to the signer. *)
Definition signer_utxo (u : EsploraUtxo) : Utxo := mkUtxo (e_txid u) (e_vout u) (e_value u).

(** * Sorting *)

Definition desc {A} (key : A -> Z) (x y : A) : Prop := key y <= key x.

Lemma insert_desc_perm {A} (key : A -> Z) x l : insert_desc key x l ≡ₚ x :: l.
Proof.
  induction l as [|y l IH]; cbn; [reflexivity|]. case_bool; [reflexivity|].
  rewrite IH. apply Permutation_swap.
Qed.

Lemma sort_desc_perm {A} (key : A -> Z) l : sort_desc key l ≡ₚ l.
Proof.
  induction l as [|x l IH]; cbn; [reflexivity|]. rewrite insert_desc_perm. f_equiv. exact IH.
Qed.

Lemma insert_desc_sorted {A} (key : A -> Z) x l :
  StronglySorted (desc key) l -> StronglySorted (desc key) (insert_desc key x l).
Proof.
  induction 1 as [|y l Hl IH Hy]; cbn; [repeat constructor|].
  destruct (Z.leb_spec (key y) (key x)).
  - constructor; [constructor; assumption|]. constructor; [exact H|].
    eapply list.Forall_impl; [exact Hy|]. unfold desc. lia.
  - constructor; [exact IH|]. rewrite insert_desc_perm. constructor; [unfold desc; lia | exact Hy].
Qed.

Lemma sort_desc_sorted {A} (key : A -> Z) l : StronglySorted (desc key) (sort_desc key l).
Proof. induction l; cbn; [constructor | apply insert_desc_sorted; assumption]. Qed.

(** Sorting leaves sorted lists alone: it is stable. *)
Lemma sort_desc_id {A} (key : A -> Z) l : StronglySorted (desc key) l -> sort_desc key l = l.
Proof.
  induction 1 as [|x l Hl IH Hx]; [reflexivity|]. unfold sort_desc in *. cbn. rewrite IH.
  destruct l as [|y l]; [reflexivity|]. cbn. inversion Hx as [|? ? Hy _]; subst.
  unfold desc in Hy. rewrite (proj2 (Z.leb_le _ _) Hy). reflexivity.
Qed.

Lemma StronglySorted_take {A} (R : A -> A -> Prop) l k :
  StronglySorted R (l ++ k) -> StronglySorted R l.
Proof.
  induction l as [|x l IH]; cbn; [constructor|]. inversion 1 as [|? ? Hs Hf]; subst.
  constructor; [auto|]. apply Forall_app in Hf. apply Hf.
Qed.

(** Coins in front of a sorted list are worth at least those behind. *)
Lemma sorted_front {A} (key : A -> Z) l k x y :
  StronglySorted (desc key) (l ++ k) -> x ∈ l -> y ∈ k -> key y <= key x.
Proof.
  induction l as [|z l IH]; cbn; intros Hs Hx Hy; [inversion Hx|].
  inversion Hs as [|? ? Hs' Hf]; subst. apply elem_of_cons in Hx as [-> | Hx]; [|auto].
  apply Forall_app in Hf as [_ Hf]. rewrite list.Forall_forall in Hf. apply Hf, Hy.
Qed.

Lemma sort_desc_fmap {A B} (key : B -> Z) (f : A -> B) l :
  sort_desc key (f <$> l) = f <$> sort_desc (key ∘ f) l.
Proof.
  assert (Hi : forall x l, insert_desc key (f x) (f <$> l) = f <$> insert_desc (key ∘ f) x l).
  { intros x k. induction k as [|y k IH]; [reflexivity|]. cbn [fmap list_fmap insert_desc].
    unfold compose in *. case_bool; [reflexivity|]. cbn. f_equal. exact IH. }
  induction l as [|x l IH]; [reflexivity|]. rewrite fmap_cons. unfold sort_desc in *.
  cbn [foldr]. rewrite IH. apply Hi.
Qed.

(** * What selection chooses *)

(** [pre] followed by [u] is the first prefix of [l] that reaches [target] on
    top of [total]. *)
Definition reaches {A} (key : A -> Z) (target total : Z) (pre : list A) (u : A) : Prop :=
  (pre = [] \/ total + sum_of key pre < target) /\
  target <= total + sum_of key pre + key u <= u64_max.

Definition change_of (surplus : Z) : Z := if DUST_THRESHOLD <? surplus then surplus else 0.

Abbreviation coins_ok key := (Forall (fun x => 0 <= key x)).

Lemma select_loop_ok target total chosen rest s :
  coins_ok utxo_value rest ->
  select_loop target total chosen rest = Ok s <->
  exists pre u post, rest = pre ++ u :: post /\ reaches utxo_value target total pre u /\
    s = mkSelection (chosen ++ pre ++ [u])
          (change_of (total + sum_of utxo_value pre + utxo_value u - target)).
Proof.
  intros Hr. revert total chosen. induction Hr as [|x rest Hx Hr IH]; intros total chosen.
  - split; [discriminate | intros (pre & u & post & E & _); destruct pre; discriminate].
  - cbn [select_loop]. rewrite bind_ok. setoid_rewrite ok_or_ok. setoid_rewrite checked_add_some.
    unfold reaches. split.
    + intros (t & (-> & Hle) & H). destruct (Z.leb_spec target (total + utxo_value x)).
      * injection H as <-. exists [], x, rest. cbn. rewrite Z.add_0_r. split_and!; auto.
      * apply IH in H as (pre & u & post & -> & [Hp Hb] & ->).
        exists (x :: pre), u, post. cbn [sum_of]. split; [reflexivity|]. split.
        -- split; [right; destruct Hp as [-> | Hp]; cbn in *; lia | lia].
        -- rewrite <- app_assoc. do 2 f_equal. lia.
    + intros (pre & u & post & E & [Hp Hb] & ->). destruct pre as [|y pre]; injection E as -> ->.
      * exists (total + utxo_value u). cbn in *. rewrite Z.add_0_r in *.
        rewrite (proj2 (Z.leb_le _ _) (proj1 Hb)). split; [lia | reflexivity].
      * assert (Hpre : coins_ok utxo_value pre /\ 0 <= utxo_value u).
        { apply Forall_app in Hr as [Hpre Hu]. inversion Hu; subst. auto. }
        destruct Hpre as [Hpre Hu]. pose proof (sum_of_nonneg _ _ Hpre) as Hnn.
        cbn [sum_of] in *. destruct Hp as [[=] | Hp].
        exists (total + utxo_value y). split; [lia|].
        rewrite (proj2 (Z.leb_gt _ _)) by lia. apply IH.
        exists pre, u, post. split; [reflexivity|]. split.
        -- split; [destruct pre; [left; reflexivity | right; lia] | lia].
        -- rewrite <- app_assoc. do 2 f_equal. lia.
Qed.

Lemma select_loop_no_panic target total chosen rest : select_loop target total chosen rest <> Panic.
Proof.
  revert total chosen. induction rest as [|x rest IH]; intros total chosen; cbn; [discriminate|].
  apply bind_no_panic; [unfold ok_or; case_match; discriminate|].
  intros t. case_bool; [discriminate | apply IH].
Qed.

Lemma select_loop_total target total chosen rest :
  coins_ok utxo_value rest -> total + sum_of utxo_value rest <= u64_max ->
  rest <> [] -> target <= total + sum_of utxo_value rest ->
  is_ok (select_loop target total chosen rest) = true.
Proof.
  intros Hr. revert total chosen. induction Hr as [|x rest Hx Hr IH]; intros total chosen Hm Hn Ht; [congruence|].
  cbn [select_loop sum_of] in *. pose proof (sum_of_nonneg _ _ Hr).
  rewrite (proj2 (checked_add_some u64_max total (utxo_value x) _)) by (split; [reflexivity | lia]).
  cbn [ok_or mbind res_bind]. destruct (Z.leb_spec target (total + utxo_value x)); [reflexivity|].
  apply IH; [lia | | lia]. intros ->. cbn in *. lia.
Qed.

(** * What the planner chooses *)

(** The plan for the coins [sel] with total value [total]: a change output if
    it is above dust, otherwise the surplus is fee. *)
Definition plan_for (amount rate total : Z) (sel : list EsploraUtxo) (p : SpendPlan) : Prop :=
  let n := Z.of_nat (length sel) in
  let with_change := amount + rate * estimated_vbytes n 2 in
  selected p = sel /\
  ((fee_sats p = rate * estimated_vbytes n 2 /\ change_sats p = total - with_change /\
    DUST_THRESHOLD_SATS < total - with_change) \/
   (change_sats p = 0 /\ fee_sats p = total - amount /\ total - with_change <= DUST_THRESHOLD_SATS /\
    amount + rate * estimated_vbytes n 1 <= total)).

Lemma fee_for_ok rate n m f :
  fee_for rate n m = Ok f <-> f = rate * estimated_vbytes n m /\ f <= u64_max.
Proof. unfold fee_for. rewrite ok_or_ok, checked_mul_some. split; intros [-> H]; auto. Qed.

Lemma vbytes_mono n m k : n <= m -> estimated_vbytes n k <= estimated_vbytes m k.
Proof. unfold estimated_vbytes, P2WPKH_INPUT_VBYTES. lia. Qed.

(** The planner stops at the first prefix that covers the amount and the fee
    of a transaction without change.  All sums stay below [u64_max]. *)
Lemma plan_loop_ok amount rate total chosen rest p :
  0 <= amount -> 0 <= rate -> coins_ok e_value rest -> 0 <= total ->
  total + sum_of e_value rest < u64_max ->
  plan_loop amount rate total chosen rest = Ok p ->
  exists pre u post, rest = pre ++ u :: post /\
    (pre = [] \/ total + sum_of e_value pre
                 < amount + rate * estimated_vbytes (Z.of_nat (length (chosen ++ pre))) 1) /\
    plan_for amount rate (total + sum_of e_value pre + e_value u) (chosen ++ pre ++ [u]) p.
Proof.
  intros Ha Hrate Hr. revert total chosen. induction Hr as [|x rest Hx Hr IH]; intros total chosen Ht Hm H.
  { cbn in H. unfold insufficient in H. apply bind_ok in H as (? & _ & [=]). }
  cbn [plan_loop sum_of] in *. pose proof (sum_of_nonneg _ _ Hr) as Hnn.
  apply bind_ok in H as (t & Ht' & H). apply ok_or_ok, checked_add_some in Ht' as [-> Hle].
  apply bind_ok in H as (f2 & Hf2 & H). apply fee_for_ok in Hf2 as [Ef2 Hf2].
  apply bind_ok in H as (f1 & Hf1 & H). apply fee_for_ok in Hf1 as [Ef1 Hf1].
  unfold sat_add in H.
  destruct ((Z.min (amount + f2) u64_max <=? total + e_value x)
            && (DUST_THRESHOLD_SATS <? total + e_value x - Z.min (amount + f2) u64_max)) eqn:E1.
  { injection H as <-. bool_to_prop. unfold DUST_THRESHOLD_SATS in *.
    exists [], x, rest. cbn [app sum_of]. rewrite Z.add_0_r. split_and!; auto.
    split; [reflexivity|]. left. cbn [fee_sats change_sats]. unfold DUST_THRESHOLD_SATS in *.
    rewrite <- Ef2. lia. }
  destruct (Z.leb_spec (Z.min (amount + f1) u64_max) (total + e_value x)) as [E2 | E2].
  { injection H as <-. exists [], x, rest. cbn [app sum_of]. rewrite Z.add_0_r. split_and!; auto.
    split; [reflexivity|]. right. cbn [fee_sats change_sats]. rewrite <- Ef2, <- Ef1.
    split_and!; [reflexivity | reflexivity | | lia].
    apply andb_false_iff in E1. rewrite Z.leb_gt, Z.ltb_ge in E1. unfold DUST_THRESHOLD_SATS in *. lia. }
  apply IH in H as (pre & u & post & -> & Hp & Hplan); [|lia..].
  exists (x :: pre), u, post. cbn [sum_of]. split; [reflexivity|]. split.
  - right. destruct Hp as [-> | Hp].
    + cbn [sum_of]. rewrite Ef1 in E2. lia.
    + rewrite <- app_assoc in Hp. cbn [app] in Hp. lia.
  - rewrite <- app_assoc in Hplan. cbn [app] in *.
    replace (total + (e_value x + sum_of e_value pre) + e_value u)
      with (total + e_value x + sum_of e_value pre + e_value u) by lia. exact Hplan.
Qed.

Lemma plan_spend_ok utxos amount rate p :
  0 <= amount -> 0 <= rate -> coins_ok e_value utxos -> sum_of e_value utxos < u64_max ->
  plan_spend utxos amount rate = Ok p ->
  exists pre u post, sort_desc e_value utxos = pre ++ u :: post /\
    (pre = [] \/ sum_of e_value pre < amount + rate * estimated_vbytes (Z.of_nat (length pre)) 1) /\
    plan_for amount rate (sum_of e_value (pre ++ [u])) (pre ++ [u]) p.
Proof.
  intros Ha Hrate Hc Hs H. unfold plan_spend in H.
  apply bind_ok in H as (c & _ & H). apply bind_ok in H as (d & _ & H).
  apply plan_loop_ok in H; try lia.
  - destruct H as (pre & u & post & E & Hp & Hplan). exists pre, u, post.
    split; [exact E|]. split; [exact Hp|]. rewrite sum_of_app. cbn [sum_of app] in *.
    rewrite Z.add_0_r. exact Hplan.
  - rewrite sort_desc_perm. exact Hc.
  - rewrite (sum_of_perm _ _ _ (sort_desc_perm e_value utxos)). lia.
Qed.

(** Any fee a plan asks for at [rate] fits a [u64]. *)
Definition fees_fit (rate : Z) (n : nat) : Prop := rate * estimated_vbytes (Z.of_nat n) 2 <= u64_max.

Lemma fees_fit_le rate n m : 0 <= rate -> (m <= n)%nat -> fees_fit rate n -> fees_fit rate m.
Proof.
  unfold fees_fit. intros Hr Hm H. pose proof (vbytes_mono (Z.of_nat m) (Z.of_nat n) 2 ltac:(lia)). nia.
Qed.

Lemma fee_for_fits rate n k :
  0 <= rate -> fees_fit rate n -> 0 <= k <= 2 ->
  fee_for rate (Z.of_nat n) k = Ok (rate * estimated_vbytes (Z.of_nat n) k).
Proof.
  unfold fees_fit. intros Hr H Hk. apply fee_for_ok. split; [reflexivity|].
  assert (estimated_vbytes (Z.of_nat n) k <= estimated_vbytes (Z.of_nat n) 2)
    by (unfold estimated_vbytes, P2WPKH_OUTPUT_VBYTES; lia). nia.
Qed.

(** Without overflow the planner succeeds exactly when some prefix of the
    sorted coins pays the amount and the fee of spending it without change. *)
Lemma plan_loop_total amount rate total chosen rest :
  0 <= amount -> 0 <= rate -> coins_ok e_value rest -> 0 <= total ->
  total + sum_of e_value rest < u64_max -> fees_fit rate (length (chosen ++ rest)) ->
  (exists pre post, rest = pre ++ post /\ pre <> [] /\
     amount + rate * estimated_vbytes (Z.of_nat (length (chosen ++ pre))) 1
     <= total + sum_of e_value pre) ->
  is_ok (plan_loop amount rate total chosen rest) = true.
Proof.
  intros Ha Hrate Hr. revert total chosen.
  induction Hr as [|x rest Hx Hr IH]; intros total chosen Ht Hm Hf (pre & post & E & Hn & Hcov).
  { symmetry in E. apply app_nil in E as [-> _]. congruence. }
  cbn [plan_loop sum_of] in *. pose proof (sum_of_nonneg _ _ Hr).
  rewrite (proj2 (checked_add_some u64_max total (e_value x) _)) by (split; [reflexivity | lia]).
  cbn [ok_or mbind res_bind].
  assert (Hf1 : fees_fit rate (length (chosen ++ [x]))).
  { eapply fees_fit_le; [exact Hrate | | exact Hf]. rewrite !length_app. cbn. lia. }
  rewrite !fee_for_fits by (auto; lia). cbn [mbind res_bind]. case_bool; [reflexivity|].
  unfold sat_add. destruct (Z.leb_spec (Z.min (amount + rate * estimated_vbytes (Z.of_nat (length (chosen ++ [x]))) 1) u64_max) (total + e_value x)) as [|Hno]; [reflexivity|].
  destruct pre as [|y pre]; [congruence|]. injection E as -> ->.
  apply IH; try lia.
  - rewrite <- app_assoc. exact Hf.
  - exists pre, post. split; [reflexivity|]. rewrite <- app_assoc. cbn [app sum_of] in *. split; [|lia].
    intros ->. cbn [sum_of] in Hcov. lia.
Qed.

Section BuildFacts.
Context `{Codecs, BitcoinLib}.

Lemma build_ok t utxos tx sel :
  build t utxos = Ok (tx, sel) <->
  exists from to from_spk to_spk ins,
    validate_sender (tr_from t) = Ok from /\ btc_validate (tr_to t) = Ok to /\
    tr_amount t + tr_fee t <= u64_max /\
    select_coins utxos (tr_amount t + tr_fee t) = Ok sel /\
    script_pubkey from = Ok from_spk /\ script_pubkey to = Ok to_spk /\
    collect build_input (inputs sel) = Ok ins /\
    tx = mkTransaction 2 0 ins (mkTxOut (tr_amount t) to_spk ::
           (if 0 <? change sel then [mkTxOut (change sel) from_spk] else [])).
Proof.
  unfold build. split.
  - intros Hb. apply bind_ok in Hb as (from & Hf & Hb). apply map_err_ok in Hf.
    apply bind_ok in Hb as (to & Ht & Hb). apply map_err_ok in Ht.
    apply bind_ok in Hb as (tg & Htg & Hb). apply ok_or_ok, checked_add_some in Htg as [-> Hle].
    apply bind_ok in Hb as (sel' & Hsel & Hb). apply bind_ok in Hb as (fs & Hfs & Hb).
    apply bind_ok in Hb as (ts & Hts & Hb). apply bind_ok in Hb as (ins & Hins & Hb).
    injection Hb as <- <-. eauto 15.
  - intros (from & to & fs & ts & ins & Hf & Ht & Hle & Hsel & Hfs & Hts & Hins & ->).
    rewrite Hf, Ht. cbn [map_err mbind res_bind].
    rewrite (proj2 (checked_add_some u64_max _ _ _) (conj eq_refl Hle)).
    cbn [ok_or mbind res_bind]. rewrite Hsel. cbn [mbind res_bind].
    rewrite Hfs. cbn [mbind res_bind]. rewrite Hts. cbn [mbind res_bind].
    rewrite Hins. reflexivity.
Qed.
End BuildFacts.

(** * Properties *)

(** Coin selection.  It never panics; when the coins' values sum without
    overflow it succeeds exactly when there is a coin and they cover the
    target.  What it returns is part of the coins given, the largest ones, in
    descending order; they cover the target, without the last of them they
    would not; the change is the surplus, or nothing when the surplus is at
    most the dust threshold. *)
Theorem select_coins_correct utxos target :
  coins_ok utxo_value utxos ->
  select_coins utxos target <> Panic /\
  (sum_of utxo_value utxos <= u64_max ->
     is_ok (select_coins utxos target) = true <->
     utxos <> [] /\ target <= sum_of utxo_value utxos) /\
  forall s, select_coins utxos target = Ok s ->
  exists pre last rest,
    inputs s = pre ++ [last] /\ inputs s ++ rest ≡ₚ utxos /\
    StronglySorted (desc utxo_value) (inputs s) /\
    (forall x y, x ∈ inputs s -> y ∈ rest -> utxo_value y <= utxo_value x) /\
    target <= sum_of utxo_value (inputs s) /\
    (pre <> [] -> sum_of utxo_value pre < target) /\
    change s = (let surplus := sum_of utxo_value (inputs s) - target in
                if 546 <? surplus then surplus else 0).
Proof.
  intros Hc. set (l := sort_desc utxo_value utxos).
  assert (Hl : coins_ok utxo_value l) by (unfold l; rewrite sort_desc_perm; exact Hc).
  pose proof (sum_of_perm utxo_value _ _ (sort_desc_perm utxo_value utxos)) as Hsum. fold l in Hsum.
  assert (Hok : forall s, select_coins utxos target = Ok s ->
            exists pre u post, l = pre ++ u :: post /\ reaches utxo_value target 0 pre u /\
              s = mkSelection (pre ++ [u]) (change_of (sum_of utxo_value (pre ++ [u]) - target))).
  { intros s Hs. apply select_loop_ok in Hs as (pre & u & post & E & Hr & ->); [|exact Hl].
    exists pre, u, post. split_and!; auto. cbn [app]. rewrite sum_of_app. cbn [sum_of].
    rewrite Z.add_0_r. reflexivity. }
  split_and!.
  - apply select_loop_no_panic.
  - intros Hm. split.
    + destruct (select_coins utxos target) as [s|e|] eqn:E; [|discriminate..]. intros _.
      destruct (Hok s eq_refl) as (pre & u & post & El & [_ Hr] & _).
      apply (f_equal (sum_of utxo_value)) in El as Es. rewrite sum_of_app in Es. cbn [sum_of] in Es.
      rewrite El in Hl. apply Forall_app in Hl as [_ Hpost]. inversion Hpost as [|? ? _ Hpost']; subst.
      pose proof (sum_of_nonneg _ _ Hpost').
      split; [intros ->; destruct pre; discriminate | lia].
    + intros [Hn Ht]. apply select_loop_total; fold l; try lia; auto.
      intros E. apply Hn. apply Permutation_nil. rewrite <- E. apply sort_desc_perm.
  - intros s Hs. destruct (Hok s Hs) as (pre & u & post & El & [Hp Hr] & ->). cbn [inputs change].
    exists pre, u, post.
    assert (Hsort : StronglySorted (desc utxo_value) ((pre ++ [u]) ++ post)).
    { rewrite <- app_assoc. cbn [app]. rewrite <- El. apply sort_desc_sorted. }
    split_and!; auto.
    + rewrite <- app_assoc. cbn [app]. rewrite <- El. apply sort_desc_perm.
    + eapply StronglySorted_take, Hsort.
    + intros x y. apply sorted_front, Hsort.
    + rewrite sum_of_app. cbn [sum_of]. lia.
    + intros Hn. destruct Hp as [-> | Hp]; [congruence | lia].
Qed.

Lemma select_coins_correct_witness :
  let utxos := [mkUtxo [] 0 700; mkUtxo [] 1 5000; mkUtxo [] 2 900] in
  is_ok (select_coins utxos 5800) = true.
Proof.
  cbn zeta.
  destruct (select_coins_correct [mkUtxo [] 0 700; mkUtxo [] 1 5000; mkUtxo [] 2 900] 5800)
    as (_ & H & _); [repeat constructor; vm_compute; discriminate|].
  apply H; [vm_compute; discriminate | split; [discriminate | vm_compute; discriminate]].
Defined.

(** A built transaction conserves value.  Its inputs are the selected coins
    in order; its outputs are the amount to the recipient's script and, when
    there is change, the change to the sender's script; and what the inputs
    hold beyond the outputs is the requested fee plus at most dust: nothing
    else is lost to the miners. *)
Theorem build_conserves `{CodecLaws, BitcoinLib} t utxos tx sel :
  coins_ok utxo_value utxos -> 0 <= tr_amount t -> 0 <= tr_fee t ->
  build t utxos = Ok (tx, sel) ->
  exists from to_spk from_spk,
    validate_sender (tr_from t) = Ok from /\
    script_pubkey from = Ok from_spk /\ script_pubkey (trim (tr_to t)) = Ok to_spk /\
    map (fun i => Ok (prev_txid i)) (tx_input tx)
      = map (fun u => parse_txid (txid u)) (inputs sel) /\
    map prev_vout (tx_input tx) = map vout (inputs sel) /\
    tx_output tx = mkTxOut (tr_amount t) to_spk ::
      (if 546 <? change sel then [mkTxOut (change sel) from_spk] else []) /\
    tr_fee t <= sum_of utxo_value (inputs sel) - sum_of out_value (tx_output tx)
      <= tr_fee t + 546.
Proof.
  intros Hc Ha Hf Hb. apply build_ok in Hb as (from & to & fs & ts & ins & Hfrom & Hto & Hle & Hsel & Hfs & Hts & Hins & ->).
  assert (Hto' : to = trim (tr_to t)).
  { unfold btc_validate in Hto. apply bind_ok in Hto as (x & Hx & Hto).
    apply trimmed_non_empty_ok in Hx as [-> _]. apply bind_ok in Hto as (k & _ & [= <-]). reflexivity. }
  subst to. exists from, ts, fs.
  assert (Hbal : tr_fee t <= sum_of utxo_value (inputs sel)
            - sum_of out_value (mkTxOut (tr_amount t) ts ::
                (if 0 <? change sel then [mkTxOut (change sel) fs] else [])) <= tr_fee t + 546).
  { clear Hins.
    apply select_loop_ok in Hsel as (pre & u & post & _ & [_ Hr] & ->);
      [|rewrite sort_desc_perm; exact Hc]. cbn [change inputs app].
    rewrite sum_of_app. cbn [sum_of out_value]. unfold change_of, DUST_THRESHOLD.
    destruct (Z.ltb_spec 546 (0 + sum_of utxo_value pre + utxo_value u - (tr_amount t + tr_fee t))).
    + rewrite (proj2 (Z.ltb_lt 0 _)) by lia. cbn [sum_of out_value]. lia.
    + cbn [Z.ltb Z.compare sum_of]. lia. }
  split_and!; auto; cbn [tx_input tx_output].
  - apply collect_ok in Hins. clear -Hins. induction Hins as [|u i us ins Hu Hr IH]; [reflexivity|].
    cbn [map]. f_equal; [|exact IH]. unfold build_input in Hu.
    apply bind_ok in Hu as (id & Hid & [= <-]). apply map_err_ok in Hid. symmetry. exact Hid.
  - apply collect_ok in Hins. clear -Hins. induction Hins as [|u i us ins Hu Hr IH]; [reflexivity|].
    cbn [map]. f_equal; [|exact IH]. unfold build_input in Hu.
    apply bind_ok in Hu as (id & Hid & [= <-]). reflexivity.
  - apply select_loop_ok in Hsel as (pre & u & post & _ & _ & ->);
      [|rewrite sort_desc_perm; exact Hc]. cbn [change]. unfold change_of, DUST_THRESHOLD.
    destruct (Z.ltb_spec 546 (0 + sum_of utxo_value pre + utxo_value u - (tr_amount t + tr_fee t)))
      as [Hd | Hd]; [|reflexivity].
    rewrite (proj2 (Z.ltb_lt 0 _)) by lia. rewrite (proj2 (Z.ltb_lt 546 _)) by lia. reflexivity.
  - apply Hbal.
  - apply Hbal.
Qed.

(** C7. The engine's plan is the signer's selection.  When [plan_spend] returns
    a plan, the signer, given only the planned coins with the planned fee,
    selects exactly those coins in the same order and computes the planned
    change; the plan conserves value, its fee covers the size of the
    transaction it makes at the requested rate and exceeds the price of a
    change output by at most dust, and change is never dust. *)
Theorem plan_agrees_with_signer utxos amount rate p :
  coins_ok e_value utxos -> sum_of e_value utxos < u64_max -> 0 <= amount -> 0 <= rate ->
  plan_spend utxos amount rate = Ok p ->
  let n := Z.of_nat (length (selected p)) in
  select_coins (signer_utxo <$> selected p) (amount + fee_sats p)
    = Ok (mkSelection (signer_utxo <$> selected p) (change_sats p)) /\
  sum_of e_value (selected p) = amount + fee_sats p + change_sats p /\
  (change_sats p = 0 \/ 546 < change_sats p) /\
  rate * estimated_vbytes n (if 0 <? change_sats p then 2 else 1) <= fee_sats p
    <= rate * estimated_vbytes n 2 + 546 /\
  (exists rest, selected p ++ rest ≡ₚ utxos).
Proof.
  intros Hc Hs Ha Hr Hp. apply plan_spend_ok in Hp as (pre & u & post & E & Hpre & Hplan); [|assumption..].
  assert (Hsorted : StronglySorted (desc e_value) (pre ++ [u])).
  { apply (StronglySorted_take _ _ post). rewrite <- app_assoc. cbn [app]. rewrite <- E.
    apply sort_desc_sorted. }
  assert (Hcs : coins_ok e_value (pre ++ u :: post)) by (rewrite <- E, sort_desc_perm; exact Hc).
  assert (Hsum : sum_of e_value (pre ++ [u]) < u64_max).
  { rewrite <- (sum_of_perm _ _ _ (sort_desc_perm e_value utxos)), E, sum_of_app in Hs.
    rewrite sum_of_app. apply Forall_app in Hcs as [_ Hpost].
    inversion Hpost as [|? ? _ Hpost']; subst. pose proof (sum_of_nonneg _ _ Hpost').
    cbn [sum_of] in *. lia. }
  assert (Hlen : (length (pre ++ [u]) = S (length pre))%nat) by (rewrite length_app; simpl; lia).
  destruct Hplan as [Hsel Hout]. rewrite Hsel in *. cbn zeta.
  assert (Hv1 : rate * estimated_vbytes (Z.of_nat (length pre)) 1
                <= rate * estimated_vbytes (Z.of_nat (length (pre ++ [u]))) 1).
  { apply Z.mul_le_mono_nonneg_l; [lia|]. apply vbytes_mono. lia. }
  assert (Hv2 : rate * estimated_vbytes (Z.of_nat (length (pre ++ [u]))) 1
                <= rate * estimated_vbytes (Z.of_nat (length (pre ++ [u]))) 2).
  { apply Z.mul_le_mono_nonneg_l; [lia|]. unfold estimated_vbytes, P2WPKH_OUTPUT_VBYTES. lia. }
  unfold DUST_THRESHOLD_SATS in Hout.
  split_and!.
  - unfold select_coins. rewrite sort_desc_fmap, sort_desc_id by exact Hsorted.
    apply select_loop_ok; [apply Forall_fmap; apply Forall_app in Hcs as [Hx Hy];
      apply Forall_app; split; [exact Hx | inversion Hy; subst; repeat constructor; assumption]|].
    exists (signer_utxo <$> pre), (signer_utxo u), []. split; [rewrite fmap_app; reflexivity|].
    unfold reaches. rewrite sum_of_fmap. change (utxo_value ∘ signer_utxo) with e_value.
    cbn [utxo_value signer_utxo app]. rewrite sum_of_app in *. cbn [sum_of] in *.
    split.
    + split; [|destruct Hout as [(E1 & E2 & E3) | (E1 & E2 & E3 & E4)]; lia].
      destruct Hpre as [-> | Hpre]; [left; reflexivity | right].
      destruct Hout as [(E1 & E2 & E3) | (E1 & E2 & E3 & E4)]; lia.
    + rewrite fmap_app. f_equal. unfold change_of, DUST_THRESHOLD.
      destruct Hout as [(E1 & E2 & E3) | (E1 & E2 & E3 & E4)]; case_bool; bool_to_prop; lia.
  - rewrite sum_of_app in *. cbn [sum_of] in *. destruct Hout as [(E1 & E2 & E3) | (E1 & E2 & E3 & E4)]; lia.
  - destruct Hout as [(E1 & E2 & E3) | (E1 & E2 & E3 & E4)]; [right | left]; lia.
  - destruct Hout as [(E1 & E2 & E3) | (E1 & E2 & E3 & E4)].
    + rewrite (proj2 (Z.ltb_lt 0 _)) by lia. lia.
    + rewrite E1. cbn [Z.ltb Z.compare]. lia.
  - destruct Hout as [(E1 & E2 & E3) | (E1 & E2 & E3 & E4)].
    + lia.
    + lia.
  - exists post. rewrite <- app_assoc. cbn [app]. rewrite <- E. apply sort_desc_perm.
Qed.

Lemma plan_agrees_with_signer_witness :
  let utxos := [mkEsplora [] 0 700; mkEsplora [] 1 5000; mkEsplora [] 2 9000] in
  select_coins (signer_utxo <$> [mkEsplora [] 2 9000; mkEsplora [] 1 5000]) 14000
  = Ok (mkSelection (signer_utxo <$> [mkEsplora [] 2 9000; mkEsplora [] 1 5000]) 0).
Proof.
  cbn zeta.
  destruct (plan_agrees_with_signer [mkEsplora [] 0 700; mkEsplora [] 1 5000; mkEsplora [] 2 9000]
              10000 20 (mkPlan [mkEsplora [] 2 9000; mkEsplora [] 1 5000] 4000 0)) as (H & _).
  - repeat constructor; vm_compute; discriminate.
  - vm_compute. reflexivity.
  - vm_compute. discriminate.
  - vm_compute. discriminate.
  - vm_compute. reflexivity.
  - exact H.
Defined.

(** C23. When the planner finds a plan.  With fees and sums that fit 64 bits,
    [plan_spend] succeeds exactly when some number of the largest coins pays
    the amount and the fee of spending that many coins without change; the
    greedy loop misses no affordable spend of this shape. *)
Theorem plan_spend_complete utxos amount rate :
  coins_ok e_value utxos -> sum_of e_value utxos < u64_max -> 0 <= amount -> 0 <= rate ->
  fees_fit rate (length utxos) -> rate * estimated_vbytes 1 1 + amount <= u64_max ->
  is_ok (plan_spend utxos amount rate) = true <->
  exists k, (1 <= k <= length utxos)%nat /\
    amount + rate * estimated_vbytes (Z.of_nat k) 1
    <= sum_of e_value (take k (sort_desc e_value utxos)).
Proof.
  intros Hc Hs Ha Hr Hf Hcheap.
  assert (Hlen : length (sort_desc e_value utxos) = length utxos)
    by (apply Permutation_length, sort_desc_perm).
  split.
  - destruct (plan_spend utxos amount rate) as [p|e|] eqn:E; [|discriminate..]. intros _.
    destruct (plan_spend_ok _ _ _ _ Ha Hr Hc Hs E) as (pre & u & post & El & _ & Hsel & Hout).
    exists (length (pre ++ [u])). rewrite El in *. rewrite !length_app in *. cbn [length] in *.
    split; [lia|].
    replace (pre ++ u :: post) with ((pre ++ [u]) ++ post) by (rewrite <- app_assoc; reflexivity).
    rewrite take_app_length' by (rewrite length_app; reflexivity).
    assert (rate * estimated_vbytes (Z.of_nat (length pre + 1)) 1
            <= rate * estimated_vbytes (Z.of_nat (length pre + 1)) 2).
    { apply Z.mul_le_mono_nonneg_l; [lia|]. unfold estimated_vbytes, P2WPKH_OUTPUT_VBYTES. lia. }
    unfold DUST_THRESHOLD_SATS in Hout. destruct Hout as [(E1 & E2 & E3) | (E1 & E2 & E3 & E4)]; lia.
  - intros (k & Hk & Hcov). unfold plan_spend.
    change 1 with (Z.of_nat 1) at 1.
    rewrite (fee_for_fits rate 1 1); [|exact Hr | eapply fees_fit_le; [exact Hr| |exact Hf]; lia | lia].
    cbn [mbind res_bind].
    rewrite (proj2 (checked_add_some u64_max _ amount _)) by (split; [reflexivity | exact Hcheap]).
    cbn [ok_or mbind res_bind]. apply plan_loop_total; auto.
    + rewrite sort_desc_perm. exact Hc.
    + lia.
    + rewrite (sum_of_perm _ _ _ (sort_desc_perm e_value utxos)). lia.
    + cbn [app]. rewrite Hlen. exact Hf.
    + exists (take k (sort_desc e_value utxos)), (drop k (sort_desc e_value utxos)).
      rewrite take_drop. split; [reflexivity|]. cbn [app].
      assert (Hlk : length (take k (sort_desc e_value utxos)) = k) by (rewrite length_take; lia).
      split; [intros E0; rewrite E0 in Hlk; simpl in Hlk; lia | rewrite Hlk; lia].
Qed.

Lemma plan_spend_complete_witness :
  is_ok (plan_spend [mkEsplora [] 0 700; mkEsplora [] 1 5000; mkEsplora [] 2 9000] 10000 20) = true.
Proof.
  apply plan_spend_complete.
  - repeat constructor; vm_compute; discriminate.
  - vm_compute. reflexivity.
  - vm_compute. discriminate.
  - vm_compute. discriminate.
  - vm_compute. discriminate.
  - vm_compute. discriminate.
  - exists 2%nat. split; [cbn; lia | vm_compute; discriminate].
Defined.

(** Signing in one call is signing in two. *)
Lemma btc_sign_steps `{Codecs, BitcoinLib} t utxos sk raw :
  btc_sign t utxos sk = Ok raw <->
  secret_key_valid sk = true /\ exists pk' sel ds, public_key_of sk = Some pk' /\
    p2wpkh_address pk' = trim (tr_from t) /\ sighashes t utxos pk' = Ok (sel, ds) /\
    attach_signatures t utxos pk' (sign_compact sk <$> ds) = Ok raw.
Proof.
  unfold btc_sign. split.
  - intros Hs. apply bind_ok in Hs as (? & Hv & Hs). apply err_if_ok in Hv. bool_to_prop.
    apply bind_ok in Hs as (pk' & Hpk & Hs). apply ok_or_ok in Hpk.
    apply bind_ok in Hs as (? & Hd & Hs). apply err_if_ok in Hd. bool_to_prop.
    apply bind_ok in Hs as ([sel ds] & Hds & Hs). split; [assumption|].
    exists pk', sel, ds. auto.
  - intros (Hv & pk' & sel & ds & Hpk & Hd & Hds & Hs). rewrite Hv, Hpk.
    cbn [negb err_if ok_or mbind res_bind]. rewrite bool_decide_eq_true_2 by exact Hd.
    cbn [negb err_if mbind res_bind]. rewrite Hds. cbn [mbind res_bind]. exact Hs.
Qed.

(** Split signing agrees with signing in one call and never mixes inputs.
    [sighashes] gives one digest per selected input, in input order, each over
    the transaction [build] makes and that input's own value; [attach_signatures]
    keeps that transaction, requires exactly as many signatures, and puts the
    i-th signature, normalised, with the public key in the i-th witness; and
    [sign] succeeds exactly as attaching the key's signatures over those digests. *)
Theorem split_signing `{CodecLaws, BitcoinLib} t utxos pk :
  (forall sel ds, sighashes t utxos pk = Ok (sel, ds) ->
     exists tx from_spk, build t utxos = Ok (tx, sel) /\ length ds = length (inputs sel) /\
       forall i u d, inputs sel !! i = Some u -> ds !! i = Some d ->
         p2wpkh_signature_hash tx i from_spk (utxo_value u) = Ok d) /\
  (forall sigs raw, attach_signatures t utxos pk sigs = Ok raw ->
     p2wpkh_address pk = trim (tr_from t) /\
     exists tx sel signed, build t utxos = Ok (tx, sel) /\ length sigs = length (inputs sel) /\
       raw = serialize_hex (mkTransaction (version tx) (lock_time tx) signed (tx_output tx)) /\
       Forall2 (fun p i => exists der, normalized_der p.2 = Some der /\
                  i = mkTxIn (prev_txid p.1) (prev_vout p.1) (sequence p.1) [der ++ [1]; pk])
         (zip (tx_input tx) sigs) signed) /\
  (forall sk raw, btc_sign t utxos sk = Ok raw <->
     secret_key_valid sk = true /\ exists pk' sel ds, public_key_of sk = Some pk' /\
       p2wpkh_address pk' = trim (tr_from t) /\ sighashes t utxos pk' = Ok (sel, ds) /\
       attach_signatures t utxos pk' (sign_compact sk <$> ds) = Ok raw).
Proof.
  split_and!.
  - intros sel ds Hs. unfold sighashes in Hs. apply bind_ok in Hs as (? & _ & Hs).
    apply bind_ok in Hs as ([tx sel'] & Hb & Hs). apply bind_ok in Hs as (from & _ & Hs).
    apply bind_ok in Hs as (fs & _ & Hs). apply bind_ok in Hs as (ds' & Hds & Hs).
    injection Hs as <- <-. exists tx, fs. split; [exact Hb|].
    apply collect_ok in Hds. split; [apply Forall2_length in Hds; rewrite length_imap in Hds; auto|].
    intros i u d Hu Hd. destruct (Forall2_lookup_r _ _ _ _ _ Hds Hd) as (p & Hp & Hsig).
    rewrite list_lookup_imap, Hu in Hp. injection Hp as <-.
    unfold input_sighash in Hsig. apply map_err_ok in Hsig. exact Hsig.
  - intros sigs raw Ha. unfold attach_signatures in Ha. apply bind_ok in Ha as (? & Hctl & Ha).
    apply bind_ok in Ha as ([tx sel] & Hb & Ha).
    destruct (length sigs =? length (inputs sel))%nat eqn:El; [|discriminate]. cbn [negb] in Ha.
    apply Nat.eqb_eq in El. apply bind_ok in Ha as (signed & Hsig & [= <-]). split.
    + unfold check_controls_from in Hctl. apply bind_ok in Hctl as (? & _ & Hctl).
      apply err_if_ok in Hctl. bool_to_prop. assumption.
    + exists tx, sel, signed. split_and!; auto. apply collect_ok in Hsig.
      eapply Forall2_impl; [exact Hsig|]. intros p i Hp. unfold attach_one in Hp.
      apply bind_ok in Hp as (der & Hder & [= <-]). apply ok_or_ok in Hder. eauto.
  - intros sk raw. apply btc_sign_steps.
Qed.

(** A stand-in for the [bitcoin] crate, for closed examples. *)
Definition toy_bitcoin : BitcoinLib := {|
  address_script := fun a => Ok (0 :: a);
  parse_txid := fun t => Ok t;
  public_key_valid := fun pk => (length pk =? 33)%nat;
  p2wpkh_address := fun pk => lit "bc1" ++ ((fun c => if c =? 49 then 103 else c) <$> hex_string (take 20 pk));
  p2wpkh_signature_hash := fun _ i _ v => Ok (be_bytes 32 (v + Z.of_nat i));
  normalized_der := Some;
  serialize_hex := fun tx => hex_string (concat (map (fun i => concat (witness i)) (tx_input tx)));
  secret_key_valid := fun sk => (length sk =? 32)%nat;
  public_key_of := fun sk => Some (sk ++ [2]);
  sign_compact := fun sk d => sk ++ d
|}.

Definition toy_secret : list Z := replicate 32 7.
Definition toy_transfer : Transfer :=
  mkTransfer (@p2wpkh_address toy_bitcoin (toy_secret ++ [2])) (hex_string (0 :: replicate 20 9)) 1000 200.

Lemma build_conserves_witness :
  exists tx sel, build (H0 := toy_bitcoin) toy_transfer [mkUtxo [1] 0 5000] = Ok (tx, sel) /\
    sum_of utxo_value (inputs sel) - sum_of out_value (tx_output tx) <= 746.
Proof.
  destruct (build (H0 := toy_bitcoin) toy_transfer [mkUtxo [1] 0 5000]) as [[tx sel]|e|] eqn:E;
    [|vm_compute in E; discriminate E..].
  exists tx, sel. split; [reflexivity|].
  destruct (build_conserves (H1 := toy_bitcoin) toy_transfer [mkUtxo [1] 0 5000] tx sel)
    as (? & ? & ? & _ & _ & _ & _ & _ & _ & Hb).
  - repeat constructor; vm_compute; discriminate.
  - vm_compute. discriminate.
  - vm_compute. discriminate.
  - exact E.
  - exact (proj2 Hb).
Defined.

Lemma split_signing_witness :
  exists raw, btc_sign (H0 := toy_bitcoin) toy_transfer [mkUtxo [1] 0 5000] toy_secret = Ok raw.
Proof.
  exists (match btc_sign (H0 := toy_bitcoin) toy_transfer [mkUtxo [1] 0 5000] toy_secret with
          | Ok raw => raw | _ => [] end).
  destruct (split_signing (H1 := toy_bitcoin) toy_transfer [mkUtxo [1] 0 5000] []) as (_ & _ & H).
  apply H. apply H. vm_compute. reflexivity.
Defined.
