(* ===== verification/Json.v ===== *)
(** JSON values as [serde_json] holds them: the part of it the sources use.

    A number is a [u64], a negative [i64], or a float, which only its text is
    kept of.  An object is its entries; [get] finds the first with a key. *)

From stdpp Require Import base list strings numbers.
From S2P Require Import Prelude Text.

#[local] Set Warnings "-register-all".

Inductive JNumber := JPos (n : Z) | JNeg (n : Z) | JFloat (text : str).

Inductive Json :=
  | JNull
  | JBool (b : bool)
  | JNum (n : JNumber)
  | JStr (s : str)
  | JArr (l : list Json)
  | JObj (fields : list (str * Json)).

(** Byte order, as [str] compares. *)
Fixpoint bytes_lt (a b : str) : bool :=
  match a, b with
  | _, [] => false
  | [], _ :: _ => true
  | x :: a', y :: b' => (x <? y) || ((x =? y) && bytes_lt a' b')
  end.

(** [Value::get] with a string key. *)
Definition jget (key : str) (v : Json) : option Json :=
  match v with
  | JObj fields => snd <$> find_first (fun '(k, _) => bool_decide (k = key)) fields
  | _ => None
  end.

(** [Map::insert]: entries sorted by key, one per key ([BTreeMap]). *)
Fixpoint jput (key : str) (v : Json) (fields : list (str * Json)) : list (str * Json) :=
  match fields with
  | [] => [(key, v)]
  | (k, w) :: rest =>
      if bool_decide (k = key) then (key, v) :: rest
      else if bytes_lt key k then (key, v) :: fields
      else (k, w) :: jput key v rest
  end.
(** [json!({..})]: the entries inserted in the order written. *)
Definition jobj (entries : list (str * Json)) : Json :=
  JObj (foldl (fun fields '(k, v) => jput k v fields) [] entries).

Definition is_null (v : Json) : bool := match v with JNull => true | _ => false end.
Definition as_bool (v : Json) : option bool := match v with JBool b => Some b | _ => None end.
Definition as_str (v : Json) : option str := match v with JStr s => Some s | _ => None end.
Definition as_object (v : Json) : option (list (str * Json)) :=
  match v with JObj fields => Some fields | _ => None end.
(** [as_u64] and [as_i64]: integers of the type's range. *)
Definition as_u64 (v : Json) : option Z := match v with JNum (JPos n) => Some n | _ => None end.
Definition as_i64 (v : Json) : option Z :=
  match v with
  | JNum (JPos n) => if n <=? i64_max then Some n else None
  | JNum (JNeg n) => Some n
  | _ => None
  end.

(** [Number::to_string]. *)
Definition number_text (n : JNumber) : str :=
  match n with JPos z => show_dec z | JNeg z => show_signed z | JFloat t => t end.

(** Reading back a field put. *)
Lemma jget_jput k key v fields : jget k (JObj (jput key v fields)) = if bool_decide (key = k) then Some v else jget k (JObj fields).
Proof.
  cbn. induction fields as [|[k' w] fields IH]; cbn.
  - case_bool_decide; reflexivity.
  - destruct (bool_decide_reflect (k' = key)) as [->|Hk]; [cbn; case_bool_decide; reflexivity|].
    destruct (bytes_lt key k'); cbn; [destruct (bool_decide (key = k)); reflexivity|].
    destruct (bool_decide_reflect (k' = k)) as [->|]; [rewrite bool_decide_eq_false_2 by congruence; reflexivity | exact IH].
Qed.
