(* ===== verification/Wire.v ===== *)
(** The wallet's wire vocabulary ([crates/tinywallet-bus/src/wire/wallet.rs] and
    [mod.rs], [crates/tinywallet-web3/src/crypto/wallet/types.rs]): chains,
    networks, prepared transactions, what is handed to a signer and what it
    answers.  The JSON spelling is serde's and is not modelled. *)

From stdpp Require Import base list strings numbers.
From S2P Require Import Prelude Text Chain.

(** * Chains and networks *)

Inductive WalletChain := WEvm | WBtc | WSolana | WTron.
#[export] Instance WalletChain_eq_dec : EqDecision WalletChain.
Proof. solve_decision. Defined.

Definition WalletChain_ALL : list WalletChain := [WEvm; WBtc; WSolana; WTron].

Definition WalletChain_as_str (c : WalletChain) : str :=
  match c with WEvm => lit "evm" | WBtc => lit "btc" | WSolana => lit "solana" | WTron => lit "tron" end.

Definition to_chain (c : WalletChain) : Chain :=
  match c with WEvm => Evm | WBtc => Btc | WSolana => Solana | WTron => Tron end.

Inductive EvmNetwork :=
  | EthereumMainnet | BaseMainnet | ArbitrumOne | OptimismMainnet | PolygonMainnet | BscMainnet.
#[export] Instance EvmNetwork_eq_dec : EqDecision EvmNetwork.
Proof. solve_decision. Defined.

Definition EvmNetwork_ALL : list EvmNetwork :=
  [EthereumMainnet; BaseMainnet; ArbitrumOne; OptimismMainnet; PolygonMainnet; BscMainnet].

Definition EvmNetwork_as_str (n : EvmNetwork) : str :=
  match n with
  | EthereumMainnet => lit "ethereum_mainnet"
  | BaseMainnet => lit "base_mainnet"
  | ArbitrumOne => lit "arbitrum_one"
  | OptimismMainnet => lit "optimism_mainnet"
  | PolygonMainnet => lit "polygon_mainnet"
  | BscMainnet => lit "bsc_mainnet"
  end.

Definition EvmNetwork_chain_id (n : EvmNetwork) : Z :=
  match n with
  | EthereumMainnet => 1
  | BaseMainnet => 8453
  | ArbitrumOne => 42161
  | OptimismMainnet => 10
  | PolygonMainnet => 137
  | BscMainnet => 56
  end.

Inductive SolanaCluster := ClusterMainnet | ClusterDevnet.
#[export] Instance SolanaCluster_eq_dec : EqDecision SolanaCluster.
Proof. solve_decision. Defined.

Inductive RpcSource := SourceDefault | SourceEnvOverride.

(** * Accounts *)

Record WalletAccount := mkWalletAccount {
  wa_chain : WalletChain;
  wa_address : str;
  derivation_path : str
}.

Inductive WalletSetupSource := Generated | Imported.

Record WalletStatus := mkWalletStatus {
  configured : bool;
  onboarding_completed : bool;
  consent_granted : bool;
  secret_stored : bool;
  source : option WalletSetupSource;
  mnemonic_word_count : option Z;
  accounts : list WalletAccount;
  updated_at_ms : option Z
}.

(** * Assets and prepared transactions *)

Record WalletAssetDefinition := mkAssetDefinition {
  ad_chain : WalletChain;
  ad_evm_network : option EvmNetwork;
  ad_symbol : str;
  ad_name : str;
  ad_native : bool;
  ad_decimals : Z;
  ad_contract_address : option str
}.

Inductive PreparedKind := NativeTransferKind | TokenTransferKind.
#[export] Instance PreparedKind_eq_dec : EqDecision PreparedKind.
Proof. solve_decision. Defined.

Inductive PreparedStatus := AwaitingConfirmation | Broadcasted | Consumed.
#[export] Instance PreparedStatus_eq_dec : EqDecision PreparedStatus.
Proof. solve_decision. Defined.

Record PreparedTransaction := mkPrepared {
  pt_quote_id : str;
  pt_kind : PreparedKind;
  pt_chain : WalletChain;
  pt_evm_network : option EvmNetwork;
  from_address : str;
  to_address : str;
  pt_asset_symbol : str;
  pt_amount_raw : str;
  amount_formatted : str;
  receive_symbol : option str;
  min_receive_raw : option str;
  calldata : option str;
  token_address : option str;
  pt_estimated_fee_raw : str;
  pt_status : PreparedStatus;
  created_at_ms : Z;
  pt_expires_at_ms : Z;
  notes : list str
}.

Record PrepareTransferParams := mkPrepareParams {
  pp_chain : WalletChain;
  pp_to_address : str;
  pp_amount_raw : str;
  pp_asset_symbol : option str;
  pp_evm_network : option EvmNetwork
}.

Record ExecutePreparedParams := mkExecuteParams { ep_quote_id : str; ep_confirmed : bool }.

Record ExecutionResult := mkExecutionResult {
  er_quote_id : str;
  er_status : PreparedStatus;
  er_chain : WalletChain;
  er_evm_network : option EvmNetwork;
  er_transaction_hash : str;
  er_explorer_url : option str;
  er_transaction : PreparedTransaction
}.

Record RawBroadcastResult := mkBroadcastResult {
  rb_transaction_hash : str;
  rb_explorer_url : option str;
  rb_fee_raw : option str
}.

(** * What the wallet reads back *)

Inductive ProviderStatus := ProviderReady | ProviderMissing.
#[export] Instance ProviderStatus_eq_dec : EqDecision ProviderStatus.
Proof. solve_decision. Defined.

Record ChainStatus := mkChainStatus {
  cs_chain : WalletChain;
  cs_evm_network : option EvmNetwork;
  cs_configured : bool;
  cs_provider_status : ProviderStatus;
  cs_rpc_url : str;
  cs_error : option str
}.

Record SupportedAsset := mkSupported {
  sa_chain : WalletChain;
  sa_evm_network : option EvmNetwork;
  sa_symbol : str;
  sa_name : str;
  sa_native : bool;
  sa_decimals : Z;
  sa_contract_address : option str
}.

Record BalanceInfo := mkBalance {
  bi_chain : WalletChain;
  bi_evm_network : option EvmNetwork;
  bi_address : str;
  bi_asset_symbol : str;
  bi_decimals : Z;
  bi_raw : str;
  bi_formatted : str;
  bi_provider_status : ProviderStatus
}.

Record WalletNetworkDefaults := mkDefaults {
  nd_chain : WalletChain;
  nd_evm_network : option EvmNetwork;
  nd_network : str;
  nd_chain_id : option Z;
  nd_rpc_url : str;
  nd_rpc_source : RpcSource;
  nd_explorer_tx_url_base : str;
  nd_explorer_tx_url_suffix : option str;
  nd_supports_broadcast : bool;
  nd_supports_token_transfers : bool;
  nd_supports_contract_calls : bool;
  nd_assets : list WalletAssetDefinition
}.

Inductive TxState := TxPending | TxConfirmed | TxFailed | TxNotFound.
#[export] Instance TxState_eq_dec : EqDecision TxState.
Proof. solve_decision. Defined.

Record TxStatusInfo := mkTxStatus {
  ts_chain : WalletChain;
  ts_evm_network : option EvmNetwork;
  ts_hash : str;
  ts_state : TxState;
  confirmations : option Z;
  ts_block_number : option Z
}.

(** * Signing *)

Inductive Scheme := Secp256k1Prehash | SchemeEd25519.
#[export] Instance Scheme_eq_dec : EqDecision Scheme.
Proof. solve_decision. Defined.

Inductive Signature :=
  | SigSecp256k1 (rs_hex : str) (recovery_id : Z)
  | SigEd25519 (signature_hex : str).

Record WireUtxo := mkWireUtxo { wu_txid : str; wu_vout : Z; wu_value : Z }.

Inductive TransactionSpec :=
  | SpecBtc (from to : str) (amount_sat fee_sat : Z) (utxos : list WireUtxo)
  | SpecEvm (to value_wei data_hex : str) (nonce gas_limit : Z) (gas_price_wei : str) (chain_id : Z)
  | SpecSolana (from to : str) (lamports : Z) (recent_blockhash : str)
  | SpecTron (raw_data_hex expected_to expected_txid : str) (transfer : TronTransfer).

Definition spec_chain (s : TransactionSpec) : Chain :=
  match s with
  | SpecBtc _ _ _ _ _ => Btc
  | SpecEvm _ _ _ _ _ _ _ => Evm
  | SpecSolana _ _ _ _ => Solana
  | SpecTron _ _ _ _ => Tron
  end.

Record SignedTransaction := mkSigned { raw : str; txid : option str }.

Record PublicKey := mkPublicKey { key_hex : str }.
Record DerivedAccount := mkDerived { da_address : str; da_public_key : PublicKey }.

(** The confidential half. *)
Record SecretMaterial := mkSecret { mnemonic : str; secret_path : str; sm_chain : Chain }.

Record SigningPayload := mkPayloadHex { bytes_hex : str; scheme : Scheme }.
Record SigningRequest := mkSigningRequest { sr_transaction : TransactionSpec; sr_public_key : PublicKey }.
Record AttachRequest := mkAttachRequest { ar_transaction : TransactionSpec; ar_public_key : PublicKey; signatures : list Signature }.
Record UnsignedTransaction := mkUnsigned { payloads : list SigningPayload }.
Record SignRequest := mkSignRequest { sg_secret : SecretMaterial; sg_transaction : TransactionSpec }.
Record ExportedKey := mkExported { secret_key_hex : str; ek_address : str }.
Record SignMessageRequest := mkSignMessage { mm_secret : SecretMaterial; message_hex : str; mm_scheme : Scheme }.

(** An approval asked of the host ([wire/host.rs]). *)
Record AuthorizationResult := mkDecision { approved : bool; reason : option str }.

(** Construction. *)
Inductive EvmIntent :=
  | IntentNative (to amount_wei : str)
  | IntentErc20 (token to amount_raw : str)
  | IntentCall (to value_wei data_hex : str).

Record EvmConstructionRequest := mkConstruction {
  cr_public_key : PublicKey;
  cr_chain_id : Z;
  cr_nonce : Z;
  cr_gas_limit : Z;
  cr_gas_price_wei : str;
  intent : EvmIntent
}.

Record EvmApprovalFacts := mkFacts {
  af_sender : str;
  af_chain_id : Z;
  af_nonce : Z;
  af_gas_limit : Z;
  af_gas_price_wei : str;
  max_fee_wei : str;
  max_native_debit_wei : str;
  native_value_wei : str;
  af_recipient : str;
  token_contract : option str;
  token_amount_raw : option str;
  calldata_hex : str
}.

Record ConstructedEvmTransaction := mkConstructed {
  ce_transaction : TransactionSpec;
  ce_unsigned : UnsignedTransaction;
  approval : EvmApprovalFacts
}.

Definition MAX_CONSTRUCTION_BYTES : Z := 65536.
Definition MAX_CALLDATA_BYTES : nat := Z.to_nat 16384.
