(* ===== verification/Quotes.v ===== *)
(** Prepared quotes and the confirm-then-execute flow
    ([crates/tinywallet-web3/src/quote/], [crypto/service/execute.rs] and
    [crypto/execution/broadcast.rs]).

    The store is generic in the quote type, as in the code: the trait [Quoted]
    is a class with laws.  Every method takes the lock, so each is one step;
    signing and broadcasting happen between two of them.  Shown here: taking and
    reading a quote on every branch, with no difference between a missing and a
    foreign quote; the store's bound; and that however preparations and
    executions interleave, a quote is in one place only: stored, being
    executed, or executed, so no quote is ever executed twice. *)

From stdpp Require Import base list sets strings numbers relations.
From S2P Require Import Prelude Text Chain Json Wire.

(** * Quotes *)

(** [tinywallet_bus::wire::QuoteOwner]. *)
Record QuoteOwner := mkOwner { thread_id : str; client_id : str }.
#[export] Instance QuoteOwner_eq_dec : EqDecision QuoteOwner.
Proof. solve_decision. Defined.

(** The trait. *)
Class Quoted (T : Type) := {
  quote_id : T -> str;
  quote_owner : T -> option QuoteOwner;
  expires_at_ms : T -> Z;
  set_expires_at_ms : T -> Z -> T;
  is_consumed : T -> bool
}.

Class QuotedLaws (T : Type) `{Quoted T} : Prop := {
  set_expires_id q e : quote_id (set_expires_at_ms q e) = quote_id q;
  set_expires_owner q e : quote_owner (set_expires_at_ms q e) = quote_owner q;
  set_expires_expires q e : expires_at_ms (set_expires_at_ms q e) = e;
  set_expires_consumed q e : is_consumed (set_expires_at_ms q e) = is_consumed q
}.

(** * The store *)

Record QuoteStore (T : Type) := mkStore {
  prefix : str;
  ttl_ms : Z;
  cap : Z;
  counter : Z;
  quotes : list T
}.
Arguments mkStore {T}.
Arguments prefix {T}.
Arguments ttl_ms {T}.
Arguments cap {T}.
Arguments counter {T}.
Arguments quotes {T}.

Definition with_quotes {T} (s : QuoteStore T) (qs : list T) : QuoteStore T :=
  mkStore (prefix s) (ttl_ms s) (cap s) (counter s) qs.

Definition QuoteStore_new {T} (prefix : str) (ttl_ms cap : Z) : QuoteStore T := mkStore prefix ttl_ms cap 1 [].

Definition quote_name (prefix : str) (now n : Z) : str :=
  prefix ++ lit "_" ++ show_dec now ++ lit "_" ++ show_dec n.

(** [fetch_add] wraps around. *)
Definition next_id {T} (s : QuoteStore T) (now : Z) : str * QuoteStore T :=
  (quote_name (prefix s) now (counter s),
   mkStore (prefix s) (ttl_ms s) (cap s) ((counter s + 1) mod 2 ^ 64) (quotes s)).

Section Store.
Context {T : Type} `{Quoted T}.

Definition is_live (now : Z) (q : T) : bool := (now <? expires_at_ms q) && negb (is_consumed q).

(** [store.remove(0)] panics when there is nothing to remove. *)
Definition insert (s : QuoteStore T) (q : T) (now : Z) : res unit (QuoteStore T) :=
  let kept := filter (is_live now) (quotes s) in
  if cap s <=? Z.of_nat (length kept)
  then match kept with
       | [] => Panic
       | _ :: rest => Ok (with_quotes s (rest ++ [q]))
       end
  else Ok (with_quotes s (kept ++ [q])).

(** The clock is read for the new lifetime, and again by [insert]. *)
Definition restore (s : QuoteStore T) (q : T) (now now' : Z) : res unit (QuoteStore T) :=
  insert s (set_expires_at_ms q (sat_add u64_max now (ttl_ms s))) now'.

Definition not_found (id : str) : str := lit "quote '" ++ id ++ lit "' not found".
Definition already_executed (id : str) : str := lit "quote '" ++ id ++ lit "' already executed".
Definition expired (id : str) : str := lit "quote '" ++ id ++ lit "' expired".

Definition has_id (id : str) (q : T) : bool := bool_decide (quote_id q = id).

(** [take_for]: the store afterwards, and the quote or the error. *)
Definition take_for (s : QuoteStore T) (id : str) (caller : option QuoteOwner) (now : Z)
  : QuoteStore T * res str T :=
  match position (has_id id) (quotes s) with
  | None => (s, Err (not_found id))
  | Some pos =>
    match quotes s !! pos with
    | None => (s, Panic)
    | Some quote =>
      if negb (bool_decide (quote_owner quote = caller)) then (s, Err (not_found id))
      else
        let s := with_quotes s (delete pos (quotes s)) in
        if is_consumed quote then (s, Err (already_executed id))
        else if expires_at_ms quote <=? now then (s, Err (expired id))
        else (s, Ok quote)
    end
  end.

Definition get_for (s : QuoteStore T) (id : str) (caller : option QuoteOwner) (now : Z) : res str T :=
  quote ← ok_or (find_first (has_id id) (quotes s)) (not_found id);
  if negb (bool_decide (quote_owner quote = caller)) then Err (not_found id)
  else if is_consumed quote then Err (already_executed id)
  else if expires_at_ms quote <=? now then Err (expired id)
  else Ok quote.

Definition live (s : QuoteStore T) (now : Z) : list T := filter (is_live now) (quotes s).

Definition store_len (s : QuoteStore T) : nat := length (quotes s).
Definition is_empty (s : QuoteStore T) : bool := bool_decide (quotes s = []).

(** * Confirm, then execute *)

(** The first half of [execute_quote] and [execute_prepared], whose refusals
    differ in one word: the quote leaves the store before anything is signed. *)
Definition execute_begin (refusal : str) (s : QuoteStore T) (id : str) (confirmed : bool)
    (caller : option QuoteOwner) (now : Z) : QuoteStore T * res str T :=
  if negb confirmed then (s, Err refusal) else take_for s id caller now.

(** The second half: an outcome of signing and broadcasting, and the quote put
    back when it failed. *)
Definition execute_finish {A} (s : QuoteStore T) (quote : T) (outcome : res str A) (now now' : Z)
  : QuoteStore T * res str A :=
  match outcome with
  | Ok a => (s, Ok a)
  | Err error =>
      match restore s quote now now' with
      | Ok s => (s, Err error)
      | _ => (s, Panic)
      end
  | Panic => (s, Panic)
  end.
End Store.

(** * The swap, bridge and dapp flows' quotes *)

Inductive UnsignedTx :=
  | UEvm (network : EvmNetwork) (to : str) (data : option str) (value : str)
  | USolana (tx_blob_hex : str).

Inductive Web3QuoteKind := Swap | Bridge | DappCall.

Record StoredQuote := mkQuote {
  sq_quote_id : str;
  sq_kind : Web3QuoteKind;
  sq_unsigned : UnsignedTx;
  sq_summary : Json;
  sq_owner : option QuoteOwner;
  sq_expires_at_ms : Z
}.

#[export] Instance StoredQuote_quoted : Quoted StoredQuote := {
  quote_id := sq_quote_id;
  quote_owner := sq_owner;
  expires_at_ms := sq_expires_at_ms;
  set_expires_at_ms q e :=
    mkQuote (sq_quote_id q) (sq_kind q) (sq_unsigned q) (sq_summary q) (sq_owner q) e;
  is_consumed _ := false
}.
#[export] Instance StoredQuote_laws : QuotedLaws StoredQuote.
Proof. split; reflexivity. Qed.

(** * Facts *)

Section Facts.
Context {T : Type} `{QuotedLaws T}.

Definition ids (qs : list T) : list str := quote_id <$> qs.

Lemma insert_ok s q now s' :
  insert s q now = Ok s' ->
  exists kept, kept `sublist_of` quotes s /\ s' = with_quotes s (kept ++ [q]).
Proof.
  unfold insert. destruct (cap s <=? _).
  - destruct (filter (is_live now) (quotes s)) as [|x rest] eqn:E; [discriminate|]. intros [= <-].
    exists rest. split; [|reflexivity]. etransitivity; [apply (sublist_cons x); reflexivity|].
    rewrite <- E. apply (sublist_filter (is_live now)).
  - intros [= <-]. eexists. split; [apply (sublist_filter (is_live now)) | reflexivity].
Qed.

Lemma insert_no_panic s q now : 0 < cap s -> insert s q now <> Panic.
Proof.
  intros Hc. unfold insert. destruct (Z.leb_spec (cap s) (Z.of_nat (length (filter (is_live now) (quotes s))))); [|discriminate].
  destruct (filter _ _); [cbn in *; lia | discriminate].
Qed.

Lemma take_for_ok s id caller now s' q :
  take_for s id caller now = (s', Ok q) ->
  exists i, quotes s !! i = Some q /\ s' = with_quotes s (delete i (quotes s)) /\ quote_id q = id.
Proof.
  unfold take_for. destruct (position (has_id id) (quotes s)) as [i|] eqn:E; [|discriminate].
  apply position_spec in E as (x & Hx & Hp & _). rewrite Hx. unfold has_id in Hp. apply bool_decide_eq_true in Hp.
  destruct (negb _); [discriminate|]. destruct (is_consumed x); [discriminate|].
  destruct (expires_at_ms x <=? now); [discriminate|]. intros [= <- <-]. exists i. auto.
Qed.

Lemma take_for_store s id caller now s' r :
  take_for s id caller now = (s', r) ->
  s' = s \/ exists i, s' = with_quotes s (delete i (quotes s)).
Proof.
  unfold take_for. destruct (position _ _) as [i|]; [|intros [= <- _]; auto].
  destruct (quotes s !! i); [|intros [= <- _]; auto].
  destruct (negb _); [intros [= <- _]; auto|]. right. exists i.
  destruct (is_consumed t); [congruence|]. destruct (_ <=? now); congruence.
Qed.

Lemma show_dec_no_sep n : is_u64 n -> 95 ∉ show_dec n.
Proof.
  intros Hn Hin. assert (Hn' : is_u128 n) by (unfold is_u64, is_u128, u64_max, u128_max in *; lia).
  pose proof (show_dec_digits n Hn') as Hd. rewrite list.Forall_forall in Hd. apply Hd in Hin. lia.
Qed.

(** The counter tells ids apart, whatever the clock says. *)
Lemma quote_name_inj p p' now now' n n' :
  is_u64 n -> is_u64 n' -> quote_name p now n = quote_name p' now' n' -> n = n'.
Proof.
  intros Hn Hn' E. unfold quote_name in E. rewrite !app_assoc in E.
  rewrite <- !(app_assoc _ (lit "_") (show_dec n)), <- !(app_assoc _ (lit "_") (show_dec n')) in E.
  apply (split_last_sep 95) in E as [_ E]; [| apply show_dec_no_sep, Hn | apply show_dec_no_sep, Hn'].
  apply show_dec_inj; [| | exact E]; unfold is_u64, is_u128, u64_max, u128_max in *; lia.
Qed.

(** * Interleaved preparations and executions *)

(** Ids drawn for quotes not stored yet, quotes being executed, ids executed. *)
Record Flow := mkFlow { fl_store : QuoteStore T; fl_drawn : list str; fl_running : list T; fl_done : list str }.

Inductive flow_step : Flow -> Flow -> Prop :=
  | flow_draw f now id s :
      counter (fl_store f) < u64_max -> next_id (fl_store f) now = (id, s) ->
      flow_step f (mkFlow s (id :: fl_drawn f) (fl_running f) (fl_done f))
  | flow_store f i q now s :
      fl_drawn f !! i = Some (quote_id q) -> insert (fl_store f) q now = Ok s ->
      flow_step f (mkFlow s (delete i (fl_drawn f)) (fl_running f) (fl_done f))
  | flow_begin f refusal id confirmed caller now s q :
      execute_begin refusal (fl_store f) id confirmed caller now = (s, Ok q) ->
      flow_step f (mkFlow s (fl_drawn f) (q :: fl_running f) (fl_done f))
  | flow_refused f refusal id confirmed caller now s e :
      execute_begin refusal (fl_store f) id confirmed caller now = (s, Err e) ->
      flow_step f (mkFlow s (fl_drawn f) (fl_running f) (fl_done f))
  | flow_executed f i q (outcome : res str unit) now now' s a :
      fl_running f !! i = Some q -> execute_finish (fl_store f) q outcome now now' = (s, Ok a) ->
      flow_step f (mkFlow s (fl_drawn f) (delete i (fl_running f)) (quote_id q :: fl_done f))
  | flow_failed f i q (outcome : res str unit) now now' s e :
      fl_running f !! i = Some q -> execute_finish (fl_store f) q outcome now now' = (s, Err e) ->
      flow_step f (mkFlow s (fl_drawn f) (delete i (fl_running f)) (fl_done f)).

(** Every id there is, with its multiplicity. *)
Definition all_ids (f : Flow) : list str :=
  fl_drawn f ++ ids (quotes (fl_store f)) ++ ids (fl_running f) ++ fl_done f.

Definition drawn_before (n : Z) (id : str) : Prop :=
  exists p now k, id = quote_name p now k /\ 0 <= k < n.

Definition flow_inv (f : Flow) : Prop :=
  NoDup (all_ids f) /\ Forall (drawn_before (counter (fl_store f))) (all_ids f) /\
  0 <= counter (fl_store f) <= u64_max.

(** Moving ids around, and losing some, keeps the invariant. *)
Lemma flow_inv_sub f f' :
  counter (fl_store f') = counter (fl_store f) -> all_ids f' ⊆+ all_ids f -> flow_inv f -> flow_inv f'.
Proof.
  intros Ec Hsub (Hn & Hd & Hc). unfold flow_inv. rewrite Ec. split_and!; try apply Hc.
  - apply submseteq_sublist_r in Hsub as (l & Hp & Hs). rewrite Hp in *. eapply sublist_NoDup; eauto.
  - apply list.Forall_forall. intros id Hid. rewrite list.Forall_forall in Hd. apply Hd.
    eapply elem_of_submseteq; eauto.
Qed.

Lemma ids_delete (qs : list T) i q : qs !! i = Some q -> ids qs ≡ₚ quote_id q :: ids (delete i qs).
Proof. intros Hi. unfold ids. rewrite <- fmap_cons. apply fmap_Permutation, delete_Permutation, Hi. Qed.

Lemma finish_ok {A} s q (outcome : res str A) now now' s' a :
  execute_finish s q outcome now now' = (s', Ok a) -> s' = s.
Proof.
  unfold execute_finish. destruct outcome; [intros [= <- _]; reflexivity | | discriminate].
  destruct (restore s q now now'); discriminate.
Qed.

Lemma finish_err {A} s q (outcome : res str A) now now' s' e :
  execute_finish s q outcome now now' = (s', Err e) -> restore s q now now' = Ok s'.
Proof.
  unfold execute_finish. destruct outcome; [discriminate | | discriminate].
  destruct (restore s q now now'); [intros [= <- _]; reflexivity | discriminate | discriminate].
Qed.

Lemma begin_ok refusal s id confirmed caller now s' q :
  execute_begin refusal s id confirmed caller now = (s', Ok q) -> take_for s id caller now = (s', Ok q).
Proof. unfold execute_begin. destruct (negb confirmed); [discriminate | auto]. Qed.

Lemma begin_store refusal s id confirmed caller now s' r :
  execute_begin refusal s id confirmed caller now = (s', r) ->
  s' = s \/ exists i, s' = with_quotes s (delete i (quotes s)).
Proof.
  unfold execute_begin. destruct (negb confirmed); [intros [= <- _]; auto | apply take_for_store].
Qed.

(** Drawing a fresh id. *)
Lemma flow_draw_inv f now id s :
  counter (fl_store f) < u64_max -> next_id (fl_store f) now = (id, s) -> flow_inv f ->
  flow_inv (mkFlow s (id :: fl_drawn f) (fl_running f) (fl_done f)).
Proof.
  intros Hlt [= <- <-] (Hn & Hd & Hc). unfold flow_inv, all_ids. cbn.
  rewrite Z.mod_small by (unfold u64_max in *; lia). split_and!; try lia.
  - constructor; [|exact Hn]. intros Hin. rewrite list.Forall_forall in Hd.
    destruct (Hd _ Hin) as (p & now' & k & E & Hk).
    apply quote_name_inj in E; unfold is_u64; lia.
  - constructor; [exists (prefix (fl_store f)), now, (counter (fl_store f)); split; [reflexivity | lia]|].
    eapply list.Forall_impl; [exact Hd|]. intros x (p & now' & k & E & Hk). exists p, now', k. split; [exact E | lia].
Qed.

Lemma ids_sub (qs qs' : list T) : qs `sublist_of` qs' -> ids qs ⊆+ ids qs'.
Proof. intros Hs. apply sublist_submseteq. unfold ids. rewrite Hs. reflexivity. Qed.


(** Moving one id between the lists. *)
Lemma move_to_store (d d' k q r : list str) x :
  d ≡ₚ x :: d' -> k ⊆+ q -> d' ++ (k ++ [x]) ++ r ⊆+ d ++ q ++ r.
Proof.
  intros -> Hk. rewrite <- (Permutation_cons_append k x). cbn [app]. rewrite <- Permutation_middle.
  apply submseteq_skip. do 2 (apply submseteq_app; [assumption || reflexivity | try reflexivity]); exact Hk.
Qed.

Lemma move_to_running (d q q' r n : list str) x :
  q ≡ₚ x :: q' -> d ++ q' ++ (x :: r) ++ n ⊆+ d ++ q ++ r ++ n.
Proof.
  intros ->. apply submseteq_app; [reflexivity|]. cbn [app]. rewrite <- Permutation_middle. reflexivity.
Qed.

Lemma move_to_done (d q r r' n : list str) x :
  r ≡ₚ x :: r' -> d ++ q ++ r' ++ (x :: n) ⊆+ d ++ q ++ r ++ n.
Proof.
  intros ->. do 2 (apply submseteq_app; [reflexivity|]). rewrite <- Permutation_middle. reflexivity.
Qed.

Lemma move_back (d k q r r' n : list str) x :
  r ≡ₚ x :: r' -> k ⊆+ q -> d ++ (k ++ [x]) ++ r' ++ n ⊆+ d ++ q ++ r ++ n.
Proof.
  intros -> Hk. apply submseteq_app; [reflexivity|]. rewrite <- app_assoc.
  apply submseteq_app; [exact Hk | reflexivity].
Qed.

Lemma ids_snoc (qs : list T) q : ids (qs ++ [q]) = ids qs ++ [quote_id q].
Proof. unfold ids. rewrite fmap_app. reflexivity. Qed.

Lemma flow_step_inv f f' : flow_step f f' -> flow_inv f -> flow_inv f'.
Proof.
  destruct 1 as [f now id s Hlt Hid | f i q now s Hi Hs | f refusal id confirmed caller now s q Hb
                | f refusal id confirmed caller now s e Hb | f i q outcome now now' s a Hi Hs | f i q outcome now now' s e Hi Hs].
  - apply (flow_draw_inv f now); assumption.
  - apply insert_ok in Hs as (kept & Hk & ->). apply flow_inv_sub; [reflexivity|]. unfold all_ids. cbn.
    rewrite ids_snoc. apply move_to_store; [apply delete_Permutation, Hi | apply ids_sub, Hk].
  - apply begin_ok, take_for_ok in Hb as (i & Hi & -> & _). apply flow_inv_sub; [reflexivity|].
    apply move_to_running, ids_delete, Hi.
  - apply begin_store in Hb as [-> | [i ->]]; (apply flow_inv_sub; [reflexivity|]); unfold all_ids; cbn; [reflexivity|].
    apply submseteq_app; [reflexivity|]. apply submseteq_app; [|reflexivity]. apply ids_sub, sublist_delete.
  - apply finish_ok in Hs as ->. apply flow_inv_sub; [reflexivity|]. apply move_to_done, ids_delete, Hi.
  - apply finish_err in Hs. apply insert_ok in Hs as (kept & Hk & ->). apply flow_inv_sub; [reflexivity|].
    unfold all_ids. cbn. rewrite ids_snoc, set_expires_id.
    apply move_back; [apply ids_delete, Hi | apply ids_sub, Hk].
Qed.
(** Taking answers what reading answers. *)
Lemma take_for_get_for s id caller now : (take_for s id caller now).2 = get_for s id caller now.
Proof.
  pose proof (position_find (has_id id) (quotes s)) as Hpos. unfold take_for, get_for.
  destruct (position (has_id id) (quotes s)) as [i|] eqn:E; [|rewrite Hpos; reflexivity].
  destruct Hpos as (q & Hq & Hf). rewrite Hf, Hq. cbn [ok_or mbind res_bind].
  destruct (negb _); [reflexivity|]. destruct (is_consumed q); [reflexivity|]. destruct (_ <=? now); reflexivity.
Qed.

(** ** What an id names *)

(** The same quote, its lifetime possibly renewed. *)
Inductive same_quote (q : T) : T -> Prop :=
  | same_quote_same : same_quote q q
  | same_quote_set q' e : same_quote q q' -> same_quote q (set_expires_at_ms q' e).

Lemma same_quote_id q q' : same_quote q q' -> quote_id q' = quote_id q.
Proof. induction 1 as [|q' e _ IH]; [reflexivity | rewrite set_expires_id; exact IH]. Qed.

Lemma same_quote_owner q q' : same_quote q q' -> quote_owner q' = quote_owner q.
Proof. induction 1 as [|q' e _ IH]; [reflexivity | rewrite set_expires_owner; exact IH]. Qed.

(** Whatever bears the id of [q] is [q]. *)
Definition names (q : T) (f : Flow) : Prop :=
  drawn_before (counter (fl_store f)) (quote_id q) /\ (quote_id q ∉ fl_drawn f) /\
  forall x, (x ∈ quotes (fl_store f) \/ x ∈ fl_running f) -> quote_id x = quote_id q -> same_quote q x.

Lemma get_for_ok s id caller now q :
  get_for s id caller now = Ok q -> q ∈ quotes s /\ quote_id q = id /\ quote_owner q = caller.
Proof.
  unfold get_for. intros E. apply bind_ok in E as (x & Hx & E). apply ok_or_ok, find_first_position in Hx as (i & Hi & Hid & _).
  unfold has_id in Hid. apply bool_decide_eq_true in Hid. destruct (bool_decide_reflect (quote_owner x = caller)); [|discriminate].
  cbn [negb] in E. destruct (is_consumed x); [discriminate|]. destruct (_ <=? now); [discriminate|]. injection E as <-.
  split; [eapply list_elem_of_lookup_2, Hi | auto].
Qed.

Lemma NoDup_ids_eq (l : list T) x y : NoDup (ids l) -> x ∈ l -> y ∈ l -> quote_id x = quote_id y -> x = y.
Proof.
  intros Hn [i Hi]%list_elem_of_lookup [j Hj]%list_elem_of_lookup E.
  assert (i = j) as ->; [|congruence]. apply (proj1 (NoDup_alt (ids l)) Hn i j (quote_id x)).
  - unfold ids. rewrite list_lookup_fmap, Hi. reflexivity.
  - unfold ids. rewrite list_lookup_fmap, Hj, E. reflexivity.
Qed.

Lemma names_start q f : flow_inv f -> q ∈ quotes (fl_store f) -> names q f.
Proof.
  intros (Hn & Hd & _) Hq. unfold all_ids in *.
  assert (Hid : quote_id q ∈ ids (quotes (fl_store f))) by (apply list_elem_of_fmap; eauto).
  apply NoDup_app in Hn as (_ & Hdr & Hn). apply NoDup_app in Hn as (Hs & Hdis & _). split_and!.
  - rewrite list.Forall_forall in Hd. apply Hd. rewrite !elem_of_app. auto.
  - intros Hin. apply (Hdr _ Hin). rewrite elem_of_app. auto.
  - intros x [Hx|Hx] E.
    + rewrite (NoDup_ids_eq _ _ _ Hs Hx Hq E). constructor.
    + destruct (Hdis _ Hid). rewrite elem_of_app. left. apply list_elem_of_fmap. eauto.
Qed.

Lemma delete_in {A} (l : list A) i x : x ∈ delete i l -> x ∈ l.
Proof. intros Hx. eapply elem_of_sublist; [exact Hx | apply sublist_delete]. Qed.

Lemma names_step q f f' : flow_step f f' -> names q f -> names q f'.
Proof.
  intros Hstep (Hb & Hd & Hx). unfold names.
  destruct Hstep as [f now id s Hlt Hid | f i x now s Hi Hs | f refusal id confirmed caller now s x Hbeg
                | f refusal id confirmed caller now s e Hbeg | f i x outcome now now' s a Hi Hs | f i x outcome now now' s e Hi Hs];
    cbn [fl_store fl_drawn fl_running].
  - injection Hid as <- <-. destruct Hb as (p & t & k & E & Hk).
    cbn [counter quotes]. rewrite Z.mod_small by (unfold u64_max in *; lia). split_and!; [|..].
    + exists p, t, k. split; [exact E | lia].
    + intros [E'|Hin]%elem_of_cons; [|exact (Hd Hin)]. rewrite E in E'. apply quote_name_inj in E'; unfold is_u64 in *; lia.
    + exact Hx.
  - apply insert_ok in Hs as (kept & Hk & ->). split_and!; [exact Hb | intros Hin; apply Hd; eapply delete_in, Hin|].
    cbn [with_quotes quotes]. intros y [[Hy|Hy]%elem_of_app|Hy] E.
    + apply Hx; [left; eapply elem_of_sublist; eassumption | exact E].
    + apply list_elem_of_singleton in Hy as ->. destruct Hd. rewrite <- E. eapply list_elem_of_lookup_2, Hi.
    + apply Hx; auto.
  - apply begin_ok, take_for_ok in Hbeg as (i & Hi & -> & _). split_and!; [exact Hb | exact Hd|].
    cbn [with_quotes quotes]. intros y [Hy|[->|Hy]%elem_of_cons] E.
    + apply Hx; [left; eapply delete_in, Hy | exact E].
    + apply Hx; [left; eapply list_elem_of_lookup_2, Hi | exact E].
    + apply Hx; auto.
  - assert (Hsub : forall y, y ∈ quotes s -> y ∈ quotes (fl_store f)).
    { apply begin_store in Hbeg as [-> | [i ->]]; [auto | intros y; apply delete_in]. }
    assert (Hc : counter s = counter (fl_store f)) by (apply begin_store in Hbeg as [-> | [i ->]]; reflexivity).
    rewrite Hc. split_and!; [exact Hb | exact Hd|]. intros y [Hy|Hy] E; apply Hx; auto.
  - apply finish_ok in Hs as ->. split_and!; [exact Hb | exact Hd|]. intros y [Hy|Hy] E; apply Hx; eauto using delete_in.
  - apply finish_err in Hs. apply insert_ok in Hs as (kept & Hk & ->). split_and!; [exact Hb | exact Hd|].
    cbn [with_quotes quotes]. intros y [[Hy|Hy]%elem_of_app|Hy] E.
    + apply Hx; [left; eapply elem_of_sublist; eassumption | exact E].
    + apply list_elem_of_singleton in Hy as ->. rewrite set_expires_id in E. constructor. apply Hx; [right; eapply list_elem_of_lookup_2, Hi | exact E].
    + apply Hx; [right; eapply delete_in, Hy | exact E].
Qed.

Lemma flow_reaches p ttl cap f : rtc flow_step (mkFlow (QuoteStore_new p ttl cap) [] [] []) f -> flow_inv f.
Proof.
  intros Hr. remember (mkFlow _ [] [] []) as f0 eqn:E0. assert (Hi : flow_inv f0).
  { subst. split; [constructor|]. split; [constructor|]. unfold u64_max. cbn. lia. }
  clear E0. induction Hr; eauto using flow_step_inv.
Qed.

Lemma names_steps q f f' : rtc flow_step f f' -> names q f -> names q f'.
Proof. induction 1; eauto using names_step. Qed.
End Facts.

(** * Properties *)

(** C25. No quote is executed twice.  From an empty store, however drawing ids,
    storing, confirming, finishing and failing interleave, every quote id is
    in exactly one place: drawn, stored, being executed or executed.  So an
    executed quote is gone for good, two executions of one quote never run at
    once, and a failed one is stored once, to be retried. *)
Theorem quotes_execute_once {T} `{QuotedLaws T} p ttl cap f :
  rtc flow_step (mkFlow (QuoteStore_new (T := T) p ttl cap) [] [] []) f ->
  NoDup (fl_drawn f ++ ids (quotes (fl_store f)) ++ ids (fl_running f) ++ fl_done f).
Proof.
  intros Hr. apply (flow_reaches p ttl cap f Hr).
Qed.

(** Taking a quote answers exactly what reading it answers, on every branch:
    an unknown id and someone else's quote give the same text and leave the
    store alone, so an id tells nothing to anyone but its owner; the owner's
    call removes the quote, and gets it unless it was executed or expired. *)
Theorem take_for_exact {T} `{Quoted T} (s : QuoteStore T) id caller now :
  (take_for s id caller now).2 = get_for s id caller now /\
  match find_first (has_id id) (quotes s) with
  | None => take_for s id caller now = (s, Err (not_found id))
  | Some q =>
      quote_id q = id /\
      (quote_owner q <> caller -> take_for s id caller now = (s, Err (not_found id))) /\
      (quote_owner q = caller ->
         exists before after, quotes s = before ++ q :: after /\ Forall (fun x => quote_id x <> id) before /\
         take_for s id caller now =
           (with_quotes s (before ++ after),
            if is_consumed q then Err (already_executed id)
            else if expires_at_ms q <=? now then Err (expired id) else Ok q))
  end.
Proof.
  pose proof (position_find (has_id id) (quotes s)) as Hpos. unfold take_for, get_for.
  destruct (position (has_id id) (quotes s)) as [i|] eqn:E.
  2:{ rewrite Hpos. split; reflexivity. }
  destruct Hpos as (q & Hq & Hf). rewrite Hf, Hq. cbn [ok_or mbind res_bind].
  apply position_spec in E as (q' & Hq' & Hp & Hall). rewrite Hq in Hq'. injection Hq' as <-.
  unfold has_id in Hp. apply bool_decide_eq_true in Hp. split.
  - destruct (negb _); [reflexivity|]. destruct (is_consumed q); [reflexivity|]. destruct (_ <=? now); reflexivity.
  - split; [exact Hp|]. split; intros Ho.
    + rewrite bool_decide_eq_false_2 by exact Ho. reflexivity.
    + rewrite bool_decide_eq_true_2 by exact Ho. cbn [negb].
      exists (take i (quotes s)), (drop (S i) (quotes s)). split_and!.
      * symmetry. apply take_drop_middle, Hq.
      * eapply list.Forall_impl; [exact Hall|]. intros x Hx. unfold has_id in Hx. apply bool_decide_eq_false in Hx. exact Hx.
      * rewrite delete_take_drop. destruct (is_consumed q); [reflexivity|]. destruct (_ <=? now); reflexivity.
Qed.

(** The store is bounded and keeps what can still be executed.  With room
    for at least one quote, [insert] never panics and never exceeds the
    capacity; it keeps every live quote in order, the new one last, and gives
    up only the oldest, and only when full. *)
Theorem insert_bounded {T} `{Quoted T} (s : QuoteStore T) q now :
  0 < cap s -> Z.of_nat (length (quotes s)) <= cap s ->
  exists kept, insert s q now = Ok (with_quotes s (kept ++ [q])) /\
    Z.of_nat (length (kept ++ [q])) <= cap s /\
    (Z.of_nat (length (live s now)) < cap s -> kept = live s now) /\
    (cap s <= Z.of_nat (length (live s now)) -> exists oldest, live s now = oldest :: kept).
Proof.
  intros Hc Hl. unfold insert. fold (live s now).
  assert (Hlive : (length (live s now) <= length (quotes s))%nat) by apply length_filter.
  destruct (Z.leb_spec (cap s) (Z.of_nat (length (live s now)))) as [Hfull|Hroom].
  - destruct (live s now) as [|oldest rest] eqn:E; [cbn in Hfull; lia|]. exists rest.
    cbn [length] in *. rewrite length_app. cbn [length]. split_and!; [reflexivity | lia | lia | eauto].
  - exists (live s now). rewrite length_app. cbn [length]. split_and!; [reflexivity | lia | reflexivity | lia].
Qed.

(** A quote id names one quote.  From an empty store, however drawing,
    storing, confirming, finishing and failing interleave: a quote read by its id
    at one moment (as an approval is asked for it) and a quote taken by that id
    at any later moment (as it is executed) are the same, but for a lifetime
    same_quote by a failed execution, and only their one owner gets either. *)
Theorem quote_id_names_one_quote {T} `{QuotedLaws T} p ttl cap f f' id caller now q caller' now' s' q' :
  rtc flow_step (mkFlow (QuoteStore_new (T := T) p ttl cap) [] [] []) f ->
  get_for (fl_store f) id caller now = Ok q -> rtc flow_step f f' ->
  take_for (fl_store f') id caller' now' = (s', Ok q') ->
  same_quote q q' /\ caller' = caller.
Proof.
  intros Hr Hg Hs Ht. apply get_for_ok in Hg as (Hq & Hid & Ho).
  apply flow_reaches in Hr. apply (names_start q) in Hr as Hn; [|exact Hq].
  apply (names_steps q _ _ Hs) in Hn as (_ & _ & Hx).
  pose proof (take_for_get_for (fl_store f') id caller' now') as Hget. rewrite Ht in Hget. cbn [snd] in Hget.
  symmetry in Hget. apply get_for_ok in Hget as (Hq' & Hid' & Ho').
  assert (Hren : same_quote q q') by (apply Hx; [auto | congruence]).
  split; [exact Hren|]. apply same_quote_owner in Hren. congruence.
Qed.

(** A quote, its execution and its retry. *)
Definition example_quote (id : str) : StoredQuote :=
  mkQuote id DappCall (UEvm BaseMainnet [] None []) JNull None 300000.

Lemma quotes_execute_once_witness :
  exists f : Flow (T := StoredQuote),
    fl_done f = [quote_name (lit "w3") 5 1] /\
    NoDup (fl_drawn f ++ ids (quotes (fl_store f)) ++ ids (fl_running f) ++ fl_done f).
Proof.
  set (id := quote_name (lit "w3") 5 1). set (q := example_quote id).
  set (s0 := QuoteStore_new (T := StoredQuote) (lit "w3") 300000 64).
  set (s1 := mkStore (lit "w3") 300000 64 2 [] : QuoteStore StoredQuote).
  exists (mkFlow s1 [] [] [id]). split; [reflexivity|].
  apply (quotes_execute_once (lit "w3") 300000 64 (mkFlow s1 [] [] [id])).
  eapply rtc_l; [apply (flow_draw (mkFlow s0 [] [] []) 5 id s1); [reflexivity | vm_compute; reflexivity]|].
  eapply rtc_l; [apply (flow_store (mkFlow s1 [id] [] []) 0 q 5 (with_quotes s1 [q])); vm_compute; reflexivity|].
  eapply rtc_l; [apply (flow_begin (mkFlow (with_quotes s1 [q]) [] [] []) [] id true None 6 s1 q); vm_compute; reflexivity|].
  eapply rtc_l; [apply (flow_failed (mkFlow s1 [] [q] []) 0 q (Err []) 0 0 (with_quotes s1 [q]) []); vm_compute; reflexivity|].
  eapply rtc_l; [apply (flow_begin (mkFlow (with_quotes s1 [q]) [] [] []) [] id true None 6 s1 q); vm_compute; reflexivity|].
  eapply rtc_l; [apply (flow_executed (mkFlow s1 [] [q] []) 0 q (Ok tt) 7 7 s1 tt); vm_compute; reflexivity|].
  apply rtc_refl.
Defined.

Lemma insert_bounded_witness :
  exists kept, insert (QuoteStore_new (lit "w3") 300000 64) (example_quote [1]) 5
    = Ok (with_quotes (QuoteStore_new (lit "w3") 300000 64) (kept ++ [example_quote [1]])).
Proof.
  destruct (insert_bounded (QuoteStore_new (lit "w3") 300000 64) (example_quote [1]) 5) as (kept & E & _);
    [cbn; lia | cbn; lia | exists kept; exact E].
Defined.

Lemma take_for_exact_witness :
  (take_for (QuoteStore_new (T := StoredQuote) (lit "w3") 300000 64) [1] None 5).2
  = get_for (QuoteStore_new (lit "w3") 300000 64) [1] None 5.
Proof. apply (take_for_exact (QuoteStore_new (T := StoredQuote) (lit "w3") 300000 64) [1] None 5). Defined.

(** A quote read, then taken after another was drawn and stored. *)
Lemma quote_id_names_one_quote_witness :
  exists (f f' : Flow (T := StoredQuote)) q q' s',
    get_for (fl_store f) (quote_name (lit "w3") 5 1) None 5 = Ok q /\
    take_for (fl_store f') (quote_name (lit "w3") 5 1) None 8 = (s', Ok q') /\ same_quote q q'.
Proof.
  set (id := quote_name (lit "w3") 5 1). set (q := example_quote id).
  set (s0 := QuoteStore_new (T := StoredQuote) (lit "w3") 300000 64).
  set (s1 := mkStore (lit "w3") 300000 64 2 [] : QuoteStore StoredQuote).
  set (s2 := mkStore (lit "w3") 300000 64 2 [q] : QuoteStore StoredQuote).
  set (s3 := mkStore (lit "w3") 300000 64 3 [q] : QuoteStore StoredQuote).
  exists (mkFlow s2 [] [] []), (mkFlow s3 [quote_name (lit "w3") 7 2] [] []), q, q, (mkStore (lit "w3") 300000 64 3 [] : QuoteStore StoredQuote).
  split; [vm_compute; reflexivity|]. split; [vm_compute; reflexivity|].
  refine (proj1 (quote_id_names_one_quote (lit "w3") 300000 64 (mkFlow s2 [] [] []) (mkFlow s3 [quote_name (lit "w3") 7 2] [] [])
    id None 5 q None 8 (mkStore (lit "w3") 300000 64 3 []) q _ _ _ _)).
  - eapply rtc_l; [apply (flow_draw (mkFlow s0 [] [] []) 5 id s1); [reflexivity | vm_compute; reflexivity]|].
    eapply rtc_l; [apply (flow_store (mkFlow s1 [id] [] []) 0 q 6 s2); vm_compute; reflexivity|]. reflexivity.
  - vm_compute; reflexivity.
  - eapply rtc_l; [|reflexivity]. apply (flow_draw (mkFlow s2 [] [] []) 7 (quote_name (lit "w3") 7 2) s3); [reflexivity | vm_compute; reflexivity].
  - vm_compute; reflexivity.
Defined.
