(* ===== verification/X402Wire.v ===== *)
(** What an x402 server asks for, and which of its options is paid
    ([crates/tinywallet-x402/src/wire/], [protocol/select.rs] and
    [protocol/error.rs]).

    The server names the network, the asset and the amount; the client pays only
    USDC on five networks.  Shown here: the option [select_requirement] picks,
    or the refusal it gives, on every challenge. *)

From stdpp Require Import base list sets strings numbers.
From S2P Require Import Prelude Text Json.

(** * Wire types *)

Definition X402_VERSION : Z := 2.

Definition SOLANA_MAINNET_CAIP2 : str := lit "solana:5eykt4UsFv8P8NJdTREpY1vzqKqZKvdp".
Definition SOLANA_DEVNET_CAIP2 : str := lit "solana:EtWTRABZaYq6iMfeYKouRu166VU2xqa1".
Definition USDC_MINT_MAINNET : str := lit "EPjFWdd5AufqSSqeM2qN1xzybapC8G4wEGGkZwyTDt1v".
Definition USDC_MINT_DEVNET : str := lit "4zMMC9srt5Ri5X14GAgXhaHii3GnPAEERYPJgZJDncDU".
Definition SPL_TOKEN_PROGRAM : str := lit "TokenkegQfeZyiNwAJbNbGKPFXCWuBvf9Ss623VQ5DA".
Definition SPL_MEMO_PROGRAM : str := lit "MemoSq4gqABAXKb96qnH8TysNcWxMyWCqXgDLGmfcHr".
Definition COMPUTE_BUDGET_PROGRAM : str := lit "ComputeBudget111111111111111111111111111111".
Definition BASE_MAINNET_CAIP2 : str := lit "eip155:8453".
Definition BASE_SEPOLIA_CAIP2 : str := lit "eip155:84532".
Definition ETHEREUM_MAINNET_CAIP2 : str := lit "eip155:1".
Definition USDC_BASE_MAINNET : str := lit "0x833589fCD6eDb6E08f4c7C32D4f71b54bdA02913".
Definition USDC_BASE_SEPOLIA : str := lit "0x036CbD53842c5426634e7929541eC2318f3dCF7e".
Definition USDC_ETHEREUM_MAINNET : str := lit "0xA0b86991c6218b36c1d19D4a2e9Eb0cE3606eB48".

Record ResourceInfo := mkResource {
  res_url : str;
  res_description : option str;
  mime_type : option str
}.

Record PaymentExtra := mkExtra {
  fee_payer : option str;
  memo : option str;
  extra_name : option str;
  extra_version : option str
}.

Record PaymentRequirements := mkReq {
  scheme : str;
  network : str;
  amount : str;
  asset : str;
  pay_to : str;
  max_timeout_seconds : Z;
  extra : option PaymentExtra
}.

Record PaymentRequired := mkChallenge {
  x402_version : Z;
  error : option str;
  resource : ResourceInfo;
  accepts : list PaymentRequirements;
  extensions : list (str * Json)
}.

Record EvmAuthorization := mkAuthorization {
  auth_from : str;
  auth_to : str;
  auth_value : str;
  valid_after : str;
  valid_before : str;
  auth_nonce : str
}.

Inductive PaymentProof :=
  | SolanaProof (transaction : str)
  | EvmProof (signature : str) (authorization : EvmAuthorization).

Record PaymentPayload := mkPayload {
  pp_x402_version : Z;
  pp_resource : option ResourceInfo;
  accepted : PaymentRequirements;
  payload : PaymentProof;
  pp_extensions : list (str * Json)
}.

Inductive PaymentChain := PaySolana | PayEvm.
#[export] Instance PaymentChain_eq_dec : EqDecision PaymentChain.
Proof. solve_decision. Defined.

Definition exact_on (prefix : str) (r : PaymentRequirements) : bool :=
  bool_decide (scheme r = lit "exact") && starts_with (network r) prefix.

Definition solana_exact_requirement (c : PaymentRequired) : option PaymentRequirements :=
  find_first (exact_on (lit "solana:")) (accepts c).

Definition evm_exact_requirement (c : PaymentRequired) : option PaymentRequirements :=
  find_first (exact_on (lit "eip155:")) (accepts c).

Definition best_exact_requirement (c : PaymentRequired) : option (PaymentRequirements * PaymentChain) :=
  match solana_exact_requirement c with
  | Some sol => Some (sol, PaySolana)
  | None => match evm_exact_requirement c with
            | Some evm => Some (evm, PayEvm)
            | None => None
            end
  end.

Definition is_solana_mainnet (r : PaymentRequirements) : bool := bool_decide (network r = SOLANA_MAINNET_CAIP2).
Definition is_base_mainnet (r : PaymentRequirements) : bool := bool_decide (network r = BASE_MAINNET_CAIP2).

Definition evm_chain_id (r : PaymentRequirements) : option Z :=
  s ← strip_prefix (network r) (lit "eip155:");
  match parse_u64 s with Ok n => Some n | _ => None end.

Definition fee_payer_pubkey (r : PaymentRequirements) : option str := e ← extra r; fee_payer e.
Definition memo_value (r : PaymentRequirements) : option str := e ← extra r; memo e.

(** * The allowlist *)

Definition SUPPORTED_USDC : list (str * str) :=
  [(SOLANA_MAINNET_CAIP2, USDC_MINT_MAINNET); (SOLANA_DEVNET_CAIP2, USDC_MINT_DEVNET);
   (BASE_MAINNET_CAIP2, USDC_BASE_MAINNET); (BASE_SEPOLIA_CAIP2, USDC_BASE_SEPOLIA);
   (ETHEREUM_MAINNET_CAIP2, USDC_ETHEREUM_MAINNET)].

Inductive AssetCheck := Allowed | UnknownNetwork | WrongAsset.
#[export] Instance AssetCheck_eq_dec : EqDecision AssetCheck.
Proof. solve_decision. Defined.

Definition check_usdc (network asset : str) : AssetCheck :=
  match find_first (fun '(n, _) => bool_decide (n = network)) SUPPORTED_USDC with
  | None => UnknownNetwork
  | Some (_, usdc) =>
      let same := if starts_with network (lit "eip155:") then eq_ignore_case usdc asset
                  else bool_decide (usdc = asset) in
      if same then Allowed else WrongAsset
  end.

(** * Errors *)

(** [Transport] carries the HTTP client's error: its text. *)
Inductive X402Error :=
  | Transport (e : str)
  | NoPaymentHeader
  | NoPaymentOption
  | AmountExceedsCap (requested cap : Z)
  | BudgetExceeded (period : str) (current cap : Z)
  | UnsupportedNetwork (network : str)
  | UnsupportedAsset (network asset : str)
  | NonReplayableBody
  | Protocol (e : str)
  | Wallet (e : str).
#[export] Instance X402Error_eq_dec : EqDecision X402Error.
Proof. solve_decision. Defined.

(** [Display]. *)
Definition X402Error_text (e : X402Error) : str :=
  match e with
  | Transport e => lit "x402 transport: " ++ e
  | NoPaymentHeader => lit "402 response missing PAYMENT-REQUIRED header"
  | NoPaymentOption => lit "no supported payment option (Solana exact or EVM exact) in 402 challenge"
  | AmountExceedsCap requested cap =>
      lit "x402 amount " ++ show_dec requested ++ lit " exceeds per-request cap " ++ show_dec cap
  | BudgetExceeded period current cap =>
      lit "x402 " ++ period ++ lit " budget exceeded: " ++ show_dec current ++ lit "/" ++ show_dec cap
      ++ lit " atomic units"
  | UnsupportedNetwork network =>
      lit "x402 network " ++ network
      ++ lit " is not supported; payments are accepted only in USDC on known networks"
  | UnsupportedAsset network asset =>
      lit "x402 asset " ++ asset ++ lit " is not the USDC accepted on " ++ network
  | NonReplayableBody => lit "x402 request body cannot be replayed for the paid retry; use a buffered body"
  | Protocol e => lit "x402 protocol: " ++ e
  | Wallet e => lit "x402 wallet: " ++ e
  end.

(** * Selection *)

Definition chain_of (network : str) : option PaymentChain :=
  if starts_with network (lit "solana:") then Some PaySolana
  else if starts_with network (lit "eip155:") then Some PayEvm
  else None.

Definition ensure_payable (r : PaymentRequirements) : res X402Error unit :=
  match check_usdc (network r) (asset r) with
  | Allowed => Ok tt
  | UnknownNetwork => Err (UnsupportedNetwork (network r))
  | WrongAsset => Err (UnsupportedAsset (network r) (asset r))
  end.

(** [chain_of(..).filter(|_| scheme == "exact")]. *)
Definition exact_chain (r : PaymentRequirements) : option PaymentChain :=
  chain ← chain_of (network r);
  if bool_decide (scheme r = lit "exact") then Some chain else None.

(** [Option::get_or_insert]. *)
Definition get_or_insert {A} (o : option A) (a : A) : option A :=
  match o with Some x => Some x | None => Some a end.

Fixpoint select_from (index : nat) (evm : option (nat * PaymentChain)) (first_refusal : option X402Error)
    (reqs : list PaymentRequirements) : res X402Error (nat * PaymentChain) :=
  match reqs with
  | [] =>
      match evm, first_refusal with
      | Some choice, _ => Ok choice
      | None, Some refusal => Err refusal
      | None, None => Err NoPaymentOption
      end
  | r :: reqs =>
      match exact_chain r with
      | None => select_from (S index) evm first_refusal reqs
      | Some chain =>
          match ensure_payable r with
          | Ok _ => if bool_decide (chain = PaySolana) then Ok (index, chain)
                    else select_from (S index) (get_or_insert evm (index, chain)) first_refusal reqs
          | Err refusal => select_from (S index) evm (get_or_insert first_refusal refusal) reqs
          | Panic => Panic
          end
      end
  end.

Definition select_requirement (challenge : PaymentRequired) : res X402Error (nat * PaymentChain) :=
  select_from 0 None None (accepts challenge).

(** * Facts *)

(** An option that can be paid on a chain. *)
Definition pays_on (c : PaymentChain) (r : PaymentRequirements) : bool :=
  bool_decide (exact_chain r = Some c) && bool_decide (ensure_payable r = Ok tt).

(** An [exact] option on a Solana or EVM network, payable or not. *)
Definition is_exact (r : PaymentRequirements) : bool := bool_decide (is_Some (exact_chain r)).

(** Each network is listed once, so the search finds exactly what is listed. *)
Lemma usdc_find n u :
  find_first (fun '(m, _) => bool_decide (m = n)) SUPPORTED_USDC = Some (n, u) <-> (n, u) ∈ SUPPORTED_USDC.
Proof.
  split.
  - generalize SUPPORTED_USDC. induction l as [|[m v] l IH]; [discriminate|]. cbn [find_first].
    destruct (bool_decide (m = n)); [intros [= -> ->]; left | intros H; right; auto].
  - unfold SUPPORTED_USDC. rewrite !elem_of_cons, elem_of_nil. intros H.
    destruct_or?; try contradiction; injection H as -> ->; vm_compute; reflexivity.
Qed.

Lemma usdc_find_network n p :
  find_first (fun '(m, _) => bool_decide (m = n)) SUPPORTED_USDC = Some p -> p.1 = n.
Proof.
  generalize SUPPORTED_USDC. induction l as [|[m v] l IH]; [discriminate|]. cbn [find_first].
  destruct (bool_decide_reflect (m = n)) as [->|]; [intros [= <-]; reflexivity | auto].
Qed.

Lemma check_usdc_allowed n a :
  check_usdc n a = Allowed <->
  exists usdc, (n, usdc) ∈ SUPPORTED_USDC /\
    (if starts_with n (lit "eip155:") then eq_ignore_case usdc a = true else usdc = a).
Proof.
  unfold check_usdc. split.
  - destruct (find_first _ _) as [[m u]|] eqn:E; [|discriminate].
    pose proof (usdc_find_network _ _ E) as Hm. cbn in Hm. subst m. apply usdc_find in E.
    intros H. exists u. split; [exact E|].
    destruct (starts_with n _); [destruct (eq_ignore_case u a); [reflexivity | discriminate]|].
    destruct (bool_decide_reflect (u = a)); [assumption | discriminate].
  - intros (u & Hin & Hsame). apply usdc_find in Hin. rewrite Hin.
    destruct (starts_with n _); [rewrite Hsame; reflexivity|].
    rewrite bool_decide_eq_true_2 by exact Hsame. reflexivity.
Qed.

Lemma ensure_payable_cases r :
  ensure_payable r = Ok tt \/ exists e, ensure_payable r = Err e.
Proof. unfold ensure_payable. destruct (check_usdc _ _); eauto. Qed.

Lemma pays_on_cases r :
  match exact_chain r with
  | None => pays_on PaySolana r = false /\ pays_on PayEvm r = false /\ is_exact r = false
  | Some c =>
      is_exact r = true /\
      match ensure_payable r with
      | Ok _ => pays_on c r = true /\ forall c', c' <> c -> pays_on c' r = false
      | _ => pays_on PaySolana r = false /\ pays_on PayEvm r = false
      end
  end.
Proof.
  unfold pays_on, is_exact. destruct (exact_chain r) as [c|] eqn:E.
  - split; [reflexivity|]. destruct (ensure_payable_cases r) as [Hp | [e Hp]]; rewrite Hp.
    + split; [rewrite !bool_decide_eq_true_2 by reflexivity; reflexivity|]. intros c' Hc.
      rewrite bool_decide_eq_false_2 by congruence. reflexivity.
    + rewrite (bool_decide_eq_false_2 (Err e = Ok tt)) by discriminate. rewrite !andb_false_r. split; reflexivity.
  - split_and!; reflexivity.
Qed.

(** The result of the loop, from any point of it. *)
Definition select_result (index : nat) (evm : option (nat * PaymentChain)) (refusal : option X402Error)
    (reqs : list PaymentRequirements) : res X402Error (nat * PaymentChain) :=
  match position (pays_on PaySolana) reqs with
  | Some i => Ok ((index + i)%nat, PaySolana)
  | None =>
      match evm, position (pays_on PayEvm) reqs with
      | Some choice, _ => Ok choice
      | None, Some i => Ok ((index + i)%nat, PayEvm)
      | None, None =>
          match refusal, find_first is_exact reqs with
          | Some e, _ => Err e
          | None, Some r => match ensure_payable r with Err e => Err e | _ => Err NoPaymentOption end
          | None, None => Err NoPaymentOption
          end
      end
  end.

Lemma select_from_result reqs index evm refusal :
  select_from index evm refusal reqs = select_result index evm refusal reqs.
Proof.
  revert index evm refusal. induction reqs as [|r reqs IH]; intros index evm refusal.
  - unfold select_result. cbn. destruct evm, refusal; reflexivity.
  - cbn [select_from]. pose proof (pays_on_cases r) as Hc. unfold select_result. cbn [position find_first].
    destruct (exact_chain r) as [c|].
    + destruct Hc as [Hx Hc]. rewrite Hx. destruct (ensure_payable_cases r) as [Hp | [e Hp]]; rewrite Hp in *.
      * destruct Hc as [Hc Hne]. destruct c.
        -- rewrite Hc. cbn. f_equal. f_equal. lia.
        -- rewrite (Hne PaySolana) by discriminate. rewrite Hc. cbn. rewrite IH. unfold select_result.
           destruct (position (pays_on PaySolana) reqs); cbn; [f_equal; f_equal; lia|].
           destruct evm; cbn; [reflexivity | f_equal; f_equal; lia].
      * destruct Hc as [-> ->]. rewrite IH. unfold select_result.
        destruct (position (pays_on PaySolana) reqs); cbn; [f_equal; f_equal; lia|].
        destruct evm; cbn; [reflexivity|].
        destruct (position (pays_on PayEvm) reqs); cbn; [f_equal; f_equal; lia|].
        destruct refusal; reflexivity.
    + destruct Hc as (-> & -> & ->). rewrite IH. unfold select_result.
      destruct (position (pays_on PaySolana) reqs); cbn; [f_equal; f_equal; lia|].
      destruct evm; cbn; [reflexivity|].
      destruct (position (pays_on PayEvm) reqs); cbn; [f_equal; f_equal; lia|]. reflexivity.
Qed.

Lemma pays_on_sound c r :
  pays_on c r = true ->
  scheme r = lit "exact" /\ chain_of (network r) = Some c /\
  exists usdc, (network r, usdc) ∈ SUPPORTED_USDC /\
    (if starts_with (network r) (lit "eip155:") then eq_ignore_case usdc (asset r) = true else usdc = asset r).
Proof.
  unfold pays_on, exact_chain, ensure_payable. intros H. apply andb_prop in H as [Hc Hp].
  apply bool_decide_eq_true in Hc, Hp. destruct (chain_of (network r)) as [c'|]; [|discriminate].
  cbn [mbind option_bind] in Hc. destruct (bool_decide_reflect (scheme r = lit "exact")); [|discriminate].
  injection Hc as ->. split_and!; [assumption | reflexivity|]. apply check_usdc_allowed.
  destruct (check_usdc _ _); [reflexivity | discriminate | discriminate].
Qed.

(** The [exact] options on one chain are those a prefix finds. *)
Lemma exact_on_chain c r :
  exact_on (match c with PaySolana => lit "solana:" | PayEvm => lit "eip155:" end) r
  = bool_decide (exact_chain r = Some c).
Proof.
  unfold exact_on, exact_chain, chain_of.
  assert (Hboth : starts_with (network r) (lit "solana:") = true ->
                  starts_with (network r) (lit "eip155:") = false).
  { destruct (starts_with (network r) (lit "eip155:")) eqn:E; [|reflexivity]. intros E'.
    apply starts_with_spec in E as [t E], E' as [t' E']. rewrite E in E'. discriminate. }
  destruct (bool_decide_reflect (scheme r = lit "exact")), c;
    destruct (starts_with (network r) (lit "solana:")); try rewrite Hboth by reflexivity;
    try destruct (starts_with (network r) (lit "eip155:")); reflexivity.
Qed.

Lemma find_pays c reqs r :
  find_first (exact_on (match c with PaySolana => lit "solana:" | PayEvm => lit "eip155:" end)) reqs = Some r ->
  ensure_payable r = Ok tt ->
  exists i, position (pays_on c) reqs = Some i /\ reqs !! i = Some r.
Proof.
  intros Hf Hp. induction reqs as [|x reqs IH]; [discriminate|]. cbn [find_first] in Hf. cbn [position].
  unfold pays_on at 1. rewrite exact_on_chain in Hf.
  destruct (bool_decide (exact_chain x = Some c)).
  - injection Hf as ->. rewrite bool_decide_eq_true_2 by exact Hp. exists 0%nat. split; reflexivity.
  - destruct (IH Hf) as (i & -> & Hi). exists (S i). split; [reflexivity | exact Hi].
Qed.

Lemma find_none_pays c reqs :
  find_first (exact_on (match c with PaySolana => lit "solana:" | PayEvm => lit "eip155:" end)) reqs = None ->
  position (pays_on c) reqs = None.
Proof.
  intros Hf. induction reqs as [|x reqs IH]; [reflexivity|]. cbn [find_first] in Hf. cbn [position].
  unfold pays_on at 1. rewrite exact_on_chain in Hf.
  destruct (bool_decide (exact_chain x = Some c)); [discriminate|]. cbn. rewrite IH by exact Hf. reflexivity.
Qed.

(** An [exact] option that can be paid stops one of the two searches. *)
Lemma exact_payable_position reqs r :
  position (pays_on PaySolana) reqs = None -> position (pays_on PayEvm) reqs = None ->
  find_first is_exact reqs = Some r -> ensure_payable r = Ok tt -> False.
Proof.
  rewrite !position_none. intros Hs He Hf Hp.
  assert (Hr : r ∈ reqs /\ is_exact r = true).
  { clear -Hf. induction reqs as [|x reqs IH]; [discriminate|]. cbn in Hf.
    destruct (is_exact x) eqn:Ex; [injection Hf as <-; split; [left | exact Ex]|].
    destruct (IH Hf). split; [right; assumption | assumption]. }
  destruct Hr as [Hin Hx]. rewrite list.Forall_forall in Hs, He.
  pose proof (pays_on_cases r) as Hc. rewrite Hp in Hc. specialize (Hs r Hin). specialize (He r Hin).
  destruct (exact_chain r) as [[]|]; [| |destruct Hc; intuition congruence]; destruct Hc as [_ [Hc _]]; congruence.
Qed.

(** * Property *)

(** Which option of a challenge is paid.  The first payable Solana option,
    wherever it stands; else the first payable EVM one; else the refusal of the
    first [exact] option on such a network; else "no option".  What is picked is
    an [exact] option asking for the USDC of a listed network; and when the
    preferred option ([best_exact_requirement]) is payable, it is the one. *)
Theorem select_requirement_exact c :
  match position (pays_on PaySolana) (accepts c), position (pays_on PayEvm) (accepts c),
        find_first is_exact (accepts c) with
  | Some i, _, _ => select_requirement c = Ok (i, PaySolana)
  | None, Some i, _ => select_requirement c = Ok (i, PayEvm)
  | None, None, Some r => exists e, ensure_payable r = Err e /\ select_requirement c = Err e
  | None, None, None => select_requirement c = Err NoPaymentOption
  end /\
  (forall i chain, select_requirement c = Ok (i, chain) ->
     exists r usdc, accepts c !! i = Some r /\ scheme r = lit "exact" /\
       chain_of (network r) = Some chain /\ (network r, usdc) ∈ SUPPORTED_USDC /\
       (if starts_with (network r) (lit "eip155:") then eq_ignore_case usdc (asset r) = true
        else usdc = asset r)) /\
  (forall r chain, best_exact_requirement c = Some (r, chain) -> ensure_payable r = Ok tt ->
     exists i, select_requirement c = Ok (i, chain) /\ accepts c !! i = Some r).
Proof.
  assert (E : select_requirement c = select_result 0 None None (accepts c)) by apply select_from_result.
  unfold select_result in E. cbn [Nat.add] in E.
  split; [|split].
  - rewrite E. destruct (position (pays_on PaySolana) _) eqn:Es; [reflexivity|].
    destruct (position (pays_on PayEvm) _) eqn:Ee; [reflexivity|].
    destruct (find_first is_exact (accepts c)) as [r|] eqn:Ef; [|reflexivity].
    destruct (ensure_payable_cases r) as [Hp | [e Hp]]; rewrite Hp; [|exists e; split; reflexivity].
    exfalso. eapply exact_payable_position; eauto.
  - intros i chain H. rewrite E in H.
    assert (Hi : position (pays_on chain) (accepts c) = Some i).
    { destruct (position (pays_on PaySolana) _) eqn:Es; [congruence|].
      destruct (position (pays_on PayEvm) _) eqn:Ee; [congruence|].
      destruct (find_first is_exact _) as [r|]; [|discriminate].
      destruct (ensure_payable r); discriminate. }
    apply position_spec in Hi as (r & Hr & Hp & _). apply pays_on_sound in Hp as (Hs & Hc & usdc & Hu & Ha).
    exists r, usdc. split_and!; assumption.
  - intros r chain H Hp. unfold best_exact_requirement, solana_exact_requirement, evm_exact_requirement in H.
    rewrite E. destruct (find_first (exact_on (lit "solana:")) _) as [r'|] eqn:Es.
    + injection H as -> <-. apply (find_pays PaySolana) in Es as (i & -> & Hi); [eauto | exact Hp].
    + rewrite (find_none_pays PaySolana) by exact Es.
      destruct (find_first (exact_on (lit "eip155:")) _) as [r'|] eqn:Ee; [|discriminate].
      injection H as -> <-. apply (find_pays PayEvm) in Ee as (i & -> & Hi); [eauto | exact Hp].
Qed.

(** A challenge that offers another token first, then USDC on Base in its own
    spelling of the contract, then USDC on Solana. *)
Definition example_req (n a : str) : PaymentRequirements := mkReq (lit "exact") n (lit "1000") a (lit "payee") 60 None.
Definition example_challenge : PaymentRequired :=
  mkChallenge 2 None (mkResource (lit "https://example.com") None None)
    [example_req BASE_MAINNET_CAIP2 (lit "0xdAC17F958D2ee523a2206206994597C13D831ec7");
     example_req BASE_MAINNET_CAIP2 (lit "0x833589FCD6EDB6E08F4C7C32D4F71B54BDA02913");
     example_req SOLANA_MAINNET_CAIP2 USDC_MINT_MAINNET] [].

Lemma select_requirement_exact_witness :
  select_requirement example_challenge = Ok (2%nat, PaySolana) /\
  exists r usdc, accepts example_challenge !! 2%nat = Some r /\ (network r, usdc) ∈ SUPPORTED_USDC.
Proof.
  assert (E : select_requirement example_challenge = Ok (2%nat, PaySolana)) by (vm_compute; reflexivity).
  split; [exact E|].
  destruct (select_requirement_exact example_challenge) as (_ & Hsel & _).
  destruct (Hsel _ _ E) as (r & usdc & Hr & _ & _ & Hu & _). exists r, usdc. split; assumption.
Defined.
