(* ===== verification/Assets.v ===== *)
(** Networks and the assets that exist on them
    ([crates/tinywallet-crypto/src/asset/mod.rs] and the engine's catalog,
    [crates/tinywallet-web3/src/crypto/defaults/]).

    The tables exist twice, in the library's vocabulary and in the bus's.  Shown
    here: they agree; every catalog has one native asset, first; no two assets of
    a network answer to one symbol; every EVM token contract is an address; and
    the stablecoin a 402 payment is made in is the one in the catalog. *)

From stdpp Require Import base list strings numbers.
From S2P Require Import Prelude Text Chain Codec Addr Json Wire X402Wire.

(** * The library's tables *)

Inductive CryptoEvmNetwork := CEthereum | CBase | CArbitrum | COptimism | CPolygon | CBsc.
#[export] Instance CryptoEvmNetwork_eq_dec : EqDecision CryptoEvmNetwork.
Proof. solve_decision. Defined.

Definition CryptoEvmNetwork_ALL : list CryptoEvmNetwork := [CEthereum; CBase; CArbitrum; COptimism; CPolygon; CBsc].

Definition crypto_chain_id (n : CryptoEvmNetwork) : Z :=
  match n with CEthereum => 1 | CBase => 8453 | CArbitrum => 42161 | COptimism => 10 | CPolygon => 137 | CBsc => 56 end.

Definition crypto_as_str (n : CryptoEvmNetwork) : str :=
  match n with
  | CEthereum => lit "ethereum_mainnet"
  | CBase => lit "base_mainnet"
  | CArbitrum => lit "arbitrum_one"
  | COptimism => lit "optimism_mainnet"
  | CPolygon => lit "polygon_mainnet"
  | CBsc => lit "bsc_mainnet"
  end.

Definition from_chain_id (chain_id : Z) : option CryptoEvmNetwork :=
  find_first (fun n => crypto_chain_id n =? chain_id) CryptoEvmNetwork_ALL.

Definition native (n : CryptoEvmNetwork) : str * str :=
  match n with
  | CPolygon => (lit "POL", lit "Polygon")
  | CBsc => (lit "BNB", lit "BNB")
  | _ => (lit "ETH", lit "Ether")
  end.

Definition default_rpc_url (n : CryptoEvmNetwork) : str :=
  match n with
  | CEthereum => lit "https://ethereum-rpc.publicnode.com"
  | CBase => lit "https://mainnet.base.org"
  | CArbitrum => lit "https://arb1.arbitrum.io/rpc"
  | COptimism => lit "https://mainnet.optimism.io"
  | CPolygon => lit "https://polygon-rpc.com"
  | CBsc => lit "https://bsc-dataseed.binance.org"
  end.

Definition explorer_tx_base (n : CryptoEvmNetwork) : str :=
  match n with
  | CEthereum => lit "https://etherscan.io/tx/"
  | CBase => lit "https://basescan.org/tx/"
  | CArbitrum => lit "https://arbiscan.io/tx/"
  | COptimism => lit "https://optimistic.etherscan.io/tx/"
  | CPolygon => lit "https://polygonscan.com/tx/"
  | CBsc => lit "https://bscscan.com/tx/"
  end.

Definition network_label (n : CryptoEvmNetwork) : str :=
  match n with
  | CEthereum => lit "ethereum-mainnet"
  | CBase => lit "base-mainnet"
  | CArbitrum => lit "arbitrum-one"
  | COptimism => lit "optimism-mainnet"
  | CPolygon => lit "polygon-mainnet"
  | CBsc => lit "bsc-mainnet"
  end.

(** The library's [SolanaCluster] has the same two cases as the bus's, and the
    conversion between them keeps them. *)
Definition rpc_url (c : SolanaCluster) : str :=
  match c with
  | ClusterMainnet => lit "https://api.mainnet-beta.solana.com"
  | ClusterDevnet => lit "https://api.devnet.solana.com"
  end.

Definition cluster_label (c : SolanaCluster) : str :=
  match c with ClusterMainnet => lit "solana-mainnet-beta" | ClusterDevnet => lit "solana-devnet" end.

Definition explorer_tx_suffix (c : SolanaCluster) : str :=
  match c with ClusterMainnet => [] | ClusterDevnet => lit "?cluster=devnet" end.

Definition cluster_explorer_tx_base : str := lit "https://solscan.io/tx/".

Definition usdc_mint (c : SolanaCluster) : str :=
  match c with
  | ClusterMainnet => lit "EPjFWdd5AufqSSqeM2qN1xzybapC8G4wEGGkZwyTDt1v"
  | ClusterDevnet => lit "4zMMC9srt5Ri5X14GAgXhaHii3GnPAEERYPJgZJDncDU"
  end.

Inductive Network := NetBtc | NetEvm (n : CryptoEvmNetwork) | NetSolana (c : SolanaCluster) | NetTron.

Definition Network_chain (n : Network) : Chain :=
  match n with NetBtc => Btc | NetEvm _ => Evm | NetSolana _ => Solana | NetTron => Tron end.

Definition Network_chain_id (n : Network) : option Z :=
  match n with NetEvm n => Some (crypto_chain_id n) | _ => None end.

Definition Network_explorer_tx_url (n : Network) (tx_hash : str) : option str :=
  let base := match n with
              | NetBtc => lit "https://blockstream.info/tx/"
              | NetEvm n => explorer_tx_base n
              | NetSolana _ => cluster_explorer_tx_base
              | NetTron => lit "https://tronscan.org/#/transaction/"
              end in
  Some (base ++ tx_hash).

(** [Display]. *)
Definition Network_text (n : Network) : str :=
  match n with
  | NetEvm n => crypto_as_str n
  | NetBtc => lit "bitcoin_mainnet"
  | NetSolana ClusterMainnet => lit "solana_mainnet"
  | NetSolana ClusterDevnet => lit "solana_devnet"
  | NetTron => lit "tron_mainnet"
  end.

Record Asset := mkAsset {
  as_network : Network;
  as_symbol : str;
  as_name : str;
  as_native : bool;
  as_decimals : Z;
  as_contract_address : option str
}.

Definition Asset_native (network : Network) (symbol name : str) (decimals : Z) : Asset :=
  mkAsset network symbol name true decimals None.

Definition Asset_token (network : Network) (symbol name : str) (decimals : Z) (contract : str) : Asset :=
  mkAsset network symbol name false decimals (Some contract).

Definition evm_catalog (network : Network) (evm : CryptoEvmNetwork) : list Asset :=
  let '(symbol, name) := native evm in
  let assets := [Asset_native network symbol name 18] in
  let usdc_6dp := match evm with
                  | CEthereum => Some (lit "0xA0b86991c6218b36c1d19D4a2e9Eb0cE3606eB48")
                  | CBase => Some (lit "0x833589fCD6eDb6E08f4c7C32D4f71b54bdA02913")
                  | CArbitrum => Some (lit "0xaf88d065e77c8cC2239327C5EDb3A432268e5831")
                  | COptimism => Some (lit "0x0b2C639c533813f4Aa9D7837CAf62653d097Ff85")
                  | CPolygon => Some (lit "0x3c499c542cEF5E3811e1192ce70d8cC03d5c3359")
                  | CBsc => None
                  end in
  let assets := match usdc_6dp with
                | Some contract => assets ++ [Asset_token network (lit "USDC") (lit "USD Coin") 6 contract]
                | None => assets
                end in
  match evm with
  | CBsc =>
      assets ++ [Asset_token network (lit "USDT") (lit "Tether USD (BEP20)") 18 (lit "0x55d398326f99059fF775485246999027B3197955");
                 Asset_token network (lit "USDC") (lit "USD Coin (BEP20)") 18 (lit "0x8AC76a51cc950d9822D68b83fE1Ad97B32Cd580d")]
  | CEthereum =>
      assets ++ [Asset_token network (lit "USDT") (lit "Tether USD") 6 (lit "0xdAC17F958D2ee523a2206206994597C13D831ec7");
                 Asset_token network (lit "DAI") (lit "Dai") 18 (lit "0x6B175474E89094C44Da98b954EedeAC495271d0F");
                 Asset_token network (lit "WETH") (lit "Wrapped Ether") 18 (lit "0xC02aaA39b223FE8D0A0e5C4F27eAD9083C756Cc2")]
  | _ => assets
  end.

Definition catalog (network : Network) : list Asset :=
  match network with
  | NetBtc => [Asset_native network (lit "BTC") (lit "Bitcoin") 8]
  | NetTron =>
      [Asset_native network (lit "TRX") (lit "Tron") 6;
       Asset_token network (lit "USDT") (lit "Tether USD (TRC20)") 6 (lit "TR7NHqjeKQxGTCi8q8ZY4pL8otSzgjLj6t")]
  | NetSolana cluster =>
      [Asset_native network (lit "SOL") (lit "Solana") 9;
       Asset_token network (lit "USDC") (lit "USD Coin (Solana)") 6 (usdc_mint cluster)]
  | NetEvm evm => evm_catalog network evm
  end.

Definition find_in_catalog (network : Network) (symbol : str) : option Asset :=
  let wanted := trim symbol in
  find_first (fun a => eq_ignore_case (as_symbol a) wanted) (catalog network).

Definition networks (solana : SolanaCluster) : list Network :=
  (NetEvm <$> CryptoEvmNetwork_ALL) ++ [NetBtc; NetSolana solana; NetTron].

(** * The engine's tables *)

Definition crypto_evm_network (n : EvmNetwork) : CryptoEvmNetwork :=
  match n with
  | EthereumMainnet => CEthereum
  | BaseMainnet => CBase
  | ArbitrumOne => CArbitrum
  | OptimismMainnet => COptimism
  | PolygonMainnet => CPolygon
  | BscMainnet => CBsc
  end.

Definition network_label_for_evm (n : EvmNetwork) : str := network_label (crypto_evm_network n).
Definition default_rpc_url_for_evm (n : EvmNetwork) : str := default_rpc_url (crypto_evm_network n).
Definition explorer_tx_base_for_evm (n : EvmNetwork) : str := explorer_tx_base (crypto_evm_network n).

Definition BLOCKSTREAM_TX_BASE : str := lit "https://blockstream.info/tx/".
Definition SOLSCAN_TX_BASE : str := lit "https://solscan.io/tx/".
Definition TRONSCAN_TX_BASE : str := lit "https://tronscan.org/#/transaction/".

Definition engine_default_rpc_url (chain : WalletChain) (cluster : SolanaCluster) : str :=
  match chain with
  | WEvm => default_rpc_url_for_evm EthereumMainnet
  | WBtc => lit "https://blockstream.info/api"
  | WSolana => rpc_url cluster
  | WTron => lit "https://api.trongrid.io"
  end.

Definition explorer_tx_url (chain : WalletChain) (cluster : SolanaCluster) (tx_hash : str) : option str :=
  let '(base, suffix) :=
    match chain with
    | WEvm => (explorer_tx_base_for_evm EthereumMainnet, [])
    | WBtc => (BLOCKSTREAM_TX_BASE, [])
    | WSolana => (SOLSCAN_TX_BASE, explorer_tx_suffix cluster)
    | WTron => (TRONSCAN_TX_BASE, [])
    end in
  Some (base ++ tx_hash ++ suffix).

Definition explorer_tx_url_for_evm_network (network : EvmNetwork) (tx_hash : str) : option str :=
  Some (explorer_tx_base_for_evm network ++ tx_hash).

Definition asset (chain : WalletChain) (evm_network : option EvmNetwork) (symbol name : str) (decimals : Z)
    (contract_address : option str) : WalletAssetDefinition :=
  mkAssetDefinition chain evm_network symbol name (negb (bool_decide (is_Some contract_address))) decimals contract_address.

Definition evm_asset_catalog (network : EvmNetwork) : list WalletAssetDefinition :=
  let evm := asset WEvm (Some network) in
  let '(native_symbol, native_name) :=
    match network with
    | PolygonMainnet => (lit "POL", lit "Polygon")
    | BscMainnet => (lit "BNB", lit "BNB")
    | _ => (lit "ETH", lit "Ether")
    end in
  let assets := [evm native_symbol native_name 18 None] in
  let usdc := match network with
              | EthereumMainnet => Some (lit "0xA0b86991c6218b36c1d19D4a2e9Eb0cE3606eB48")
              | BaseMainnet => Some (lit "0x833589fCD6eDb6E08f4c7C32D4f71b54bdA02913")
              | ArbitrumOne => Some (lit "0xaf88d065e77c8cC2239327C5EDb3A432268e5831")
              | OptimismMainnet => Some (lit "0x0b2C639c533813f4Aa9D7837CAf62653d097Ff85")
              | PolygonMainnet => Some (lit "0x3c499c542cEF5E3811e1192ce70d8cC03d5c3359")
              | BscMainnet => None
              end in
  let assets := match usdc with
                | Some usdc => assets ++ [evm (lit "USDC") (lit "USD Coin") 6 (Some usdc)]
                | None => assets
                end in
  let assets := if bool_decide (network = BscMainnet)
                then assets ++ [evm (lit "USDT") (lit "Tether USD (BEP20)") 18 (Some (lit "0x55d398326f99059fF775485246999027B3197955"));
                                evm (lit "USDC") (lit "USD Coin (BEP20)") 18 (Some (lit "0x8AC76a51cc950d9822D68b83fE1Ad97B32Cd580d"))]
                else assets in
  if bool_decide (network = EthereumMainnet)
  then assets ++ [evm (lit "USDT") (lit "Tether USD") 6 (Some (lit "0xdAC17F958D2ee523a2206206994597C13D831ec7"));
                  evm (lit "DAI") (lit "Dai") 18 (Some (lit "0x6B175474E89094C44Da98b954EedeAC495271d0F"));
                  evm (lit "WETH") (lit "Wrapped Ether") 18 (Some (lit "0xC02aaA39b223FE8D0A0e5C4F27eAD9083C756Cc2"))]
  else assets.

Definition asset_catalog (chain : WalletChain) (cluster : SolanaCluster) : list WalletAssetDefinition :=
  match chain with
  | WEvm => evm_asset_catalog EthereumMainnet
  | WBtc => [asset chain None (lit "BTC") (lit "Bitcoin") 8 None]
  | WSolana =>
      [asset chain None (lit "SOL") (lit "Solana") 9 None;
       asset chain None (lit "USDC") (lit "USD Coin (Solana)") 6 (Some (usdc_mint cluster))]
  | WTron =>
      [asset chain None (lit "TRX") (lit "Tron") 6 None;
       asset chain None (lit "USDT") (lit "Tether USD (TRC20)") 6 (Some (lit "TR7NHqjeKQxGTCi8q8ZY4pL8otSzgjLj6t"))]
  end.

Definition find_asset_for_network (chain : WalletChain) (network : option EvmNetwork) (symbol : str)
    (cluster : SolanaCluster) : option WalletAssetDefinition :=
  let needle := trim symbol in
  let catalog := match chain, network with
                 | WEvm, Some net => evm_asset_catalog net
                 | WEvm, None => evm_asset_catalog EthereumMainnet
                 | other, _ => asset_catalog other cluster
                 end in
  find_first (fun a => eq_ignore_case (ad_symbol a) needle) catalog.

Definition find_asset (chain : WalletChain) (symbol : str) (cluster : SolanaCluster) : option WalletAssetDefinition :=
  find_asset_for_network chain None symbol cluster.

(** * Properties *)

(** The engine's definition [d] and the library's [a] say the same of one asset. *)
Record same_asset (d : WalletAssetDefinition) (a : Asset) : Prop := {
  same_symbol : ad_symbol d = as_symbol a;
  same_name : ad_name d = as_name a;
  same_native : ad_native d = as_native a;
  same_decimals : ad_decimals d = as_decimals a;
  same_contract : ad_contract_address d = as_contract_address a;
  same_chain : to_chain (ad_chain d) = Network_chain (as_network a);
  same_chain_id : EvmNetwork_chain_id <$> ad_evm_network d = Network_chain_id (as_network a)
}.

(** The library's network a chain of the engine stands for. *)
Definition network_of (chain : WalletChain) (network : option EvmNetwork) (cluster : SolanaCluster) : Network :=
  match chain, network with
  | WEvm, Some n => NetEvm (crypto_evm_network n)
  | WEvm, None => NetEvm CEthereum
  | WBtc, _ => NetBtc
  | WSolana, _ => NetSolana cluster
  | WTron, _ => NetTron
  end.

Definition engine_catalog (chain : WalletChain) (network : option EvmNetwork) (cluster : SolanaCluster) :
    list WalletAssetDefinition :=
  match chain, network with
  | WEvm, Some net => evm_asset_catalog net
  | WEvm, None => evm_asset_catalog EthereumMainnet
  | other, _ => asset_catalog other cluster
  end.

Lemma catalogs_same chain network cluster :
  Forall2 same_asset (engine_catalog chain network cluster) (catalog (network_of chain network cluster)).
Proof.
  destruct chain, cluster; try destruct network as [[]|]; repeat constructor.
Qed.

Lemma find_first_same {A B} (R : A -> B -> Prop) p q l k :
  (forall x y, R x y -> p x = q y) -> Forall2 R l k ->
  match find_first p l, find_first q k with
  | Some x, Some y => R x y
  | None, None => True
  | _, _ => False
  end.
Proof.
  intros Hpq HR. induction HR as [|x y l k Hxy HR IH]; cbn; [exact I|].
  rewrite (Hpq _ _ Hxy). destruct (q y); [exact Hxy | exact IH].
Qed.

(** Lookup by symbol in a table whose symbols differ ignoring case. *)
Lemma find_by_symbol l a s :
  NoDup (map (fun b => ascii_lowercase (as_symbol b)) l) -> a ∈ l -> eq_ignore_case (as_symbol a) s = true ->
  find_first (fun b => eq_ignore_case (as_symbol b) s) l = Some a.
Proof.
  intros Hd Hin Hs. induction l as [|b l IH]; [apply elem_of_nil in Hin; contradiction|].
  cbn [map] in Hd. apply list.NoDup_cons in Hd as [Hn Hd]. cbn [find_first].
  apply elem_of_cons in Hin as [<-|Hin]; [rewrite Hs; reflexivity|].
  destruct (eq_ignore_case (as_symbol b) s) eqn:E; [|apply IH; assumption].
  exfalso. apply Hn. unfold eq_ignore_case in E, Hs.
  apply bool_decide_eq_true_1 in E, Hs. rewrite E, <- Hs.
  exact (list_elem_of_fmap_2 (fun b => ascii_lowercase (as_symbol b)) _ _ Hin).
Qed.

Lemma catalog_symbols network :
  NoDup (map (fun b => ascii_lowercase (as_symbol b)) (catalog network)).
Proof.
  destruct network as [|[]|[]|]; apply (bool_decide_unpack _); vm_compute; exact I.
Qed.

Definition evm_caip2 (n : EvmNetwork) : str := lit "eip155:" ++ show_dec (EvmNetwork_chain_id n).

Definition solana_caip2 (c : SolanaCluster) : str :=
  match c with ClusterMainnet => SOLANA_MAINNET_CAIP2 | ClusterDevnet => SOLANA_DEVNET_CAIP2 end.

Lemma from_chain_id_spec z n : from_chain_id z = Some n <-> crypto_chain_id n = z.
Proof.
  split; [|intros <-; destruct n; reflexivity].
  intros H. apply find_first_position in H as (_ & _ & H & _). lia.
Qed.

Lemma catalog_native_first network :
  exists a rest, catalog network = a :: rest /\ as_native a = true /\ as_contract_address a = None /\
    Forall (fun b => as_native b = false /\ is_Some (as_contract_address b)) rest.
Proof.
  destruct network as [|[]|[]|]; eexists _, _; (split; [reflexivity|]); repeat constructor; eexists; reflexivity.
Qed.

(** The two tables of assets are one table: for every chain, network and
    cluster, engine and library list the same assets in the same order, and find
    the same one for every symbol.  An asset is found by its symbol in any case
    and padding; each network has exactly one native asset, listed first; the
    contracts of EVM assets are valid addresses; a chain id names one network;
    and the stablecoin [SUPPORTED_USDC] names for a listed network is that
    network's USDC, with the six decimals payments are counted in. *)
Theorem asset_tables_agree :
  (forall chain network cluster,
     Forall2 same_asset (engine_catalog chain network cluster) (catalog (network_of chain network cluster)) /\
     forall symbol,
       match find_asset_for_network chain network symbol cluster,
             find_in_catalog (network_of chain network cluster) symbol with
       | Some d, Some a => same_asset d a
       | None, None => True
       | _, _ => False
       end) /\
  (forall net a symbol, a ∈ catalog net -> ascii_lowercase (trim symbol) = ascii_lowercase (as_symbol a) ->
     find_in_catalog net symbol = Some a) /\
  (forall net, exists a rest, catalog net = a :: rest /\ as_native a = true /\ as_contract_address a = None /\
     Forall (fun b => as_native b = false /\ is_Some (as_contract_address b)) rest) /\
  (forall n a c, a ∈ evm_catalog (NetEvm n) n -> as_contract_address a = Some c -> evm_validate c = Ok c) /\
  (forall z n, from_chain_id z = Some n <-> crypto_chain_id n = z) /\
  (forall n u, (evm_caip2 n, u) ∈ SUPPORTED_USDC ->
     (fun a => (as_decimals a, as_contract_address a)) <$> find_in_catalog (NetEvm (crypto_evm_network n)) (lit "usdc")
     = Some (6, Some u)) /\
  (forall c u, (solana_caip2 c, u) ∈ SUPPORTED_USDC <-> u = usdc_mint c).
Proof.
  split_and!.
  - intros chain network cluster. split; [apply catalogs_same|]. intros symbol.
    assert (Hf : find_asset_for_network chain network symbol cluster =
                 find_first (fun a => eq_ignore_case (ad_symbol a) (trim symbol)) (engine_catalog chain network cluster))
      by (destruct chain, network; reflexivity).
    rewrite Hf. unfold find_in_catalog. apply (find_first_same same_asset); [|apply catalogs_same].
    intros d a Hda. rewrite (same_symbol _ _ Hda). reflexivity.
  - intros net a symbol Hin Hs. apply find_by_symbol; [apply catalog_symbols | exact Hin|].
    unfold eq_ignore_case. apply bool_decide_eq_true_2. congruence.
  - apply catalog_native_first.
  - intros n a c Hin Hc.
    assert (Hall : forall n, Forall (fun a => if as_contract_address a is Some c then evm_validate c = Ok c else True)
                               (evm_catalog (NetEvm n) n))
      by (intros []; repeat constructor).
    pose proof (proj1 (list.Forall_forall _ _) (Hall n) _ Hin) as H. cbv beta in H. rewrite Hc in H. exact H.
  - apply from_chain_id_spec.
  - intros n u Hin. unfold SUPPORTED_USDC in Hin. rewrite !elem_of_cons, elem_of_nil in Hin.
    destruct_or? Hin; try contradiction; injection Hin as Hn ->; destruct n; vm_compute in Hn; try discriminate;
      vm_compute; reflexivity.
  - intros c u. unfold SUPPORTED_USDC. rewrite !elem_of_cons, elem_of_nil. split.
    + intros Hin. destruct_or? Hin; try contradiction; injection Hin as Hn ->; destruct c; vm_compute in Hn;
        try discriminate; vm_compute; reflexivity.
    + intros ->. destruct c; [left; reflexivity | right; left; reflexivity].
Qed.

(** Base's USDC, asked for in lower case with blanks around it. *)
Lemma asset_tables_agree_witness :
  exists a, find_in_catalog (NetEvm CBase) (lit " usdc ") = Some a /\
    as_contract_address a = Some (lit "0x833589fCD6eDb6E08f4c7C32D4f71b54bdA02913").
Proof.
  exists (Asset_token (NetEvm CBase) (lit "USDC") (lit "USD Coin") 6 (lit "0x833589fCD6eDb6E08f4c7C32D4f71b54bdA02913")).
  split; [|reflexivity].
  destruct asset_tables_agree as (_ & H & _). apply H; [right; left; reflexivity | vm_compute; reflexivity].
Defined.
