(* ===== verification/Host.v ===== *)
(** The wallet engine's host, and programs that ask it things
    ([crates/tinywallet-web3/src/crypto/seams/mod.rs], [chains/rpc.rs],
    [execution/validate.rs], [execution/accounts.rs], [wallet/engine.rs];
    [crates/tinywallet-crypto/src/rpc/mod.rs]).

    Keys, accounts, endpoints, the network and the clock are the host's: a call
    across a seam is a [request], and an engine function is an [io] program that
    asks one request at a time and continues with whatever is answered.  Nothing
    is assumed of the answers.  [wp] says what every run of a program satisfies
    of the requests made and answers given so far; [exec] runs a program against
    a host that may answer by all it has seen.  JSON text and typed decoding are
    serde's, a parameter. *)

From stdpp Require Import base list strings numbers.
From S2P Require Import Prelude Program Text Chain Codec Addr Json Wire Quotes Assets.

(** * The seams *)

Record NetworkId := mkNetwork { net_chain : Chain; net_evm_chain_id : option Z }.

Inductive TransportError :=
  | Unreachable (network : NetworkId) (message : str)
  | RpcError (network : NetworkId) (message : str).

Definition is_retryable (e : TransportError) : bool := match e with Unreachable _ _ => true | _ => false end.

(** What is held in the engine's quote store. *)
Record PreparedTransferQuote := mkPreparedQuote { transaction : PreparedTransaction; ptq_owner : option QuoteOwner }.

(** One constructor per seam method; [NextId] to [RestoreQuote] and their
    counterparts for the service are calls on a quote store that other tasks
    share. *)
Inductive request :=
  | Status
  | DeriveAccount (chain : WalletChain)
  | SignTransaction (chain : WalletChain) (transaction : TransactionSpec)
  | SignMessage (chain : WalletChain) (message : list Z) (scheme : Scheme)
  | JsonRpc (network : NetworkId) (method : str) (params : Json)
  | RestGet (network : NetworkId) (path : str)
  | RestPost (network : NetworkId) (path body content_type : str)
  | SolanaClusterOf
  | EndpointUrl (chain : WalletChain) (network : option EvmNetwork)
  | EndpointSource (chain : WalletChain) (network : option EvmNetwork)
  | CurrentOwner
  | NowMs
  | SwapTx (body : Json)
  | BridgeTx (body : Json)
  | NextId
  | InsertQuote (quote : PreparedTransferQuote)
  | TakeQuote (id : str) (caller : option QuoteOwner)
  | RestoreQuote (quote : PreparedTransferQuote)
  | NextWeb3Id
  | InsertWeb3 (quote : StoredQuote)
  | TakeWeb3 (id : str) (caller : option QuoteOwner)
  | RestoreWeb3 (quote : StoredQuote).

Definition answer (q : request) : Type :=
  match q with
  | Status => str + WalletStatus
  | DeriveAccount _ => str + DerivedAccount
  | SignTransaction _ _ => str + SignedTransaction
  | SignMessage _ _ _ => str + Signature
  | JsonRpc _ _ _ => TransportError + Json
  | RestGet _ _ | RestPost _ _ _ _ => TransportError + str
  | SolanaClusterOf => SolanaCluster
  | EndpointUrl _ _ => str
  | EndpointSource _ _ => RpcSource
  | CurrentOwner => option QuoteOwner
  | NowMs => Z
  | SwapTx _ | BridgeTx _ => str + Json
  | NextId | NextWeb3Id => str
  | InsertQuote _ | RestoreQuote _ | InsertWeb3 _ | RestoreWeb3 _ => unit
  | TakeQuote _ _ => str + PreparedTransferQuote
  | TakeWeb3 _ _ => str + StoredQuote
  end.

(** * Programs *)

(** The engine's errors are messages. *)
Abbreviation io := (program answer str).
Abbreviation event := (event_of answer).
Abbreviation host := (host_of answer).
Abbreviation Ev := (@Event request answer).

(** A seam call: its error is surfaced verbatim. *)
Definition or_error {A} (r : str + A) : io A := match r with inl e => Done (Err e) | inr a => Done (Ok a) end.
Definition status : io WalletStatus := Ask Status or_error.
Definition derive_account (c : WalletChain) : io DerivedAccount := Ask (DeriveAccount c) or_error.
Definition sign_transaction (c : WalletChain) (t : TransactionSpec) : io SignedTransaction :=
  Ask (SignTransaction c t) or_error.
Definition sign_message (c : WalletChain) (m : list Z) (s : Scheme) : io Signature := Ask (SignMessage c m s) or_error.
Definition solana_cluster : io SolanaCluster := Ask SolanaClusterOf mret.
Definition endpoint_url (c : WalletChain) (n : option EvmNetwork) : io str := Ask (EndpointUrl c n) mret.
Definition endpoint_source (c : WalletChain) (n : option EvmNetwork) : io RpcSource := Ask (EndpointSource c n) mret.
Definition current_owner : io (option QuoteOwner) := Ask CurrentOwner mret.
Definition now_ms : io Z := Ask NowMs mret.

(** * Transport helpers *)

(** Typed decoding by serde: of a JSON value, and of text. *)
Class Deserialize (T : Type) := { from_value : Json -> str + T; from_str : str -> str + T }.
(** [Value::to_string]. *)
Class JsonPrinter := { json_text : Json -> str }.

Definition EvmNetwork_or_mainnet (network : option EvmNetwork) : EvmNetwork := default EthereumMainnet network.

Definition network_id (chain : WalletChain) (network : option EvmNetwork) : NetworkId :=
  match chain with
  | WEvm => mkNetwork Evm (Some (EvmNetwork_chain_id (EvmNetwork_or_mainnet network)))
  | other => mkNetwork (to_chain other) None
  end.

(** [Display] of a [TransportError] would name the network; this does not. *)
Definition transport_message (e : TransportError) : str :=
  match e with Unreachable _ message | RpcError _ message => message end.

Definition from_transport {A} (r : TransportError + A) : io A :=
  match r with inl e => Done (Err (transport_message e)) | inr a => Done (Ok a) end.

Definition decoded {A} (what : str -> str) (r : str + A) : io A :=
  match r with inl e => Done (Err (what e)) | inr a => Done (Ok a) end.

Definition json_rpc {T} `{Deserialize T} (network : NetworkId) (method : str) (params : Json) : io T :=
  value ← Ask (JsonRpc network method params) from_transport;
  decoded (fun e => lit "wallet RPC invalid result for " ++ method ++ lit ": " ++ e) (from_value value).

Definition rpc_call {T} `{Deserialize T} (chain : WalletChain) (method : str) (params : Json) : io T :=
  json_rpc (network_id chain None) method params.

Definition evm_rpc_call {T} `{Deserialize T} (network : EvmNetwork) (method : str) (params : Json) : io T :=
  json_rpc (network_id WEvm (Some network)) method params.

Definition rest_get_text (chain : WalletChain) (path : str) : io str :=
  Ask (RestGet (network_id chain None) path) from_transport.

Definition rest_get_json {T} `{Deserialize T} (chain : WalletChain) (path : str) : io T :=
  body ← rest_get_text chain path;
  decoded (fun e => lit "wallet REST GET decode failed: " ++ e ++ lit "; body=" ++ body) (from_str body).

Definition rest_post_text (chain : WalletChain) (path body content_type : str) : io str :=
  Ask (RestPost (network_id chain None) path body content_type) from_transport.

Definition rest_post_json {T} `{Deserialize T, JsonPrinter} (chain : WalletChain) (path : str) (body : Json) : io T :=
  text ← rest_post_text chain path (json_text body) (lit "application/json");
  decoded (fun e => lit "wallet REST POST decode failed: " ++ e ++ lit "; body=" ++ text) (from_str text).

(** * Accounts *)

Definition WALLET_NOT_CONFIGURED_MESSAGE : str := lit "wallet is not configured; run wallet setup first".

Definition require_account (chain : WalletChain) : io WalletAccount :=
  status ← status;
  if negb (configured status) then Done (Err WALLET_NOT_CONFIGURED_MESSAGE)
  else lift (ok_or (find_first (fun account => bool_decide (wa_chain account = chain)) (accounts status))
               (lit "no wallet account derived for chain '" ++ WalletChain_as_str chain ++ lit "'")).

Definition require_evm_account : io str :=
  account ← require_account WEvm;
  mret (wa_address account).

Definition explorer_url (chain : WalletChain) (tx_hash : str) : io (option str) :=
  cluster ← solana_cluster;
  mret (explorer_tx_url chain cluster tx_hash).

(** * Validation and formatting *)

Definition validate_amount (raw : str) : res str Z :=
  let trimmed := trim raw in
  if is_nil trimmed then Err (lit "amount is empty")
  else map_err (fun _ => lit "amount '" ++ trimmed ++ lit "' is not a valid non-negative integer") (parse_u128 trimmed).

(** All four address formats are compiled in. *)
Definition validate_address `{Codecs} (chain : WalletChain) (addr : str) : res str str :=
  map_err addr_error_text (address_validate (fun _ => true) (to_chain chain) addr).

Definition validate_calldata (data : str) : res str str :=
  let trimmed := trim data in
  match strip_prefix trimmed (lit "0x") with
  | None => Err (lit "calldata must be 0x-prefixed hex")
  | Some body =>
      if negb (length body mod 2 =? 0)%nat then Err (lit "calldata hex must be byte-aligned")
      else if negb (forallb (char_is is_ascii_hexdigit) (chars body)) then Err (lit "calldata contains non-hex characters")
      else Ok trimmed
  end.

(** [&digits[..split]] cuts ASCII digits, so never inside a character. *)
Definition format_amount (raw decimals : Z) : str :=
  if decimals =? 0 then show_dec raw
  else
    let digits := show_dec raw in
    let width := Z.to_nat decimals in
    if (length digits <=? width)%nat then lit "0." ++ pad_left_zeros width digits
    else
      let split := (length digits - width)%nat in
      take split digits ++ lit "." ++ drop split digits.

Definition estimated_fee_raw (chain : WalletChain) (kind : PreparedKind) : str :=
  show_dec match chain, kind with
           | WEvm, NativeTransferKind => 21000 * 30000000000
           | WEvm, TokenTransferKind => 65000 * 30000000000
           | WBtc, _ | WSolana, _ => 5000
           | WTron, NativeTransferKind => 1000000
           | WTron, TokenTransferKind => 15000000
           end.

(** A leading [+] passes [from_str_radix]. *)
Definition hex_to_u128 (hex_value : str) : res str Z :=
  let normalized := without_prefix (trim hex_value) (lit "0x") in
  map_err (fun e => lit "invalid hex quantity '" ++ hex_value ++ lit "': " ++ parse_int_error_text e)
    (parse_unsigned 16 u128_max normalized).

Definition u128_to_hex (value : Z) : str := lit "0x" ++ show_hex value.

Definition hex_to_bytes `{Codecs} (value : str) : res str (list Z) :=
  let normalized := without_prefix (trim value) (lit "0x") in
  map_err (fun e => lit "invalid hex bytes '" ++ value ++ lit "': " ++ e) (hex_decode normalized).
