(* ===== verification/Eip712.v ===== *)
(** EIP-712 hashing, the ERC-20 call and the x402 EVM payment
    ([crates/tinywallet-x402/src/eip712/mod.rs], [abi/mod.rs] and
    [crypto/evm_payment.rs], [crates/tinywallet-web3/src/crypto/abi/mod.rs]).

    keccak-256 and the hex codec are [Codecs]; the wallet that signs is the
    class [PaymentSigner], the clock and the nonce are arguments.  Shown here:
    the decimal reader is exact; equal digests mean equal authorizations or an
    explicit hash collision; the payload sent is the one that was signed; and
    both encoders of ERC-20 calls agree. *)

From stdpp Require Import base list strings numbers.
From S2P Require Import Prelude Text Chain Codec Addr EvmTx Json X402Wire.

(** * EIP-712 *)

Definition DOMAIN_TYPE_HASH : list Z :=
  [139; 115; 195; 198; 155; 184; 254; 61; 81; 46; 204; 76; 247; 89; 204; 121;
   35; 159; 123; 23; 155; 15; 250; 202; 169; 167; 93; 82; 43; 57; 64; 15].

Definition TRANSFER_WITH_AUTHORIZATION_TYPE : str :=
  lit "TransferWithAuthorization(address from,address to,uint256 value,uint256 validAfter,uint256 validBefore,bytes32 nonce)".

Definition u256_from_u64 (value : Z) : list Z := replicate 24 0 ++ be_bytes 8 value.

(** [InvalidAmount], the only error, holds its reason; [Display]. *)
Definition invalid_amount (reason : str) : str := lit "invalid amount: " ++ reason.

(** [out * 10 + carry] over the bytes, the least significant first. *)
Fixpoint times_ten_plus (carry : Z) (le : list Z) : list Z * Z :=
  match le with
  | [] => ([], carry)
  | byte :: le =>
      let product := byte * 10 + carry in
      let '(le, carry) := times_ten_plus (Z.shiftr product 8) le in
      (Z.land product 255 :: le, carry)
  end.

Fixpoint decimal_loop (out : list Z) (digits : str) : res str (list Z) :=
  match digits with
  | [] => Ok out
  | b :: digits =>
      let '(le, carry) := times_ten_plus (b - 48) (rev out) in
      if negb (carry =? 0) then Err (lit "value does not fit in 256 bits")
      else decimal_loop (rev le) digits
  end.

Definition u256_from_decimal (value : str) : res str (list Z) :=
  let trimmed := trim value in
  if is_nil trimmed || negb (forallb is_ascii_digit trimmed) then Err (lit "expected a base-10 integer")
  else decimal_loop (replicate 32 0) trimmed.

Definition left_pad_address (address : list Z) : list Z := replicate 12 0 ++ address.

Section Hashes.
Context `{Codecs}.

Definition domain_separator (verifying_contract : list Z) (chain_id : Z) (name version : str) : list Z :=
  keccak256 (DOMAIN_TYPE_HASH ++ keccak256 name ++ keccak256 version ++ u256_from_u64 chain_id
             ++ left_pad_address verifying_contract).

Definition transfer_with_authorization_hash (from to value valid_after valid_before nonce : list Z) : list Z :=
  keccak256 (keccak256 TRANSFER_WITH_AUTHORIZATION_TYPE ++ left_pad_address from ++ left_pad_address to
             ++ value ++ valid_after ++ valid_before ++ nonce).

Definition signing_digest (domain_separator struct_hash : list Z) : list Z :=
  keccak256 ([25; 1] ++ domain_separator ++ struct_hash).
End Hashes.

(** * ERC-20 call data *)

Inductive abi_error := InvalidRecipient (reason : str) | AbiInvalidAmount (reason : str).
#[export] Instance abi_error_eq_dec : EqDecision abi_error.
Proof. solve_decision. Defined.

Definition abi_error_text (e : abi_error) : str :=
  match e with
  | InvalidRecipient reason => lit "invalid recipient: " ++ reason
  | AbiInvalidAmount reason => lit "invalid amount: " ++ reason
  end.

Definition TRANSFER_SELECTOR : list Z := [169; 5; 156; 187].

(** One byte of [decode_evm_address]: [body.get(..)] is [None] off the end and
    off a character boundary. *)
Definition address_byte (body : str) (index : nat) : res abi_error Z :=
  pair ← ok_or (str_get body (index * 2) (index * 2 + 2)) (InvalidRecipient (lit "address is shorter than 20 bytes"));
  map_err (fun _ => InvalidRecipient (lit "address is not hex")) (parse_hex_u8 pair).

Definition decode_evm_address (address : str) : res abi_error (list Z) :=
  collect (address_byte (without_prefix address (lit "0x"))) (seq 0 20).

(** [display] renders the address error. *)
Definition abi_encode_erc20_transfer (display : addr_error -> str) (to amount : str) : res abi_error str :=
  recipient ← map_err (fun e => InvalidRecipient (display e)) (evm_validate to);
  bytes ← decode_evm_address recipient;
  value ← map_err (fun e => AbiInvalidAmount (invalid_amount e)) (u256_from_decimal amount);
  Ok (lit "0x" ++ hex_string TRANSFER_SELECTOR ++ hex_string (left_pad_address bytes) ++ hex_string value).

(** The wallet engine's wording of the same errors. *)
Definition abi_flatten (error : abi_error) (to_address amount_raw : str) : str :=
  match error with
  | InvalidRecipient _ => lit "invalid EVM recipient address '" ++ to_address ++ lit "': " ++ abi_error_text error
  | AbiInvalidAmount _ => lit "amount '" ++ amount_raw ++ lit "' is not a valid non-negative integer"
  end.

Definition engine_encode_erc20_transfer (display : addr_error -> str) (to_address amount_raw : str) : res str str :=
  map_err (fun e => abi_flatten e to_address amount_raw) (abi_encode_erc20_transfer display to_address amount_raw).

(** * The EVM payment *)

Inductive SignScheme := Ed25519 | Secp256k1Digest.

Record PaymentAccount := mkAccount { pa_address : str; pa_pubkey : option (list Z) }.

(** The host's wallet. *)
Class PaymentSigner := {
  account : PaymentChain -> res str PaymentAccount;
  sign : PaymentChain -> list Z -> SignScheme -> res str (list Z)
}.

Definition eip712_signature (signature : list Z) : res X402Error (list Z) :=
  if negb (length signature =? 65)%nat
  then Err (Wallet (lit "the wallet module returned a malformed signature"))
  else
    v ← ok_or (checked_add 255 (nth 64 signature 0) 27) (Wallet (lit "recovery id out of range"));
    Ok (take 64 signature ++ [v]).

Record EvmPaymentAuthorization := mkEvmAuth {
  digest : list Z;
  nonce : list Z;
  valid_after_secs : Z;
  valid_before_secs : Z
}.

Section Payment.
Context `{Codecs}.
(** [Display] of an address error. *)
Context (display : addr_error -> str).

Definition invalid_evm_address (address : str) : X402Error :=
  Protocol (lit "invalid EVM address '" ++ address ++ lit "'").

Definition evm_address_bytes (address : str) : res X402Error (list Z) :=
  validated ← map_err (fun e => Protocol (lit "invalid EVM address '" ++ address ++ lit "': " ++ display e))
                (evm_validate address);
  let body := without_prefix validated (lit "0x") in
  match hex_decode body with
  | Ok bytes => if (length bytes =? 20)%nat then Ok bytes else Err (invalid_evm_address address)
  | Err _ => Err (invalid_evm_address address)
  | Panic => Panic
  end.

Definition not_evm (req : PaymentRequirements) : X402Error :=
  Protocol (lit "not an EVM network: " ++ network req).

(** [now] is the clock in seconds, [fresh] the nonce [fresh_nonce] gives. *)
Definition evm_payment_authorization (from_address : str) (req : PaymentRequirements) (now : Z) (fresh : list Z)
  : res X402Error EvmPaymentAuthorization :=
  chain_id ← ok_or (evm_chain_id req) (not_evm req);
  amount_bytes ← map_err (fun e => Protocol (lit "invalid amount '" ++ amount req ++ lit "': " ++ invalid_amount e))
                   (u256_from_decimal (amount req));
  from_bytes ← evm_address_bytes from_address;
  to_bytes ← evm_address_bytes (pay_to req);
  token_address ← evm_address_bytes (asset req);
  let valid_before_secs := sat_add u64_max now (max_timeout_seconds req) in
  let domain_name := default (lit "USD Coin") (e ← extra req; extra_name e) in
  let domain_version := default (lit "2") (e ← extra req; extra_version e) in
  let domain := domain_separator token_address chain_id domain_name domain_version in
  let struct_hash := transfer_with_authorization_hash from_bytes to_bytes amount_bytes
                       (u256_from_u64 0) (u256_from_u64 valid_before_secs) fresh in
  Ok (mkEvmAuth (signing_digest domain struct_hash) fresh 0 valid_before_secs).

Definition evm_payment_payload (authorization : EvmPaymentAuthorization) (sig_bytes : list Z) (from_address : str)
    (challenge : PaymentRequired) (req : PaymentRequirements) : res X402Error PaymentPayload :=
  chain_id ← ok_or (evm_chain_id req) (not_evm req);
  let sig_hex := lit "0x" ++ hex_encode sig_bytes in
  let nonce_hex := lit "0x" ++ hex_encode (nonce authorization) in
  Ok (mkPayload X402_VERSION (Some (resource challenge)) req
        (EvmProof sig_hex
           (mkAuthorization from_address (pay_to req) (amount req)
              (show_dec (valid_after_secs authorization)) (show_dec (valid_before_secs authorization)) nonce_hex)) []).

Definition build_evm_payment `{PaymentSigner} (challenge : PaymentRequired) (req : PaymentRequirements)
    (now : Z) (fresh : list Z) : res X402Error PaymentPayload :=
  account ← map_err Wallet (account PayEvm);
  authorization ← evm_payment_authorization (pa_address account) req now fresh;
  signature ← map_err (fun e => Wallet (lit "sign EIP-3009: " ++ e)) (sign PayEvm (digest authorization) Secp256k1Digest);
  sig_bytes ← eip712_signature signature;
  evm_payment_payload authorization sig_bytes (pa_address account) challenge req.
End Payment.

(** * The decimal reader *)

(** The number a text of decimal digits stands for. *)
Definition decimal_value (digits : str) : Z := digits_value 10 0 ((fun b => b - 48) <$> digits).

Lemma times_ten_plus_spec carry le :
  bytes_ok le -> 0 <= carry ->
  let '(out, carry') := times_ten_plus carry le in
  length out = length le /\ bytes_ok out /\ 0 <= carry' /\
  le_value out + 256 ^ Z.of_nat (length le) * carry' = le_value le * 10 + carry.
Proof.
  intros Hle. revert carry. induction Hle as [|b le Hb Hle IH]; intros carry Hc.
  - cbn. split_and!; [reflexivity | constructor | lia | lia].
  - cbn [times_ten_plus]. unfold is_u8 in Hb.
    specialize (IH (Z.shiftr (b * 10 + carry) 8)).
    rewrite Z.shiftr_div_pow2 in * by lia. change (2 ^ 8) with 256 in *.
    assert (Hs : 0 <= (b * 10 + carry) / 256) by (apply Z.div_pos; lia). specialize (IH Hs).
    destruct (times_ten_plus _ le) as [out carry']. destruct IH as (Hl & Ho & Hc' & Hv).
    change 255 with (Z.ones 8). rewrite Z.land_ones by lia. change (2 ^ 8) with 256.
    pose proof (Z.mod_pos_bound (b * 10 + carry) 256 ltac:(lia)).
    split_and!.
    + cbn. congruence.
    + constructor; [unfold is_u8; lia | exact Ho].
    + exact Hc'.
    + cbn [length le_value]. rewrite Nat2Z.inj_succ, Z.pow_succ_r by lia.
      pose proof (Z.div_mod (b * 10 + carry) 256 ltac:(lia)). nia.
Qed.

Lemma digits_value_cons radix acc d ds :
  digits_value radix acc (d :: ds) = digits_value radix (acc * radix + d) ds.
Proof. reflexivity. Qed.

Lemma decimal_loop_spec out digits :
  bytes_ok out -> length out = 32%nat -> Forall (fun b => is_ascii_digit b = true) digits ->
  let v := digits_value 10 (be_value out) ((fun b => b - 48) <$> digits) in
  decimal_loop out digits =
    if v <? 2 ^ 256 then Ok (be_bytes 32 v) else Err (lit "value does not fit in 256 bits").
Proof.
  revert out. induction digits as [|b digits IH]; intros out Ho Hl Hd; cbn zeta.
  - pose proof (be_value_bound out Ho) as Hb. rewrite Hl in Hb. cbn [fmap list_fmap]. unfold digits_value. cbn [foldl].
    replace (be_value out <? 2 ^ 256) with true by (symmetry; apply Z.ltb_lt; apply Hb).
    change (Ok (E := str) out = Ok (be_bytes 32 (be_value out))).
    rewrite <- (be_bytes_value out Ho) at 1. rewrite Hl. reflexivity.
  - inversion Hd as [|? ? Hbd Hd']; subst. unfold is_ascii_digit in Hbd. bool_to_prop.
    pose proof (times_ten_plus_spec (b - 48) (rev out)) as Hs. cbn [decimal_loop].
    destruct (times_ten_plus (b - 48) (rev out)) as [le carry].
    destruct Hs as (Hll & Hlo & Hc & Hv); [apply Forall_rev, Ho | lia|].
    rewrite length_rev, Hl in *. change (le_value (rev out)) with (be_value out) in Hv.
    change (256 ^ Z.of_nat 32) with (2 ^ 256) in Hv.
    rewrite fmap_cons, digits_value_cons.
    assert (Hds : digits_ok 10 ((fun b => b - 48) <$> digits)).
    { apply Forall_fmap. eapply list.Forall_impl; [exact Hd'|]. intros c Hc'. unfold is_ascii_digit in Hc'.
      bool_to_prop. cbn. lia. }
    pose proof (le_value_bound le Hlo) as Hb. rewrite Hll in Hb. change (256 ^ Z.of_nat 32) with (2 ^ 256) in Hb.
    destruct (Z.eqb_spec carry 0) as [->|Hne]; cbn [negb].
    + rewrite IH; [| apply Forall_rev, Hlo | rewrite length_rev; exact Hll | exact Hd'].
      unfold be_value at 1 2. rewrite rev_involutive. replace (le_value le) with (be_value out * 10 + (b - 48)) by lia.
      reflexivity.
    + pose proof (digits_value_mono 10 (be_value out * 10 + (b - 48)) _ ltac:(lia) ltac:(nia) Hds).
      replace (_ <? 2 ^ 256) with false by (symmetry; apply Z.ltb_ge; nia). reflexivity.
Qed.

Lemma digits_text t : Forall (fun b => is_ascii_digit b = true) t <-> forallb is_ascii_digit t = true.
Proof. rewrite forallb_forall, list.Forall_forall. setoid_rewrite list_elem_of_In. reflexivity. Qed.

(** The trimmed text is a decimal numeral of value [v]. *)
Definition decimal_text (s : str) (v : Z) : Prop :=
  trim s <> [] /\ Forall (fun b => is_ascii_digit b = true) (trim s) /\ v = decimal_value (trim s).

Lemma is_nil_false {A} (l : list A) : is_nil l = false <-> l <> [].
Proof. destruct l; split; cbn; congruence. Qed.

Lemma u256_from_decimal_form s :
  u256_from_decimal s =
    if is_nil (trim s) || negb (forallb is_ascii_digit (trim s)) then Err (lit "expected a base-10 integer")
    else if decimal_value (trim s) <? 2 ^ 256 then Ok (be_bytes 32 (decimal_value (trim s)))
    else Err (lit "value does not fit in 256 bits").
Proof.
  unfold u256_from_decimal. destruct (is_nil (trim s) || _) eqn:E; [reflexivity|].
  apply orb_false_elim in E as [_ E]. apply negb_false_iff, digits_text in E.
  rewrite decimal_loop_spec; [|bytes_closed | reflexivity | exact E]. reflexivity.
Qed.

Lemma decimal_nonneg t : Forall (fun b => is_ascii_digit b = true) t -> 0 <= decimal_value t.
Proof.
  intros Hd. apply (digits_value_mono 10 0); [lia.. |]. apply Forall_fmap.
  eapply list.Forall_impl; [exact Hd|]. intros c Hc. unfold is_ascii_digit in Hc. bool_to_prop. cbn. lia.
Qed.

Lemma u256_from_decimal_ok s w :
  u256_from_decimal s = Ok w <-> exists v, decimal_text s v /\ v < 2 ^ 256 /\ w = be_bytes 32 v.
Proof.
  rewrite u256_from_decimal_form. unfold decimal_text. setoid_rewrite digits_text; setoid_rewrite <- is_nil_false. split.
  - destruct (is_nil _); [discriminate|]. destruct (forallb _ _); [|discriminate]. cbn [orb negb].
    destruct (Z.ltb_spec (decimal_value (trim s)) (2 ^ 256)); [|discriminate].
    intros [= <-]. eexists. split; [split_and!; reflexivity | split; [assumption | reflexivity]].
  - intros (v & (-> & -> & ->) & Hv & ->). cbn [orb negb].
    rewrite (proj2 (Z.ltb_lt _ _) Hv). reflexivity.
Qed.

Lemma show_dec_decimal_text v : is_u128 v -> decimal_text (show_dec v) v.
Proof.
  intros Hv. pose proof (show_dec_digits v Hv) as Hd.
  destruct (show_radix_digits 10 v ltac:(lia) Hv) as (ds & E & Hds & Hne & Hval).
  assert (Hg : graphic (show_dec v)).
  { eapply list.Forall_impl; [exact Hd|]. intros b Hb. unfold is_graphic, within. cbv beta in Hb. lia. }
  unfold decimal_text. rewrite (trim_graphic _ Hg). split_and!.
  - unfold show_dec. rewrite E. destruct ds; [congruence | discriminate].
  - eapply list.Forall_impl; [exact Hd|]. intros b Hb. unfold is_ascii_digit. cbv beta in Hb. lia.
  - unfold decimal_value, show_dec. rewrite E, <- list_fmap_compose. rewrite <- Hval at 1. f_equal.
    rewrite <- (list_fmap_id ds) at 1. apply list_fmap_ext. intros i d Hd'. cbn.
    apply (Forall_lookup_1 _ _ _ _ Hds) in Hd'. unfold digit_char. replace (d <? 10) with true by lia. lia.
Qed.

(** Reading a decimal amount is exact: leading and trailing space aside,
    a numeral below 2^256 gives its 32 big-endian bytes, a larger one is
    refused, anything else is refused; nothing wraps around or is cut, and
    every amount the wallet prints reads back as itself. *)
Theorem u256_from_decimal_exact s :
  (forall w, u256_from_decimal s = Ok w <->
     trim s <> [] /\ Forall (fun b => is_ascii_digit b = true) (trim s) /\
     length w = 32%nat /\ bytes_ok w /\ be_value w = decimal_value (trim s)) /\
  u256_from_decimal s <> Panic /\
  (forall v, is_u128 v -> u256_from_decimal (show_dec v) = Ok (be_bytes 32 v)).
Proof.
  split; [|split].
  - intros w. rewrite u256_from_decimal_ok. split.
    + intros (v & (Hne & Hd & ->) & Hv & ->). split_and!; [exact Hne | exact Hd | | | ].
      * apply be_bytes_length.
      * apply be_bytes_ok.
      * apply be_value_bytes. change (256 ^ Z.of_nat 32) with (2 ^ 256). split; [apply decimal_nonneg, Hd | exact Hv].
    + intros (Hne & Hd & Hl & Ho & Hv). exists (decimal_value (trim s)). split; [split_and!; auto|].
      rewrite <- Hv. split; [|rewrite <- Hl; symmetry; apply be_bytes_value, Ho].
      pose proof (be_value_bound w Ho) as Hb. rewrite Hl in Hb. apply Hb.
  - rewrite u256_from_decimal_form. destruct (is_nil _ || _); [discriminate|]. destruct (_ <? _); discriminate.
  - intros v Hv. apply u256_from_decimal_ok. exists v. split; [apply show_dec_decimal_text, Hv|].
    split; [unfold is_u128, u128_max in Hv; lia | reflexivity].
Qed.

(** Two to the 256, and one less, as text. *)
Lemma u256_from_decimal_exact_witness :
  let s := lit " 115792089237316195423570985008687907853269984665640564039457584007913129639935" in
  u256_from_decimal s = Ok (replicate 32 255) /\ u256_from_decimal s <> Panic.
Proof.
  cbn zeta. destruct (u256_from_decimal_exact (lit " 115792089237316195423570985008687907853269984665640564039457584007913129639935"))
    as (H & Hp & _). split; [|exact Hp]. apply H. split_and!.
  - vm_compute. discriminate.
  - apply digits_text. vm_compute. reflexivity.
  - reflexivity.
  - bytes_closed.
  - vm_compute. reflexivity.
Defined.

(** * What a digest binds *)

(** A token transfer as the token's domain and the authorization state it. *)
Record Eip3009 := mkEip3009 {
  e_token : list Z; e_chain : Z; e_name : str; e_version : str;
  e_from : list Z; e_to : list Z; e_value : list Z; e_after : list Z; e_before : list Z; e_nonce : list Z
}.

Definition eip3009_ok (a : Eip3009) : Prop :=
  is_u64 (e_chain a) /\ length (e_token a) = 20%nat /\ length (e_from a) = 20%nat /\ length (e_to a) = 20%nat /\
  length (e_value a) = 32%nat /\ length (e_after a) = 32%nat /\ length (e_before a) = 32%nat.

Section Binding.
Context `{CodecLaws}.

Definition domain_of (a : Eip3009) : list Z := domain_separator (e_token a) (e_chain a) (e_name a) (e_version a).
Definition struct_of (a : Eip3009) : list Z :=
  transfer_with_authorization_hash (e_from a) (e_to a) (e_value a) (e_after a) (e_before a) (e_nonce a).
Definition digest_of (a : Eip3009) : list Z := signing_digest (domain_of a) (struct_of a).

Definition domain_preimage (a : Eip3009) : list Z :=
  DOMAIN_TYPE_HASH ++ keccak256 (e_name a) ++ keccak256 (e_version a) ++ u256_from_u64 (e_chain a)
  ++ left_pad_address (e_token a).
Definition struct_preimage (a : Eip3009) : list Z :=
  keccak256 TRANSFER_WITH_AUTHORIZATION_TYPE ++ left_pad_address (e_from a) ++ left_pad_address (e_to a)
  ++ e_value a ++ e_after a ++ e_before a ++ e_nonce a.
Definition digest_preimage (a : Eip3009) : list Z := [25; 1] ++ domain_of a ++ struct_of a.

(** Two different messages with one hash. *)
Definition collision (p q : list Z) : Prop := p <> q /\ keccak256 p = keccak256 q.

Lemma same_or_collision p q : keccak256 p = keccak256 q -> p = q \/ collision p q.
Proof. intros E. destruct (decide (p = q)); [left | right; split]; assumption. Qed.

Lemma domain_preimage_inj a b :
  eip3009_ok a -> eip3009_ok b -> domain_preimage a = domain_preimage b ->
  e_token a = e_token b /\ e_chain a = e_chain b /\
  keccak256 (e_name a) = keccak256 (e_name b) /\ keccak256 (e_version a) = keccak256 (e_version b).
Proof.
  intros (Ha & _) (Hb & _) E. unfold domain_preimage in E. apply app_inv_head in E.
  apply app_inj_1 in E as [En E]; [|rewrite !keccak256_length; reflexivity].
  apply app_inj_1 in E as [Ev E]; [|rewrite !keccak256_length; reflexivity].
  unfold u256_from_u64, left_pad_address in E.
  apply app_inj_1 in E as [Ec E]; [|rewrite !length_app, !be_bytes_length; reflexivity].
  apply app_inv_head in Ec, E. split_and!; try assumption.
  rewrite <- (be_value_bytes 8 (e_chain a)), <- (be_value_bytes 8 (e_chain b)) by (apply u64_be; assumption).
  congruence.
Qed.

Lemma struct_preimage_inj a b :
  eip3009_ok a -> eip3009_ok b -> struct_preimage a = struct_preimage b ->
  e_from a = e_from b /\ e_to a = e_to b /\ e_value a = e_value b /\
  e_after a = e_after b /\ e_before a = e_before b /\ e_nonce a = e_nonce b.
Proof.
  intros (_ & _ & Hfa & Hta & Hva & Haa & Hba) (_ & _ & Hfb & Htb & Hvb & Hab & Hbb) E.
  unfold struct_preimage, left_pad_address in E. apply app_inv_head in E.
  apply app_inj_1 in E as [Ef E]; [|rewrite !length_app; congruence].
  apply app_inj_1 in E as [Et E]; [|rewrite !length_app; congruence].
  apply app_inv_head in Ef, Et.
  do 3 (apply app_inj_1 in E as [? E]; [|congruence]). split_and!; assumption.
Qed.

Lemma digest_preimage_inj a b :
  digest_preimage a = digest_preimage b -> domain_of a = domain_of b /\ struct_of a = struct_of b.
Proof.
  unfold digest_preimage. intros E. apply app_inv_head in E.
  apply app_inj_1 in E; [exact E | unfold domain_of, domain_separator; rewrite !keccak256_length; reflexivity].
Qed.
End Binding.

(** What an EIP-712 signature binds.  Two authorizations with one signing
    digest are the same in every field (token contract, chain, domain name and
    version, payer, payee, value, validity window, nonce), unless their own
    preimages exhibit a keccak-256 collision. *)
Theorem signing_digest_binds `{CodecLaws} a b :
  eip3009_ok a -> eip3009_ok b -> digest_of a = digest_of b ->
  a = b \/ collision (digest_preimage a) (digest_preimage b) \/ collision (domain_preimage a) (domain_preimage b) \/
  collision (struct_preimage a) (struct_preimage b) \/ collision (e_name a) (e_name b) \/
  collision (e_version a) (e_version b).
Proof.
  intros Ha Hb E. apply same_or_collision in E as [E|E]; [|tauto].
  apply (digest_preimage_inj a b) in E as [Ed Es].
  apply (same_or_collision (domain_preimage a)) in Ed as [Ed|Ed]; [|tauto].
  apply (same_or_collision (struct_preimage a)) in Es as [Es|Es]; [|tauto].
  apply domain_preimage_inj in Ed as (? & ? & En & Ev); [|assumption..].
  apply struct_preimage_inj in Es; [|assumption..].
  apply same_or_collision in En as [En|En]; [|tauto]. apply same_or_collision in Ev as [Ev|Ev]; [|tauto].
  left. destruct a, b. cbn in *. intuition congruence.
Qed.

(** A payment of one USDC. *)
Definition example_eip3009 (nonce : list Z) : Eip3009 :=
  mkEip3009 (replicate 20 7) 8453 (lit "USD Coin") (lit "2") (replicate 20 1) (replicate 20 2)
    (be_bytes 32 1000000) (u256_from_u64 0) (u256_from_u64 1700000000) nonce.

Lemma signing_digest_binds_witness :
  let a := example_eip3009 (replicate 32 5) in
  eip3009_ok a /\
  (a = a \/ collision (digest_preimage a) (digest_preimage a) \/ collision (domain_preimage a) (domain_preimage a) \/
   collision (struct_preimage a) (struct_preimage a) \/ collision (e_name a) (e_name a) \/
   collision (e_version a) (e_version a)).
Proof.
  cbn zeta. assert (Hok : eip3009_ok (example_eip3009 (replicate 32 5))) by (split; [range_closed | repeat split]).
  split; [exact Hok|].
  exact (signing_digest_binds (example_eip3009 (replicate 32 5)) (example_eip3009 (replicate 32 5)) Hok Hok eq_refl).
Defined.

(** * The call both encoders make *)

Lemma address_byte_ok body bs :
  hex_text body -> length body = 40%nat -> length bs = 20%nat -> bytes_ok bs -> hex_string bs = ascii_lowercase body ->
  collect (address_byte body) (seq 0 20) = Ok bs.
Proof.
  intros Hh Hl Hlen Hok Hs. destruct (hex_text_bytes body 20 Hh Hl) as (bs' & Hlen' & Hok' & Hs' & Hi).
  assert (bs' = bs) as -> by (apply hex_string_inj; congruence).
  apply collect_ok, Forall2_same_length_lookup. split; [rewrite length_seq; congruence|].
  intros i x b Hx Hb. apply lookup_seq in Hx as [-> Hi']. cbn [Nat.add].
  unfold address_byte. rewrite str_get_ascii; [| |lia|lia].
  - replace (i * 2 + 2 - i * 2)%nat with 2%nat by lia. rewrite Nat.mul_comm.
    cbn [ok_or mbind res_bind]. rewrite (Hi i b Hb). reflexivity.
  - eapply list.Forall_impl; [exact Hh|]. apply hexdigit_ascii.
Qed.

Lemma decode_evm_address_ok t body bs :
  evm_address t body -> length bs = 20%nat -> bytes_ok bs -> hex_string bs = ascii_lowercase body ->
  decode_evm_address t = Ok bs.
Proof.
  intros Ha Hl Hok Hs. unfold decode_evm_address. fold (evm_strip_prefix t).
  rewrite (evm_address_strip _ _ Ha). destruct Ha as (_ & Hb & Hh). apply address_byte_ok; assumption.
Qed.

Lemma address_bytes_exists t body :
  evm_address t body -> exists bs, length bs = 20%nat /\ bytes_ok bs /\ hex_string bs = ascii_lowercase body.
Proof.
  intros (_ & Hl & Hh). destruct (hex_text_bytes body 20 Hh Hl) as (bs & ? & ? & ? & _). eauto.
Qed.

Lemma abi_encode_ok display a m s :
  abi_encode_erc20_transfer display a m = Ok s <->
  exists bs w, address_bytes a bs /\ u256_from_decimal m = Ok w /\
    s = lit "0x" ++ hex_string (TRANSFER_SELECTOR ++ left_pad_address bs ++ w).
Proof.
  unfold abi_encode_erc20_transfer. split.
  - intros H. apply bind_ok in H as (r & Hr & H). apply map_err_ok, evm_validate_ok in Hr as (-> & body & Hb).
    destruct (address_bytes_exists _ _ Hb) as (bs & Hl & Hok & Hs).
    rewrite (decode_evm_address_ok _ _ _ Hb Hl Hok Hs) in H. cbn [mbind res_bind] in H.
    apply bind_ok in H as (w & Hw & [= <-]). apply map_err_ok in Hw. exists bs, w.
    split; [exists body; auto|]. split; [exact Hw|]. rewrite !hex_string_app. reflexivity.
  - intros (bs & w & (body & Hb & Hl & Hok & Hs) & Hw & ->).
    rewrite (proj2 (evm_validate_ok a (trim a))) by eauto. cbn [map_err mbind res_bind].
    rewrite (decode_evm_address_ok _ _ _ Hb Hl Hok Hs), Hw. cbn [map_err mbind res_bind].
    rewrite !hex_string_app. reflexivity.
Qed.

(** The two encoders of an ERC-20 transfer agree.  For every recipient and
    every numeral of a 128-bit amount, the call data the payment side and the
    wallet engine write is the hex text of the bytes the transaction builder
    writes, and each refuses what the other refuses. *)
Theorem erc20_encoders_agree display a m v s :
  decimal_text m v -> is_u128 v ->
  (abi_encode_erc20_transfer display a m = Ok s <->
   exists d, encode_erc20_transfer a v = Ok d /\ s = lit "0x" ++ hex_string d) /\
  (engine_encode_erc20_transfer display a m = Ok s <-> abi_encode_erc20_transfer display a m = Ok s).
Proof.
  intros Hm Hv. split; [|unfold engine_encode_erc20_transfer; apply map_err_ok].
  assert (Hw : u256_from_decimal m = Ok (be_bytes 32 v)).
  { apply u256_from_decimal_ok. exists v. unfold is_u128, u128_max in Hv. split_and!; [exact Hm | lia | reflexivity]. }
  assert (Hd : forall d, encode_erc20_transfer a v = Ok d <->
    exists bs, address_bytes a bs /\ d = TRANSFER_SELECTOR ++ left_pad_address bs ++ be_bytes 32 v).
  { intros d. pose proof (recipient_bytes a a) as [Hb _]. unfold encode_erc20_transfer, left_pad_address.
    pose proof (be_bytes_pad 16 16 v (u128_be v Hv)) as Hpad. cbn [Nat.add] in Hpad. split.
    - intros H. apply bind_ok in H as (x & Hx & H). apply bind_ok in H as (bs & Hbs & [= <-]).
      exists bs. split; [apply Hb; rewrite Hx; exact Hbs|].
      rewrite <- app_assoc, Hpad. reflexivity.
    - intros (bs & Hbs & ->). apply Hb in Hbs. apply bind_ok in Hbs as (x & Hx & Hbs).
      rewrite Hx. cbn [mbind res_bind]. rewrite Hbs, <- app_assoc, Hpad. reflexivity. }
  rewrite abi_encode_ok, Hw. setoid_rewrite Hd. split.
  - intros (bs & w & Hbs & [= <-] & ->). eexists. split; [exists bs; split; [exact Hbs | reflexivity] | reflexivity].
  - intros (d & (bs & Hbs & ->) & ->). exists bs, (be_bytes 32 v). auto.
Qed.

Lemma erc20_encoders_agree_witness :
  let a := lit "0x1111111111111111111111111111111111111111" in
  abi_encode_erc20_transfer (fun _ => []) a (lit "1000000") =
    Ok (lit "0x" ++ hex_string (match encode_erc20_transfer a 1000000 with Ok d => d | _ => [] end)).
Proof.
  cbn zeta.
  assert (Ht : decimal_text (lit "1000000") 1000000).
  { split_and!; [vm_compute; discriminate | apply digits_text; vm_compute; reflexivity | vm_compute; reflexivity]. }
  destruct (erc20_encoders_agree (fun _ => []) (lit "0x1111111111111111111111111111111111111111") (lit "1000000") 1000000
    (lit "0x" ++ hex_string (match encode_erc20_transfer (lit "0x1111111111111111111111111111111111111111") 1000000 with
                             | Ok d => d | _ => [] end)) Ht ltac:(range_closed)) as [[_ H] _].
  apply H. eexists. split; [vm_compute; reflexivity | vm_compute; reflexivity].
Defined.

(** * The payment that is sent is the one that was signed *)

Section PaymentFacts.
Context `{CodecLaws} (display : addr_error -> str).

Lemma evm_address_bytes_ok a bs : evm_address_bytes display a = Ok bs <-> address_bytes a bs.
Proof.
  unfold evm_address_bytes. split.
  - intros E. apply bind_ok in E as (t & Ht & E). apply map_err_ok, evm_validate_ok in Ht as (-> & body & Hb).
    fold (evm_strip_prefix (trim a)) in E. rewrite (evm_address_strip _ _ Hb) in E.
    destruct (hex_decode body) as [x|e|] eqn:Ex; try discriminate.
    destruct (Nat.eqb_spec (length x) 20); [|discriminate]. injection E as <-.
    apply hex_decode_ok in Ex as [? ?]. exists body. auto.
  - intros (body & Hb & Hl & Hok & Hs). rewrite (proj2 (evm_validate_ok a (trim a))) by eauto.
    cbn [map_err mbind res_bind]. fold (evm_strip_prefix (trim a)). rewrite (evm_address_strip _ _ Hb).
    rewrite (hex_decode_text _ _ Hok Hs), Hl. reflexivity.
Qed.

Lemma u256_from_u64_be v : is_u64 v -> u256_from_u64 v = be_bytes 32 v.
Proof. intros Hv. symmetry. apply (be_bytes_pad 24 8), u64_be, Hv. Qed.

Lemma u256_from_u64_decimal v : is_u64 v -> u256_from_decimal (show_dec v) = Ok (u256_from_u64 v).
Proof.
  intros Hv. rewrite u256_from_u64_be by exact Hv. apply u256_from_decimal_ok. exists v.
  split; [apply show_dec_decimal_text, is_u64_u128, Hv|].
  unfold is_u64, u64_max in Hv. split; [lia | reflexivity].
Qed.

(** The token domain and the transfer a requirement asks of a payer. *)
Definition asked (req : PaymentRequirements) (payer : str) (a : Eip3009) : Prop :=
  evm_chain_id req = Some (e_chain a) /\ address_bytes (asset req) (e_token a) /\
  e_name a = default (lit "USD Coin") (e ← extra req; extra_name e) /\
  e_version a = default (lit "2") (e ← extra req; extra_version e) /\
  address_bytes payer (e_from a) /\ address_bytes (pay_to req) (e_to a) /\
  u256_from_decimal (amount req) = Ok (e_value a).

Definition valid_until (req : PaymentRequirements) (now : Z) : Z := Z.min (now + max_timeout_seconds req) u64_max.

Lemma evm_payment_authorization_ok payer req now fresh e :
  evm_payment_authorization display payer req now fresh = Ok e <->
  exists a, asked req payer a /\ e_after a = u256_from_u64 0 /\ e_before a = u256_from_u64 (valid_until req now) /\
    e_nonce a = fresh /\ e = mkEvmAuth (digest_of a) fresh 0 (valid_until req now).
Proof.
  unfold evm_payment_authorization. split.
  - intros E. apply bind_ok in E as (c & Hc & E). apply ok_or_ok in Hc.
    apply bind_ok in E as (w & Hw & E). apply map_err_ok in Hw.
    apply bind_ok in E as (f & Hf & E). apply evm_address_bytes_ok in Hf.
    apply bind_ok in E as (t & Ht & E). apply evm_address_bytes_ok in Ht.
    apply bind_ok in E as (k & Hk & [= <-]). apply evm_address_bytes_ok in Hk.
    exists (mkEip3009 k c (default (lit "USD Coin") (e ← extra req; extra_name e))
             (default (lit "2") (e ← extra req; extra_version e)) f t w (u256_from_u64 0)
             (u256_from_u64 (valid_until req now)) fresh).
    split; [unfold asked; cbn [e_chain e_token e_name e_version e_from e_to e_value]; auto 10|].
    cbn. auto.
  - intros (a & (Hc & Hk & Hn & Hv & Hf & Ht & Hw) & Ha & Hb & Hfr & ->).
    apply evm_address_bytes_ok in Hk, Hf, Ht.
    rewrite Hc, Hw. cbn [ok_or map_err mbind res_bind]. rewrite Hf. cbn [mbind res_bind].
    rewrite Ht. cbn [mbind res_bind]. rewrite Hk. cbn [mbind res_bind].
    unfold digest_of, domain_of, struct_of. rewrite Ha, Hb, Hfr, Hn, Hv. reflexivity.
Qed.

Lemma eip712_signature_ok sg s :
  eip712_signature sg = Ok s <->
  length sg = 65%nat /\ nth 64 sg 0 + 27 <= 255 /\ s = take 64 sg ++ [nth 64 sg 0 + 27].
Proof.
  unfold eip712_signature. destruct (Nat.eqb_spec (length sg) 65) as [Hl|Hl]; cbn [negb].
  - unfold checked_add. destruct (Z.leb_spec (nth 64 sg 0 + 27) 255); cbn [ok_or mbind res_bind].
    + split; [intros [= <-]; auto | intros (_ & _ & ->); reflexivity].
    + split; [discriminate | lia].
  - split; [discriminate | tauto].
Qed.

(** The signed authorization, as the payload's own text states it. *)
Definition states (p : PaymentPayload) (signature : str) (a : Eip3009) : Prop :=
  exists auth, payload p = EvmProof signature auth /\ asked (accepted p) (auth_from auth) a /\
    auth_to auth = pay_to (accepted p) /\ auth_value auth = amount (accepted p) /\
    u256_from_decimal (valid_after auth) = Ok (e_after a) /\
    u256_from_decimal (valid_before auth) = Ok (e_before a) /\
    auth_nonce auth = lit "0x" ++ hex_encode (e_nonce a).
End PaymentFacts.

(** The EVM payment is faithful and complete.  The payload accepts the very
    requirement chosen, and its text states, field by field, the authorization
    whose EIP-712 digest the wallet signed: the wallet's account pays the named
    recipient the named amount of the named token on the named chain, with the
    fresh nonce, from 0 to the clock plus the server's timeout, saturating; the
    signature is the wallet's, its recovery id shifted by 27.  Such a payload is
    built whenever the addresses and the amount are well formed and the wallet
    signs; an amount of up to 256 bits is never cut. *)
Theorem evm_payment_faithful `{CodecLaws, PaymentSigner} display challenge req now fresh :
  is_u64 now -> is_u64 (max_timeout_seconds req) ->
  (forall p, build_evm_payment display challenge req now fresh = Ok p ->
     exists acct sg a, account PayEvm = Ok acct /\ sign PayEvm (digest_of a) Secp256k1Digest = Ok sg /\
       length sg = 65%nat /\ accepted p = req /\ pp_resource p = Some (resource challenge) /\
       states p (lit "0x" ++ hex_encode (take 64 sg ++ [nth 64 sg 0 + 27])) a /\
       address_bytes (pa_address acct) (e_from a) /\ e_nonce a = fresh /\
       be_value (e_before a) = valid_until req now) /\
  (forall acct a, account PayEvm = Ok acct -> asked req (pa_address acct) a ->
     (forall d, exists sg, sign PayEvm d Secp256k1Digest = Ok sg /\ length sg = 65%nat /\ nth 64 sg 0 <= 1) ->
     exists p, build_evm_payment display challenge req now fresh = Ok p).
Proof.
  intros Hnow Hmax. assert (Hu : is_u64 (valid_until req now)).
  { unfold is_u64, valid_until, u64_max in *. lia. }
  split.
  - intros p E. unfold build_evm_payment in E.
    apply bind_ok in E as (acct & Hacct & E). apply map_err_ok in Hacct.
    apply bind_ok in E as (e & He & E).
    apply evm_payment_authorization_ok in He as (a & Hask & Ha & Hb & Hn & ->). cbn [digest] in E.
    apply bind_ok in E as (sg & Hsg & E). apply map_err_ok in Hsg.
    apply bind_ok in E as (s & Hs & E). apply eip712_signature_ok in Hs as (Hl & Hv & ->).
    unfold evm_payment_payload in E. apply bind_ok in E as (c & _ & [= <-]). cbn [nonce valid_after_secs valid_before_secs].
    exists acct, sg, a. split_and!; try assumption; try reflexivity.
    + eexists. split; [reflexivity|]. cbn [accepted auth_from auth_to auth_value valid_after valid_before auth_nonce].
      rewrite Ha, Hb, Hn. split_and!; auto. apply u256_from_u64_decimal, Hu.
    + apply Hask.
    + rewrite Hb. unfold u256_from_u64. rewrite be_value_zeros. apply be_value_bytes, u64_be, Hu.
  - intros acct a Hacct Hask Hsig. set (a' := mkEip3009 (e_token a) (e_chain a) (e_name a) (e_version a) (e_from a)
      (e_to a) (e_value a) (u256_from_u64 0) (u256_from_u64 (valid_until req now)) fresh).
    destruct (Hsig (digest_of a')) as (sg & Hsg & Hl & Hv).
    assert (Hauth : evm_payment_authorization display (pa_address acct) req now fresh
                    = Ok (mkEvmAuth (digest_of a') fresh 0 (valid_until req now))).
    { apply evm_payment_authorization_ok. exists a'. split; [exact Hask|]. repeat split; reflexivity. }
    unfold build_evm_payment. rewrite Hacct. cbn [map_err mbind res_bind].
    rewrite Hauth.
    cbn [mbind res_bind digest]. rewrite Hsg. cbn [map_err mbind res_bind].
    rewrite (proj2 (eip712_signature_ok sg (take 64 sg ++ [nth 64 sg 0 + 27]))) by (split; [exact Hl | split; [lia | reflexivity]]).
    cbn [mbind res_bind]. unfold evm_payment_payload. destruct Hask as (-> & _). eexists. reflexivity.
Qed.

(** A wallet with one account. *)
Definition toy_signer : PaymentSigner := {|
  account _ := Ok (mkAccount (lit "0x1111111111111111111111111111111111111111") None);
  sign _ message _ := Ok (message ++ message ++ [1])
|}.

Definition example_usdc : PaymentRequirements :=
  mkReq (lit "exact") BASE_MAINNET_CAIP2 (lit "1000") USDC_BASE_MAINNET
    (lit "0x2222222222222222222222222222222222222222") 60 None.

Lemma evm_payment_faithful_witness :
  exists p, build_evm_payment (H := toy_codecs) (H0 := toy_signer) (fun _ => []) example_challenge example_usdc 1700000000
              (replicate 32 9) = Ok p /\
    exists a s, states (H := toy_codecs) p s a /\ be_value (e_before a) = 1700000060.
Proof.
  destruct (evm_payment_faithful (H := toy_codecs) (H1 := toy_signer) (fun _ => []) example_challenge example_usdc
    1700000000 (replicate 32 9) ltac:(range_closed) ltac:(range_closed)) as [Hsound _].
  eexists. split; [vm_compute; reflexivity|].
  destruct (Hsound _ ltac:(vm_compute; reflexivity)) as (_ & sg & a & _ & _ & _ & _ & _ & Hst & _ & _ & Hb).
  exists a. eexists. split; [exact Hst | rewrite Hb; reflexivity].
Defined.
