(* ===== verification/SolWire.v ===== *)
(** The Solana wire format: compact lengths, messages and program-derived
    addresses ([src/tx/solana.rs], [crates/tinywallet-web3/src/crypto/chains/solana/wire.rs]
    and the encoders of [crates/tinywallet-x402/src/crypto/solana_payment.rs]).

    The repository has three writers of this format: the library's, the engine's
    and the payment client's.  [read_message] is an independent reader of a whole
    message, after Solana's documentation.  Shown here: lengths read back; every
    message the three writers emit reads back as its parts, and nothing follows;
    the engine and the library write the same transfer; the engine and the
    payment client derive the same token accounts. *)

From stdpp Require Import base list strings numbers.
From S2P Require Import Prelude Text Chain Codec Base58 Addr Json X402Wire.

(** * Compact lengths *)

(** One turn per seven bits; three turns drain a [u16], ten a [usize]. *)
Fixpoint shortvec_loop (fuel : nat) (value : Z) : list Z :=
  match fuel with
  | O => []
  | S fuel =>
      let byte := Z.land value 127 in
      let remaining := Z.shiftr value 7 in
      if remaining =? 0 then [byte] else Z.lor byte 128 :: shortvec_loop fuel remaining
  end.

(** The library's, the engine's (both of a [u16]) and the payment client's. *)
Definition encode_shortvec (value : Z) : list Z := shortvec_loop 3 value.
Definition engine_encode_shortvec (value : Z) : list Z := shortvec_loop 3 value.
Definition x402_encode_shortvec (value : nat) : list Z := shortvec_loop 10 (Z.of_nat value).

Fixpoint decode_shortvec_loop (i : nat) (value shift : Z) (bytes : list Z) : res str (Z * nat) :=
  match bytes with
  | [] => Err (lit "shortvec truncated")
  | byte :: bytes =>
      if (3 <=? i)%nat then Err (lit "shortvec too long")
      else
        let value := Z.lor value (Z.shiftl (Z.land byte 127) shift) in
        if Z.land byte 128 =? 0
        then if value <=? u16_max then Ok (value, (i + 1)%nat) else Err (lit "shortvec exceeds u16 range")
        else decode_shortvec_loop (S i) value (shift + 7) bytes
  end.

Definition decode_shortvec (bytes : list Z) : res str (Z * nat) := decode_shortvec_loop 0 0 0 bytes.

(** [u16::try_from(len).unwrap_or(u16::MAX)]. *)
Definition saturate_u16 (len : nat) : Z := Z.min (Z.of_nat len) u16_max.

Definition shortvec_len (len : nat) : list Z := engine_encode_shortvec (saturate_u16 len).

(** * Instructions and messages *)

(** The engine's; [x402]'s [Instruction] has the same fields. *)
Record CompiledInstruction := mkInstruction {
  program_id_index : Z;
  ins_accounts : list Z;
  ins_data : list Z
}.

Definition encode_compiled_instruction (ins : CompiledInstruction) : list Z :=
  [program_id_index ins] ++ shortvec_len (length (ins_accounts ins)) ++ ins_accounts ins
  ++ shortvec_len (length (ins_data ins)) ++ ins_data ins.

Definition encode_message (header : list Z) (account_keys : list (list Z)) (recent_blockhash : list Z)
    (instructions : list CompiledInstruction) : list Z :=
  header ++ shortvec_len (length account_keys) ++ concat account_keys ++ recent_blockhash
  ++ shortvec_len (length instructions) ++ (instructions ≫= encode_compiled_instruction).

(** The payment client's. *)
Definition encode_instruction (ins : CompiledInstruction) : list Z :=
  [program_id_index ins] ++ x402_encode_shortvec (length (ins_accounts ins)) ++ ins_accounts ins
  ++ x402_encode_shortvec (length (ins_data ins)) ++ ins_data ins.

Definition encode_legacy_message (header : list Z) (account_keys : list (list Z)) (recent_blockhash : list Z)
    (instructions : list CompiledInstruction) : list Z :=
  header ++ x402_encode_shortvec (length account_keys) ++ concat account_keys ++ recent_blockhash
  ++ x402_encode_shortvec (length instructions) ++ (instructions ≫= encode_instruction).

Definition SYSTEM_PROGRAM_ID : list Z := replicate 32 0.
Definition SYSTEM_TRANSFER_INDEX : Z := 2.

(** * The library's native transfer *)

Record NativeTransfer := mkNative {
  sol_from : str;
  sol_to : str;
  lamports : Z;
  recent_blockhash : str
}.

Section Library.
Context `{Codecs}.

Definition decode_blockhash (raw : str) : res tx_error (list Z) :=
  decoded ← map_err (fun e => InvalidField (lit "recent_blockhash") (lit "not base58: " ++ e)) (bs58_decode (trim raw));
  if (length decoded =? 32)%nat then Ok decoded
  else Err (InvalidField (lit "recent_blockhash") (lit "expected 32 bytes, got " ++ show_dec (Z.of_nat (length decoded)))).

Definition message (tx : NativeTransfer) : res tx_error (list Z) :=
  from ← map_err TxAddress (solana_decode (sol_from tx));
  to ← map_err TxAddress (solana_decode (sol_to tx));
  blockhash ← decode_blockhash (recent_blockhash tx);
  let data := le_bytes 4 SYSTEM_TRANSFER_INDEX ++ le_bytes 8 (lamports tx) in
  Ok ([1; 0; 1] ++ encode_shortvec 3 ++ from ++ to ++ SYSTEM_PROGRAM_ID ++ blockhash
      ++ encode_shortvec 1 ++ [2] ++ encode_shortvec 2 ++ [0; 1]
      ++ encode_shortvec (saturate_u16 (length data)) ++ data).

(** [signature : &[u8; 64]]. *)
Definition sol_attach_signature (tx : NativeTransfer) (signature : list Z) : res tx_error (list Z) :=
  message ← message tx;
  Ok (encode_shortvec 1 ++ signature ++ message).
End Library.

(** ed25519: the public key of a 32-byte secret, and its 64-byte signature. *)
Class Ed25519Lib := {
  verifying_key : list Z -> list Z;
  ed25519_sign : list Z -> list Z -> list Z
}.

Class Ed25519Laws `{Ed25519Lib} : Prop := {
  verifying_key_length k : length (verifying_key k) = 32%nat;
  verifying_key_ok k : bytes_ok (verifying_key k);
  ed25519_sign_length k m : length (ed25519_sign k m) = 64%nat
}.

Definition sol_sign `{Codecs, Ed25519Lib} (tx : NativeTransfer) (secret_key : list Z) : res tx_error (list Z) :=
  if negb (length secret_key =? 32)%nat then Err (Signing (lit "ed25519 secret key must be 32 bytes"))
  else
    let derived := solana_encode (verifying_key secret_key) in
    if negb (bool_decide (derived = trim (sol_from tx)))
    then Err (Signing (lit "secret key does not control the `from` address"))
    else
      m ← message tx;
      sol_attach_signature tx (ed25519_sign secret_key m).

(** * The engine's messages and addresses *)

Definition TOKEN_PROGRAM_B58 : str := lit "TokenkegQfeZyiNwAJbNbGKPFXCWuBvf9Ss623VQ5DA".
Definition ATA_PROGRAM_B58 : str := lit "ATokenGPvbdGVxr1b2hvZbsiqW5xWH25efTNsLJA8knL".

(** Whether 32 bytes are a point of the curve ([decompress] finds one). *)
Class Curve25519 := { on_curve : list Z -> bool }.

(** [(0u8..=255).rev()]. *)
Definition bumps : list Z := Z.of_nat <$> rev (seq 0 256).

Section Engine.
Context `{Codecs, Curve25519}.

Definition b58_to_pubkey (addr : str) : res str (list Z) :=
  v ← map_err (fun e => lit "invalid base58 '" ++ addr ++ lit "': " ++ e) (bs58_decode addr);
  if (length v =? 32)%nat then Ok v
  else Err (lit "expected 32-byte pubkey, got " ++ show_dec (Z.of_nat (length v))).

Definition pubkey_to_b58 (pubkey : list Z) : str := bs58_encode pubkey.
Definition token_program_id : res str (list Z) := b58_to_pubkey TOKEN_PROGRAM_B58.
Definition ata_program_id : res str (list Z) := b58_to_pubkey ATA_PROGRAM_B58.

Definition pda_candidate (seeds : list (list Z)) (program_id : list Z) (bump : Z) : list Z :=
  sha256 (concat seeds ++ [bump] ++ program_id ++ lit "ProgramDerivedAddress").

Definition find_program_address (seeds : list (list Z)) (program_id : list Z) : res str (list Z) :=
  ok_or (find_first (fun candidate => negb (on_curve candidate)) (pda_candidate seeds program_id <$> bumps))
    (lit "no off-curve PDA found").

Definition associated_token_account (owner mint : list Z) : res str (list Z) :=
  token_program ← token_program_id;
  ata_program ← ata_program_id;
  find_program_address [owner; token_program; mint] ata_program.

Definition build_native_transfer_message (from to : list Z) (lamports : Z) (recent_blockhash : list Z) : list Z :=
  encode_message [1; 0; 1] [from; to; SYSTEM_PROGRAM_ID] recent_blockhash
    [mkInstruction 2 [0; 1] ([2; 0; 0; 0] ++ le_bytes 8 lamports)].

Definition build_spl_transfer_message (from_owner src_ata dst_ata : list Z) (amount : Z) (recent_blockhash : list Z)
  : res str (list Z) :=
  token_program ← token_program_id;
  Ok (encode_message [1; 0; 1] [from_owner; src_ata; dst_ata; token_program] recent_blockhash
        [mkInstruction 3 [1; 2; 0] ([3] ++ le_bytes 8 amount)]).

(** * The payment client's keys *)

Definition b58_to_32 (addr : str) : res X402Error (list Z) :=
  v ← map_err (fun e => Protocol (lit "invalid base58 '" ++ addr ++ lit "': " ++ e)) (bs58_decode (trim addr));
  if (length v =? 32)%nat then Ok v
  else Err (Protocol (lit "expected 32-byte key, got " ++ show_dec (Z.of_nat (length v)) ++ lit " for '" ++ addr ++ lit "'")).

Definition ATA_PROGRAM : str := lit "ATokenGPvbdGVxr1b2hvZbsiqW5xWH25efTNsLJA8knL".

Definition derive_ata (owner mint token_program : list Z) : res X402Error (list Z) :=
  ata_program ← b58_to_32 ATA_PROGRAM;
  let candidate bump :=
    sha256 (owner ++ token_program ++ mint ++ [bump] ++ ata_program ++ lit "ProgramDerivedAddress") in
  ok_or (find_first (fun c => negb (on_curve c)) (candidate <$> bumps)) (Protocol (lit "ATA PDA derivation failed")).
End Engine.

(** * Lengths read back *)

Definition is_u16 (v : Z) : Prop := 0 <= v <= u16_max.

Lemma shortvec_step fuel v :
  shortvec_loop (S fuel) v =
    if v / 128 =? 0 then [v mod 128] else (v mod 128 + 128) :: shortvec_loop fuel (v / 128).
Proof.
  cbn [shortvec_loop]. rewrite shiftr_7, land_127. destruct (_ =? 0); [reflexivity|].
  rewrite lor_128_add by (apply Z.mod_pos_bound; lia). reflexivity.
Qed.

(** One, two or three bytes. *)
Lemma shortvec_forms fuel v :
  (3 <= fuel)%nat -> is_u16 v ->
  (v < 128 /\ shortvec_loop fuel v = [v]) \/
  (128 <= v < 16384 /\ shortvec_loop fuel v = [v mod 128 + 128; v / 128]) \/
  (16384 <= v /\ shortvec_loop fuel v = [v mod 128 + 128; v / 128 mod 128 + 128; v / 128 / 128]).
Proof.
  unfold is_u16, u16_max. intros Hf Hv. destruct fuel as [|[|[|fuel]]]; [lia..|].
  destruct (Z.ltb_spec v 128); [|destruct (Z.ltb_spec v 16384)].
  - left. split; [lia|]. rewrite shortvec_step. replace (v / 128) with 0 by divmod. cbn [Z.eqb].
    f_equal. divmod.
  - right; left. split; [lia|]. rewrite shortvec_step. rewrite (proj2 (Z.eqb_neq (v / 128) 0)) by divmod.
    f_equal. rewrite shortvec_step. replace (v / 128 / 128) with 0 by divmod. cbn [Z.eqb]. f_equal. divmod.
  - right; right. split; [lia|]. rewrite shortvec_step. rewrite (proj2 (Z.eqb_neq (v / 128) 0)) by divmod.
    f_equal. rewrite shortvec_step. rewrite (proj2 (Z.eqb_neq (v / 128 / 128) 0)) by divmod.
    f_equal. rewrite shortvec_step. replace (v / 128 / 128 / 128) with 0 by divmod. cbn [Z.eqb]. f_equal. divmod.
Qed.

Lemma shortvec_fuel fuel v : (3 <= fuel)%nat -> is_u16 v -> shortvec_loop fuel v = shortvec_loop 3 v.
Proof.
  intros Hf Hv. destruct (shortvec_forms fuel v Hf Hv) as [[H E] | [[H E] | [H E]]], (shortvec_forms 3 v ltac:(lia) Hv) as [[H' E'] | [[H' E'] | [H' E']]];
    rewrite E, E'; reflexivity || lia.
Qed.

Lemma decode_shortvec_step i value shift byte bytes :
  0 <= byte < 256 -> (i < 3)%nat ->
  decode_shortvec_loop i value shift (byte :: bytes) =
    let value := Z.lor value (Z.shiftl (byte mod 128) shift) in
    if byte <? 128
    then if value <=? u16_max then Ok (value, (i + 1)%nat) else Err (lit "shortvec exceeds u16 range")
    else decode_shortvec_loop (S i) value (shift + 7) bytes.
Proof.
  intros Hb Hi. cbn [decode_shortvec_loop]. rewrite (proj2 (Nat.leb_gt 3 i)) by lia.
  rewrite land_127, land_128_zero by exact Hb. reflexivity.
Qed.

(** Any length of 16 bits reads back, whatever follows it. *)
Lemma decode_encode_shortvec v rest :
  is_u16 v -> decode_shortvec (encode_shortvec v ++ rest) = Ok (v, length (encode_shortvec v)).
Proof.
  intros Hv. unfold encode_shortvec, decode_shortvec.
  destruct (shortvec_forms 3 v ltac:(lia) Hv) as [[H E] | [[H E] | [H E]]]; rewrite E; cbn [app length];
    unfold is_u16, u16_max in Hv.
  - rewrite decode_shortvec_step by lia. cbv zeta. rewrite Z.lor_0_l, Z.shiftl_0_r, Z.mod_small by lia.
    rewrite (proj2 (Z.ltb_lt v 128)), (proj2 (Z.leb_le v u16_max)) by (unfold u16_max; lia). reflexivity.
  - pose proof (Z.mod_pos_bound v 128 ltac:(lia)).
    rewrite decode_shortvec_step by lia. cbv zeta. rewrite (proj2 (Z.ltb_ge _ 128)) by lia.
    rewrite decode_shortvec_step by (lia || divmod). cbv zeta. rewrite Z.lor_0_l, Z.shiftl_0_r.
    replace ((v mod 128 + 128) mod 128) with (v mod 128) by divmod.
    rewrite (Z.mod_small (v / 128)) by divmod. rewrite lor_shiftl_add by (lia || divmod).
    rewrite (proj2 (Z.ltb_lt (v / 128) 128)) by divmod.
    replace (v mod 128 + v / 128 * 2 ^ (0 + 7)) with v by divmod.
    rewrite (proj2 (Z.leb_le v u16_max)) by (unfold u16_max; lia). reflexivity.
  - pose proof (Z.mod_pos_bound v 128 ltac:(lia)). pose proof (Z.mod_pos_bound (v / 128) 128 ltac:(lia)).
    rewrite decode_shortvec_step by lia. cbv zeta. rewrite (proj2 (Z.ltb_ge _ 128)) by lia.
    rewrite decode_shortvec_step by lia. cbv zeta. rewrite (proj2 (Z.ltb_ge _ 128)) by lia.
    rewrite decode_shortvec_step by (lia || divmod). cbv zeta. rewrite Z.lor_0_l, Z.shiftl_0_r.
    replace ((v mod 128 + 128) mod 128) with (v mod 128) by divmod.
    replace ((v / 128 mod 128 + 128) mod 128) with (v / 128 mod 128) by divmod.
    rewrite (Z.mod_small (v / 128 / 128)) by divmod. rewrite (lor_shiftl_add (v mod 128)) by lia.
    rewrite lor_shiftl_add by lia.
    rewrite (proj2 (Z.ltb_lt (v / 128 / 128) 128)) by divmod.
    replace (v mod 128 + v / 128 mod 128 * 2 ^ (0 + 7) + v / 128 / 128 * 2 ^ (0 + 7 + 7)) with v by divmod.
    rewrite (proj2 (Z.leb_le v u16_max)) by (unfold u16_max; lia). reflexivity.
Qed.

(** What the decoder accepts: one to three bytes of the input, a 16-bit value. *)
Lemma decode_shortvec_loop_ok bytes : forall i value shift v n,
  decode_shortvec_loop i value shift bytes = Ok (v, n) ->
  (i < n)%nat /\ (n <= 3)%nat /\ (n <= i + length bytes)%nat /\ v <= u16_max.
Proof.
  induction bytes as [|b bytes IH]; intros i value shift v n H; [discriminate|]. cbn [decode_shortvec_loop] in H.
  destruct (Nat.leb_spec 3 i); [discriminate|]. destruct (_ =? 0).
  - destruct (Z.leb_spec (Z.lor value (Z.shiftl (Z.land b 127) shift)) u16_max); [|discriminate].
    injection H as <- <-. cbn [length]. lia.
  - apply IH in H. cbn [length]. lia.
Qed.

Lemma decode_shortvec_loop_nonneg bytes : forall i value shift v n,
  0 <= value -> 0 <= shift -> decode_shortvec_loop i value shift bytes = Ok (v, n) -> 0 <= v.
Proof.
  induction bytes as [|b bytes IH]; intros i value shift v n Hv Hs H; [discriminate|]. cbn [decode_shortvec_loop] in H.
  assert (H0 : 0 <= Z.lor value (Z.shiftl (Z.land b 127) shift)).
  { apply Z.lor_nonneg. split; [exact Hv|]. apply Z.shiftl_nonneg, Z.land_nonneg. lia. }
  destruct (3 <=? i)%nat; [discriminate|]. destruct (_ =? 0).
  - destruct (_ <=? u16_max); [|discriminate]. injection H as <- _. exact H0.
  - eapply IH; [| | exact H]; lia.
Qed.

Lemma decode_shortvec_ok bytes v n :
  decode_shortvec bytes = Ok (v, n) -> is_u16 v /\ (1 <= n <= 3)%nat /\ (n <= length bytes)%nat.
Proof.
  intros H. pose proof (decode_shortvec_loop_ok _ _ _ _ _ _ H). pose proof (decode_shortvec_loop_nonneg bytes 0 0 0 v n (Z.le_refl 0) (Z.le_refl 0) H).
  unfold is_u16. lia.
Qed.

Lemma decode_shortvec_no_panic bytes : decode_shortvec bytes <> Panic.
Proof.
  enough (H : forall i v s, decode_shortvec_loop i v s bytes <> Panic) by apply H.
  induction bytes as [|b bytes IH]; intros i v s; [discriminate|].
  cbn [decode_shortvec_loop]. destruct (3 <=? i)%nat; [discriminate|]. destruct (_ =? 0); [|apply IH].
  destruct (_ <=? u16_max); discriminate.
Qed.

(** * A reader of messages *)

Record Message := mkMessage {
  m_header : list Z;
  m_keys : list (list Z);
  m_blockhash : list Z;
  m_instructions : list CompiledInstruction
}.

Definition read_bytes (n : nat) (input : list Z) : option (list Z * list Z) :=
  if (n <=? length input)%nat then Some (take n input, drop n input) else None.

Definition read_count (input : list Z) : option (nat * list Z) :=
  match decode_shortvec input with Ok (v, n) => Some (Z.to_nat v, drop n input) | _ => None end.

(** A length-prefixed run of bytes. *)
Definition read_vector (input : list Z) : option (list Z * list Z) :=
  '(n, input) ← read_count input; read_bytes n input.

(** [n] items, one after the other. *)
Fixpoint read_items {A} (read : list Z -> option (A * list Z)) (n : nat) (input : list Z) : option (list A * list Z) :=
  match n with
  | O => Some ([], input)
  | S n => '(x, input) ← read input; '(xs, input) ← read_items read n input; Some (x :: xs, input)
  end.

Definition read_instruction (input : list Z) : option (CompiledInstruction * list Z) :=
  '(program, input) ← read_bytes 1 input;
  '(accounts, input) ← read_vector input;
  '(data, input) ← read_vector input;
  Some (mkInstruction (nth 0 program 0) accounts data, input).

(** A whole message: nothing may be left over. *)
Definition read_message (input : list Z) : option Message :=
  '(header, input) ← read_bytes 3 input;
  '(count, input) ← read_count input;
  '(keys, input) ← read_items (read_bytes 32) count input;
  '(blockhash, input) ← read_bytes 32 input;
  '(count, input) ← read_count input;
  '(instructions, input) ← read_items read_instruction count input;
  match input with [] => Some (mkMessage header keys blockhash instructions) | _ => None end.

Lemma read_bytes_app n a rest : length a = n -> read_bytes n (a ++ rest) = Some (a, rest).
Proof.
  intros <-. unfold read_bytes. rewrite length_app, (proj2 (Nat.leb_le _ _)) by lia.
  rewrite take_app_length, drop_app_length. reflexivity.
Qed.

Section Reading.
(** How a writer writes a count. *)
Context (count : nat -> list Z).
Context (count_ok : forall n, Z.of_nat n <= u16_max -> count n = encode_shortvec (Z.of_nat n)).

Lemma read_count_app n rest : Z.of_nat n <= u16_max -> read_count (count n ++ rest) = Some (n, rest).
Proof.
  intros Hn. unfold read_count. rewrite count_ok, decode_encode_shortvec by (try split; lia).
  rewrite Nat2Z.id, drop_app_length. reflexivity.
Qed.

Lemma read_vector_app a rest :
  Z.of_nat (length a) <= u16_max -> read_vector (count (length a) ++ a ++ rest) = Some (a, rest).
Proof. intros Ha. unfold read_vector. rewrite read_count_app by exact Ha. apply read_bytes_app. reflexivity. Qed.

Lemma read_items_app {A} read (write : A -> list Z) xs rest :
  Forall (fun x => forall rest, read (write x ++ rest) = Some (x, rest)) xs ->
  read_items read (length xs) ((xs ≫= write) ++ rest) = Some (xs, rest).
Proof.
  intros H. induction H as [|x xs Hx _ IH]; [reflexivity|]. cbn [length read_items].
  rewrite bind_cons, <- app_assoc, Hx. cbn [mbind option_bind]. rewrite IH. reflexivity.
Qed.

(** An instruction and a message as this writer writes them. *)
Definition put_instruction (ins : CompiledInstruction) : list Z :=
  [program_id_index ins] ++ count (length (ins_accounts ins)) ++ ins_accounts ins
  ++ count (length (ins_data ins)) ++ ins_data ins.

Definition put_message (m : Message) : list Z :=
  m_header m ++ count (length (m_keys m)) ++ concat (m_keys m) ++ m_blockhash m
  ++ count (length (m_instructions m)) ++ (m_instructions m ≫= put_instruction).

Definition instruction_fits (ins : CompiledInstruction) : Prop :=
  Z.of_nat (length (ins_accounts ins)) <= u16_max /\ Z.of_nat (length (ins_data ins)) <= u16_max.

(** Every length is one the format can hold. *)
Definition message_fits (m : Message) : Prop :=
  length (m_header m) = 3%nat /\ Z.of_nat (length (m_keys m)) <= u16_max /\
  Forall (fun k => length k = 32%nat) (m_keys m) /\ length (m_blockhash m) = 32%nat /\
  Z.of_nat (length (m_instructions m)) <= u16_max /\ Forall instruction_fits (m_instructions m).

Lemma read_instruction_app ins rest :
  instruction_fits ins -> read_instruction (put_instruction ins ++ rest) = Some (ins, rest).
Proof.
  intros [Ha Hd]. unfold read_instruction, put_instruction. rewrite <- !app_assoc.
  rewrite (read_bytes_app 1 [program_id_index ins]) by reflexivity. cbn [mbind option_bind].
  rewrite read_vector_app by exact Ha. cbn [mbind option_bind].
  rewrite read_vector_app by exact Hd. destruct ins. reflexivity.
Qed.

Lemma concat_bind (l : list (list Z)) : concat l = l ≫= id.
Proof. induction l as [|x l IH]; [reflexivity|]. cbn [concat]. rewrite bind_cons, IH. reflexivity. Qed.

Lemma read_put_message m : message_fits m -> read_message (put_message m) = Some m.
Proof.
  intros (Hh & Hk & Hks & Hb & Hi & His). unfold read_message, put_message.
  rewrite read_bytes_app by exact Hh. cbn [mbind option_bind].
  rewrite read_count_app by exact Hk. cbn [mbind option_bind].
  rewrite concat_bind, (read_items_app (read_bytes 32) id).
  2:{ eapply list.Forall_impl; [exact Hks|]. intros k Hk' rest. apply read_bytes_app, Hk'. }
  cbn [mbind option_bind]. rewrite read_bytes_app by exact Hb. cbn [mbind option_bind].
  rewrite read_count_app by exact Hi. cbn [mbind option_bind].
  rewrite <- (app_nil_r (m_instructions m ≫= put_instruction)), (read_items_app read_instruction put_instruction).
  2:{ eapply list.Forall_impl; [exact His|]. intros ins Hins rest. apply read_instruction_app, Hins. }
  cbn [mbind option_bind]. destruct m. reflexivity.
Qed.
End Reading.

Lemma engine_count_ok n : Z.of_nat n <= u16_max -> shortvec_len n = encode_shortvec (Z.of_nat n).
Proof.
  intros H. unfold shortvec_len, saturate_u16. rewrite Z.min_l by exact H. reflexivity.
Qed.

Lemma x402_count_ok n : Z.of_nat n <= u16_max -> x402_encode_shortvec n = encode_shortvec (Z.of_nat n).
Proof. intros H. apply shortvec_fuel; [lia | split; lia]. Qed.

Lemma encode_message_put m :
  encode_message (m_header m) (m_keys m) (m_blockhash m) (m_instructions m) = put_message shortvec_len m.
Proof. reflexivity. Qed.

Lemma encode_legacy_message_put m :
  encode_legacy_message (m_header m) (m_keys m) (m_blockhash m) (m_instructions m) = put_message x402_encode_shortvec m.
Proof. reflexivity. Qed.

Section Agreement.
Context `{CodecLaws}.

Lemma decode_blockhash_ok raw bh :
  decode_blockhash raw = Ok bh <-> bs58_decode (trim raw) = Ok bh /\ length bh = 32%nat.
Proof.
  unfold decode_blockhash. split.
  - intros E. apply bind_ok in E as (d & Hd & E). apply map_err_ok in Hd.
    destruct (Nat.eqb_spec (length d) 32); [|discriminate]. injection E as ->. auto.
  - intros [-> Hl]. cbn [map_err mbind res_bind]. rewrite Hl. reflexivity.
Qed.

Lemma b58_to_pubkey_ok s b : b58_to_pubkey s = Ok b <-> bs58_decode s = Ok b /\ length b = 32%nat.
Proof.
  unfold b58_to_pubkey. destruct (bs58_decode s) as [v|e|]; cbn [map_err mbind res_bind]; [|split; [discriminate | intros [? _]; discriminate]..].
  destruct (Nat.eqb_spec (length v) 32); split.
  - intros [= ->]. auto.
  - intros [[= ->] _]. reflexivity.
  - discriminate.
  - intros [[= ->] ?]. contradiction.
Qed.

Lemma b58_to_32_ok s b : b58_to_32 s = Ok b <-> bs58_decode (trim s) = Ok b /\ length b = 32%nat.
Proof.
  unfold b58_to_32. destruct (bs58_decode (trim s)) as [v|e|]; cbn [map_err mbind res_bind]; [|split; [discriminate | intros [? _]; discriminate]..].
  destruct (Nat.eqb_spec (length v) 32); split.
  - intros [= ->]. auto.
  - intros [[= ->] _]. reflexivity.
  - discriminate.
  - intros [[= ->] ?]. contradiction.
Qed.

Lemma bumps_lookup i b : bumps !! i = Some b -> b = 255 - Z.of_nat i.
Proof.
  assert (E : bumps = (fun n => 255 - Z.of_nat n) <$> seq 0 256) by (vm_compute; reflexivity).
  rewrite E. intros Hb. apply list_lookup_fmap_Some in Hb as (n & -> & Hn). apply lookup_seq in Hn as [-> _]. reflexivity.
Qed.

Definition native_parts (tx : NativeTransfer) (from to bh : list Z) : Prop :=
  solana_decode (sol_from tx) = Ok from /\ solana_decode (sol_to tx) = Ok to /\
  bs58_decode (trim (recent_blockhash tx)) = Ok bh /\ length bh = 32%nat.

Lemma message_ok tx m :
  message tx = Ok m <->
  exists from to bh, native_parts tx from to bh /\ m = build_native_transfer_message from to (lamports tx) bh.
Proof.
  assert (Hbytes : forall from to bh,
    [1; 0; 1] ++ encode_shortvec 3 ++ from ++ to ++ SYSTEM_PROGRAM_ID ++ bh
      ++ encode_shortvec 1 ++ [2] ++ encode_shortvec 2 ++ [0; 1]
      ++ encode_shortvec (saturate_u16 (length (le_bytes 4 SYSTEM_TRANSFER_INDEX ++ le_bytes 8 (lamports tx))))
      ++ (le_bytes 4 SYSTEM_TRANSFER_INDEX ++ le_bytes 8 (lamports tx))
    = build_native_transfer_message from to (lamports tx) bh).
  { intros from to bh. unfold build_native_transfer_message, encode_message.
    change (length [from; to; SYSTEM_PROGRAM_ID]) with 3%nat. change (concat [from; to; SYSTEM_PROGRAM_ID]) with (from ++ to ++ SYSTEM_PROGRAM_ID ++ []).
    rewrite app_nil_r, <- !app_assoc, bind_singleton. reflexivity. }
  unfold message, native_parts. split.
  - intros E. apply bind_ok in E as (from & Hf & E). apply map_err_ok in Hf.
    apply bind_ok in E as (to & Ht & E). apply map_err_ok in Ht.
    apply bind_ok in E as (bh & Hb & E). apply decode_blockhash_ok in Hb as [Hb Hl].
    injection E as <-. exists from, to, bh. rewrite <- Hbytes. auto.
  - intros (from & to & bh & (Hf & Ht & Hb & Hl) & ->). rewrite Hf, Ht. cbn [map_err mbind res_bind].
    rewrite (proj2 (decode_blockhash_ok _ bh)) by auto. cbn [mbind res_bind]. rewrite <- Hbytes. reflexivity.
Qed.
End Agreement.

(** * Properties *)

(** Solana messages read back.  Every 16-bit length the writers emit is one
    to three bytes that [decode_shortvec] reads back, whatever follows; a
    message whose lengths fit the format, written by the engine or by the
    payment client, is the same bytes, and an independent reader of the format
    gives back its header, keys, blockhash and instructions, with nothing left
    over; so two different messages are never the same bytes. *)
Theorem messages_read_back m :
  message_fits m ->
  (forall v rest, is_u16 v -> decode_shortvec (encode_shortvec v ++ rest) = Ok (v, length (encode_shortvec v))) /\
  encode_legacy_message (m_header m) (m_keys m) (m_blockhash m) (m_instructions m) =
    encode_message (m_header m) (m_keys m) (m_blockhash m) (m_instructions m) /\
  read_message (encode_message (m_header m) (m_keys m) (m_blockhash m) (m_instructions m)) = Some m.
Proof.
  intros Hm. split; [intros v rest Hv; apply decode_encode_shortvec, Hv|].
  assert (Hr : read_message (encode_message (m_header m) (m_keys m) (m_blockhash m) (m_instructions m)) = Some m).
  { rewrite encode_message_put. apply read_put_message; [apply engine_count_ok | exact Hm]. }
  split; [|exact Hr]. destruct Hm as (_ & Hk & _ & _ & Hi & His).
  unfold encode_legacy_message, encode_message. rewrite !x402_count_ok, !engine_count_ok by assumption.
  do 5 f_equal. apply Forall_bind_ext. eapply list.Forall_impl; [exact His|].
  intros ins [Ha Hd]. unfold encode_instruction, encode_compiled_instruction.
  rewrite !x402_count_ok, !engine_count_ok by assumption. reflexivity.
Qed.

(** An x402 payment's shape: eight accounts, four instructions. *)
Lemma messages_read_back_witness :
  let m := mkMessage [2; 0; 4] (replicate 8 (replicate 32 7)) (replicate 32 9)
             [mkInstruction 6 [] (2 :: le_bytes 4 50000); mkInstruction 7 [] (replicate 300 65)] in
  message_fits m /\ read_message (encode_message (m_header m) (m_keys m) (m_blockhash m) (m_instructions m)) = Some m.
Proof.
  cbn zeta.
  assert (Hm : message_fits (mkMessage [2; 0; 4] (replicate 8 (replicate 32 7)) (replicate 32 9)
             [mkInstruction 6 [] (2 :: le_bytes 4 50000); mkInstruction 7 [] (replicate 300 65)])).
  { repeat split; try reflexivity; try (vm_compute; discriminate);
      repeat (constructor; [first [reflexivity | split; vm_compute; discriminate]|]); constructor. }
  split; [exact Hm | apply (messages_read_back _ Hm)].
Defined.


(** The library's native transfer is the engine's, and its signature is the
    payer's.  A message exists exactly when both addresses and the blockhash are
    32 base58 bytes, and is the engine's message for them; it reads back as one
    system transfer of the amount from the first account, which signs and pays,
    to the second; and [sign] succeeds exactly with the 32-byte key of the payer,
    giving one signature over the whole message, then that message. *)
Theorem native_transfer_exact `{CodecLaws, Ed25519Laws} tx key :
  (forall m, message tx = Ok m <->
     exists from to bh, native_parts tx from to bh /\ m = build_native_transfer_message from to (lamports tx) bh) /\
  (forall m from to bh, message tx = Ok m -> native_parts tx from to bh ->
     read_message m = Some (mkMessage [1; 0; 1] [from; to; SYSTEM_PROGRAM_ID] bh
                              [mkInstruction 2 [0; 1] (le_bytes 4 2 ++ le_bytes 8 (lamports tx))])) /\
  (forall w, sol_sign tx key = Ok w <->
     length key = 32%nat /\ solana_decode (sol_from tx) = Ok (verifying_key key) /\
     exists m, message tx = Ok m /\ w = [1] ++ ed25519_sign key m ++ m).
Proof.
  split; [|split].
  - intros m. apply message_ok.
  - intros m from to bh Hm Hp. apply message_ok in Hm as (from' & to' & bh' & Hp' & ->).
    assert (E : from' = from /\ to' = to /\ bh' = bh).
    { destruct Hp as (? & ? & ? & _), Hp' as (? & ? & ? & _). split_and!; congruence. }
    destruct E as (-> & -> & ->). unfold build_native_transfer_message.
    set (msg := mkMessage [1; 0; 1] [from; to; SYSTEM_PROGRAM_ID] bh [mkInstruction 2 [0; 1] ([2; 0; 0; 0] ++ le_bytes 8 (lamports tx))]).
    change (read_message (put_message shortvec_len msg) = Some msg).
    apply read_put_message; [apply engine_count_ok|].
    destruct Hp as (Hf & Ht & _ & Hl). apply solana_decode_ok in Hf as (_ & _ & Hf), Ht as (_ & _ & Ht).
    repeat split; try assumption; try (vm_compute; discriminate).
    + repeat constructor; assumption.
    + repeat constructor; cbn [ins_data]; vm_compute; discriminate.
  - intros w. unfold sol_sign, sol_attach_signature.
    assert (Hkey : solana_encode (verifying_key key) = trim (sol_from tx) <-> solana_decode (sol_from tx) = Ok (verifying_key key)).
    { rewrite solana_decode_ok. unfold solana_encode, SOLANA_ADDRESS_BYTES. rewrite verifying_key_length.
      assert (Hd : bs58_decode (bs58_encode (verifying_key key)) = Ok (verifying_key key)) by apply bs58_decode_encode, verifying_key_ok.
      split; [intros E; rewrite <- E; split_and!; [|exact Hd | reflexivity]
             | intros (_ & E & _); apply bs58_encode_decode, E].
      intros E'. rewrite E', bs58_decode_nil in Hd. pose proof (verifying_key_length key) as Hl.
      injection Hd as Hd. rewrite <- Hd in Hl. discriminate. }
    destruct (Nat.eqb_spec (length key) 32) as [Hl|Hl]; cbn [negb]; [|split; [discriminate | tauto]].
    destruct (bool_decide_reflect (solana_encode (verifying_key key) = trim (sol_from tx))) as [Hk|Hk]; cbn [negb].
    + split.
      * intros E. apply bind_ok in E as (m & Hm & E). rewrite Hm in E. injection E as <-.
        split_and!; [exact Hl | apply Hkey, Hk | exists m; auto].
      * intros (_ & _ & m & Hm & ->). rewrite Hm. reflexivity.
    + split; [discriminate|]. intros (_ & Hd & _). apply Hkey in Hd. contradiction.
Qed.

(** A key that signs for one account. *)
Definition toy_ed25519 : Ed25519Lib := {|
  verifying_key k := replicate 32 (Z.modulo (Z.of_nat (length k)) 256);
  ed25519_sign k m := replicate 64 (Z.modulo (Z.of_nat (length m)) 256)
|}.

Lemma toy_ed25519_laws : Ed25519Laws (H := toy_ed25519).
Proof.
  constructor; intros; cbn [verifying_key ed25519_sign toy_ed25519]; try apply length_replicate.
  apply Forall_replicate. apply Z.mod_pos_bound. lia.
Qed.

Definition example_native : NativeTransfer :=
  mkNative (base58_encode (replicate 32 32)) (lit "TokenkegQfeZyiNwAJbNbGKPFXCWuBvf9Ss623VQ5DA") 1000000
    (lit "EPjFWdd5AufqSSqeM2qN1xzybapC8G4wEGGkZwyTDt1v").

Lemma native_transfer_exact_witness :
  exists w, sol_sign (H := base58_codecs) (H0 := toy_ed25519) example_native (replicate 32 5) = Ok w /\
    exists m, message (H := base58_codecs) example_native = Ok m /\ w = [1] ++ replicate 64 (Z.of_nat (length m)) ++ m.
Proof.
  eexists. split; [vm_compute; reflexivity|].
  destruct (native_transfer_exact (H := base58_codecs) (H0 := base58_codec_laws) (H1 := toy_ed25519)
    (H2 := toy_ed25519_laws) example_native (replicate 32 5)) as (_ & _ & Hs).
  destruct (proj1 (Hs _) ltac:(vm_compute; reflexivity)) as (_ & _ & m & Hm & Hw). exists m. split; [exact Hm|].
  rewrite Hw. vm_compute in Hm. injection Hm as <-. vm_compute. reflexivity.
Defined.

(** Both derivations of a token account agree.  For every owner and mint the
    engine and the payment client find the same address, or neither finds one:
    the first candidate off the curve, counting the bump down from 255.  So a
    payment is drawn from, and sent to, the accounts the wallet itself uses. *)
Theorem token_accounts_agree `{CodecLaws, Curve25519} owner mint a :
  (associated_token_account owner mint = Ok a <->
   exists token_program, b58_to_32 SPL_TOKEN_PROGRAM = Ok token_program /\ derive_ata owner mint token_program = Ok a) /\
  (associated_token_account owner mint = Ok a ->
   exists token_program ata_program i bump,
     bs58_decode SPL_TOKEN_PROGRAM = Ok token_program /\ bs58_decode ATA_PROGRAM = Ok ata_program /\
     bumps !! i = Some bump /\ bump = 255 - Z.of_nat i /\
     a = pda_candidate [owner; token_program; mint] ata_program bump /\ on_curve a = false /\
     Forall (fun b => on_curve (pda_candidate [owner; token_program; mint] ata_program b) = true) (take i bumps)).
Proof.
  assert (Htp : trim SPL_TOKEN_PROGRAM = SPL_TOKEN_PROGRAM) by (vm_compute; reflexivity).
  assert (Hap : trim ATA_PROGRAM = ATA_PROGRAM) by (vm_compute; reflexivity).
  assert (Hcand : forall tp ap b,
    sha256 (owner ++ tp ++ mint ++ [b] ++ ap ++ lit "ProgramDerivedAddress") = pda_candidate [owner; tp; mint] ap b).
  { intros tp ap b. unfold pda_candidate. cbn [concat]. rewrite app_nil_r, <- !app_assoc. reflexivity. }
  assert (Hform : associated_token_account owner mint = Ok a <->
    exists tp ap, bs58_decode SPL_TOKEN_PROGRAM = Ok tp /\ length tp = 32%nat /\
      bs58_decode ATA_PROGRAM = Ok ap /\ length ap = 32%nat /\
      find_first (fun c => negb (on_curve c)) (pda_candidate [owner; tp; mint] ap <$> bumps) = Some a).
  { unfold associated_token_account, token_program_id, ata_program_id, find_program_address. split.
    - intros E. apply bind_ok in E as (tp & Ht & E). apply b58_to_pubkey_ok in Ht as [Ht Hl].
      apply bind_ok in E as (ap & Ha & E). apply b58_to_pubkey_ok in Ha as [Ha Hl']. apply ok_or_ok in E. eauto 10.
    - intros (tp & ap & Ht & Hl & Ha & Hl' & E).
      rewrite (proj2 (b58_to_pubkey_ok TOKEN_PROGRAM_B58 tp)) by auto. cbn [mbind res_bind].
      rewrite (proj2 (b58_to_pubkey_ok ATA_PROGRAM_B58 ap)) by auto. cbn [mbind res_bind]. rewrite E. reflexivity. }
  split; rewrite Hform.
  - unfold derive_ata. setoid_rewrite b58_to_32_ok. rewrite Htp. split.
    + intros (tp & ap & Ht & Hl & Ha & Hl' & E). exists tp. split; [auto|].
      rewrite (proj2 (b58_to_32_ok ATA_PROGRAM ap)) by (rewrite Hap; auto). cbn [mbind res_bind].
      rewrite (list_fmap_ext _ (pda_candidate [owner; tp; mint] ap) bumps) by (intros; apply Hcand).
      rewrite E. reflexivity.
    + intros (tp & [Ht Hl] & E). apply bind_ok in E as (ap & Ha & E). apply b58_to_32_ok in Ha as [Ha Hl'].
      rewrite Hap in Ha. apply ok_or_ok in E. exists tp, ap. split_and!; [exact Ht | exact Hl | exact Ha | exact Hl' |].
      rewrite (list_fmap_ext _ (pda_candidate [owner; tp; mint] ap) bumps) in E by (intros; apply Hcand). exact E.
  - intros (tp & ap & Ht & _ & Ha & _ & E). apply find_first_position in E as (i & Hi & Hp & Hall).
    apply list_lookup_fmap_Some in Hi as (b & -> & Hb). exists tp, ap, i, b.
    apply negb_true_iff in Hp. split_and!; [exact Ht | exact Ha | exact Hb | apply bumps_lookup, Hb | reflexivity | exact Hp|].
    rewrite <- fmap_take, Forall_fmap in Hall. eapply list.Forall_impl; [exact Hall|].
    intros c Hc. apply negb_false_iff, Hc.
Qed.

(** A stand-in for the curve: half of all values are on it. *)
Definition toy_curve : Curve25519 := {| on_curve c := Z.even (be_value c / 2) |}.

Lemma token_accounts_agree_witness :
  exists a, associated_token_account (H := base58_codecs) (H0 := toy_curve) (replicate 32 1) (replicate 32 2) = Ok a /\
    exists tp, b58_to_32 (H := base58_codecs) SPL_TOKEN_PROGRAM = Ok tp /\
      derive_ata (H := base58_codecs) (H0 := toy_curve) (replicate 32 1) (replicate 32 2) tp = Ok a.
Proof.
  eexists. split; [vm_compute; reflexivity|].
  apply (token_accounts_agree (H := base58_codecs) (H0 := base58_codec_laws) (H1 := toy_curve)
    (replicate 32 1) (replicate 32 2)).
  vm_compute. reflexivity.
Defined.
