(* ===== verification/NoPanic.v ===== *)
(** What cannot panic: the hint database and tactic that discharge it, and the
    parsers, validators and encoders the engine and the payment rail call. *)

From stdpp Require Import base list strings numbers.
From S2P Require Import Prelude Text Chain Codec Addr Proto TronTx EvmTx BtcTx Json X402Wire Eip712 SolWire Host.

Lemma map_err_no_panic {E F A} (f : E -> F) (m : res E A) : m <> Panic -> map_err f m <> Panic.
Proof. destruct m; cbn; congruence. Qed.
Lemma fmap_no_panic {E A B} (f : A -> B) (m : res E A) : m <> Panic -> f <$> m <> Panic.
Proof. destruct m; cbn; congruence. Qed.
Lemma ok_or_no_panic {E A} (o : option A) (e : E) : ok_or o e <> Panic.
Proof. destruct o; discriminate. Qed.

Create HintDb no_panic.
#[export] Hint Resolve map_err_no_panic fmap_no_panic ok_or_no_panic err_if_no_panic parse_unsigned_no_panic
  decode_shortvec_no_panic bs58_decode_total hex_decode_total : no_panic.
#[export] Hint Extern 1 (parse_u64 _ <> Panic) => apply parse_unsigned_no_panic : no_panic.
#[export] Hint Extern 1 (parse_u128 _ <> Panic) => apply parse_unsigned_no_panic : no_panic.
#[export] Hint Extern 1 (parse_hex_u8 _ <> Panic) => apply parse_unsigned_no_panic : no_panic.

(** Down to the calls that could panic. *)
Ltac no_panic :=
  repeat first
    [ progress cbv zeta
    | discriminate
    | assumption
    | solve [auto with no_panic]
    | apply bind_no_panic; [|intros ?]
    | apply map_err_no_panic
    | apply fmap_no_panic
    | case_match; subst ].

Section NoPanic.
Context `{CodecLaws}.

Lemma validate_no_panic c s :
  match c with Evm => evm_validate s | Btc => btc_validate s | Solana => solana_validate s | Tron => tron_validate s end
  <> Panic.
Proof. pose proof (address_validate_no_panic (fun _ => true) c s) as Hp. destruct c; exact Hp. Qed.

Lemma validate_sender_no_panic s : validate_sender s <> Panic.
Proof.
  unfold validate_sender, trimmed_non_empty. apply bind_no_panic; [case_bool; discriminate|]. intros t.
  apply bind_no_panic; [apply btc_parse_no_panic | intros k]. case_match; discriminate.
Qed.

Lemma b58_to_pubkey_no_panic s : b58_to_pubkey s <> Panic.
Proof. unfold b58_to_pubkey. no_panic. Qed.

Lemma tron_to_hex_no_panic s : to_hex s <> Panic.
Proof.
  unfold to_hex. apply fmap_no_panic. pose proof (validate_no_panic Tron s) as Hp. unfold tron_validate in Hp.
  destruct (tron_decode s); cbn in Hp; congruence.
Qed.

Lemma hex_to_u128_no_panic s : hex_to_u128 s <> Panic.
Proof. unfold hex_to_u128. no_panic. Qed.

Lemma u256_no_panic s : u256_from_decimal s <> Panic.
Proof. rewrite u256_from_decimal_form. case_bool; [discriminate|]. case_bool; discriminate. Qed.

Lemma encode_erc20_no_panic display t a : abi_encode_erc20_transfer display t a <> Panic.
Proof.
  unfold abi_encode_erc20_transfer. apply bind_no_panic; [apply map_err_no_panic, (validate_no_panic Evm)|].
  intros r. apply bind_no_panic.
  - unfold decode_evm_address. apply collect_no_panic. intros i _. unfold address_byte. no_panic.
  - intros bs. apply bind_no_panic; [apply map_err_no_panic, u256_no_panic | discriminate].
Qed.

Lemma plan_spend_no_panic utxos amount rate : plan_spend utxos amount rate <> Panic.
Proof.
  unfold plan_spend. apply bind_no_panic; [unfold fee_for; no_panic|]. intros c.
  apply bind_no_panic; [no_panic|]. intros _.
  generalize (sort_desc BtcTx.e_value utxos), (@nil EsploraUtxo). generalize 0 as total.
  intros total l. revert total. induction l as [|u l IH]; intros total chosen; cbn [plan_loop].
  - unfold insufficient, fee_for. no_panic.
  - unfold fee_for. apply bind_no_panic; [no_panic | intros t]. apply bind_no_panic; [no_panic | intros f].
    apply bind_no_panic; [no_panic | intros g]. cbn zeta. case_bool; [discriminate|]. case_bool; [discriminate|]. apply IH.
Qed.
End NoPanic.

#[export] Hint Resolve b58_to_pubkey_no_panic validate_sender_no_panic tron_to_hex_no_panic hex_to_u128_no_panic
  encode_erc20_no_panic plan_spend_no_panic u256_no_panic : no_panic.
#[export] Hint Extern 1 (evm_validate ?s <> Panic) => apply (validate_no_panic Evm s) : no_panic.
#[export] Hint Extern 1 (btc_validate ?s <> Panic) => apply (validate_no_panic Btc s) : no_panic.
#[export] Hint Extern 1 (solana_validate ?s <> Panic) => apply (validate_no_panic Solana s) : no_panic.
#[export] Hint Extern 1 (tron_validate ?s <> Panic) => apply (validate_no_panic Tron s) : no_panic.
