(* ===== verification/Engine.v ===== *)
(** The wallet engine: preparing a transfer, signing it and broadcasting it, on
    each chain ([crates/tinywallet-web3/src/crypto/execution/transfer.rs] and
    [broadcast.rs], [chains/evm/mod.rs], [chains/btc/mod.rs],
    [chains/solana/mod.rs] and [versioned.rs], [chains/tron/mod.rs]).

    Each function is the program the source runs against its host: the same
    checks in the same order, the same requests.  What every run of them keeps
    is shown in [Signing]. *)

From stdpp Require Import base list strings numbers.
From S2P Require Import Prelude Program Text Chain Codec Addr TronTx BtcTx Json Wire Quotes Assets X402Wire Eip712 SolWire Host.

(** What nodes answer, as serde decodes it. *)
Record BlockhashValue := mkBlockhashValue { blockhash : str }.
Record BlockhashResponse := mkBlockhashResponse { bh_value : BlockhashValue }.
Record AccountInfoResponse := mkAccountInfo { ai_value : Json }.
Record CreateTransactionResponse := mkCreated { tx_id : str; raw_data : Json; raw_data_hex : str }.
Record TriggerSmartContractResponse := mkTriggered { tr_transaction : CreateTransactionResponse }.

Class Serde := {
  serde_str :: Deserialize str;
  serde_json :: Deserialize Json;
  serde_utxos :: Deserialize (list EsploraUtxo);
  serde_blockhash :: Deserialize BlockhashResponse;
  serde_account_info :: Deserialize AccountInfoResponse;
  serde_created :: Deserialize CreateTransactionResponse;
  serde_triggered :: Deserialize TriggerSmartContractResponse;
  serde_printer :: JsonPrinter
}.

Definition set_status (q : PreparedTransaction) (s : PreparedStatus) : PreparedTransaction :=
  mkPrepared (pt_quote_id q) (pt_kind q) (pt_chain q) (pt_evm_network q) (from_address q) (to_address q)
    (pt_asset_symbol q) (pt_amount_raw q) (amount_formatted q) (receive_symbol q) (min_receive_raw q) (calldata q)
    (token_address q) (pt_estimated_fee_raw q) s (created_at_ms q) (pt_expires_at_ms q) (notes q).
Definition set_fee (q : PreparedTransaction) (fee : str) : PreparedTransaction :=
  mkPrepared (pt_quote_id q) (pt_kind q) (pt_chain q) (pt_evm_network q) (from_address q) (to_address q)
    (pt_asset_symbol q) (pt_amount_raw q) (amount_formatted q) (receive_symbol q) (min_receive_raw q) (calldata q)
    (token_address q) fee (pt_status q) (created_at_ms q) (pt_expires_at_ms q) (notes q).
Definition set_expires (q : PreparedTransaction) (e : Z) : PreparedTransaction :=
  mkPrepared (pt_quote_id q) (pt_kind q) (pt_chain q) (pt_evm_network q) (from_address q) (to_address q)
    (pt_asset_symbol q) (pt_amount_raw q) (amount_formatted q) (receive_symbol q) (min_receive_raw q) (calldata q)
    (token_address q) (pt_estimated_fee_raw q) (pt_status q) (created_at_ms q) e (notes q).

#[export] Instance PreparedTransferQuote_quoted : Quoted PreparedTransferQuote := {
  quote_id q := pt_quote_id (transaction q);
  quote_owner := ptq_owner;
  expires_at_ms q := pt_expires_at_ms (transaction q);
  set_expires_at_ms q e := mkPreparedQuote (set_expires (transaction q) e) (ptq_owner q);
  is_consumed q := bool_decide (pt_status (transaction q) = Consumed)
}.
#[export] Instance PreparedTransferQuote_laws : QuotedLaws PreparedTransferQuote.
Proof. split; reflexivity. Qed.

(** * Preparing a transfer *)

Definition QUOTE_TTL_MS : Z := 5 * 60 * 1000.
Definition QUOTE_STORE_CAP : Z := 64.
(** The store of [WalletEngine::new]. *)
Definition engine_quotes : QuoteStore PreparedTransferQuote := QuoteStore_new (lit "q") QUOTE_TTL_MS QUOTE_STORE_CAP.

Definition find_native (catalog : list WalletAssetDefinition) : option WalletAssetDefinition := find_first ad_native catalog.

(** The asset a transfer moves: the chain's own without a symbol. *)
Definition transfer_asset (chain : WalletChain) (network : option EvmNetwork) (symbol : option str)
    (cluster : SolanaCluster) : res str WalletAssetDefinition :=
  match trim <$> symbol with
  | None | Some [] =>
      let catalog := match network with Some net => evm_asset_catalog net | None => asset_catalog chain cluster end in
      ok_or (find_native catalog) (lit "native asset metadata missing for '" ++ WalletChain_as_str chain ++ lit "'")
  | Some symbol =>
      ok_or (find_asset_for_network chain network symbol cluster)
        (lit "unsupported asset_symbol '" ++ symbol ++ lit "' for chain '" ++ WalletChain_as_str chain ++ lit "'")
  end.

(** [now + ttl_ms] overflows only a [u64] clock near its end, which panics. *)
Definition add_u64 (a b : Z) : res str Z := match checked_add u64_max a b with Some s => Ok s | None => Panic end.

Definition prepare_transfer `{Codecs} (params : PrepareTransferParams) : io PreparedTransaction :=
  let chain := pp_chain params in
  to ← lift (validate_address chain (pp_to_address params));
  amount ← lift (validate_amount (pp_amount_raw params));
  _ ← lift (err_if (amount =? 0) (lit "transfer amount must be greater than zero"));
  let network := if bool_decide (chain = WEvm) then Some (EvmNetwork_or_mainnet (pp_evm_network params)) else None in
  account ← require_account chain;
  cluster ← solana_cluster;
  asset ← lift (transfer_asset chain network (pp_asset_symbol params) cluster);
  let kind := if ad_native asset then NativeTransferKind else TokenTransferKind in
  _ ← lift (err_if (bool_decide (chain = WBtc) && negb (ad_native asset)) (lit "token transfers are not supported on Bitcoin"));
  now ← now_ms;
  let label := match network with
               | Some net => WalletChain_as_str chain ++ lit " (" ++ network_label_for_evm net ++ lit ")"
               | None => WalletChain_as_str chain
               end in
  id ← Ask NextId mret;
  expires ← lift (add_u64 now QUOTE_TTL_MS);
  let t := mkPrepared id kind chain network (wa_address account) to (ad_symbol asset) (show_dec amount)
             (format_amount amount (ad_decimals asset)) None None None (ad_contract_address asset)
             (estimated_fee_raw chain kind) AwaitingConfirmation now expires
             [lit "Prepared " ++ ad_symbol asset ++ lit " transfer on " ++ label ++ lit " using default network settings."] in
  owner ← current_owner;
  Ask (InsertQuote (mkPreparedQuote t owner)) (fun _ => mret t).

(** * EVM *)

Record NodeParams := mkNodeParams { np_chain_id : Z; np_nonce : Z; np_gas_price : Z; np_gas_limit : Z }.

(** [u64::try_from]. *)
Definition narrow_u64 {E} (v : Z) (e : E) : res E Z := if v <=? u64_max then Ok v else Err e.

Definition implausible (what hex : str) : str :=
  lit "EVM RPC reported an implausible " ++ what ++ lit " '" ++ hex ++ lit "'".

Section Evm.
Context `{Serde}.

Definition node_params (network : EvmNetwork) (from_address : str) (estimate_tx : Json) : io NodeParams :=
  chain_id_hex ← evm_rpc_call network (lit "eth_chainId") (JArr []);
  nonce_hex ← evm_rpc_call network (lit "eth_getTransactionCount") (JArr [JStr from_address; JStr (lit "pending")]);
  gas_price_hex ← evm_rpc_call network (lit "eth_gasPrice") (JArr []);
  gas_hex ← evm_rpc_call network (lit "eth_estimateGas") (JArr [estimate_tx]);
  lift (
    raw ← hex_to_u128 chain_id_hex;
    chain_id ← narrow_u64 raw (implausible (lit "chain_id") chain_id_hex);
    _ ← err_if (negb (chain_id =? EvmNetwork_chain_id network))
          (lit "EVM RPC chain_id mismatch: rpc reported " ++ show_dec chain_id ++ lit " but network "
           ++ EvmNetwork_as_str network ++ lit " expects " ++ show_dec (EvmNetwork_chain_id network));
    raw ← hex_to_u128 nonce_hex;
    nonce ← narrow_u64 raw (implausible (lit "nonce") nonce_hex);
    gas_price ← hex_to_u128 gas_price_hex;
    raw ← hex_to_u128 gas_hex;
    gas_limit ← narrow_u64 raw (implausible (lit "gas limit") gas_hex);
    Ok (mkNodeParams chain_id nonce gas_price gas_limit)).

(** The call [eth_estimateGas] is asked about. *)
Definition estimate_call (from_address to : str) (value : Z) (tx_data : option str) : Json :=
  jobj ([(lit "from", JStr from_address); (lit "to", JStr to); (lit "value", JStr (u128_to_hex value))]
        ++ match tx_data with Some data_hex => [(lit "data", JStr data_hex)] | None => [] end).

Definition sign_and_broadcast (network : EvmNetwork) (from_address to value_raw : str) (tx_data : option str)
  : io (str * Z) :=
  to ← lift (map_err (fun e => lit "invalid EVM target address '" ++ to ++ lit "': " ++ addr_error_text e) (evm_validate to));
  value ← lift (map_err (fun e => lit "invalid native value '" ++ value_raw ++ lit "': " ++ parse_int_error_text e)
                  (parse_u128 (trim value_raw)));
  params ← node_params network from_address (estimate_call from_address to value tx_data);
  signed ← sign_transaction WEvm
    (SpecEvm to (show_dec value) (default [] tx_data) (np_nonce params) (np_gas_limit params)
       (show_dec (np_gas_price params)) (np_chain_id params));
  tx_hash ← evm_rpc_call network (lit "eth_sendRawTransaction") (JArr [JStr (raw signed)]);
  mret (tx_hash, default 0 (checked_mul u128_max (np_gas_price params) (np_gas_limit params))).

(** Whom a quote's transaction calls, with what value and data. *)
Definition evm_call (quote : PreparedTransaction) : res str (str * str * option str) :=
  match pt_kind quote with
  | NativeTransferKind =>
      to ← map_err (fun e => lit "invalid EVM recipient address '" ++ to_address quote ++ lit "': " ++ addr_error_text e)
             (evm_validate (to_address quote));
      Ok (to, pt_amount_raw quote, None)
  | TokenTransferKind =>
      token ← ok_or (token_address quote) (lit "prepared token transfer is missing token_address");
      calldata ← engine_encode_erc20_transfer addr_error_text (to_address quote) (pt_amount_raw quote);
      contract ← map_err (fun e => lit "invalid ERC20 token contract address '" ++ token ++ lit "': " ++ addr_error_text e)
                   (evm_validate token);
      Ok (contract, lit "0", Some calldata)
  end.

Definition execute_evm_quote (quote : PreparedTransaction) : io ExecutionResult :=
  let network := EvmNetwork_or_mainnet (pt_evm_network quote) in
  '(tx_to, tx_value, tx_data) ← lift (evm_call quote);
  '(tx_hash, fee) ← sign_and_broadcast network (from_address quote) tx_to tx_value tx_data;
  mret (mkExecutionResult (pt_quote_id quote) Broadcasted WEvm (Some network) tx_hash
          (explorer_tx_url_for_evm_network network tx_hash) (set_status (set_fee quote (show_dec fee)) Broadcasted)).

Definition sign_and_broadcast_evm (network : EvmNetwork) (to : str) (data_hex : option str) (value_raw : str)
  : io RawBroadcastResult :=
  account ← require_evm_account;
  data ← lift (match data_hex with Some d => Some <$> validate_calldata d | None => Ok None end);
  '(tx_hash, fee) ← sign_and_broadcast network account to value_raw data;
  mret (mkBroadcastResult tx_hash (explorer_tx_url_for_evm_network network tx_hash) (Some (show_dec fee))).
End Evm.

(** * Bitcoin *)

Section Btc.
Context `{Codecs, Serde}.

Definition fetch_utxos (address : str) : io (list EsploraUtxo) :=
  rest_get_json WBtc (lit "address/" ++ address ++ lit "/utxo").

Definition broadcast_raw_hex (tx_hex : str) : io str := rest_post_text WBtc (lit "tx") tx_hex (lit "text/plain").

Definition wire_utxo (u : EsploraUtxo) : WireUtxo := mkWireUtxo (BtcTx.e_txid u) (BtcTx.e_vout u) (BtcTx.e_value u).

Definition execute_btc_quote (quote : PreparedTransaction) : io ExecutionResult :=
  _ ← lift (err_if (negb (bool_decide (pt_kind quote = NativeTransferKind)))
              (lit "BTC only supports native transfers; got kind TokenTransfer"));
  amount_sats ← lift (map_err (fun e => lit "invalid BTC amount '" ++ pt_amount_raw quote ++ lit "': " ++ parse_int_error_text e)
                        (parse_u64 (pt_amount_raw quote)));
  let from_addr := from_address quote in
  let to_addr := to_address quote in
  _ ← lift (map_err addr_error_text (validate_sender from_addr));
  _ ← lift (map_err addr_error_text (btc_validate to_addr));
  utxos ← fetch_utxos from_addr;
  _ ← lift (err_if (is_nil utxos) (lit "no spendable UTXOs for " ++ from_addr));
  plan ← lift (plan_spend utxos amount_sats DEFAULT_FEE_RATE_SAT_VB);
  signed ← sign_transaction WBtc (SpecBtc from_addr to_addr amount_sats (fee_sats plan) (wire_utxo <$> selected plan));
  txid_hex ← broadcast_raw_hex (raw signed);
  url ← explorer_url WBtc txid_hex;
  mret (mkExecutionResult (pt_quote_id quote) Broadcasted WBtc None txid_hex url
          (set_status (set_fee quote (show_dec (fee_sats plan))) Broadcasted)).
End Btc.

(** * Solana *)

(** [&l[from..from + n]]. *)
Definition slice {E} (l : list Z) (from n : nat) : res E (list Z) :=
  if (from + n <=? length l)%nat then Ok (take n (drop from l)) else Panic.
(** [l[from..from + n].copy_from_slice(bytes)]. *)
Definition copy_into {E} (l : list Z) (from n : nat) (bytes : list Z) : res E (list Z) :=
  if (from + n <=? length l)%nat && (length bytes =? n)%nat
  then Ok (take from l ++ bytes ++ drop (from + n) l) else Panic.

(** One byte of the module's hex. *)
Definition lower_hex_byte (value : str) (i : nat) : res str Z :=
  pair ← ok_or (str_get value (i * 2) (i * 2 + 2)) (lit "invalid hex from the wallet module: not ascii");
  map_err (fun e => lit "invalid hex from the wallet module: " ++ parse_int_error_text e) (parse_hex_u8 pair).

Definition lower_hex_to_bytes (value : str) : res str (list Z) :=
  if negb (length value mod 2 =? 0)%nat then Err (lit "odd-length hex from the wallet module")
  else collect (lower_hex_byte value) (seq 0 (length value / 2)).

(** Where the signer keys and the message sit inside a transaction blob. *)
Record Layout := mkLayout {
  sigs_start : nat;
  num_signatures : nat;
  message_start : nat;
  keys_start : nat;
  signer_keys : nat
}.

Definition parse_layout (wire : list Z) : res str Layout :=
  '(num_signatures, sig_count_len) ← decode_shortvec wire;
  let sigs_start := sig_count_len in
  let num_signatures := Z.to_nat num_signatures in
  let message_start := (sigs_start + num_signatures * 64)%nat in
  _ ← err_if (length wire <? message_start)%nat (lit "Solana tx blob truncated before message");
  let message := drop message_start wire in
  first ← ok_or (head message) (lit "Solana tx blob has empty message");
  let versioned := negb (Z.land first 128 =? 0) in
  let header_off := if versioned then 1%nat else 0%nat in
  _ ← err_if (length message <? header_off + 3)%nat (lit "Solana message header truncated");
  required ← match message !! header_off with Some b => Ok b | None => Panic end;
  let num_required_signatures := Z.to_nat required in
  _ ← err_if (num_required_signatures =? 0)%nat (lit "Solana message declares zero required signatures");
  let keys_off := (header_off + 3)%nat in
  '(account_count, count_len) ← decode_shortvec (drop keys_off message);
  let keys_start := (keys_off + count_len)%nat in
  let signer_keys := Nat.min num_required_signatures (Z.to_nat account_count) in
  _ ← err_if (length message <? keys_start + signer_keys * 32)%nat (lit "Solana account keys region truncated");
  Ok (mkLayout sigs_start num_signatures message_start keys_start signer_keys).

(** [(0..signer_keys).find(..)] over slices of the message. *)
Fixpoint find_key {E} (message : list Z) (keys_start : nat) (ours : list Z) (indices : list nat) : res E (option nat) :=
  match indices with
  | [] => Ok None
  | i :: indices =>
      key ← slice message (keys_start + i * 32) 32;
      if bool_decide (key = ours) then Ok (Some i) else find_key message keys_start ours indices
  end.

Section Solana.
Context `{Codecs, Curve25519, Serde, Base64}.

Definition signer_pubkey : io (list Z) :=
  account ← derive_account WSolana;
  lift (b58_to_pubkey (da_address account)).

Definition solana_sign (message : list Z) : io (list Z) :=
  signature ← sign_message WSolana message SchemeEd25519;
  match signature with
  | SigSecp256k1 _ _ => Done (Err (lit "the wallet module returned a non-ed25519 Solana signature"))
  | SigEd25519 signature_hex =>
      bytes ← lift (lower_hex_to_bytes signature_hex);
      if (length bytes =? 64)%nat then mret bytes
      else Done (Err (lit "the wallet module returned a malformed Solana signature"))
  end.

Definition account_exists (address_b58 : str) : io bool :=
  resp ← rpc_call WSolana (lit "getAccountInfo") (JArr [JStr address_b58; jobj [(lit "encoding", JStr (lit "base64"))]]);
  mret (negb (is_null (ai_value resp))).

Definition fetch_recent_blockhash : io (list Z) :=
  result ← rpc_call WSolana (lit "getLatestBlockhash") (JArr [jobj [(lit "commitment", JStr (lit "finalized"))]]);
  lift (b58_to_pubkey (blockhash (bh_value result))).

Definition broadcast_solana (signed : list Z) : io str :=
  rpc_call WSolana (lit "sendTransaction")
    (JArr [JStr (b64_encode signed);
           jobj [(lit "encoding", JStr (lit "base64")); (lit "preflightCommitment", JStr (lit "processed"))]]).

Definition transfer_message (quote : PreparedTransaction) (from_pk to_pubkey : list Z) (amount : Z) : io (list Z) :=
  recent_blockhash ← fetch_recent_blockhash;
  match pt_kind quote with
  | NativeTransferKind => mret (build_native_transfer_message from_pk to_pubkey amount recent_blockhash)
  | TokenTransferKind =>
      mint_addr ← lift (ok_or (token_address quote) (lit "SPL transfer missing token_address (mint)"));
      mint ← lift (b58_to_pubkey mint_addr);
      src_ata ← lift (associated_token_account from_pk mint);
      dst_ata ← lift (associated_token_account to_pubkey mint);
      exists_ ← account_exists (pubkey_to_b58 dst_ata);
      _ ← lift (err_if (negb exists_)
                  (lit "SPL preflight: destination Associated Token Account does not exist for mint " ++ mint_addr
                   ++ lit " owner " ++ pubkey_to_b58 to_pubkey ++ lit "; create it before transferring"));
      lift (build_spl_transfer_message from_pk src_ata dst_ata amount recent_blockhash)
  end.

Definition execute_solana_quote (quote : PreparedTransaction) : io ExecutionResult :=
  let from_addr := from_address quote in
  let to_addr := to_address quote in
  _ ← lift (map_err addr_error_text (solana_validate from_addr));
  _ ← lift (map_err addr_error_text (solana_validate to_addr));
  amount ← lift (map_err (fun e => lit "invalid Solana amount '" ++ pt_amount_raw quote ++ lit "': " ++ parse_int_error_text e)
                   (parse_u64 (pt_amount_raw quote)));
  from_pk ← signer_pubkey;
  expected_from ← lift (b58_to_pubkey from_addr);
  _ ← lift (err_if (negb (bool_decide (from_pk = expected_from)))
              (lit "Solana key derivation mismatch: derived " ++ pubkey_to_b58 from_pk ++ lit " but expected " ++ from_addr));
  wire ← match pt_kind quote with
         | NativeTransferKind =>
             recent_blockhash ← fetch_recent_blockhash;
             signed ← sign_transaction WSolana (SpecSolana from_addr to_addr amount (pubkey_to_b58 recent_blockhash));
             decoded (fun error => lit "invalid signed Solana transaction: " ++ error) (b64_decode (raw signed))
         | TokenTransferKind =>
             to_pubkey ← lift (b58_to_pubkey to_addr);
             message_bytes ← transfer_message quote from_pk to_pubkey amount;
             sig_bytes ← solana_sign message_bytes;
             mret (engine_encode_shortvec 1 ++ sig_bytes ++ message_bytes)
         end;
  tx_sig ← broadcast_solana wire;
  url ← explorer_url WSolana tx_sig;
  mret (mkExecutionResult (pt_quote_id quote) Broadcasted WSolana None tx_sig url (set_status quote Broadcasted)).

Definition sign_and_broadcast_versioned (tx_blob_hex : str) : io RawBroadcastResult :=
  let normalized := without_prefix (trim tx_blob_hex) (lit "0x") in
  wire ← lift (map_err (fun e => lit "invalid Solana transaction hex blob: " ++ e) (hex_decode normalized));
  layout ← lift (parse_layout wire);
  our_pubkey ← signer_pubkey;
  let message := drop (message_start layout) wire in
  found ← lift (find_key message (keys_start layout) our_pubkey (seq 0 (signer_keys layout)));
  our_index ← lift (ok_or found
    (lit "wallet Solana address " ++ pubkey_to_b58 our_pubkey ++ lit " is not a required signer of this transaction"));
  _ ← lift (err_if (num_signatures layout <=? our_index)%nat (lit "Solana signer index exceeds signature slot count"));
  sig_bytes ← solana_sign message;
  wire ← lift (copy_into wire (sigs_start layout + our_index * 64) 64 sig_bytes);
  tx_sig ← broadcast_solana wire;
  url ← explorer_url WSolana tx_sig;
  mret (mkBroadcastResult tx_sig url None).
End Solana.

(** * Tron *)

Definition TRC20_FEE_LIMIT_SUN : Z := 15000000.

Definition pad_left_32 (bytes : list Z) : list Z :=
  if (length bytes <=? 32)%nat then replicate (32 - length bytes) 0 ++ bytes
  else drop (length bytes - 32) bytes.

Section Tron.
Context `{Codecs, Serde}.

Definition validate_tron_address (addr : str) : res str str := map_err addr_error_text (tron_validate addr).
Definition tron_address_to_hex (addr : str) : res str str := map_err addr_error_text (to_hex addr).

Definition tron_transaction_spec (raw_tx : CreateTransactionResponse) (expected_to : str) (transfer : TronTransfer)
  : res str TransactionSpec :=
  recomputed_txid ← map_err (fun error => lit "invalid Tron raw_data_hex: " ++ tx_error_text error)
                      (recompute_txid (raw_data_hex raw_tx));
  let fee_limit_sun := match transfer with Native _ => None | Trc20 _ => Some TRC20_FEE_LIMIT_SUN end in
  _ ← map_err (fun error => lit "Tron node response rejected: " ++ tx_error_text error)
        (verify_contract (raw_data_hex raw_tx) expected_to (tx_id raw_tx) transfer fee_limit_sun);
  Ok (SpecTron (raw_data_hex raw_tx) expected_to recomputed_txid transfer).

Definition encode_trc20_transfer_param (to_hex : str) (amount : Z) : res str str :=
  addr_bytes ← map_err (fun e => lit "invalid hex addr: " ++ e) (hex_decode to_hex);
  _ ← err_if (negb (length addr_bytes =? 21)%nat)
        (lit "expected 21-byte Tron address, got " ++ show_dec (Z.of_nat (length addr_bytes)));
  let param := replicate 12 0 ++ drop 1 addr_bytes in
  Ok (hex_encode (param ++ pad_left_32 (be_bytes 16 amount))).

Definition create_native_transaction (owner_hex to_hex : str) (amount_sun : Z) : io CreateTransactionResponse :=
  rest_post_json WTron (lit "wallet/createtransaction")
    (jobj [(lit "owner_address", JStr owner_hex); (lit "to_address", JStr to_hex);
           (lit "amount", JNum (JPos amount_sun)); (lit "visible", JBool false)]).

Definition trigger_trc20_transfer (owner_hex contract_hex parameter_hex : str) : io CreateTransactionResponse :=
  resp ← rest_post_json WTron (lit "wallet/triggersmartcontract")
    (jobj [(lit "owner_address", JStr owner_hex); (lit "contract_address", JStr contract_hex);
           (lit "function_selector", JStr (lit "transfer(address,uint256)")); (lit "parameter", JStr parameter_hex);
           (lit "fee_limit", JNum (JPos TRC20_FEE_LIMIT_SUN)); (lit "call_value", JNum (JPos 0));
           (lit "visible", JBool false)]);
  mret (tr_transaction resp).

Definition build_transaction (quote : PreparedTransaction) (owner_hex to_hex : str) (amount : Z)
  : io (str * TronTransfer * CreateTransactionResponse) :=
  match pt_kind quote with
  | NativeTransferKind =>
      amount_sun ← lift (narrow_u64 amount (lit "Tron amount " ++ show_dec amount ++ lit " exceeds u64"));
      raw ← create_native_transaction owner_hex to_hex amount_sun;
      mret (to_address quote, Native amount_sun, raw)
  | TokenTransferKind =>
      contract ← lift (ok_or (token_address quote) (lit "TRC20 transfer missing token_address"));
      _ ← lift (validate_tron_address contract);
      contract_hex ← lift (tron_address_to_hex contract);
      parameter ← lift (encode_trc20_transfer_param to_hex amount);
      raw ← trigger_trc20_transfer owner_hex contract_hex parameter;
      mret (contract, Trc20 parameter, raw)
  end.

Definition signed_broadcast_body (raw_tx : CreateTransactionResponse) (signature_hex : str) : Json :=
  jobj [(lit "txID", JStr (tx_id raw_tx)); (lit "raw_data", raw_data raw_tx);
        (lit "raw_data_hex", JStr (raw_data_hex raw_tx)); (lit "signature", JArr [JStr signature_hex]);
        (lit "visible", JBool false)].

(** [response.get(key).and_then(Value::as_str).unwrap_or_default()]. *)
Definition text_field (key : str) (v : Json) : str := default [] (jget key v ≫= as_str).

Definition execute_tron_quote (quote : PreparedTransaction) : io ExecutionResult :=
  _ ← lift (validate_tron_address (from_address quote));
  _ ← lift (validate_tron_address (to_address quote));
  amount ← lift (map_err (fun e => lit "invalid Tron amount '" ++ pt_amount_raw quote ++ lit "': " ++ parse_int_error_text e)
                   (parse_u128 (pt_amount_raw quote)));
  owner_hex ← lift (tron_address_to_hex (from_address quote));
  to_hex ← lift (tron_address_to_hex (to_address quote));
  derived ← derive_account WTron;
  _ ← lift (err_if (negb (bool_decide (da_address derived = from_address quote)))
              (lit "Tron key derivation mismatch: derived " ++ da_address derived ++ lit " but expected " ++ from_address quote));
  '(verified_recipient, transfer, raw_tx) ← build_transaction quote owner_hex to_hex amount;
  transaction ← lift (tron_transaction_spec raw_tx verified_recipient transfer);
  signed ← sign_transaction WTron transaction;
  response ← rest_post_json WTron (lit "wallet/broadcasttransaction") (signed_broadcast_body raw_tx (raw signed));
  let ok := default false (jget (lit "result") response ≫= as_bool) in
  _ ← lift (err_if (negb ok)
              (lit "Tron broadcast rejected: code=" ++ text_field (lit "code") response ++ lit " message="
               ++ text_field (lit "message") response));
  let txid := default (tx_id raw_tx) (jget (lit "txid") response ≫= as_str) in
  url ← explorer_url WTron txid;
  mret (mkExecutionResult (pt_quote_id quote) Broadcasted WTron None txid url (set_status quote Broadcasted)).
End Tron.

(** * Executing a prepared quote *)

Section Execute.
Context `{Codecs, Curve25519, Serde, Base64}.

Definition execute_on_chain (quote : PreparedTransaction) : io ExecutionResult :=
  match pt_chain quote with
  | WEvm => execute_evm_quote quote
  | WBtc => execute_btc_quote quote
  | WSolana => execute_solana_quote quote
  | WTron => execute_tron_quote quote
  end.

Definition with_explorer_url (r : ExecutionResult) (url : option str) : ExecutionResult :=
  mkExecutionResult (er_quote_id r) (er_status r) (er_chain r) (er_evm_network r) (er_transaction_hash r) url
    (er_transaction r).

(** The quote leaves the store first; a failure puts it back. *)
Definition execute_prepared (params : ExecutePreparedParams) : io ExecutionResult :=
  _ ← lift (err_if (negb (ep_confirmed params)) (lit "execute_prepared requires `confirmed: true`"));
  caller ← current_owner;
  quote ← Ask (TakeQuote (ep_quote_id params) caller) or_error;
  let chain := pt_chain (transaction quote) in
  result ← attempt (execute_on_chain (transaction quote));
  match result with
  | Ok final_result =>
      match er_explorer_url final_result with
      | None => url ← explorer_url chain (er_transaction_hash final_result); mret (with_explorer_url final_result url)
      | Some _ => mret final_result
      end
  | Err error => Ask (RestoreQuote quote) (fun _ => Done (Err error))
  | Panic => Done Panic
  end.
End Execute.
