(* ===== verification/Signing.v ===== *)
(** What the engine's programs ask a signer to sign, and what they broadcast.

    An effect is a request for a signature, a broadcast, or a change of a quote store.  Everything before
    the signature is quiet: whatever the host answers, it makes no effect.  From
    that: every run of [execute_on_chain] asks for at most one signature, it is
    for the quote's own transfer, and what is broadcast is what the signer
    returned. *)

From stdpp Require Import base list strings numbers.
From S2P Require Import Prelude Program Text Chain Codec Addr Proto TronTx EvmTx BtcTx Json Wire Quotes Assets X402Wire.
From S2P Require Import Eip712 SolWire Host NoPanic Engine.

(** * Effects *)

Definition is_signature (q : request) : bool :=
  match q with SignTransaction _ _ | SignMessage _ _ _ => true | _ => false end.

Definition is_broadcast (q : request) : bool :=
  match q with
  | JsonRpc _ method _ =>
      bool_decide (method = lit "eth_sendRawTransaction") || bool_decide (method = lit "sendTransaction")
  | RestPost _ path _ _ => bool_decide (path = lit "tx") || bool_decide (path = lit "wallet/broadcasttransaction")
  | _ => false
  end.

(** Changes of a quote store. *)
Definition is_store (q : request) : bool :=
  match q with
  | InsertQuote _ | TakeQuote _ _ | RestoreQuote _ | InsertWeb3 _ | TakeWeb3 _ _ | RestoreWeb3 _ => true
  | _ => false
  end.

Definition effectful (q : request) : bool := is_signature q || is_broadcast q || is_store q.
Abbreviation effects := (effects_of (ans := answer) effectful).
Abbreviation quietly := (quietly_of (ans := answer) effectful).
Abbreviation answers := (answers_of (ans := answer) effectful).

(** * Quiet seam calls *)

Lemma quietly_decoded {A} what (r : str + A) : quietly (decoded what r) (fun _ a => r = inr a).
Proof. intros past. destruct r; cbn; split_and!; auto. Qed.

Lemma quietly_or_error {A} (r : str + A) : quietly (or_error r) (fun _ a => r = inr a).
Proof. intros past. destruct r; cbn; split_and!; auto. Qed.

Lemma quietly_from_transport {A} (r : TransportError + A) : quietly (from_transport r) (fun _ a => r = inr a).
Proof. intros past. destruct r; cbn; split_and!; auto. Qed.

Lemma quiet_status : quietly status (fun tr s => Ev Status (inr s) ∈ tr).
Proof.
  apply quietly_ask; [reflexivity|]. intros r. eapply quietly_mono; [apply quietly_or_error|]. intros tr a ->. auto.
Qed.

Lemma quiet_derive c : quietly (derive_account c) (fun tr a => Ev (DeriveAccount c) (inr a) ∈ tr).
Proof.
  apply quietly_ask; [reflexivity|]. intros r. eapply quietly_mono; [apply quietly_or_error|]. intros tr a ->. auto.
Qed.

Lemma quiet_cluster : quietly solana_cluster (fun tr c => Ev SolanaClusterOf c ∈ tr).
Proof.
  apply quietly_ask; [reflexivity|]. intros r. eapply quietly_mono; [apply quietly_ret|]. intros tr a ->. auto.
Qed.

Lemma quiet_explorer_url c h : quietly (explorer_url c h) (fun tr u => exists cl, u = explorer_tx_url c cl h).
Proof.
  eapply quietly_bind; [apply quiet_cluster|]. intros cl tr0 _. eapply quietly_mono; [apply quietly_ret|].
  intros tr a -> _. eauto.
Qed.

(** A transport call: its message, or the value. *)
Lemma quiet_transport {A} q (k : answer q -> TransportError + A) :
  effectful q = false ->
  quietly (Ask q (fun r => from_transport (k r))) (fun tr a => exists r, Ev q r ∈ tr /\ k r = inr a).
Proof.
  intros Hq. apply quietly_ask; [exact Hq|]. intros r. eapply quietly_mono; [apply quietly_from_transport|].
  intros tr a Ha Hin. eauto.
Qed.

Lemma quiet_json_rpc {T} `{Deserialize T} net method params :
  effectful (JsonRpc net method params) = false ->
  quietly (json_rpc net method params)
    (fun tr x => exists v, Ev (JsonRpc net method params) (inr v) ∈ tr /\ from_value v = inr x).
Proof.
  intros Hm. unfold json_rpc.
  eapply quietly_bind; [apply (quiet_transport (JsonRpc net method params) id), Hm|].
  intros v tr0 (r & Hin & Hr). unfold id in Hr. subst r. eapply quietly_mono; [apply quietly_decoded|].
  intros tr x Hx Hpre. exists v. split; [exact (elem_of_prefix _ _ _ Hin Hpre) | exact Hx].
Qed.

Lemma quiet_get_text c path :
  quietly (rest_get_text c path) (fun tr body => Ev (RestGet (network_id c None) path) (inr body) ∈ tr).
Proof.
  apply quietly_ask; [reflexivity|]. intros r. eapply quietly_mono; [apply quietly_from_transport|]. intros tr a ->. auto.
Qed.

Lemma quiet_get_json {T} `{Deserialize T} c path :
  quietly (rest_get_json c path)
    (fun tr x => exists body, Ev (RestGet (network_id c None) path) (inr body) ∈ tr /\ from_str body = inr x).
Proof.
  unfold rest_get_json. eapply quietly_bind; [apply quiet_get_text|].
  intros body tr0 Hin. eapply quietly_mono; [apply quietly_decoded|]. intros tr x Hx Hpre.
  exists body. split; [exact (elem_of_prefix _ _ _ Hin Hpre) | exact Hx].
Qed.

Lemma quiet_post_text c path body ct :
  effectful (RestPost (network_id c None) path body ct) = false ->
  quietly (rest_post_text c path body ct) (fun tr t => Ev (RestPost (network_id c None) path body ct) (inr t) ∈ tr).
Proof.
  intros Hp. apply quietly_ask; [exact Hp|]. intros r. eapply quietly_mono; [apply quietly_from_transport|].
  intros tr a ->. auto.
Qed.

Lemma quiet_post_json {T} `{Deserialize T, JsonPrinter} c path body :
  effectful (RestPost (network_id c None) path (json_text body) (lit "application/json")) = false ->
  quietly (rest_post_json c path body)
    (fun tr x => exists t, Ev (RestPost (network_id c None) path (json_text body) (lit "application/json")) (inr t) ∈ tr
       /\ from_str t = inr x).
Proof.
  intros Hp. unfold rest_post_json. eapply quietly_bind; [apply quiet_post_text, Hp|].
  intros body' tr0 Hin. eapply quietly_mono; [apply quietly_decoded|]. intros tr x Hx Hpre.
  exists body'. split; [exact (elem_of_prefix _ _ _ Hin Hpre) | exact Hx].
Qed.

(** * Quiet pieces of the engine *)

Lemma narrow_no_panic {E} v (e : E) : narrow_u64 v e <> Panic.
Proof. unfold narrow_u64. no_panic. Qed.

#[export] Hint Resolve narrow_no_panic : no_panic.

Lemma quietly_lift_bind {A B} (r : res str A) (f : A -> io B) R :
  r <> Panic -> (forall a, r = Ok a -> quietly (f a) R) -> quietly (lift r ≫= f) R.
Proof.
  intros Hr Hf. eapply quietly_bind; [apply quietly_lift, Hr|]. intros a tr0 E. cbv beta in E.
  eapply quietly_mono; [apply Hf, E|]. auto.
Qed.

Section Pieces.
Context `{CodecLaws, Curve25519, Serde}.

Lemma quiet_account c :
  quietly (require_account c) (fun tr a => wa_chain a = c /\ exists s, Ev Status (inr s) ∈ tr /\ a ∈ accounts s).
Proof.
  unfold require_account. eapply quietly_bind; [apply quiet_status|]. intros s tr0 Hs.
  destruct (negb (configured s)).
  - intros past. cbn. split_and!; auto.
  - eapply quietly_mono; [apply quietly_lift, ok_or_no_panic|]. intros tr a Ha Hpre. cbv beta in Ha.
    apply ok_or_ok, find_first_position in Ha as (i & Hi & Hc & _). apply bool_decide_eq_true in Hc.
    split; [exact Hc|]. exists s. split; [exact (elem_of_prefix _ _ _ Hs Hpre) | eapply list_elem_of_lookup_2, Hi].
Qed.

Lemma quiet_node_params net from est :
  quietly (node_params net from est) (fun _ p => np_chain_id p = EvmNetwork_chain_id net).
Proof.
  unfold node_params, evm_rpc_call.
  do 4 (eapply quietly_bind; [apply quiet_json_rpc; reflexivity|]; intros ? ? _).
  eapply quietly_mono; [apply quietly_lift; no_panic|].
  intros tr p Hp _ _ _ _. cbv beta in Hp.
  apply bind_ok in Hp as (r & _ & Hp). apply bind_ok in Hp as (c & _ & Hp).
  apply bind_ok in Hp as (u & Hc & Hp). apply err_if_ok in Hc.
  do 5 (apply bind_ok in Hp as (? & _ & Hp)). injection Hp as <-. cbn [np_chain_id]. lia.
Qed.

Lemma quiet_blockhash : quietly fetch_recent_blockhash (fun _ bh => length bh = 32%nat).
Proof.
  unfold fetch_recent_blockhash, rpc_call. eapply quietly_bind; [apply quiet_json_rpc; reflexivity|]. intros r tr0 _.
  eapply quietly_mono; [apply quietly_lift, b58_to_pubkey_no_panic|]. intros tr bh Hb _. apply b58_to_pubkey_ok in Hb.
  apply Hb.
Qed.

Lemma quiet_signer_pubkey :
  quietly signer_pubkey (fun tr k => length k = 32%nat /\ exists a, Ev (DeriveAccount WSolana) (inr a) ∈ tr /\ b58_to_pubkey (da_address a) = Ok k).
Proof.
  unfold signer_pubkey. eapply quietly_bind; [apply quiet_derive|]. intros a tr0 Ha.
  eapply quietly_mono; [apply quietly_lift, b58_to_pubkey_no_panic|]. intros tr k Hk Hpre. cbv beta in Hk.
  split; [apply b58_to_pubkey_ok in Hk; apply Hk|]. exists a. split; [exact (elem_of_prefix _ _ _ Ha Hpre) | exact Hk].
Qed.

Lemma ata_no_panic owner mint : associated_token_account owner mint <> Panic.
Proof.
  unfold associated_token_account, token_program_id, ata_program_id, find_program_address. no_panic.
Qed.

Lemma ata_length owner mint a : associated_token_account owner mint = Ok a -> length a = 32%nat.
Proof.
  unfold associated_token_account, find_program_address. intros E.
  apply bind_ok in E as (tp & _ & E). apply bind_ok in E as (ap & _ & E).
  apply ok_or_ok, find_first_position in E as (i & Hi & _). apply list_lookup_fmap_Some in Hi as (b & -> & _).
  apply sha256_length.
Qed.

(** The SPL message moves [amount] between the two token accounts of the mint,
    on the sender's authority. *)
Definition spl_reads (from_pk to_pk mint : list Z) (amount : Z) (m : list Z) : Prop :=
  exists src dst token_program bh,
    associated_token_account from_pk mint = Ok src /\ associated_token_account to_pk mint = Ok dst /\
    token_program_id = Ok token_program /\
    read_message m = Some (mkMessage [1; 0; 1] [from_pk; src; dst; token_program] bh
                             [mkInstruction 3 [1; 2; 0] (3 :: le_bytes 8 amount)]).

Lemma spl_message_reads from_pk src dst amount bh m :
  length from_pk = 32%nat -> length src = 32%nat -> length dst = 32%nat -> length bh = 32%nat ->
  build_spl_transfer_message from_pk src dst amount bh = Ok m ->
  exists token_program, token_program_id = Ok token_program /\
    read_message m = Some (mkMessage [1; 0; 1] [from_pk; src; dst; token_program] bh
                             [mkInstruction 3 [1; 2; 0] (3 :: le_bytes 8 amount)]).
Proof.
  intros Hf Hs Hd Hb E. unfold build_spl_transfer_message in E. apply bind_ok in E as (tp & Htp & [= <-]).
  exists tp. split; [exact Htp|]. apply b58_to_pubkey_ok in Htp as [_ Htp].
  set (msg := mkMessage [1; 0; 1] [from_pk; src; dst; tp] bh [mkInstruction 3 [1; 2; 0] (3 :: le_bytes 8 amount)]).
  change (read_message (encode_message (m_header msg) (m_keys msg) (m_blockhash msg) (m_instructions msg)) = Some msg).
  rewrite encode_message_put. apply read_put_message; [exact engine_count_ok|].
  unfold message_fits, instruction_fits, msg. cbn [m_header m_keys m_blockhash m_instructions ins_accounts ins_data].
  split_and!; try assumption; try reflexivity; try (vm_compute; congruence).
  - repeat constructor; assumption.
  - repeat constructor; cbn [ins_accounts ins_data length]; try rewrite le_bytes_length; vm_compute; congruence.
Qed.

Lemma quiet_transfer_message quote from_pk to_pk amount :
  pt_kind quote = TokenTransferKind -> length from_pk = 32%nat ->
  quietly (transfer_message quote from_pk to_pk amount)
    (fun _ m => exists mint_addr mint, token_address quote = Some mint_addr /\ b58_to_pubkey mint_addr = Ok mint /\
       spl_reads from_pk to_pk mint amount m).
Proof.
  intros Hk Hf. unfold transfer_message. eapply quietly_bind; [apply quiet_blockhash|]. intros bh tr0 Hbh. cbv beta in Hbh.
  rewrite Hk.
  apply quietly_lift_bind; [no_panic|]. intros ma Hma. apply ok_or_ok in Hma.
  apply quietly_lift_bind; [no_panic|]. intros mint Hmint.
  apply quietly_lift_bind; [apply ata_no_panic|]. intros src Hsrc.
  apply quietly_lift_bind; [apply ata_no_panic|]. intros dst Hdst.
  unfold account_exists, rpc_call. eapply quietly_bind.
  { eapply (quietly_bind _ _ _ (fun _ _ => True)); [apply quiet_json_rpc; reflexivity|]. intros r tr1 _.
    eapply quietly_mono; [apply quietly_ret | auto]. }
  intros ex tr1 _. apply quietly_lift_bind; [no_panic|]. intros _ _.
  eapply quietly_mono; [apply quietly_lift; unfold build_spl_transfer_message, token_program_id; no_panic|].
  intros tr m Hm _ _. cbv beta in Hm. exists ma, mint. split_and!; [exact Hma | exact Hmint|].
  apply spl_message_reads in Hm as (tp & Htp & Hr); eauto using ata_length. exists src, dst, tp, bh. auto.
Qed.
End Pieces.

(** * What a request authorizes *)

(** The signer's answer to a transaction. *)
Definition signed_raw (e : event) : option str :=
  match ev_request e as q return answer q -> option str with
  | SignTransaction _ _ => fun r => match r with inr s => Some (raw s) | inl _ => None end
  | _ => fun _ => None
  end (ev_answer e).

(** The signer's answer to a message. *)
Definition message_signature (e : event) : option Signature :=
  match ev_request e as q return answer q -> option Signature with
  | SignMessage _ _ _ => fun r => match r with inr s => Some s | inl _ => None end
  | _ => fun _ => None
  end (ev_answer e).

(** A signature for an EVM transaction of this target, value and data. *)
Definition evm_asks (net : EvmNetwork) (to value_raw : str) (data : option str) (q : request) : Prop :=
  exists target value nonce gas_limit gas_price,
    evm_validate to = Ok target /\ parse_u128 (trim value_raw) = Ok value /\
    q = SignTransaction WEvm
          (SpecEvm target (show_dec value) (default [] data) nonce gas_limit gas_price (EvmNetwork_chain_id net)).

Section Authorizes.
Context `{Codecs, Curve25519, Serde, Base64}.

Definition evm_authorizes (quote : PreparedTransaction) (q : request) : Prop :=
  let net := EvmNetwork_or_mainnet (pt_evm_network quote) in
  match pt_kind quote with
  | NativeTransferKind =>
      exists to, evm_validate (to_address quote) = Ok to /\ evm_asks net to (pt_amount_raw quote) None q
  | TokenTransferKind =>
      exists token recipient amount contract,
        token_address quote = Some token /\ address_bytes (to_address quote) recipient /\
        u256_from_decimal (pt_amount_raw quote) = Ok amount /\ evm_validate token = Ok contract /\
        evm_asks net contract (lit "0")
          (Some (lit "0x" ++ hex_string (TRANSFER_SELECTOR ++ left_pad_address recipient ++ amount))) q
  end.

(** The coins are of the set the node reported, chosen by [plan_spend]. *)
Definition btc_authorizes (tr : list event) (quote : PreparedTransaction) (q : request) : Prop :=
  pt_kind quote = NativeTransferKind /\
  exists amount utxos body plan,
    parse_u64 (pt_amount_raw quote) = Ok amount /\
    Ev (RestGet (network_id WBtc None) (lit "address/" ++ from_address quote ++ lit "/utxo")) (inr body) ∈ tr /\
    from_str body = inr utxos /\ plan_spend utxos amount DEFAULT_FEE_RATE_SAT_VB = Ok plan /\
    q = SignTransaction WBtc
          (SpecBtc (from_address quote) (to_address quote) amount (fee_sats plan) (wire_utxo <$> selected plan)).

Definition solana_authorizes (quote : PreparedTransaction) (q : request) : Prop :=
  exists amount from_pk,
    parse_u64 (pt_amount_raw quote) = Ok amount /\ b58_to_pubkey (from_address quote) = Ok from_pk /\
    match pt_kind quote with
    | NativeTransferKind =>
        exists bh, q = SignTransaction WSolana (SpecSolana (from_address quote) (to_address quote) amount bh)
    | TokenTransferKind =>
        exists to_pk mint_addr mint m, b58_to_pubkey (to_address quote) = Ok to_pk /\
          token_address quote = Some mint_addr /\ b58_to_pubkey mint_addr = Ok mint /\
          q = SignMessage WSolana m SchemeEd25519 /\ spl_reads from_pk to_pk mint amount m
    end.

(** The TRC-20 call parameter for paying [amount] to the address [recipient]. *)
Definition trc20_parameter (recipient : list Z) (amount : Z) : str :=
  hex_string (replicate 12 0 ++ drop 1 recipient ++ replicate 16 0 ++ be_bytes 16 amount).

Definition tron_authorizes (quote : PreparedTransaction) (q : request) : Prop :=
  exists amount raw_hex raw to to_bytes recipient transfer,
    parse_u128 (pt_amount_raw quote) = Ok amount /\ tron_decode (to_address quote) = Ok recipient /\
    decode_hex raw_hex = Ok raw /\ tron_decode to = Ok to_bytes /\
    q = SignTransaction WTron (SpecTron raw_hex to (hex_lower (sha256 raw)) transfer) /\
    match pt_kind quote with
    | NativeTransferKind =>
        amount <= u64_max /\ to = to_address quote /\ transfer = Native amount /\ describes raw to_bytes transfer None
    | TokenTransferKind =>
        token_address quote = Some to /\ transfer = Trc20 (trc20_parameter recipient amount) /\
        describes raw to_bytes transfer (Some TRC20_FEE_LIMIT_SUN)
    end.

(** The request is a signature for the quote's own transfer. *)
Definition authorizes (tr : list event) (quote : PreparedTransaction) (q : request) : Prop :=
  match pt_chain quote with
  | WEvm => evm_authorizes quote q
  | WBtc => btc_authorizes tr quote q
  | WSolana => solana_authorizes quote q
  | WTron => tron_authorizes quote q
  end.

(** [b] broadcasts what the signer answered to [s]. *)
Definition carries_signed (quote : PreparedTransaction) (s b : event) : Prop :=
  match pt_chain quote with
  | WEvm =>
      exists raw, signed_raw s = Some raw /\
        ev_request b = JsonRpc (network_id WEvm (Some (EvmNetwork_or_mainnet (pt_evm_network quote))))
                         (lit "eth_sendRawTransaction") (JArr [JStr raw])
  | WBtc =>
      exists raw, signed_raw s = Some raw /\ ev_request b = RestPost (network_id WBtc None) (lit "tx") raw (lit "text/plain")
  | WSolana =>
      exists wire options,
        ev_request b = JsonRpc (network_id WSolana None) (lit "sendTransaction") (JArr [JStr (b64_encode wire); options]) /\
        match pt_kind quote with
        | NativeTransferKind => exists raw, signed_raw s = Some raw /\ b64_decode raw = inr wire
        | TokenTransferKind =>
            exists m text sig, ev_request s = SignMessage WSolana m SchemeEd25519 /\
              message_signature s = Some (SigEd25519 text) /\ lower_hex_to_bytes text = Ok sig /\ length sig = 64%nat /\
              wire = [1] ++ sig ++ m
        end
  | WTron =>
      exists raw raw_tx to txid transfer, signed_raw s = Some raw /\
        ev_request s = SignTransaction WTron (SpecTron (raw_data_hex raw_tx) to txid transfer) /\
        ev_request b = RestPost (network_id WTron None) (lit "wallet/broadcasttransaction")
                         (json_text (signed_broadcast_body raw_tx raw)) (lit "application/json")
  end.
End Authorizes.

(** A result that reports the quote as broadcast. *)
Definition reports (quote : PreparedTransaction) (x : ExecutionResult) : Prop :=
  er_quote_id x = pt_quote_id quote /\ er_status x = Broadcasted /\ er_chain x = pt_chain quote /\
  exists fee, er_transaction x = set_status (set_fee quote fee) Broadcasted.

(** * Runs of the chains' executions *)

(** A quiet step after quiet steps. *)
Lemma step_quietly {A B} (p : io A) (f : A -> io B) Post past tr Q :
  quietly p Post -> past `prefix_of` tr -> effects tr = effects past ->
  (forall tr e, past `prefix_of` tr -> effects tr = effects past -> Q tr (Err e)) ->
  (forall tr' a, past `prefix_of` tr' -> effects tr' = effects past -> tr `prefix_of` tr' -> Post tr' a -> wp (f a) tr' Q) ->
  wp (p ≫= f) tr Q.
Proof.
  intros Hp Hpre Heff He Hok. eapply wp_quietly; [exact Hp| |].
  - intros tr' e H1 H2. apply He; [etransitivity; eassumption | congruence].
  - intros tr' a H1 H2 H3. apply Hok; [etransitivity; eassumption | congruence | exact H1 | exact H3].
Qed.

Lemma step_lift {A B} (r : res str A) (f : A -> io B) past tr Q :
  r <> Panic -> past `prefix_of` tr -> effects tr = effects past ->
  (forall tr e, past `prefix_of` tr -> effects tr = effects past -> Q tr (Err e)) ->
  (forall a, r = Ok a -> wp (f a) tr Q) ->
  wp (lift r ≫= f) tr Q.
Proof. intros Hr Hpre Heff He Hok. destruct r; [apply Hok; reflexivity | apply He; assumption | contradiction]. Qed.

(** The next step of a quiet part: [quiet_by] a lemma, or [pure_step] a check. *)
Tactic Notation "quiet_by" constr(lem) "as" ident(x) ident(H) :=
  eapply step_quietly; [eapply lem; try reflexivity | eassumption | eassumption | eassumption |];
  let tr := fresh "tr" in intros tr x ? ? ? H; cbv beta in H.
Tactic Notation "pure_step" "as" ident(x) ident(H) :=
  eapply step_lift; [solve [no_panic] | eassumption | eassumption | eassumption |]; intros x H.

Lemma wp_sign_transaction {B} c t (f : SignedTransaction -> io B) past Q :
  (forall e, Q (past ++ [Ev (SignTransaction c t) (inl e)]) (Err e)) ->
  (forall s, wp (f s) (past ++ [Ev (SignTransaction c t) (inr s)]) Q) ->
  wp (sign_transaction c t ≫= f) past Q.
Proof. intros He Hs [e|s]; [apply He | apply Hs]. Qed.

(** A broadcast: whatever is answered, the program goes on or ends with an error. *)
Lemma wp_json_loud {T B} `{Deserialize T} net method params (f : T -> io B) past Q :
  (forall r e, Q (past ++ [Ev (JsonRpc net method params) r]) (Err e)) ->
  (forall r x, wp (f x) (past ++ [Ev (JsonRpc net method params) r]) Q) ->
  wp (json_rpc net method params ≫= f) past Q.
Proof.
  intros He Hx. unfold json_rpc. apply wp_bind, wp_bind. intros [e|v]; cbn; [apply He|].
  destruct (from_value v); cbn; [apply He | apply Hx].
Qed.

Lemma wp_post_loud {B} c path body ct (f : str -> io B) past Q :
  (forall r e, Q (past ++ [Ev (RestPost (network_id c None) path body ct) r]) (Err e)) ->
  (forall r x, wp (f x) (past ++ [Ev (RestPost (network_id c None) path body ct) r]) Q) ->
  wp (rest_post_text c path body ct ≫= f) past Q.
Proof. intros He Hx [e|v]; [apply He | apply Hx]. Qed.

Lemma wp_post_json_loud {T B} `{Deserialize T, JsonPrinter} c path body (f : T -> io B) past Q :
  (forall r e, Q (past ++ [Ev (RestPost (network_id c None) path (json_text body) (lit "application/json")) r]) (Err e)) ->
  (forall r x, wp (f x) (past ++ [Ev (RestPost (network_id c None) path (json_text body) (lit "application/json")) r]) Q) ->
  wp (rest_post_json c path body ≫= f) past Q.
Proof.
  intros He Hx. unfold rest_post_json. apply wp_bind, wp_bind. intros [e|v]; cbn; [apply He|].
  destruct (from_str v); cbn; [apply He | apply Hx].
Qed.

(** The three ways a run of a signing program can end: without an effect and
    without success; with a good signature request, refused; with that and the
    broadcast of the answer.  It panics only where it may. *)
Definition outcome {A} (may_panic : Prop) (good : list event -> request -> Prop) (sent : event -> event -> Prop)
    (done : A -> Prop) (past tr : list event) (r : res str A) : Prop :=
  past `prefix_of` tr /\ (r = Panic -> may_panic) /\
  ((effects tr = effects past /\ forall a, r <> Ok a) \/
   (exists s, effects tr = effects past ++ [s] /\ is_signature (ev_request s) = true /\ good tr (ev_request s) /\
      forall a, r <> Ok a) \/
   (exists s b, effects tr = effects past ++ [s; b] /\ is_signature (ev_request s) = true /\
      is_signature (ev_request b) = false /\ good tr (ev_request s) /\ sent s b /\ forall a, r = Ok a -> done a)).

Section Outcome.
Context {A : Type} {may_panic : Prop} {good : list event -> request -> Prop} {sent : event -> event -> Prop} {done : A -> Prop}.
Context (Hmono : forall tr tr' q, tr `prefix_of` tr' -> good tr q -> good tr' q).

Lemma outcome_quiet past tr e :
  past `prefix_of` tr -> effects tr = effects past -> outcome may_panic good sent done past tr (Err e).
Proof. intros Hp He. split_and!; [exact Hp | discriminate|]. left. split; [exact He | discriminate]. Qed.

Lemma outcome_refused past tr s e :
  past `prefix_of` tr -> effects tr = effects past -> is_signature (ev_request s) = true -> good tr (ev_request s) ->
  outcome may_panic good sent done past (tr ++ [s]) (Err e).
Proof.
  intros Hp He Hs Hg. split_and!; [etransitivity; [exact Hp | apply prefix_snoc] | discriminate|]. right. left. exists s. split_and!.
  - rewrite effects_loud by (unfold is_loud, effectful; rewrite Hs; reflexivity). congruence.
  - exact Hs.
  - eapply Hmono; [apply prefix_snoc | exact Hg].
  - discriminate.
Qed.

Lemma outcome_sent past tr tr' s b r :
  past `prefix_of` tr -> effects tr = effects past -> is_signature (ev_request s) = true -> good tr (ev_request s) ->
  is_signature (ev_request b) = false -> is_broadcast (ev_request b) = true -> sent s b ->
  (forall a, r = Ok a -> done a) -> r <> Panic ->
  (tr ++ [s]) ++ [b] `prefix_of` tr' -> effects tr' = effects ((tr ++ [s]) ++ [b]) ->
  outcome may_panic good sent done past tr' r.
Proof.
  intros Hp He Hs Hg Hb Hb' Hsent Hd Hn Hp' He'. split; [|split; [contradiction|]].
  { etransitivity; [exact Hp|]. etransitivity; [apply prefix_snoc|]. etransitivity; [apply prefix_snoc | exact Hp']. }
  right. right. exists s, b. split_and!; auto.
  - rewrite He', !effects_loud by (unfold is_loud, effectful; first [rewrite Hs | rewrite Hb, Hb']; reflexivity).
    rewrite He, <- app_assoc. reflexivity.
  - eapply Hmono; [|exact Hg]. etransitivity; [apply prefix_snoc|]. etransitivity; [apply prefix_snoc | exact Hp'].
Qed.
End Outcome.

(** From an outcome of a part to one of the whole. *)
Lemma outcome_weaken {A B} (P P' : Prop) good good' sent sent' (done : A -> Prop) (done' : B -> Prop) past past' tr r r' :
  past' `prefix_of` past -> effects past = effects past' ->
  (P -> P') -> (forall q, good tr q -> good' tr q) -> (forall s b, good tr (ev_request s) -> sent s b -> sent' s b) ->
  (r' = Panic -> r = Panic) -> (forall b, r' = Ok b -> exists a, r = Ok a /\ (done a -> done' b)) ->
  outcome P good sent done past tr r -> outcome P' good' sent' done' past' tr r'.
Proof.
  intros Hp He HP Hg Hs Hn Hr (H1 & H2 & H3). rewrite He in H3.
  assert (Hno : (forall a, r <> Ok a) -> forall b, r' <> Ok b).
  { intros H b E. destruct (Hr b E) as (a & Ea & _). exact (H a Ea). }
  split_and!; [etransitivity; eassumption | auto|].
  destruct H3 as [[H3 H4] | [(s & H3 & H4 & H5 & H6) | (s & b & H3 & H4 & H5 & H6 & H7 & H8)]].
  - left. auto.
  - right. left. exists s. split_and!; auto.
  - right. right. exists s, b. split_and!; auto. intros x E. destruct (Hr x E) as (a & Ea & Hd). auto.
Qed.

(** * EVM *)

Definition evm_sent (net : EvmNetwork) (s b : event) : Prop :=
  exists raw, signed_raw s = Some raw /\
    ev_request b = JsonRpc (network_id WEvm (Some net)) (lit "eth_sendRawTransaction") (JArr [JStr raw]).

(** After a broadcast that [Hg] justifies. *)
Ltac sent_by Hg :=
  eapply outcome_sent; try (apply Hg); try eassumption; try reflexivity; try discriminate; auto.

Section Chains.
Context `{CodecLaws, Curve25519, Serde, Base64}.

Lemma evm_signs net from to value data past :
  wp (sign_and_broadcast net from to value data) past
    (outcome False (fun _ => evm_asks net to value data) (evm_sent net) (fun _ => True) past).
Proof.
  pose proof (@outcome_quiet (str * Z) False (fun _ => evm_asks net to value data) (evm_sent net) (fun _ => True) past) as He.
  assert (Hpre : past `prefix_of` past) by reflexivity. assert (Heff : effects past = effects past) by reflexivity.
  unfold sign_and_broadcast. pure_step as target Ht. apply map_err_ok in Ht.
  pure_step as v Hv. apply map_err_ok in Hv.
  quiet_by quiet_node_params as np Hid.
  assert (Hg : forall q, q = SignTransaction WEvm (SpecEvm target (show_dec v) (default [] data) (np_nonce np) (np_gas_limit np)
      (show_dec (np_gas_price np)) (np_chain_id np)) -> evm_asks net to value data q).
  { intros q ->. rewrite Hid. repeat eexists; eassumption. }
  apply wp_sign_transaction.
  - intros e. apply outcome_refused; auto.
  - intros s. apply wp_json_loud; intros r x; sent_by Hg; eexists; split; reflexivity.
Qed.

Lemma evm_call_authorizes quote to value data q :
  pt_chain quote = WEvm -> evm_call quote = Ok (to, value, data) ->
  evm_asks (EvmNetwork_or_mainnet (pt_evm_network quote)) to value data q -> evm_authorizes quote q.
Proof.
  intros Hc E Hq. unfold evm_call in E. unfold evm_authorizes. destruct (pt_kind quote).
  - apply bind_ok in E as (t & Ht & [= <- <- <-]). apply map_err_ok in Ht. eauto.
  - apply bind_ok in E as (token & Ht & E). apply ok_or_ok in Ht.
    apply bind_ok in E as (cd & Hcd & E). unfold engine_encode_erc20_transfer in Hcd. apply map_err_ok, abi_encode_ok in Hcd as (bs & w & Hbs & Hw & ->).
    apply bind_ok in E as (c & Hc' & [= <- <- <-]). apply map_err_ok in Hc'. exists token, bs, w, c. auto.
Qed.

Lemma runs_evm quote past :
  pt_chain quote = WEvm ->
  wp (execute_evm_quote quote) past
    (outcome (pt_chain quote = WTron) (fun tr => authorizes tr quote) (carries_signed quote) (reports quote) past).
Proof.
  intros Hc. unfold execute_evm_quote. assert (Hn : evm_call quote <> Panic).
  { unfold evm_call, engine_encode_erc20_transfer. no_panic. }
  destruct (evm_call quote) as [[[to value] data]|e|] eqn:E; [|apply outcome_quiet; reflexivity | contradiction].
  cbn [lift mbind io_bind io_then]. apply wp_bind. eapply wp_mono; [apply evm_signs|]. intros tr r Ho.
  assert (Hw : forall r', (r' = Panic -> r = Panic) -> (forall x, r' = Ok x -> exists a, r = Ok a /\ reports quote x) ->
    outcome (pt_chain quote = WTron) (fun tr => authorizes tr quote) (carries_signed quote) (reports quote) past tr r').
  { intros r' Hp Hr. eapply outcome_weaken; [reflexivity | reflexivity | | | | exact Hp | | exact Ho].
    - contradiction.
    - intros q Hq. unfold authorizes. rewrite Hc. eapply evm_call_authorizes; eassumption.
    - intros s b _ (raw & Hraw & Hreq). unfold carries_signed. rewrite Hc. eauto.
    - intros x Hx. destruct (Hr x Hx) as (a & Ha & Hd). eauto. }
  destruct r as [[h fee]|e|]; apply Hw; try discriminate; auto.
  intros x [= <-]. eexists. split; [reflexivity|]. unfold reports. cbn. split_and!; auto. eauto.
Qed.
(** * Bitcoin *)

Lemma runs_btc quote past :
  pt_chain quote = WBtc ->
  wp (execute_btc_quote quote) past
    (outcome (pt_chain quote = WTron) (fun tr => authorizes tr quote) (carries_signed quote) (reports quote) past).
Proof.
  intros Hc. set (Q := outcome _ _ _ _ past).
  assert (Hmono : forall tr tr' q, tr `prefix_of` tr' -> authorizes tr quote q -> authorizes tr' quote q).
  { intros tr tr' q Hp. unfold authorizes. rewrite Hc. intros (Hk & a & u & body & plan & Ha & Hin & Hrest).
    split; [exact Hk|]. exists a, u, body, plan. split; [exact Ha|]. split; [exact (elem_of_prefix _ _ _ Hin Hp) | exact Hrest]. }
  assert (He : forall tr e, past `prefix_of` tr -> effects tr = effects past -> Q tr (Err e)) by apply outcome_quiet.
  assert (Hpre : past `prefix_of` past) by reflexivity. assert (Heff : effects past = effects past) by reflexivity.
  unfold execute_btc_quote.
  pure_step as u Hk. apply err_if_ok in Hk. apply negb_false_iff, bool_decide_eq_true in Hk.
  pure_step as amount Ha. apply map_err_ok in Ha.
  pure_step as v1 Hv1. pure_step as v2 Hv2.
  unfold fetch_utxos. quiet_by (quiet_get_json (T := list EsploraUtxo)) as utxos Hu. destruct Hu as (body & Hin & Hu).
  pure_step as v3 Hv3. pure_step as plan Hp.
  assert (Hg : forall tr' q, tr `prefix_of` tr' -> q = SignTransaction WBtc
      (SpecBtc (from_address quote) (to_address quote) amount (fee_sats plan) (wire_utxo <$> selected plan)) -> authorizes tr' quote q).
  { intros tr' q Hp' ->. apply (Hmono tr); [exact Hp'|]. unfold authorizes. rewrite Hc. split; [exact Hk|].
    exists amount, utxos, body, plan. auto. }
  apply wp_sign_transaction.
  - intros e. apply outcome_refused; auto.
  - intros s. unfold broadcast_raw_hex. apply wp_post_loud; intros r x.
    + sent_by (Hg tr). unfold carries_signed. rewrite Hc. eexists. split; reflexivity.
    + eapply wp_quietly; [apply quiet_explorer_url | |]; intros tr' ? Hp' He'; [|intros _; cbn [wp mret io_ret]];
        (sent_by (Hg tr); try (unfold carries_signed; rewrite Hc; eexists; split; reflexivity)).
      intros y [= <-]. unfold reports. cbn. split_and!; auto. eauto.
Qed.

(** * Solana *)

(** What is broadcast for a signer's answer. *)
Lemma wp_broadcast_solana {B} wire (f : str -> io B) past Q :
  (forall b e, ev_request b = JsonRpc (network_id WSolana None) (lit "sendTransaction")
       (JArr [JStr (b64_encode wire);
              jobj [(lit "encoding", JStr (lit "base64")); (lit "preflightCommitment", JStr (lit "processed"))]]) ->
     Q (past ++ [b]) (Err e)) ->
  (forall b x, ev_request b = JsonRpc (network_id WSolana None) (lit "sendTransaction")
       (JArr [JStr (b64_encode wire);
              jobj [(lit "encoding", JStr (lit "base64")); (lit "preflightCommitment", JStr (lit "processed"))]]) ->
     wp (f x) (past ++ [b]) Q) ->
  wp (broadcast_solana wire ≫= f) past Q.
Proof.
  intros He Hx. apply wp_json_loud; intros r x; [apply He | apply Hx]; reflexivity.
Qed.

Lemma lower_hex_byte_no_panic value i : lower_hex_byte value i <> Panic.
Proof. unfold lower_hex_byte. no_panic. Qed.

Lemma wp_solana_sign {B} m (f : list Z -> io B) past Q :
  (forall r e, Q (past ++ [Ev (SignMessage WSolana m SchemeEd25519) r]) (Err e)) ->
  (forall text sig, lower_hex_to_bytes text = Ok sig -> length sig = 64%nat ->
     wp (f sig) (past ++ [Ev (SignMessage WSolana m SchemeEd25519) (inr (SigEd25519 text))]) Q) ->
  wp (solana_sign m ≫= f) past Q.
Proof.
  intros He Hs. unfold solana_sign. apply wp_bind, wp_bind. intros [e|[rs v|text]]; cbn [or_error wp]; [apply He..|].
  assert (Hn : lower_hex_to_bytes text <> Panic).
  { unfold lower_hex_to_bytes. case_bool; [discriminate|]. apply collect_no_panic. intros; apply lower_hex_byte_no_panic. }
  destruct (lower_hex_to_bytes text) as [sig|e|] eqn:E; cbn [lift mbind io_bind io_then wp]; [|apply He | contradiction].
  destruct (Nat.eqb_spec (length sig) 64) as [Hl|]; cbn [wp mret io_ret]; [apply Hs; assumption | apply He].
Qed.

(** The last steps of a Solana execution. *)
Lemma finish_solana quote past tr s wire :
  pt_chain quote = WSolana -> past `prefix_of` tr -> effects tr = effects past -> is_signature (ev_request s) = true ->
  solana_authorizes quote (ev_request s) ->
  (forall b options, ev_request b = JsonRpc (network_id WSolana None) (lit "sendTransaction") (JArr [JStr (b64_encode wire); options]) ->
     carries_signed quote s b) ->
  wp (tx_sig ← broadcast_solana wire; url ← explorer_url WSolana tx_sig;
      mret (mkExecutionResult (pt_quote_id quote) Broadcasted WSolana None tx_sig url (set_status quote Broadcasted)))
    (tr ++ [s])
    (outcome (pt_chain quote = WTron) (fun tr => authorizes tr quote) (carries_signed quote) (reports quote) past).
Proof.
  intros Hc Hp He Hs Hg Hcar.
  assert (Hmono : forall tr tr' q, tr `prefix_of` tr' -> authorizes tr quote q -> authorizes tr' quote q)
    by (intros ? ? q _; unfold authorizes; rewrite Hc; auto).
  assert (Ha : authorizes tr quote (ev_request s)) by (unfold authorizes; rewrite Hc; exact Hg).
  apply wp_broadcast_solana; intros b x Hb.
  - eapply outcome_sent; try eassumption; try rewrite Hb; try reflexivity; try discriminate. eapply Hcar, Hb.
  - eapply wp_quietly; [apply quiet_explorer_url | |]; intros tr' ? Hp' He'; [|intros _; cbn [wp mret io_ret]];
      (eapply outcome_sent; [exact Hmono | exact Hp | exact He | exact Hs | exact Ha | rewrite Hb; reflexivity
       | rewrite Hb; reflexivity | eapply Hcar, Hb | | discriminate | exact Hp' | exact He']); [discriminate|].
    intros y [= <-]. unfold reports. cbn. split_and!; auto. exists (pt_estimated_fee_raw quote). destruct quote; reflexivity.
Qed.

Lemma runs_solana quote past :
  pt_chain quote = WSolana ->
  wp (execute_solana_quote quote) past
    (outcome (pt_chain quote = WTron) (fun tr => authorizes tr quote) (carries_signed quote) (reports quote) past).
Proof.
  intros Hc. set (Q := outcome _ _ _ _ past).
  assert (Hmono : forall tr tr' q, tr `prefix_of` tr' -> authorizes tr quote q -> authorizes tr' quote q)
    by (intros ? ? q _; unfold authorizes; rewrite Hc; auto).
  assert (He : forall tr e, past `prefix_of` tr -> effects tr = effects past -> Q tr (Err e)) by apply outcome_quiet.
  assert (Hpre : past `prefix_of` past) by reflexivity. assert (Heff : effects past = effects past) by reflexivity.
  unfold execute_solana_quote.
  pure_step as v1 Hv1. pure_step as v2 Hv2. pure_step as amount Ha. apply map_err_ok in Ha.
  quiet_by quiet_signer_pubkey as from_pk Hf. destruct Hf as [Hfl _].
  pure_step as expected Hexp. pure_step as u Hu. apply err_if_ok, negb_false_iff, bool_decide_eq_true in Hu. subst expected.
  destruct (pt_kind quote) eqn:Hk.
  - apply wp_bind. eapply step_quietly; [apply quiet_blockhash | eassumption | eassumption | eassumption |].
    intros tr1 bh Hp1 He1 _ _. apply wp_sign_transaction.
    + intros e. apply outcome_refused; auto. unfold authorizes. rewrite Hc. exists amount, from_pk. rewrite Hk. eauto.
    + intros s. destruct (b64_decode (raw s)) as [e|wire] eqn:Hw; cbn [decoded wp].
      * apply outcome_refused; auto. unfold authorizes. rewrite Hc. exists amount, from_pk. rewrite Hk. eauto.
      * apply finish_solana; auto; [exists amount, from_pk; rewrite Hk; eauto|].
        intros b options Hb. unfold carries_signed. rewrite Hc, Hk. exists wire, options. split; [exact Hb|]. eexists. split; [reflexivity | exact Hw].
  - apply wp_bind. pure_step as to_pk Hto.
    eapply step_quietly; [eapply quiet_transfer_message; eassumption | eassumption | eassumption | eassumption |].
    intros tr1 m Hp1 He1 _ (ma & mint & Hma & Hmint & Hm). cbv beta in Hm.
    assert (Hg : solana_authorizes quote (SignMessage WSolana m SchemeEd25519)).
    { exists amount, from_pk. rewrite Hk. split_and!; try assumption. exists to_pk, ma, mint, m. auto. }
    assert (Hga : authorizes tr1 quote (SignMessage WSolana m SchemeEd25519)) by (unfold authorizes; rewrite Hc; exact Hg).
    apply wp_solana_sign.
    + intros r e. apply outcome_refused; auto.
    + intros text sig Hsig Hl. cbn [wp mret io_ret]. apply finish_solana; auto.
      intros b options Hb. unfold carries_signed. rewrite Hc, Hk. eexists _, options. split; [exact Hb|].
      exists m, text, sig. split_and!; auto.
Qed.

(** * Tron *)

Lemma tron_parameter to h amount p :
  to_hex to = Ok h -> encode_trc20_transfer_param h amount = Ok p ->
  exists recipient, tron_decode to = Ok recipient /\ p = trc20_parameter recipient amount.
Proof.
  intros Hh Hp. apply tron_to_hex_ok in Hh as (r & Hr & ->). destruct (tron_decode_facts _ _ Hr) as (Hok & _ & _ & _).
  exists r. split; [exact Hr|]. unfold encode_trc20_transfer_param in Hp.
  apply bind_ok in Hp as (b & Hb & Hp). apply map_err_ok in Hb.
  rewrite (hex_decode_text (hex_string r) r) in Hb by (auto; symmetry; apply hex_string_lower; auto).
  injection Hb as <-. apply bind_ok in Hp as (u & _ & [= <-]).
  unfold trc20_parameter, pad_left_32. rewrite be_bytes_length. cbn [Nat.leb Nat.sub].
  rewrite hex_encode_lower; [reflexivity|].
  change (bytes_ok (replicate 12 0 ++ drop 1 r ++ replicate 16 0 ++ be_bytes 16 amount)).
  rewrite !Forall_app. split_and!; try apply be_bytes_ok; try (apply Forall_drop, Hok);
    apply Forall_replicate; unfold is_u8; lia.
Qed.

Lemma quiet_build quote owner_hex to_hex' amount :
  quietly (build_transaction quote owner_hex to_hex' amount)
    (fun _ x => let '(to, transfer, raw_tx) := x in
       match pt_kind quote with
       | NativeTransferKind => amount <= u64_max /\ to = to_address quote /\ transfer = Native amount
       | TokenTransferKind =>
           token_address quote = Some to /\ exists p, encode_trc20_transfer_param to_hex' amount = Ok p /\ transfer = Trc20 p
       end).
Proof.
  unfold build_transaction. destruct (pt_kind quote).
  - apply quietly_lift_bind; [no_panic|]. intros sun Hsun. unfold narrow_u64 in Hsun.
    destruct (Z.leb_spec amount u64_max); [injection Hsun as <- | discriminate].
    unfold create_native_transaction. eapply quietly_bind; [apply (quiet_post_json (T := CreateTransactionResponse)); reflexivity|].
    intros r tr0 _. eapply quietly_mono; [apply quietly_ret|]. intros tr x -> _. auto.
  - apply quietly_lift_bind; [no_panic|]. intros c Hc. apply ok_or_ok in Hc.
    apply quietly_lift_bind; [unfold validate_tron_address; no_panic|]. intros v _.
    apply quietly_lift_bind; [unfold tron_address_to_hex; no_panic|]. intros h _.
    apply quietly_lift_bind; [unfold encode_trc20_transfer_param; no_panic|]. intros p Hp.
    unfold trigger_trc20_transfer. eapply quietly_bind.
    { eapply (quietly_bind _ _ _ (fun _ _ => True)); [apply (quiet_post_json (T := TriggerSmartContractResponse)); reflexivity|].
      intros r tr0 _. eapply quietly_mono; [apply quietly_ret | auto]. }
    intros r tr0 _. eapply quietly_mono; [apply quietly_ret|]. intros tr x -> _. cbn. eauto.
Qed.

Lemma tron_spec_authorizes quote amount h to transfer raw_tx spec :
  parse_u128 (pt_amount_raw quote) = Ok amount -> to_hex (to_address quote) = Ok h ->
  match pt_kind quote with
  | NativeTransferKind => amount <= u64_max /\ to = to_address quote /\ transfer = Native amount
  | TokenTransferKind =>
      token_address quote = Some to /\ exists p, encode_trc20_transfer_param h amount = Ok p /\ transfer = Trc20 p
  end ->
  tron_transaction_spec raw_tx to transfer = Ok spec ->
  (exists txid, spec = SpecTron (raw_data_hex raw_tx) to txid transfer) /\
  tron_authorizes quote (SignTransaction WTron spec).
Proof.
  intros Ha Hh Hkind E. unfold tron_transaction_spec in E.
  apply bind_ok in E as (txid & Htx & E). apply map_err_ok in Htx.
  apply bind_ok in E as (u & Hv & [= <-]). apply map_err_ok in Hv. destruct u.
  apply verify_contract_decides in Hv as (raw & tb & Hraw & _ & Htb & Hd).
  unfold recompute_txid in Htx. rewrite Hraw in Htx. injection Htx as <-.
  split; [eauto|]. pose proof (proj1 (tron_to_hex_ok _ _) Hh) as (recipient & Hrec & _).
  exists amount, (raw_data_hex raw_tx), raw, to, tb, recipient, transfer.
  split_and!; try assumption; try reflexivity. destruct (pt_kind quote).
  - destruct Hkind as (? & -> & ->). auto.
  - destruct Hkind as (Hto & p & Hp & ->). destruct (tron_parameter _ _ _ _ Hh Hp) as (r' & Hr' & ->).
    assert (r' = recipient) as -> by congruence. auto.
Qed.

Lemma runs_tron quote past :
  pt_chain quote = WTron ->
  wp (execute_tron_quote quote) past
    (outcome (pt_chain quote = WTron) (fun tr => authorizes tr quote) (carries_signed quote) (reports quote) past).
Proof.
  intros Hc. set (Q := outcome _ _ _ _ past).
  assert (Hmono : forall tr tr' q, tr `prefix_of` tr' -> authorizes tr quote q -> authorizes tr' quote q)
    by (intros ? ? q _; unfold authorizes; rewrite Hc; auto).
  assert (He : forall tr e, past `prefix_of` tr -> effects tr = effects past -> Q tr (Err e)) by apply outcome_quiet.
  assert (Hpre : past `prefix_of` past) by reflexivity. assert (Heff : effects past = effects past) by reflexivity.
  unfold execute_tron_quote, validate_tron_address, tron_address_to_hex.
  pure_step as v1 Hv1. pure_step as v2 Hv2. pure_step as amount Ha. apply map_err_ok in Ha.
  pure_step as oh Hoh. pure_step as h Hh. apply map_err_ok in Hh.
  quiet_by quiet_derive as acct Hacct. pure_step as u Hu.
  quiet_by quiet_build as built Hb. destruct built as [[to transfer] raw_tx].
  destruct (tron_transaction_spec raw_tx to transfer) as [spec|e|] eqn:Hspec.
  2:{ apply He; assumption. }
  2:{ split_and!; [assumption | auto | left; split; [assumption | discriminate]]. }
  destruct (tron_spec_authorizes _ _ _ _ _ _ _ Ha Hh Hb Hspec) as ((txid & ->) & Hg).
  cbn [lift mbind io_bind io_then].
  match goal with |- wp _ ?t _ => assert (Hga : authorizes t quote (SignTransaction WTron (SpecTron (raw_data_hex raw_tx) to txid transfer)))
    by (unfold authorizes; rewrite Hc; exact Hg) end.
  apply wp_sign_transaction.
  - intros e. apply outcome_refused; auto.
  - intros s. assert (Hcar : forall b, ev_request b = RestPost (network_id WTron None) (lit "wallet/broadcasttransaction")
        (json_text (signed_broadcast_body raw_tx (raw s))) (lit "application/json") ->
      carries_signed quote (Ev (SignTransaction WTron (SpecTron (raw_data_hex raw_tx) to txid transfer)) (inr s)) b).
    { intros b Hb'. unfold carries_signed. rewrite Hc. exists (raw s), raw_tx, to, txid, transfer. auto. }
    apply wp_post_json_loud; intros r x; [sent_by Hga|].
    destruct (negb (default false _)); cbn [lift err_if mbind io_bind io_then]; [sent_by Hga|].
    eapply wp_quietly; [apply quiet_explorer_url | |]; intros tr' ? Hp' He'; [|intros _; cbn [wp mret io_ret]]; sent_by Hga.
    intros y [= <-]. unfold reports. cbn. split_and!; auto. exists (pt_estimated_fee_raw quote). destruct quote; reflexivity.
Qed.

Lemma runs_on_chain quote past :
  wp (execute_on_chain quote) past
    (outcome (pt_chain quote = WTron) (fun tr => authorizes tr quote) (carries_signed quote) (reports quote) past).
Proof.
  pose proof (runs_evm quote past) as He. pose proof (runs_btc quote past) as Hb.
  pose proof (runs_solana quote past) as Hs. pose proof (runs_tron quote past) as Ht.
  unfold execute_on_chain. destruct (pt_chain quote); auto.
Qed.
End Chains.

(** * Shapes of an execution *)

(** What a part of a run, its effects [mid], asked the signer and the network
    to do, with the result [r] of the run [tr]. *)
Definition shape {A} (good : list event -> request -> Prop) (sent : event -> event -> Prop) (done : A -> Prop)
    (tr mid : list event) (r : res str A) : Prop :=
  (mid = [] /\ forall x, r <> Ok x) \/
  (exists s, mid = [s] /\ is_signature (ev_request s) = true /\ good tr (ev_request s) /\ forall x, r <> Ok x) \/
  (exists s b, mid = [s; b] /\ is_signature (ev_request s) = true /\ is_signature (ev_request b) = false /\
     good tr (ev_request s) /\ sent s b /\ forall x, r = Ok x -> done x).

(** An outcome's effects, with what happens after it. *)
Lemma outcome_shape {A B} good sent (done : A -> Prop) (done' : B -> Prop) P past tr tr' r r' :
  (forall tr tr' q, tr `prefix_of` tr' -> good tr q -> good tr' q) ->
  outcome P good sent done past tr r -> tr `prefix_of` tr' ->
  (forall x, r' = Ok x -> exists y, r = Ok y /\ (done y -> done' x)) ->
  exists mid, effects tr = effects past ++ mid /\ shape good sent done' tr' mid r'.
Proof.
  intros Hmono (_ & _ & Ho) Hp Hr.
  assert (Hno : (forall a, r <> Ok a) -> forall b, r' <> Ok b).
  { intros Hn b E. destruct (Hr b E) as (a & Ea & _). exact (Hn a Ea). }
  destruct Ho as [[Ho Hn] | [(s & Ho & Hs & Hg & Hn) | (s & b & Ho & Hs & Hb & Hg & Hc & Hd)]].
  - exists []. rewrite app_nil_r. split; [exact Ho|]. left. auto.
  - exists [s]. split; [exact Ho|]. right. left. exists s. split_and!; eauto.
  - exists [s; b]. split; [exact Ho|]. right. right. exists s, b. split_and!; eauto.
    intros x E. destruct (Hr x E) as (y & Ey & Hxy). auto.
Qed.
