(* ===== verification/Transfer.v ===== *)
(** A transfer from the user's request to the signature.

    Preparing stores a quote for what was asked and does nothing else; executing
    takes the quote, asks for one signature for exactly that transfer, and
    broadcasts the signer's answer; a failure puts the quote back. *)

From stdpp Require Import base list strings numbers.
From S2P Require Import Prelude Program Text Chain Codec Base58 Addr Proto TronTx EvmTx BtcTx Json Wire Quotes Assets.
From S2P Require Import X402Wire Eip712 SolWire Host NoPanic Engine Signing.

Section Execution.
Context `{Codecs, Curve25519, Serde, Base64}.

(** What the result of an execution reports. *)
Definition executed (quote : PreparedTransaction) (x : ExecutionResult) : Prop :=
  reports quote x /\ is_Some (er_explorer_url x).

(** One execution of [quote]. *)
Definition execution_of (quote : PreparedTransaction) (tr mid : list event) (r : res str ExecutionResult) : Prop :=
  shape (fun tr => authorizes tr quote) (carries_signed quote) (executed quote) tr mid r.

Lemma authorizes_mono quote tr tr' q : tr `prefix_of` tr' -> authorizes tr quote q -> authorizes tr' quote q.
Proof.
  intros Hp. unfold authorizes. destruct (pt_chain quote); auto. intros (Hk & a & u & body & plan & Ha & Hin & Hrest).
  split; [exact Hk|]. exists a, u, body, plan. split; [exact Ha|]. split; [exact (elem_of_prefix _ _ _ Hin Hp) | exact Hrest].
Qed.

(** What a run of [execute_prepared] shows. *)
Definition prepared_run (params : ExecutePreparedParams) (tr : list event) (r : res str ExecutionResult) : Prop :=
  (effects tr = [] /\ ep_confirmed params = false /\ exists e, r = Err e) \/
  (ep_confirmed params = true /\ exists caller, Ev CurrentOwner caller ∈ tr /\
    ((exists e, effects tr = [Ev (TakeQuote (ep_quote_id params) caller) (inl e)] /\ r = Err e) \/
     (exists quote mid,
        execution_of (transaction quote) tr mid r /\
        effects tr = Ev (TakeQuote (ep_quote_id params) caller) (inr quote) :: mid
                     ++ (if r is Err _ then [Ev (RestoreQuote quote) tt] else []) /\
        (r = Panic -> pt_chain (transaction quote) = WTron)))).
End Execution.

Lemma execute_prepared_runs `{CodecLaws, Curve25519, Serde, Base64} params :
  wp (execute_prepared params) [] (prepared_run params).
Proof.
  unfold execute_prepared. destruct (ep_confirmed params) eqn:Hc.
  2:{ left. split_and!; [reflexivity | exact Hc | eexists; reflexivity]. }
  intros caller. intros [e|quote].
  { right. split; [exact Hc|]. exists caller. split; [left|]. left. exists e. split; reflexivity. }
  cbn [or_error mbind io_bind io_then]. apply wp_bind, wp_attempt.
  set (take := Ev (TakeQuote (ep_quote_id params) caller) (inr quote)).
  change (([] ++ [Ev CurrentOwner caller]) ++ [take]) with [Ev CurrentOwner caller; take].
  eapply wp_mono; [apply runs_on_chain|]. intros tr r Ho.
  assert (Hpast : [Ev CurrentOwner caller; take] `prefix_of` tr) by apply Ho.
  assert (Hpanic : r = Panic -> pt_chain (transaction quote) = WTron) by apply Ho.
  assert (Howner : Ev CurrentOwner caller ∈ tr) by (eapply elem_of_prefix; [|exact Hpast]; left).
  assert (Hfin : forall tr' r', tr `prefix_of` tr' ->
    effects tr' = effects tr ++ (if r' is Err _ then [Ev (RestoreQuote quote) tt] else []) ->
    (forall x, r' = Ok x -> exists y, r = Ok y /\ (reports (transaction quote) y -> executed (transaction quote) x)) ->
    (r' = Panic -> r = Panic) -> prepared_run params tr' r').
  { intros tr' r' Hp He Hr Hn. destruct (outcome_shape _ _ _ _ _ _ _ _ _ _ (authorizes_mono _) Ho Hp Hr) as (mid & Hm & Hx).
    right. split; [exact Hc|]. exists caller. split; [exact (elem_of_prefix _ _ _ Howner Hp)|]. right.
    exists quote, mid. split; [exact Hx|]. split; [|auto]. rewrite He, Hm. reflexivity. }
  destruct r as [x|e|]; cbv beta iota.
  - destruct (er_explorer_url x) as [url|] eqn:Hu.
    + apply Hfin; [reflexivity | rewrite app_nil_r; reflexivity | | discriminate].
      intros y [= <-]. exists x. split; [reflexivity|]. intros Hrep. split; [exact Hrep | rewrite Hu; eauto].
    + intros cluster. apply Hfin; [apply prefix_snoc | rewrite app_nil_r; apply effects_quiet; reflexivity | | discriminate].
      intros y [= <-]. exists x. split; [reflexivity|]. intros (Ha & Hb & Hc' & fee & Hd). split.
      * unfold reports. cbn. split_and!; eauto.
      * cbn [er_explorer_url with_explorer_url]. unfold explorer_tx_url. case_match. eauto.
  - intros []. apply Hfin; [apply prefix_snoc | apply effects_loud; reflexivity | discriminate | discriminate].
  - apply Hfin; [reflexivity | rewrite app_nil_r; reflexivity | discriminate | reflexivity].
Qed.

(** * Preparing *)

Section Preparing.
Context `{CodecLaws, Curve25519, Serde, Base64}.

Lemma catalog_contracts chain network cluster :
  Forall (fun a => ad_native a = negb (bool_decide (is_Some (ad_contract_address a))))
    (match network with Some net => evm_asset_catalog net | None => asset_catalog chain cluster end) /\
  Forall (fun a => ad_native a = negb (bool_decide (is_Some (ad_contract_address a)))) (engine_catalog chain network cluster).
Proof. destruct chain, cluster; try destruct network as [[]|]; split; repeat constructor. Qed.

(** What holds of every asset of the catalogs holds of the one transferred. *)
Lemma transfer_asset_all (P : WalletAssetDefinition -> Prop) chain network symbol cluster a :
  Forall P (match network with Some net => evm_asset_catalog net | None => asset_catalog chain cluster end) ->
  Forall P (engine_catalog chain network cluster) -> transfer_asset chain network symbol cluster = Ok a -> P a.
Proof.
  intros H1' H2' E.
  assert (Hin : forall l p, find_first p l = Some a -> Forall P l -> P a).
  { intros l p Hf Hall. apply find_first_position in Hf as (i & Hi & _). exact (Forall_lookup_1 _ _ _ _ Hall Hi). }
  unfold transfer_asset in E.
  assert (Hsym : forall s, find_asset_for_network chain network s cluster = Some a -> P a).
  { intros s Hs. apply (Hin (engine_catalog chain network cluster) (fun a => eq_ignore_case (ad_symbol a) (trim s))); [|exact H2'].
    destruct chain, network; exact Hs. }
  destruct (trim <$> symbol) as [[|b s]|]; apply ok_or_ok in E; [eapply Hin; eassumption | eapply Hsym, E | eapply Hin; eassumption].
Qed.

Lemma transfer_asset_ok chain network symbol cluster a :
  transfer_asset chain network symbol cluster = Ok a ->
  ad_native a = negb (bool_decide (is_Some (ad_contract_address a))).
Proof.
  destruct (catalog_contracts chain network cluster).
  intros E. exact (transfer_asset_all (fun a => ad_native a = negb (bool_decide (is_Some (ad_contract_address a)))) _ _ _ _ _ ltac:(eassumption) ltac:(eassumption) E).
Qed.

(** [q] asks for the signature of what the user asked for: [amount] of [asset]
    from [account] to the address given, on the chain and network given. *)
Definition pays (params : PrepareTransferParams) (account : WalletAccount) (asset : WalletAssetDefinition) (amount : Z)
    (q : request) : Prop :=
  let to := trim (pp_to_address params) in
  let from := wa_address account in
  let id := EvmNetwork_chain_id (EvmNetwork_or_mainnet (pp_evm_network params)) in
  match pp_chain params, ad_contract_address asset with
  | WEvm, None => exists nonce gas price, q = SignTransaction WEvm (SpecEvm to (show_dec amount) [] nonce gas price id)
  | WEvm, Some token =>
      exists recipient nonce gas price, address_bytes to recipient /\
        q = SignTransaction WEvm (SpecEvm (trim token) (lit "0")
              (lit "0x" ++ hex_string (TRANSFER_SELECTOR ++ left_pad_address recipient ++ be_bytes 32 amount)) nonce gas price id)
  | WBtc, _ =>
      exists fee coins, q = SignTransaction WBtc (SpecBtc from to amount fee coins) /\
        exists change, sum_of wu_value coins = amount + fee + change
  | WSolana, None => exists bh, q = SignTransaction WSolana (SpecSolana from to amount bh)
  | WSolana, Some mint =>
      exists from_pk to_pk mint_pk m, b58_to_pubkey from = Ok from_pk /\ b58_to_pubkey to = Ok to_pk /\
        b58_to_pubkey mint = Ok mint_pk /\ q = SignMessage WSolana m SchemeEd25519 /\ spl_reads from_pk to_pk mint_pk amount m
  | WTron, None =>
      exists raw_hex raw to_bytes, decode_hex raw_hex = Ok raw /\ tron_decode to = Ok to_bytes /\
        q = SignTransaction WTron (SpecTron raw_hex to (hex_lower (sha256 raw)) (Native amount)) /\
        describes raw to_bytes (Native amount) None
  | WTron, Some token =>
      exists raw_hex raw recipient contract, decode_hex raw_hex = Ok raw /\ tron_decode to = Ok recipient /\
        tron_decode token = Ok contract /\
        q = SignTransaction WTron (SpecTron raw_hex token (hex_lower (sha256 raw)) (Trc20 (trc20_parameter recipient amount))) /\
        describes raw contract (Trc20 (trc20_parameter recipient amount)) (Some TRC20_FEE_LIMIT_SUN)
  end.

(** The quote states the request. *)
Definition quoted (params : PrepareTransferParams) (account : WalletAccount) (asset : WalletAssetDefinition) (amount : Z)
    (t : PreparedTransaction) : Prop :=
  pt_chain t = pp_chain params /\
  pt_evm_network t = (if bool_decide (pp_chain params = WEvm) then Some (EvmNetwork_or_mainnet (pp_evm_network params)) else None) /\
  pt_kind t = (if ad_native asset then NativeTransferKind else TokenTransferKind) /\
  from_address t = wa_address account /\ validate_address (pp_chain params) (pp_to_address params) = Ok (to_address t) /\
  pt_amount_raw t = show_dec amount /\ token_address t = ad_contract_address asset /\
  ad_native asset = negb (bool_decide (is_Some (ad_contract_address asset))).

(** A plan balances, whatever the coins. *)
Lemma plan_balances utxos amount rate plan :
  plan_spend utxos amount rate = Ok plan ->
  sum_of BtcTx.e_value (selected plan) = amount + fee_sats plan + change_sats plan.
Proof.
  unfold plan_spend. intros E. apply bind_ok in E as (c & _ & E). apply bind_ok in E as (d & _ & E).
  revert E. generalize (sort_desc BtcTx.e_value utxos). intros l.
  enough (Hl : forall total chosen, sum_of BtcTx.e_value chosen = total ->
    plan_loop amount rate total chosen l = Ok plan ->
    sum_of BtcTx.e_value (selected plan) = amount + fee_sats plan + change_sats plan) by (apply Hl; reflexivity).
  induction l as [|u l IH]; intros total chosen Ht E; cbn [plan_loop] in E.
  - unfold insufficient in E. apply bind_ok in E as (? & _ & [=]).
  - apply bind_ok in E as (t & Htot & E). apply ok_or_ok in Htot. unfold checked_add in Htot.
    destruct (_ <=? u64_max) eqn:Hmax; [injection Htot as <- | discriminate].
    assert (Hsum : sum_of BtcTx.e_value (chosen ++ [u]) = total + BtcTx.e_value u) by (rewrite sum_of_app; cbn [sum_of]; lia).
    apply bind_ok in E as (f2 & _ & E). apply bind_ok in E as (f1 & _ & E). cbv zeta in E. unfold sat_add, DUST_THRESHOLD_SATS in E.
    destruct ((_ <=? _) && (_ <? _)) eqn:Hc.
    + injection E as <-. cbn [selected fee_sats change_sats]. bool_to_prop. lia.
    + clear Hc. destruct (Z.min _ _ <=? _); [|exact (IH _ _ Hsum E)].
      injection E as <-. cbn [selected fee_sats change_sats]. lia.
Qed.

Lemma parse_shown amount : is_u128 amount -> parse_u128 (trim (show_dec amount)) = Ok amount.
Proof.
  intros Ha. rewrite trim_graphic.
  - apply parse_show_dec; [exact Ha | apply Ha].
  - eapply list.Forall_impl; [apply show_dec_digits, Ha|]. intros b Hb. cbv beta in Hb. unfold is_graphic, within. lia.
Qed.

(** The EVM part of [quoted_pays]. *)
Lemma evm_quoted_pays id t c amount q :
  graphic (to_address t) -> is_u128 amount -> pt_amount_raw t = show_dec amount -> pt_evm_network t = Some id ->
  pt_kind t = (if c is Some _ then TokenTransferKind else NativeTransferKind) -> token_address t = c ->
  evm_authorizes t q ->
  match c with
  | None => exists nonce gas price, q = SignTransaction WEvm (SpecEvm (to_address t) (show_dec amount) [] nonce gas price (EvmNetwork_chain_id id))
  | Some token =>
      exists recipient nonce gas price, address_bytes (to_address t) recipient /\
        q = SignTransaction WEvm (SpecEvm (trim token) (lit "0")
              (lit "0x" ++ hex_string (TRANSFER_SELECTOR ++ left_pad_address recipient ++ be_bytes 32 amount)) nonce gas price
              (EvmNetwork_chain_id id))
  end.
Proof.
  intros Hg Hu Ha Hn Hk Ht Hq. unfold evm_authorizes in Hq. rewrite Ha, Hn, Hk in Hq. cbn [EvmNetwork_or_mainnet default] in Hq.
  destruct c as [token|].
  - destruct Hq as (token' & recipient & w & contract & Ht' & Hr & Hw & Hc & target & v & nonce & gas & price & Htarget & Hv & ->).
    assert (token' = token) as -> by congruence.
    apply u256_from_decimal_ok in Hw as (v' & (_ & _ & Hval) & _ & ->).
    destruct (show_dec_decimal_text amount Hu) as (_ & _ & Hval'). rewrite <- Hval' in Hval. subst v'.
    apply evm_validate_ok in Hc as (-> & body & Hb). apply evm_validate_ok in Htarget as (-> & _).
    exists recipient, nonce, gas, price. split; [exact Hr|].
    injection Hv as <-. rewrite (trim_graphic (trim token)); [reflexivity|]. destruct Hb as ([-> | ->] & _ & Hh); [|apply graphic_0x]; apply hex_text_graphic, Hh.
  - destruct Hq as (to & Hto & target & v & nonce & gas & price & Htarget & Hv & ->).
    apply evm_validate_ok in Hto as (-> & _). rewrite (trim_graphic (to_address t) Hg) in Htarget.
    apply evm_validate_ok in Htarget as (-> & _). rewrite (trim_graphic (to_address t) Hg).
    rewrite parse_shown in Hv by exact Hu. injection Hv as <-. eauto.
Qed.

Lemma parse_shown_u64 amount v : is_u128 amount -> parse_u64 (show_dec amount) = Ok v -> v = amount.
Proof.
  intros Hu Hv. apply (parse_unsigned_mono _ _ u128_max) in Hv; [|vm_compute; congruence].
  rewrite parse_show_dec in Hv by (try assumption; apply Hu). injection Hv as <-. reflexivity.
Qed.

Lemma quoted_pays params account asset amount t e tr q :
  quoted params account asset amount t -> is_u128 amount ->
  authorizes tr (set_expires t e) q -> pays params account asset amount q.
Proof.
  intros (Hchain & Hnet & Hkind & Hfrom & Hto & Hamt & Htok & Hnat) Hu Hq.
  unfold validate_address in Hto. apply map_err_ok, validator_shape in Hto as (_ & Hto & _ & Hg & Hform).
  assert (Hk : pt_kind t = (if ad_contract_address asset is Some _ then TokenTransferKind else NativeTransferKind)).
  { rewrite Hkind, Hnat. destruct (ad_contract_address asset); [rewrite bool_decide_eq_true_2 by eauto | rewrite bool_decide_eq_false_2 by apply is_Some_None]; reflexivity. }
  unfold authorizes in Hq. cbn [set_expires pt_chain] in Hq. rewrite Hchain in Hq. unfold pays. rewrite <- Hto, <- Hfrom.
  destruct (pp_chain params).
  - exact (evm_quoted_pays _ (set_expires t e) _ amount q Hg Hu Hamt Hnet Hk Htok Hq).
  - destruct Hq as (Hkn & a & utxos & body & plan & Ha & _ & _ & Hp & ->). cbn [set_expires pt_kind from_address to_address pt_amount_raw] in *.
    rewrite Hamt in Ha. apply parse_shown_u64 in Ha as ->; [|exact Hu]. apply plan_balances in Hp.
    eexists _, _. split; [reflexivity|]. exists (change_sats plan). rewrite <- Hp.
    clear. induction (selected plan) as [|u l IH]; cbn; [reflexivity|]. rewrite IH. reflexivity.
  - destruct Hq as (a & from_pk & Ha & Hf & Hq). cbn [set_expires pt_kind from_address to_address pt_amount_raw token_address] in *.
    rewrite Hamt in Ha. apply parse_shown_u64 in Ha as ->; [|exact Hu]. rewrite Hk in Hq. destruct (ad_contract_address asset) as [mint|].
    + destruct Hq as (to_pk & ma & mint_pk & m & Ht & Hma & Hm & -> & Hs). assert (ma = mint) as -> by congruence.
      exists from_pk, to_pk, mint_pk, m. auto.
    + exact Hq.
  - destruct Hq as (a & raw_hex & raw & to & tb & recipient & tr' & Ha & Hrec & Hraw & Hto' & -> & Hq).
    cbn [set_expires pt_kind from_address to_address pt_amount_raw token_address] in *.
    unfold parse_u128 in Ha. rewrite Hamt, parse_show_dec in Ha by (try assumption; apply Hu). injection Ha as <-.
    rewrite Hk in Hq. destruct (ad_contract_address asset) as [token|].
    + destruct Hq as (Ht & -> & Hd). assert (to = token) as -> by congruence. exists raw_hex, raw, recipient, tb. auto.
    + destruct Hq as (_ & -> & -> & Hd). exists raw_hex, raw, tb. auto.
Qed.

(** A run of [prepare_transfer]: a success stored one quote, of what was asked,
    for whoever asked; anything else stored nothing. *)
Definition prepare_run (params : PrepareTransferParams) (tr : list event) (r : res str PreparedTransaction) : Prop :=
  match r with
  | Ok t =>
      exists account asset amount cluster owner now,
        quoted params account asset amount t /\ validate_amount (pp_amount_raw params) = Ok amount /\ 0 < amount <= u128_max /\
        wa_chain account = pp_chain params /\ (exists s, Ev Status (inr s) ∈ tr /\ account ∈ accounts s) /\
        Ev SolanaClusterOf cluster ∈ tr /\
        transfer_asset (pp_chain params) (pt_evm_network t) (pp_asset_symbol params) cluster = Ok asset /\
        Ev CurrentOwner owner ∈ tr /\ Ev NextId (pt_quote_id t) ∈ tr /\ Ev NowMs now ∈ tr /\
        pt_expires_at_ms t = now + QUOTE_TTL_MS /\ pt_status t = AwaitingConfirmation /\
        effects tr = [Ev (InsertQuote (mkPreparedQuote t owner)) tt] /\
        (forall e tr' q, authorizes tr' (set_expires t e) q -> pays params account asset amount q)
  | _ => effects tr = []
  end.

Lemma transfer_asset_no_panic c n s cl : transfer_asset c n s cl <> Panic.
Proof. unfold transfer_asset. no_panic. Qed.

Lemma validate_amount_no_panic s : validate_amount s <> Panic.
Proof. unfold validate_amount. no_panic. Qed.

Lemma prepare_transfer_runs params : wp (prepare_transfer params) [] (prepare_run params).
Proof.
  assert (He : forall tr e, [] `prefix_of` tr -> effects tr = effects [] -> prepare_run params tr (Err e)).
  { intros tr e _ E. exact E. }
  assert (Hpre : @nil event `prefix_of` []) by reflexivity. assert (Heff : effects [] = effects []) by reflexivity.
  unfold prepare_transfer.
  eapply (step_lift _ _ []); [apply map_err_no_panic, address_validate_no_panic | eassumption.. |]. intros to Hto.
  eapply (step_lift _ _ []); [apply validate_amount_no_panic | eassumption.. |]. intros amount Ha.
  eapply (step_lift _ _ []); [apply err_if_no_panic | eassumption.. |]. intros u Hz. apply err_if_ok in Hz.
  eapply (step_quietly _ _ _ []); [apply quiet_account | eassumption.. |]. intros tr1 account Hp1 He1 _ (Hac & s & Hs & Hin).
  eapply (step_quietly _ _ _ []); [apply quiet_cluster | eassumption.. |]. intros tr2 cluster Hp2 He2 H12 Hcl. cbv beta in Hcl.
  eapply (step_lift _ _ []); [apply transfer_asset_no_panic | eassumption.. |]. intros asset Hasset.
  eapply (step_lift _ _ []); [apply err_if_no_panic | eassumption.. |]. intros u' _.
  intros now id. unfold add_u64. destruct (checked_add u64_max now QUOTE_TTL_MS) as [expires|] eqn:Hx.
  2:{ cbn [wp lift mbind io_bind io_then mret io_ret prepare_run]. rewrite !effects_quiet by reflexivity. exact He2. }
  intros owner []. cbn [wp mret io_ret].
  assert (Hmem : forall e a b c d, e ∈ tr2 ++ [a] ++ [b] ++ [c] ++ [d] -> e ∈ (((tr2 ++ [a]) ++ [b]) ++ [c]) ++ [d])
    by (intros e a b c d; rewrite <- !app_assoc; auto).
  assert (Hbound : 0 <= amount <= u128_max).
  { unfold validate_amount in Ha. destruct (is_nil _); [discriminate|]. apply map_err_ok in Ha.
    apply parse_unsigned_bound in Ha; [exact Ha | lia | vm_compute; congruence]. }
  exists account, asset, amount, cluster, owner, now. cbn [pt_evm_network pt_quote_id pt_expires_at_ms pt_status].
  split_and!.
  - unfold quoted. cbn. split_and!; auto. eapply transfer_asset_ok, Hasset.
  - exact Ha.
  - lia.
  - apply Hbound.
  - exact Hac.
  - exists s. split; [|exact Hin]. apply Hmem. apply elem_of_app. left. exact (elem_of_prefix _ _ _ Hs H12).
  - apply Hmem. apply elem_of_app. left. exact Hcl.
  - exact Hasset.
  - apply Hmem. rewrite !elem_of_app, !list_elem_of_singleton. auto.
  - apply Hmem. rewrite !elem_of_app, !list_elem_of_singleton. auto.
  - apply Hmem. rewrite !elem_of_app, !list_elem_of_singleton. auto.
  - unfold checked_add in Hx. case_match; congruence.
  - reflexivity.
  - rewrite effects_loud by reflexivity. rewrite !effects_quiet by reflexivity. rewrite He2. reflexivity.
  - intros e tr' q. apply quoted_pays; [|exact Hbound]. unfold quoted. cbn. split_and!; auto. eapply transfer_asset_ok, Hasset.
Qed.
End Preparing.

(** * A concrete host *)

Definition toy_serde : Serde := {|
  serde_str := {| from_value v := match v with JStr s => inr s | _ => inl (lit "not a string") end; from_str s := inr s |};
  serde_json := {| from_value v := inr v; from_str _ := inr (jobj [(lit "result", JBool true)]) |};
  serde_utxos := {| from_value _ := inl []; from_str _ := inr [mkEsplora (lit "aa") 0 100000] |};
  serde_blockhash := {| from_value _ := inl []; from_str _ := inl [] |};
  serde_account_info := {| from_value v := inr (mkAccountInfo v); from_str _ := inl [] |};
  serde_created := {| from_value _ := inl []; from_str _ := inl [] |};
  serde_triggered := {| from_value _ := inl []; from_str _ := inl [] |};
  serde_printer := {| json_text _ := [] |}
|}.

Definition toy_base64 : Base64 := {| b64_encode b := hex_string b; b64_decode _ := inr [] |}.

(** A wallet with one Ethereum account, on a node of Ethereum mainnet. *)
Definition demo_account : WalletAccount :=
  mkWalletAccount WEvm (lit "0x1111111111111111111111111111111111111111") (lit "m/44'/60'/0'/0/0").

Definition demo_quote : PreparedTransaction :=
  mkPrepared (lit "q_1") NativeTransferKind WEvm (Some EthereumMainnet) (wa_address demo_account)
    (lit "0x2222222222222222222222222222222222222222") (lit "ETH") (lit "1000") (lit "0.000000000000001000") None None None
    None (lit "630000000000000") AwaitingConfirmation 1000 301000 [].

Definition demo_host : host := fun past q =>
  match q with
  | Status => inr (mkWalletStatus true true true true None None [demo_account] None)
  | DeriveAccount _ => inr (mkDerived (wa_address demo_account) (mkPublicKey []))
  | SignTransaction _ _ => inr (mkSigned (lit "0xsigned") None)
  | SignMessage _ _ _ => inl (lit "refused")
  | JsonRpc _ method _ =>
      inr (JStr (if bool_decide (method = lit "eth_chainId") then lit "0x1"
                 else if bool_decide (method = lit "eth_sendRawTransaction") then lit "0xhash" else lit "0x5208"))
  | RestGet _ _ | RestPost _ _ _ _ => inr []
  | SolanaClusterOf => ClusterMainnet
  | EndpointUrl _ _ => lit "https://node.example"
  | EndpointSource _ _ => SourceDefault
  | CurrentOwner => None
  | NowMs => 1000
  | SwapTx _ | BridgeTx _ => inl (lit "no backend")
  | NextId | NextWeb3Id => lit "q_1"
  | InsertQuote _ | RestoreQuote _ | InsertWeb3 _ | RestoreWeb3 _ => tt
  | TakeQuote _ _ => inr (mkPreparedQuote demo_quote None)
  | TakeWeb3 _ _ => inl (lit "none")
  end.

(** C2. Executing a prepared quote, whatever the host, the node and the signer
    answer.  Without confirmation, or when the store has no such quote for the
    caller, nothing is signed or sent.  Otherwise at most one signature is asked
    for, and it is for the quote's own transfer ([authorizes]: recipient, amount,
    token, sender and network as quoted, on every chain and kind; for a node-built
    Tron transaction, checked in its bytes); at most one thing is then broadcast,
    and it is what the signer answered ([carries_signed]).  A success is reported
    only after both, for this quote.  A failure, and only a failure, puts the
    quote back; and only a malformed Tron answer can panic. *)
Theorem execution_signs_the_quote `{CodecLaws, Curve25519, Serde, Base64} params (h : host) :
  let '(tr, r) := exec h [] (execute_prepared params) in prepared_run params tr r.
Proof.
  pose proof (wp_exec (execute_prepared params) h [] _ (execute_prepared_runs params)) as Hrun.
  destruct (exec h [] (execute_prepared params)) as [tr r]. exact Hrun.
Qed.

(** The demonstration host executes its quote: one signature, one broadcast. *)
Lemma execution_signs_the_quote_witness :
  let run := exec demo_host [] (execute_prepared (H := base58_codecs) (H0 := toy_curve) (H1 := toy_serde) (H2 := toy_base64)
                                  (mkExecuteParams (lit "q_1") true)) in
  length (effects run.1) = 3%nat /\ is_ok run.2 = true /\
  prepared_run (H := base58_codecs) (H0 := toy_curve) (H1 := toy_serde) (H2 := toy_base64)
    (mkExecuteParams (lit "q_1") true) run.1 run.2.
Proof.
  cbv zeta. split; [vm_compute; reflexivity|]. split; [vm_compute; reflexivity|].
  pose proof (execution_signs_the_quote (H := base58_codecs) (H0 := base58_codec_laws) (H1 := toy_curve) (H2 := toy_serde)
    (H3 := toy_base64) (mkExecuteParams (lit "q_1") true) demo_host) as Hrun.
  destruct (exec demo_host [] _) as [tr r]. exact Hrun.
Defined.

(** C5. From the request to the signature.  Whatever the host answers, preparing
    signs and sends nothing.  A success stores exactly one quote, with the id and
    lifetime drawn, for whoever asked, from the wallet's own account on the chain;
    any other end stores nothing.  And whatever a signature that [authorizes] the
    quote, at any later lifetime, is for, is what was asked for ([pays]): the
    amount typed, of the asset named, to the address typed, on the chain and
    network named. *)
Theorem prepared_transfer_pays `{CodecLaws, Curve25519, Serde} params (h : host) :
  let '(tr, r) := exec h [] (prepare_transfer params) in prepare_run params tr r.
Proof.
  pose proof (wp_exec (prepare_transfer params) h [] _ (prepare_transfer_runs params)) as Hrun.
  destruct (exec h [] (prepare_transfer params)) as [tr r]. exact Hrun.
Qed.

(** USDC on Ethereum, asked for in lower case, with blanks around the amount. *)
Lemma prepared_transfer_pays_witness :
  let params := mkPrepareParams WEvm (lit "0x2222222222222222222222222222222222222222") (lit " 2500000 ") (Some (lit "usdc")) None in
  let run := exec demo_host [] (prepare_transfer (H := base58_codecs) params) in
  length (effects run.1) = 1%nat /\ is_ok run.2 = true /\
  prepare_run (H := base58_codecs) (H1 := toy_curve) (H2 := toy_serde) params run.1 run.2.
Proof.
  cbv zeta. split; [vm_compute; reflexivity|]. split; [vm_compute; reflexivity|].
  pose proof (prepared_transfer_pays (H := base58_codecs) (H0 := base58_codec_laws) (H1 := toy_curve) (H2 := toy_serde)
    (mkPrepareParams WEvm (lit "0x2222222222222222222222222222222222222222") (lit " 2500000 ") (Some (lit "usdc")) None)
    demo_host) as Hrun.
  destruct (exec demo_host [] _) as [tr r]. exact Hrun.
Defined.
