(* ===== verification/Service.v ===== *)
(** The swap, bridge and dapp flows ([crates/tinywallet-web3/src/crypto/service/]).

    A quote is an unsigned transaction of the backend's, or of the caller's for a
    dapp call, stored until it is confirmed.  Shown: what is stored is what the
    response says, for the chain asked; executing signs that transaction and no
    other, and for a Solana blob changes nothing but the wallet's own signature
    slot. *)

From stdpp Require Import base list strings numbers.
From S2P Require Import Prelude Program Text Chain Codec Base58 Addr Proto TronTx EvmTx BtcTx Json Wire Quotes Assets.
From S2P Require Import X402Wire Eip712 SolWire Host NoPanic Engine Signing Transfer.

(** * Types *)

Definition DEBRIDGE_SOLANA_CHAIN_ID : Z := 7565164.

Inductive ChainFamily := FamilyEvm (network : EvmNetwork) | FamilySolana.
#[export] Instance ChainFamily_eq_dec : EqDecision ChainFamily.
Proof. solve_decision. Defined.

Definition chain_family (debridge_chain_id : Z) : option ChainFamily :=
  if debridge_chain_id =? 1 then Some (FamilyEvm EthereumMainnet)
  else if debridge_chain_id =? 10 then Some (FamilyEvm OptimismMainnet)
  else if debridge_chain_id =? 56 then Some (FamilyEvm BscMainnet)
  else if debridge_chain_id =? 137 then Some (FamilyEvm PolygonMainnet)
  else if debridge_chain_id =? 8453 then Some (FamilyEvm BaseMainnet)
  else if debridge_chain_id =? 42161 then Some (FamilyEvm ArbitrumOne)
  else if debridge_chain_id =? DEBRIDGE_SOLANA_CHAIN_ID then Some FamilySolana
  else None.

Record SwapQuoteParams := mkSwap {
  sw_chain_id : Z;
  sw_token_in : str;
  sw_token_in_amount : str;
  sw_token_out : str;
  sw_token_out_recipient : option str;
  sw_sender_address : option str;
  sw_slippage : option str
}.

Record BridgeQuoteParams := mkBridge {
  br_src_chain_id : Z;
  br_src_token_in : str;
  br_src_token_in_amount : str;
  br_dst_chain_id : Z;
  br_dst_token_out : str;
  br_dst_token_out_amount : option str;
  br_dst_token_out_recipient : option str;
  br_src_authority : option str;
  br_dst_authority : option str
}.

Record DappCallParams := mkDapp {
  da_contract_address : str;
  da_calldata : str;
  da_value_raw : option str;
  da_evm_network : option EvmNetwork
}.

Record ExecuteQuoteParams := mkExecuteQuote { eq_quote_id : str; eq_confirmed : bool }.

Record Web3ExecutionResult := mkWeb3Result {
  wx_quote_id : str;
  wx_kind : Web3QuoteKind;
  wx_transaction_hash : str;
  wx_explorer_url : option str;
  wx_fee_raw : option str
}.

Record Web3Quote := mkWeb3Quote {
  wq_quote_id : str;
  wq_kind : Web3QuoteKind;
  wq_expires_at_ms : Z;
  wq_signing_chain : WalletChain;
  wq_quote : Json
}.

(** The service's store, as [Web3Service::new] makes it. *)
Definition web3_quotes : QuoteStore StoredQuote := QuoteStore_new (lit "w3") QUOTE_TTL_MS QUOTE_STORE_CAP.

(** * Preparing *)

Definition value_to_string (tx : Json) : str :=
  match jget (lit "value") tx with
  | Some (JStr s) => s
  | Some (JNum n) => number_text n
  | _ => lit "0"
  end.

Definition unsigned_from_response (resp : Json) (family : ChainFamily) : res str UnsignedTx :=
  tx ← ok_or (jget (lit "tx") resp) (lit "backend response missing unsigned `tx`");
  match family with
  | FamilyEvm network =>
      to ← ok_or (jget (lit "to") tx ≫= as_str) (lit "EVM unsigned tx missing `to`");
      Ok (UEvm network to (jget (lit "data") tx ≫= as_str) (value_to_string tx))
  | FamilySolana =>
      blob ← ok_or (jget (lit "data") tx ≫= as_str) (lit "Solana unsigned tx missing hex `data` blob");
      Ok (USolana blob)
  end.

Definition family_chain (family : ChainFamily) : WalletChain :=
  match family with FamilyEvm _ => WEvm | FamilySolana => WSolana end.

Definition wallet_address (family : ChainFamily) : io str :=
  status ← status;
  if negb (configured status) then Done (Err WALLET_NOT_CONFIGURED_MESSAGE)
  else lift (wa_address <$> ok_or (find_first (fun a => bool_decide (wa_chain a = family_chain family)) (accounts status))
                              (lit "wallet has no derived account for the requested chain")).

Definition signing_chain_of (unsigned : UnsignedTx) : WalletChain :=
  match unsigned with UEvm _ _ _ _ => WEvm | USolana _ => WSolana end.

Definition store_quote (kind : Web3QuoteKind) (unsigned : UnsignedTx) (summary : Json) : io Web3Quote :=
  now ← now_ms;
  expires ← lift (add_u64 now QUOTE_TTL_MS);
  owner ← current_owner;
  id ← Ask NextWeb3Id mret;
  let envelope := mkWeb3Quote id kind expires (signing_chain_of unsigned) summary in
  Ask (InsertWeb3 (mkQuote id kind unsigned summary owner expires)) (fun _ => mret envelope).

Definition not_signable (id : Z) : str :=
  lit "chain id " ++ show_dec id ++ lit " is not signable by the local wallet (no EVM/Solana signer)".

Definition swap_body (params : SwapQuoteParams) (sender recipient : str) : Json :=
  jobj [(lit "chainId", JNum (JPos (sw_chain_id params))); (lit "tokenIn", JStr (sw_token_in params));
        (lit "tokenInAmount", JStr (sw_token_in_amount params)); (lit "tokenOut", JStr (sw_token_out params));
        (lit "tokenOutRecipient", JStr recipient); (lit "senderAddress", JStr sender);
        (lit "slippage", JStr (default (lit "auto") (sw_slippage params)))].

Definition quote_swap (params : SwapQuoteParams) : io Web3Quote :=
  family ← lift (ok_or (chain_family (sw_chain_id params)) (not_signable (sw_chain_id params)));
  own ← wallet_address family;
  let sender := default own (sw_sender_address params) in
  let recipient := default own (sw_token_out_recipient params) in
  resp ← Ask (SwapTx (swap_body params sender recipient)) or_error;
  unsigned ← lift (unsigned_from_response resp family);
  store_quote Swap unsigned resp.

Definition bridge_body (params : BridgeQuoteParams) (src_addr dst_addr : str) : Json :=
  jobj [(lit "srcChainId", JNum (JPos (br_src_chain_id params))); (lit "srcChainTokenIn", JStr (br_src_token_in params));
        (lit "srcChainTokenInAmount", JStr (br_src_token_in_amount params));
        (lit "dstChainId", JNum (JPos (br_dst_chain_id params))); (lit "dstChainTokenOut", JStr (br_dst_token_out params));
        (lit "dstChainTokenOutAmount", JStr (default (lit "auto") (br_dst_token_out_amount params)));
        (lit "dstChainTokenOutRecipient", JStr (default dst_addr (br_dst_token_out_recipient params)));
        (lit "srcChainOrderAuthorityAddress", JStr (default src_addr (br_src_authority params)));
        (lit "dstChainOrderAuthorityAddress", JStr (default dst_addr (br_dst_authority params)))].

Definition quote_bridge (params : BridgeQuoteParams) : io Web3Quote :=
  _ ← lift (err_if (br_src_chain_id params =? br_dst_chain_id params)
              (lit "bridge requires different source and destination chains; use web3_swap for same-chain swaps"));
  src_family ← lift (ok_or (chain_family (br_src_chain_id params))
    (lit "source chain id " ++ show_dec (br_src_chain_id params) ++ lit " is not signable by the local wallet"));
  src_addr ← wallet_address src_family;
  dst_addr ← match chain_family (br_dst_chain_id params) with
             | Some f =>
                 found ← attempt (wallet_address f);
                 mret (match found with Ok a => a | _ => src_addr end)
             | None => mret src_addr
             end;
  resp ← Ask (BridgeTx (bridge_body params src_addr dst_addr)) or_error;
  unsigned ← lift (unsigned_from_response resp src_family);
  store_quote Bridge unsigned resp.

Definition prepare_dapp_call (params : DappCallParams) : io Web3Quote :=
  let network := EvmNetwork_or_mainnet (da_evm_network params) in
  let contract := trim (da_contract_address params) in
  _ ← lift (err_if (is_nil contract) (lit "contract_address is empty"));
  let calldata := trim (da_calldata params) in
  hex_body ← lift (ok_or (strip_prefix calldata (lit "0x")) (lit "calldata must be 0x-prefixed hex"));
  _ ← lift (err_if (negb (length hex_body mod 2 =? 0)%nat || negb (forallb is_ascii_hexdigit hex_body))
              (lit "calldata must be valid even-length hex"));
  let value := default (lit "0") (da_value_raw params) in
  _ ← wallet_address (FamilyEvm network);
  let summary := jobj [(lit "type", JStr (lit "dapp_call")); (lit "network", JStr (EvmNetwork_as_str network));
                       (lit "contractAddress", JStr contract); (lit "calldata", JStr calldata); (lit "valueRaw", JStr value)] in
  store_quote DappCall (UEvm network contract (Some calldata) value) summary.

(** * Executing *)

Section Execute.
Context `{Codecs, Curve25519, Serde, Base64}.

Definition execute_unsigned (unsigned : UnsignedTx) : io RawBroadcastResult :=
  match unsigned with
  | UEvm network to data value => sign_and_broadcast_evm network to data value
  | USolana tx_blob_hex => sign_and_broadcast_versioned tx_blob_hex
  end.

Definition execute_quote (params : ExecuteQuoteParams) : io Web3ExecutionResult :=
  _ ← lift (err_if (negb (eq_confirmed params)) (lit "execute requires `confirmed: true`"));
  caller ← current_owner;
  quote ← Ask (TakeWeb3 (eq_quote_id params) caller) or_error;
  result ← attempt (execute_unsigned (sq_unsigned quote));
  match result with
  | Ok broadcast =>
      mret (mkWeb3Result (eq_quote_id params) (sq_kind quote) (rb_transaction_hash broadcast) (rb_explorer_url broadcast)
              (rb_fee_raw broadcast))
  | Err error => Ask (RestoreWeb3 quote) (fun _ => Done (Err error))
  | Panic => Done Panic
  end.
End Execute.

(** * Versioned transactions *)

Lemma copy_into_ok {E} l from n bytes l' :
  copy_into (E := E) l from n bytes = Ok l' ->
  (from + n <= length l)%nat /\ length bytes = n /\ l' = take from l ++ bytes ++ drop (from + n) l.
Proof.
  unfold copy_into. destruct (Nat.leb_spec (from + n) (length l)); [|discriminate].
  destruct (Nat.eqb_spec (length bytes) n); [|discriminate]. cbn. intros [= <-]. auto.
Qed.

(** A copy changes the copied bytes and nothing else. *)
Lemma copied {A} (l bytes : list A) from n :
  (from + n <= length l)%nat -> length bytes = n ->
  let l' := take from l ++ bytes ++ drop (from + n) l in
  length l' = length l /\ take n (drop from l') = bytes /\
  (forall j, (j < from \/ from + n <= j)%nat -> l' !! j = l !! j) /\
  (forall m, (from + n <= m)%nat -> drop m l' = drop m l).
Proof.
  intros Hl Hb l'. assert (Ht : length (take from l) = from) by (rewrite length_take; lia).
  assert (Hj : forall j, (j < from \/ from + n <= j)%nat -> l' !! j = l !! j).
  { intros j [Hj|Hj]; unfold l'.
    - rewrite lookup_app_l by lia. apply lookup_take_lt. lia.
    - rewrite lookup_app_r, Ht by lia. rewrite lookup_app_r by lia. rewrite lookup_drop. f_equal. lia. }
  split_and!; [| | exact Hj |].
  - unfold l'. rewrite !length_app, Ht, length_drop. lia.
  - unfold l'. rewrite drop_app_length' by lia. apply take_app_length'. lia.
  - intros m Hm. apply list_eq. intros i. rewrite !lookup_drop. apply Hj. lia.
Qed.

Lemma parse_layout_ok wire l :
  parse_layout wire = Ok l ->
  message_start l = (sigs_start l + num_signatures l * 64)%nat /\ (message_start l <= length wire)%nat /\
  (keys_start l + signer_keys l * 32 <= length (drop (message_start l) wire))%nat.
Proof.
  unfold parse_layout. intros E. apply bind_ok in E as ([n c] & _ & E).
  apply bind_ok in E as (u & Hlen & E). apply err_if_ok in Hlen.
  apply bind_ok in E as (first & _ & E). apply bind_ok in E as (u1 & _ & E). apply bind_ok in E as (req & _ & E).
  apply bind_ok in E as (u2 & _ & E). apply bind_ok in E as ([ac cl] & _ & E).
  apply bind_ok in E as (u3 & Hkeys & [= <-]). apply err_if_ok in Hkeys.
  apply Nat.ltb_ge in Hlen. apply Nat.ltb_ge in Hkeys.
  cbn [message_start sigs_start num_signatures keys_start signer_keys]. auto.
Qed.

Lemma parse_layout_no_panic wire : parse_layout wire <> Panic.
Proof.
  unfold parse_layout. apply bind_no_panic; [apply decode_shortvec_no_panic|]. intros [n c].
  apply bind_no_panic; [apply err_if_no_panic|]. intros _. apply bind_no_panic; [apply ok_or_no_panic|]. intros first.
  set (message := drop _ wire). set (off := if negb _ then 1%nat else 0%nat).
  destruct (length message <? off + 3)%nat eqn:Hl; [discriminate|]. apply Nat.ltb_ge in Hl. cbn [err_if mbind res_bind].
  destruct (lookup_lt_is_Some_2 message off) as [b Hb]; [lia|]. rewrite Hb. cbn [mbind res_bind].
  apply bind_no_panic; [apply err_if_no_panic|]. intros _.
  apply bind_no_panic; [apply decode_shortvec_no_panic|]. intros [ac cl].
  apply bind_no_panic; [apply err_if_no_panic|]. discriminate.
Qed.

(** The search never runs off the message, and finds the first equal key. *)
Lemma find_key_spec {E} message start ours n k :
  (start + (n + k) * 32 <= length message)%nat ->
  exists r, find_key (E := E) message start ours (seq n k) = Ok r /\
    forall i, r = Some i -> (n <= i < n + k)%nat /\ take 32 (drop (start + i * 32) message) = ours.
Proof.
  revert n. induction k as [|k IH]; intros n Hn; cbn [seq find_key]; [exists None; split; [reflexivity | discriminate]|].
  unfold slice. destruct (Nat.leb_spec (start + n * 32 + 32) (length message)); [|lia]. cbn [mbind res_bind].
  destruct (bool_decide_reflect (take 32 (drop (start + n * 32) message) = ours)) as [Heq|].
  - exists (Some n). split; [reflexivity|]. intros i [= <-]. split; [lia | exact Heq].
  - destruct (IH (S n)) as (r & Hr & Hi); [lia|]. exists r. split; [exact Hr|]. intros i Hri. destruct (Hi i Hri). split; [lia | assumption].
Qed.

Section Executions.
Context `{CodecLaws, Curve25519, Serde, Base64}.

(** The signature asked for is for the blob's own message, by a wallet whose key
    [k] the message names among its signers. *)
Definition versioned_asks (blob : str) (k : list Z) (tr : list event) (q : request) : Prop :=
  exists wire layout i acct,
    hex_decode (without_prefix (trim blob) (lit "0x")) = Ok wire /\ parse_layout wire = Ok layout /\
    q = SignMessage WSolana (drop (message_start layout) wire) SchemeEd25519 /\
    Ev (DeriveAccount WSolana) (inr acct) ∈ tr /\ b58_to_pubkey (da_address acct) = Ok k /\
    (i < signer_keys layout)%nat /\ (i < num_signatures layout)%nat /\
    take 32 (drop (keys_start layout + i * 32) (drop (message_start layout) wire)) = k.

(** What is broadcast is the blob with the signature in the slot of the key [k],
    and every other byte, the message's included, as it was. *)
Definition versioned_sent (blob : str) (k : list Z) (s b : event) : Prop :=
  exists wire layout i text sig wire' options,
    hex_decode (without_prefix (trim blob) (lit "0x")) = Ok wire /\ parse_layout wire = Ok layout /\
    take 32 (drop (keys_start layout + i * 32) (drop (message_start layout) wire)) = k /\
    message_signature s = Some (SigEd25519 text) /\ lower_hex_to_bytes text = Ok sig /\ length sig = 64%nat /\
    ev_request b = JsonRpc (network_id WSolana None) (lit "sendTransaction") (JArr [JStr (b64_encode wire'); options]) /\
    let slot := (sigs_start layout + i * 64)%nat in
    length wire' = length wire /\ take 64 (drop slot wire') = sig /\
    (forall j, (j < slot \/ slot + 64 <= j)%nat -> wire' !! j = wire !! j) /\
    drop (message_start layout) wire' = drop (message_start layout) wire.

Lemma versioned_runs blob past :
  wp (sign_and_broadcast_versioned blob) past
    (fun tr r => exists k, outcome False (versioned_asks blob k) (versioned_sent blob k) (fun _ => True) past tr r).
Proof.
  set (Q := fun tr r => _).
  assert (Hmono : forall k tr tr' q, tr `prefix_of` tr' -> versioned_asks blob k tr q -> versioned_asks blob k tr' q).
  { intros k tr tr' q Hp (w & l & i & a & Hw & Hl & Hq & Hin & Hrest). exists w, l, i, a.
    split_and!; try assumption; try apply Hrest. exact (elem_of_prefix _ _ _ Hin Hp). }
  assert (He : forall tr e, past `prefix_of` tr -> effects tr = effects past -> Q tr (Err e))
    by (intros; exists []; apply outcome_quiet; assumption).
  assert (Hpre : past `prefix_of` past) by reflexivity. assert (Heff : effects past = effects past) by reflexivity.
  unfold sign_and_broadcast_versioned.
  eapply (step_lift _ _ past); [apply map_err_no_panic, hex_decode_total | eassumption.. |]. intros wire Hw. apply map_err_ok in Hw.
  eapply (step_lift _ _ past); [apply parse_layout_no_panic | eassumption.. |]. intros layout Hl.
  destruct (parse_layout_ok _ _ Hl) as (Hms & Hmw & Hks).
  eapply (step_quietly _ _ _ past); [apply quiet_signer_pubkey | eassumption.. |].
  intros tr k Hp1 He1 _ (Hkl & acct & Hacct & Hk).
  destruct (find_key_spec (E := str) (drop (message_start layout) wire) (keys_start layout) k 0 (signer_keys layout)) as (found & Hfound & Hi);
    [lia|].
  cbv zeta. rewrite Hfound. cbn [lift mbind io_bind io_then].
  eapply (step_lift _ _ past); [apply ok_or_no_panic | exact Hp1 | exact He1 | exact He |]. intros i Hsome. apply ok_or_ok in Hsome.
  destruct (Hi i Hsome) as [Hir Hkey].
  eapply (step_lift _ _ past); [apply err_if_no_panic | exact Hp1 | exact He1 | exact He |]. intros u Hslot. apply err_if_ok, Nat.leb_gt in Hslot.
  set (m := drop (message_start layout) wire).
  assert (Hg : versioned_asks blob k tr (SignMessage WSolana m SchemeEd25519)).
  { exists wire, layout, i, acct. split_and!; auto. lia. }
  apply wp_solana_sign.
  { intros r e. exists k. apply outcome_refused; auto. apply Hmono. }
  intros text sig Hsig Hsl.
  destruct (copy_into (E := str) wire (sigs_start layout + i * 64) 64 sig) as [wire'|e|] eqn:Hcopy; cbn [lift mbind io_bind io_then].
  2:{ exists k. apply outcome_refused; auto. apply Hmono. }
  2:{ exfalso. unfold copy_into in Hcopy. rewrite Hsl in Hcopy.
      destruct (Nat.leb_spec (sigs_start layout + i * 64 + 64) (length wire)); [discriminate Hcopy | lia]. }
  apply copy_into_ok in Hcopy as (Hfit & _ & ->).
  destruct (copied wire sig (sigs_start layout + i * 64) 64 Hfit Hsl) as (Hc1 & Hc2 & Hc3 & Hc4). cbv zeta in *.
  set (wire' := take _ wire ++ _) in *.
  assert (Hsent : forall b options, ev_request b = JsonRpc (network_id WSolana None) (lit "sendTransaction") (JArr [JStr (b64_encode wire'); options]) ->
    versioned_sent blob k (Ev (SignMessage WSolana m SchemeEd25519) (inr (SigEd25519 text))) b).
  { intros b options Hb. exists wire, layout, i, text, sig, wire', options. split_and!; auto. cbv zeta. split_and!; auto. apply Hc4. lia. }
  set (s := Ev (SignMessage WSolana m SchemeEd25519) (inr (SigEd25519 text))) in *.
  apply wp_broadcast_solana; intros b x Hb.
  - exists k. eapply (outcome_sent (Hmono k) past tr _ s b); [exact Hp1 | exact He1 | reflexivity | exact Hg | rewrite Hb; reflexivity
      | rewrite Hb; reflexivity | eapply Hsent, Hb | discriminate | discriminate | reflexivity | reflexivity].
  - eapply wp_quietly; [apply quiet_explorer_url | |]; intros tr' ? Hp' He'; [|intros _; cbn [wp mret io_ret]]; exists k;
      (eapply (outcome_sent (Hmono k) past tr _ s b); [exact Hp1 | exact He1 | reflexivity | exact Hg | rewrite Hb; reflexivity
       | rewrite Hb; reflexivity | eapply Hsent, Hb | auto | discriminate | exact Hp' | exact He']).
Qed.

(** * Executing a stored quote *)

(** The signature is for the stored transaction. *)
Definition unsigned_asks (u : UnsignedTx) (k : list Z) (tr : list event) (q : request) : Prop :=
  match u with
  | UEvm net to data value =>
      exists data', (match data with Some d => validate_calldata d = Ok (default [] data') /\ is_Some data' | None => data' = None end) /\
        evm_asks net to value data' q
  | USolana blob => versioned_asks blob k tr q
  end.

Definition unsigned_sent (u : UnsignedTx) (k : list Z) (s b : event) : Prop :=
  match u with UEvm net _ _ _ => evm_sent net s b | USolana blob => versioned_sent blob k s b end.

Lemma validate_calldata_no_panic d : validate_calldata d <> Panic.
Proof. unfold validate_calldata. no_panic. Qed.

Lemma unsigned_asks_mono u k tr tr' q : tr `prefix_of` tr' -> unsigned_asks u k tr q -> unsigned_asks u k tr' q.
Proof.
  intros Hp. destruct u; cbn; [auto|]. intros (w & l & i & a & Hw & Hl & Hq & Hin & Hrest). exists w, l, i, a.
  split_and!; try assumption; try apply Hrest. exact (elem_of_prefix _ _ _ Hin Hp).
Qed.

Lemma evm_flow_runs net to data value past :
  wp (sign_and_broadcast_evm net to data value) past
    (outcome False (fun tr => unsigned_asks (UEvm net to data value) [] tr) (unsigned_sent (UEvm net to data value) []) (fun _ => True) past).
Proof.
  set (Q := outcome _ _ _ _ past).
  assert (He : forall tr e, past `prefix_of` tr -> effects tr = effects past -> Q tr (Err e)) by apply outcome_quiet.
  assert (Hpre : past `prefix_of` past) by reflexivity. assert (Heff : effects past = effects past) by reflexivity.
  unfold sign_and_broadcast_evm, require_evm_account.
  eapply (step_quietly _ _ _ past).
  { eapply (quietly_bind _ _ _ (fun _ _ => True)); [apply quiet_account|]. intros a tr0 _.
    eapply quietly_mono; [apply quietly_ret | auto]. }
  1-3: eassumption. intros tr acct Hp1 He1 _ _.
  eapply (step_lift _ _ past); [destruct data; [apply fmap_no_panic, validate_calldata_no_panic | discriminate] | exact Hp1 | exact He1 | exact He |].
  intros data' Hd. apply wp_bind. eapply wp_mono; [apply evm_signs|]. intros tr' r Ho.
  assert (Hw : forall (r' : res str RawBroadcastResult), (r' = Panic -> r = Panic) ->
    (forall x, r' = Ok x -> exists a, r = Ok a) -> Q tr' r').
  { intros r' Hn Hr. eapply outcome_weaken; [exact Hp1 | exact He1 | exact (fun x => x) | | | exact Hn | | exact Ho].
    - intros q Hq. exists data'. split; [|exact Hq]. destruct data as [d|]; [|injection Hd as <-; reflexivity].
      apply fmap_ok in Hd as (d' & Hd & <-). cbn. eauto.
    - auto.
    - intros x Hx. destruct (Hr x Hx) as (a & Ha). eauto. }
  destruct r as [[h fee]|e|]; apply Hw; try discriminate; auto. eauto.
Qed.

Lemma unsigned_runs u past :
  wp (execute_unsigned u) past
    (fun tr r => exists k, outcome False (fun tr => unsigned_asks u k tr) (unsigned_sent u k) (fun _ => True) past tr r).
Proof.
  destruct u as [net to data value|blob]; cbn [execute_unsigned].
  - eapply wp_mono; [apply evm_flow_runs|]. intros tr r Ho. exists []. exact Ho.
  - eapply wp_mono; [apply versioned_runs|]. intros tr r [k Ho]. exists k. exact Ho.
Qed.

(** What a run of [execute_quote] shows. *)
Definition web3_run (params : ExecuteQuoteParams) (tr : list event) (r : res str Web3ExecutionResult) : Prop :=
  r <> Panic /\
  ((effects tr = [] /\ eq_confirmed params = false /\ exists e, r = Err e) \/
   (eq_confirmed params = true /\ exists caller, Ev CurrentOwner caller ∈ tr /\
     ((exists e, effects tr = [Ev (TakeWeb3 (eq_quote_id params) caller) (inl e)] /\ r = Err e) \/
      (exists quote k mid,
         shape (fun tr => unsigned_asks (sq_unsigned quote) k tr) (unsigned_sent (sq_unsigned quote) k)
           (fun x => wx_quote_id x = eq_quote_id params /\ wx_kind x = sq_kind quote) tr mid r /\
         effects tr = Ev (TakeWeb3 (eq_quote_id params) caller) (inr quote) :: mid
                      ++ (if r is Err _ then [Ev (RestoreWeb3 quote) tt] else []))))).

Lemma execute_quote_runs params : wp (execute_quote params) [] (web3_run params).
Proof.
  unfold execute_quote. destruct (eq_confirmed params) eqn:Hc.
  2:{ split; [discriminate|]. left. split_and!; [reflexivity | exact Hc | eexists; reflexivity]. }
  intros caller. intros [e|quote].
  { split; [discriminate|]. right. split; [exact Hc|]. exists caller. split; [left|]. left. exists e. split; reflexivity. }
  cbn [or_error mbind io_bind io_then]. apply wp_bind, wp_attempt.
  set (take := Ev (TakeWeb3 (eq_quote_id params) caller) (inr quote)).
  change (([] ++ [Ev CurrentOwner caller]) ++ [take]) with [Ev CurrentOwner caller; take].
  eapply wp_mono; [apply unsigned_runs|]. intros tr r [k Ho].
  assert (Hpast : [Ev CurrentOwner caller; take] `prefix_of` tr) by apply Ho.
  assert (Hpanic : r <> Panic) by (intros E; apply Ho in E; exact E).
  assert (Howner : Ev CurrentOwner caller ∈ tr) by (eapply elem_of_prefix; [|exact Hpast]; left).
  assert (Hfin : forall tr' r', tr `prefix_of` tr' -> r' <> Panic ->
    effects tr' = effects tr ++ (if r' is Err _ then [Ev (RestoreWeb3 quote) tt] else []) ->
    (forall x, r' = Ok x -> exists y, r = Ok y /\ (True -> wx_quote_id x = eq_quote_id params /\ wx_kind x = sq_kind quote)) ->
    web3_run params tr' r').
  { intros tr' r' Hp Hn He Hr.
    destruct (outcome_shape _ _ _ _ _ _ _ _ _ _ (unsigned_asks_mono _ k) Ho Hp Hr) as (mid & Hm & Hx).
    split; [exact Hn|]. right. split; [exact Hc|]. exists caller. split; [exact (elem_of_prefix _ _ _ Howner Hp)|]. right.
    exists quote, k, mid. split; [exact Hx|]. rewrite He, Hm. reflexivity. }
  destruct r as [x|e|]; cbv beta iota; [| |contradiction].
  - apply Hfin; [reflexivity | discriminate | rewrite app_nil_r; reflexivity|]. intros y [= <-]. exists x. auto.
  - intros []. apply Hfin; [apply prefix_snoc | discriminate | apply effects_loud; reflexivity | discriminate].
Qed.

(** * Storing a quote *)

(** The chain id the signature is for; Solana's is deBridge's own. *)
Definition signs_on (id : Z) (q : request) : Prop :=
  match q with
  | SignTransaction WEvm (SpecEvm _ _ _ _ _ _ chain_id) => chain_id = id
  | SignMessage WSolana _ SchemeEd25519 => id = DEBRIDGE_SOLANA_CHAIN_ID
  | _ => False
  end.

Definition wallet_owns (tr : list event) (family : ChainFamily) (address : str) : Prop :=
  exists s acct, Ev Status (inr s) ∈ tr /\ acct ∈ accounts s /\ wa_chain acct = family_chain family /\ wa_address acct = address.

(** A run that prepares a quote of [kind], to be signed on chain [on]: a success
    stored one quote, whose transaction and summary are as [stated]; anything
    else stored nothing.  Nothing is signed or sent. *)
Definition web3_prepared (kind : Web3QuoteKind) (on : Z) (stated : list event -> Json -> UnsignedTx -> Prop)
    (tr : list event) (r : res str Web3Quote) : Prop :=
  match r with
  | Ok w =>
      exists quote, effects tr = [Ev (InsertWeb3 quote) tt] /\ Ev CurrentOwner (sq_owner quote) ∈ tr /\
        sq_quote_id quote = wq_quote_id w /\ sq_kind quote = kind /\ wq_kind w = kind /\ sq_expires_at_ms quote = wq_expires_at_ms w /\
        sq_summary quote = wq_quote w /\ wq_signing_chain w = signing_chain_of (sq_unsigned quote) /\
        stated tr (sq_summary quote) (sq_unsigned quote) /\
        (forall k tr' q, unsigned_asks (sq_unsigned quote) k tr' q -> signs_on on q)
  | _ => effects tr = []
  end.

Definition swap_stated (params : SwapQuoteParams) (tr : list event) (summary : Json) (u : UnsignedTx) : Prop :=
  exists family own, chain_family (sw_chain_id params) = Some family /\ wallet_owns tr family own /\
    Ev (SwapTx (swap_body params (default own (sw_sender_address params)) (default own (sw_token_out_recipient params)))) (inr summary) ∈ tr /\
    unsigned_from_response summary family = Ok u.

Definition bridge_stated (params : BridgeQuoteParams) (tr : list event) (summary : Json) (u : UnsignedTx) : Prop :=
  br_src_chain_id params <> br_dst_chain_id params /\
  exists family own dst, chain_family (br_src_chain_id params) = Some family /\ wallet_owns tr family own /\
    (dst = own \/ exists f, chain_family (br_dst_chain_id params) = Some f /\ wallet_owns tr f dst) /\
    Ev (BridgeTx (bridge_body params own dst)) (inr summary) ∈ tr /\ unsigned_from_response summary family = Ok u.

Definition dapp_stated (params : DappCallParams) (tr : list event) (summary : Json) (u : UnsignedTx) : Prop :=
  exists own, wallet_owns tr (FamilyEvm (EvmNetwork_or_mainnet (da_evm_network params))) own /\
    validate_calldata (da_calldata params) = Ok (trim (da_calldata params)) /\ trim (da_contract_address params) <> [] /\
    u = UEvm (EvmNetwork_or_mainnet (da_evm_network params)) (trim (da_contract_address params))
          (Some (trim (da_calldata params))) (default (lit "0") (da_value_raw params)).

Lemma chain_family_id id n : chain_family id = Some (FamilyEvm n) <-> EvmNetwork_chain_id n = id.
Proof.
  split.
  - unfold chain_family. intros Hf. repeat case_match; inversion Hf; subst; cbn; lia.
  - intros <-. destruct n; reflexivity.
Qed.

Lemma response_signs_on id family resp u k tr q :
  chain_family id = Some family -> unsigned_from_response resp family = Ok u -> unsigned_asks u k tr q -> signs_on id q.
Proof.
  intros Hf Hu Hq. unfold unsigned_from_response in Hu. apply bind_ok in Hu as (tx & _ & Hu). destruct family as [n|].
  - apply bind_ok in Hu as (to & _ & [= <-]). destruct Hq as (d & _ & t & v & nonce & gas & price & _ & _ & ->).
    apply chain_family_id, Hf.
  - apply bind_ok in Hu as (blob & _ & [= <-]). destruct Hq as (w & l & i & a & _ & _ & -> & _). cbn.
    unfold chain_family in Hf. repeat case_match; inversion Hf; lia.
Qed.

Lemma quiet_wallet_address family : quietly (wallet_address family) (fun tr a => wallet_owns tr family a).
Proof.
  unfold wallet_address. eapply quietly_bind; [apply quiet_status|]. intros s tr0 Hs.
  destruct (negb (configured s)).
  - intros past. cbn. split_and!; auto.
  - eapply quietly_mono; [apply quietly_lift, fmap_no_panic, ok_or_no_panic|]. intros tr a Ha Hpre. cbv beta in Ha.
    apply fmap_ok in Ha as (acct & Ha & <-). apply ok_or_ok, find_first_position in Ha as (i & Hi & Hc & _).
    apply bool_decide_eq_true in Hc. exists s, acct. split_and!; auto; [exact (elem_of_prefix _ _ _ Hs Hpre) | eapply list_elem_of_lookup_2, Hi].
Qed.

Lemma store_quote_runs kind on stated u summary tr :
  effects tr = [] -> (forall tr', tr `prefix_of` tr' -> stated tr' summary u) ->
  (forall k tr' q, unsigned_asks u k tr' q -> signs_on on q) ->
  wp (store_quote kind u summary) tr (web3_prepared kind on stated).
Proof.
  intros He Hst Hon. unfold store_quote. apply wp_bind. intros now. cbn [wp mret io_ret]. unfold add_u64. destruct (checked_add u64_max now QUOTE_TTL_MS) as [expires|].
  2:{ change (effects (tr ++ [Ev NowMs now]) = []). rewrite effects_quiet by reflexivity. exact He. }
  intros owner id []. cbn [wp mret io_ret].
  set (t4 := (((tr ++ _) ++ _) ++ _) ++ _).
  assert (Hpre : tr `prefix_of` t4) by (unfold t4; rewrite <- !app_assoc; eexists; reflexivity).
  exists (mkQuote id kind u summary owner expires). cbn [sq_owner sq_quote_id sq_kind sq_expires_at_ms sq_summary sq_unsigned wq_quote_id wq_kind wq_expires_at_ms wq_quote wq_signing_chain].
  split_and!; try reflexivity; try exact Hon.
  - unfold t4. rewrite effects_loud by reflexivity. rewrite !effects_quiet by reflexivity. rewrite He. reflexivity.
  - unfold t4. rewrite !elem_of_app, !list_elem_of_singleton. auto.
  - apply Hst, Hpre.
Qed.

Lemma wallet_owns_mono tr tr' f a : tr `prefix_of` tr' -> wallet_owns tr f a -> wallet_owns tr' f a.
Proof. intros Hp (s & acct & Hs & Hrest). exists s, acct. split; [exact (elem_of_prefix _ _ _ Hs Hp) | exact Hrest]. Qed.

Lemma unsigned_from_response_no_panic resp f : unsigned_from_response resp f <> Panic.
Proof. unfold unsigned_from_response. no_panic. Qed.

Lemma quote_swap_runs params : wp (quote_swap params) [] (web3_prepared Swap (sw_chain_id params) (swap_stated params)).
Proof.
  set (Q := web3_prepared _ _ _).
  assert (He : forall tr e, [] `prefix_of` tr -> effects tr = effects [] -> Q tr (Err e)) by (intros tr e _ E; exact E).
  assert (Hpre : @nil event `prefix_of` []) by reflexivity. assert (Heff : effects [] = effects []) by reflexivity.
  unfold quote_swap. eapply (step_lift _ _ []); [apply ok_or_no_panic | eassumption.. |]. intros family Hf. apply ok_or_ok in Hf.
  eapply (step_quietly _ _ _ []); [apply quiet_wallet_address | eassumption.. |]. intros tr own Hp1 He1 _ Hown. cbv beta in Hown.
  intros [e|resp]; cbn [or_error mbind io_bind io_then wp].
  { apply He; [apply prefix_nil | rewrite effects_quiet by reflexivity; exact He1]. }
  set (tr1 := tr ++ _). assert (Ht1 : effects tr1 = []) by (unfold tr1; rewrite effects_quiet by reflexivity; exact He1).
  eapply (step_lift _ _ []); [apply unsigned_from_response_no_panic | apply prefix_nil | exact Ht1 | exact He |]. intros u Hu.
  apply store_quote_runs; [exact Ht1 | | intros k tr' q; eapply response_signs_on; eassumption].
  intros tr' Hp'. exists family, own. split_and!; auto.
  - eapply wallet_owns_mono; [|exact Hown]. etransitivity; [apply prefix_snoc | exact Hp'].
  - eapply elem_of_prefix; [|exact Hp']. apply elem_of_app. right. left.
Qed.

Lemma quote_bridge_runs params : wp (quote_bridge params) [] (web3_prepared Bridge (br_src_chain_id params) (bridge_stated params)).
Proof.
  set (Q := web3_prepared _ _ _).
  assert (He : forall tr e, [] `prefix_of` tr -> effects tr = effects [] -> Q tr (Err e)) by (intros tr e _ E; exact E).
  assert (Hpre : @nil event `prefix_of` []) by reflexivity. assert (Heff : effects [] = effects []) by reflexivity.
  unfold quote_bridge. eapply (step_lift _ _ []); [apply err_if_no_panic | eassumption.. |]. intros z Hne. apply err_if_ok, Z.eqb_neq in Hne.
  eapply (step_lift _ _ []); [apply ok_or_no_panic | eassumption.. |]. intros family Hf. apply ok_or_ok in Hf.
  eapply (step_quietly _ _ _ []); [apply quiet_wallet_address | eassumption.. |]. intros tr own Hp1 He1 _ Hown. cbv beta in Hown.
  eapply (step_quietly _ _ (fun tr d => d = own \/ exists f, chain_family (br_dst_chain_id params) = Some f /\ wallet_owns tr f d) []).
  { destruct (chain_family (br_dst_chain_id params)) as [f|].
    - intros past. apply wp_bind, wp_attempt. eapply wp_mono; [apply quiet_wallet_address|].
      intros tr' [d|e|] (Hp & Hx & Hr); cbn; split_and!; auto; eauto.
    - eapply quietly_mono; [apply quietly_ret|]. auto. }
  1-3: eassumption. intros tr2 dst Hp2 He2 H12 Hdst. cbv beta in Hdst.
  intros [e|resp]; cbn [or_error mbind io_bind io_then wp].
  { apply He; [apply prefix_nil | rewrite effects_quiet by reflexivity; exact He2]. }
  set (tr3 := tr2 ++ _). assert (Ht3 : effects tr3 = []) by (unfold tr3; rewrite effects_quiet by reflexivity; exact He2).
  eapply (step_lift _ _ []); [apply unsigned_from_response_no_panic | apply prefix_nil | exact Ht3 | exact He |]. intros u Hu.
  apply store_quote_runs; [exact Ht3 | | intros k tr' q; eapply response_signs_on; eassumption].
  intros tr' Hp'. assert (Hp3 : tr2 `prefix_of` tr') by (etransitivity; [apply prefix_snoc | exact Hp']).
  split; [exact Hne|]. exists family, own, dst. split_and!; auto.
  - eapply wallet_owns_mono; [|exact Hown]. etransitivity; eassumption.
  - destruct Hdst as [->|(f & Hff & Hd)]; [auto|]. right. exists f. split; [exact Hff | eapply wallet_owns_mono; eassumption].
  - eapply elem_of_prefix; [|exact Hp']. apply elem_of_app. right. left.
Qed.

(** The service's check of calldata is the engine's. *)
Lemma calldata_checks d body :
  strip_prefix (trim d) (lit "0x") = Some body -> (length body mod 2 =? 0)%nat = true -> forallb is_ascii_hexdigit body = true ->
  validate_calldata d = Ok (trim d).
Proof.
  intros Hs Hl Hh. unfold validate_calldata. rewrite Hs, Hl. cbn [negb].
  assert (Hc : forallb (char_is is_ascii_hexdigit) (chars body) = true).
  { rewrite forallb_forall in Hh. rewrite chars_ascii.
    - apply forallb_forall. intros c Hc. apply list_elem_of_In, list_elem_of_fmap in Hc as (b & -> & Hb). apply Hh, list_elem_of_In, Hb.
    - apply list.Forall_forall. intros b Hb. apply hexdigit_ascii, Hh, list_elem_of_In, Hb. }
  rewrite Hc. reflexivity.
Qed.

Lemma prepare_dapp_runs params :
  wp (prepare_dapp_call params) []
    (web3_prepared DappCall (EvmNetwork_chain_id (EvmNetwork_or_mainnet (da_evm_network params))) (dapp_stated params)).
Proof.
  set (Q := web3_prepared _ _ _).
  assert (He : forall tr e, [] `prefix_of` tr -> effects tr = effects [] -> Q tr (Err e)) by (intros tr e _ E; exact E).
  assert (Hpre : @nil event `prefix_of` []) by reflexivity. assert (Heff : effects [] = effects []) by reflexivity.
  unfold prepare_dapp_call.
  eapply (step_lift _ _ []); [apply err_if_no_panic | eassumption.. |]. intros z Hne. apply err_if_ok in Hne.
  eapply (step_lift _ _ []); [apply ok_or_no_panic | eassumption.. |]. intros body Hb. apply ok_or_ok in Hb.
  eapply (step_lift _ _ []); [apply err_if_no_panic | eassumption.. |]. intros z' Hx. apply err_if_ok, orb_false_elim in Hx as [Hl Hh].
  apply negb_false_iff in Hl, Hh.
  eapply (step_quietly _ _ _ []); [apply quiet_wallet_address | eassumption.. |]. intros tr own Hp1 He1 _ Hown. cbv beta in Hown.
  apply store_quote_runs; [exact He1 | |].
  - intros tr' Hp'. exists own. split_and!; [eapply wallet_owns_mono; eassumption | eapply calldata_checks; eassumption | | reflexivity].
    destruct (trim (da_contract_address params)); [discriminate Hne | discriminate].
  - intros k tr' q (d & _ & t & v & nonce & gas & price & _ & _ & ->). reflexivity.
Qed.
End Executions.

(** C8. Executing a swap, bridge or dapp quote, whatever the host, the node and the
    signer answer: never a panic.  Without confirmation, or when the store has no
    such quote for the caller, nothing is signed or sent.  Otherwise at most one
    signature is asked for, and it is for the stored transaction: the stored
    target, value and calldata on the stored network, or the stored blob's own
    message, by a wallet key the message names as a signer.  What is broadcast is
    the signer's answer; of a Solana blob only the wallet's own signature slot
    differs.  A success names the quote; a failure, and only a failure, puts the
    quote back. *)
Theorem web3_execution_signs_the_quote `{CodecLaws, Curve25519, Serde, Base64} params (h : host) :
  let '(tr, r) := exec h [] (execute_quote params) in web3_run params tr r.
Proof.
  pose proof (wp_exec (execute_quote params) h [] _ (execute_quote_runs params)) as Hrun.
  destruct (exec h [] (execute_quote params)) as [tr r]. exact Hrun.
Qed.

(** A blob with one signature slot and a message of one signer, the key of ones. *)
Definition demo_blob : list Z := [1] ++ replicate 64 0 ++ [1; 0; 0; 1] ++ replicate 32 1 ++ replicate 32 9 ++ [0].

Definition demo_solana_host : host := fun past q =>
  match q with
  | TakeWeb3 _ _ => inr (mkQuote (lit "w3_1") Swap (USolana (hex_string demo_blob)) JNull None 301000)
  | DeriveAccount _ => inr (mkDerived (base58_encode (replicate 32 1)) (mkPublicKey []))
  | SignMessage _ _ _ => inr (SigEd25519 (hex_string (replicate 64 5)))
  | q => demo_host past q
  end.

Lemma web3_execution_signs_the_quote_witness :
  let run := exec demo_solana_host [] (execute_quote (H := base58_codecs) (H1 := toy_serde) (H2 := toy_base64)
                                         (mkExecuteQuote (lit "w3_1") true)) in
  length (effects run.1) = 3%nat /\ is_ok run.2 = true /\
  web3_run (H := base58_codecs) (H3 := toy_base64) (mkExecuteQuote (lit "w3_1") true) run.1 run.2.
Proof.
  cbv zeta. split; [vm_compute; reflexivity|]. split; [vm_compute; reflexivity|].
  pose proof (web3_execution_signs_the_quote (H := base58_codecs) (H0 := base58_codec_laws) (H1 := toy_curve) (H2 := toy_serde)
    (H3 := toy_base64) (mkExecuteQuote (lit "w3_1") true) demo_solana_host) as Hrun.
  destruct (exec demo_solana_host [] _) as [tr r]. exact Hrun.
Defined.


