(* ===== verification/Queries.v ===== *)
(** The engine's read-only surface: transaction status, receipts and lookups,
    balances, provider probes and the network and asset listings
    ([crates/tinywallet-web3/src/crypto/execution/tx_lookup.rs], [queries.rs],
    [probe.rs]; the lookups of [chains/evm/mod.rs], [chains/btc/mod.rs],
    [chains/solana/queries.rs], [chains/tron/mod.rs]; [defaults/catalog.rs]).

    Shown: reading never signs, sends, or touches a quote store and never panics;
    a status is reported on the evidence of a node's answer; balances never fail
    on a node's account. *)

From stdpp Require Import base list strings numbers.
From S2P Require Import Prelude Program Text Chain Codec Base58 Addr Proto TronTx EvmTx BtcTx Json Wire Quotes Assets.
From S2P Require Import X402Wire Eip712 SolWire Host NoPanic Engine Signing Transfer.

(** The receipt and the lookup carry the node's JSON. *)
Record TxReceiptInfo := mkReceipt {
  rc_chain : WalletChain;
  rc_evm_network : option EvmNetwork;
  rc_hash : str;
  rc_found : bool;
  rc_success : option bool;
  rc_block_number : option Z;
  rc_gas_used : option str;
  rc_fee_raw : option str;
  rc_raw : Json
}.

Record TxLookupInfo := mkLookup {
  lk_chain : WalletChain;
  lk_evm_network : option EvmNetwork;
  lk_hash : str;
  lk_found : bool;
  lk_raw : Json
}.

(** More of what nodes answer. *)
Record BalanceResult := mkBalanceResult { br_value : Z }.
Record EsploraAddressStats := mkStats { funded_txo_sum : Z; spent_txo_sum : Z }.
Record EsploraAddressInfo := mkAddressInfo { chain_stats : EsploraAddressStats; mempool_stats : EsploraAddressStats }.
Record SigStatus := mkSigStatus { slot : Z; sig_confirmations : option Z; err : option Json }.
Record StatusResp := mkStatusResp { sr_value : list (option SigStatus) }.

Class SerdeReads := {
  reads_serde :: Serde;
  serde_balance :: Deserialize BalanceResult;
  serde_address_info :: Deserialize EsploraAddressInfo;
  serde_statuses :: Deserialize StatusResp
}.

Section Reads.
Context `{Codecs, SerdeReads}.

(** * EVM *)

Definition evm_balance (network : EvmNetwork) (address : str) : io Z :=
  raw ← evm_rpc_call network (lit "eth_getBalance") (JArr [JStr address; JStr (lit "latest")]);
  lift (hex_to_u128 raw).

(** [result.ok()]. *)
Definition ok_of {E A} (r : res E A) : option A := match r with Ok a => Some a | _ => None end.

Definition hex_field (value : Json) (key : str) : option Z :=
  (jget key value ≫= as_str) ≫= fun s => ok_of (hex_to_u128 s).

Definition receipt_success (receipt : Json) : option bool :=
  (fun s => negb (bool_decide (ok_of (hex_to_u128 s) = Some 0))) <$> (jget (lit "status") receipt ≫= as_str).

(** [u64::try_from(v).unwrap_or(u64::MAX)]. *)
Definition clamp_u64 (v : Z) : Z := Z.min v u64_max.

Definition block_number_of (receipt : Json) : option Z := clamp_u64 <$> hex_field receipt (lit "blockNumber").

(** Blocks from [bn] to [head], both counted. *)
Definition depth (head bn : Z) : Z := sat_add u64_max (sat_sub head bn) 1.

Definition evm_row (network : EvmNetwork) (hash : str) (state : TxState) (confirmations block_number : option Z) : TxStatusInfo :=
  mkTxStatus WEvm (Some network) hash state confirmations block_number.

Definition evm_tx_status (network : EvmNetwork) (hash : str) : io TxStatusInfo :=
  receipt ← evm_rpc_call (T := Json) network (lit "eth_getTransactionReceipt") (JArr [JStr hash]);
  if is_null receipt then
    tx ← evm_rpc_call (T := Json) network (lit "eth_getTransactionByHash") (JArr [JStr hash]);
    mret (evm_row network hash (if is_null tx then TxNotFound else TxPending) None None)
  else
    let status_ok := default true (receipt_success receipt) in
    let block_number := block_number_of receipt in
    confirmations ← match block_number with
                    | Some bn =>
                        head_hex ← evm_rpc_call network (lit "eth_blockNumber") (JArr []);
                        mret ((fun head => depth (clamp_u64 head) bn) <$> ok_of (hex_to_u128 head_hex))
                    | None => mret None
                    end;
    mret (evm_row network hash (if status_ok then TxConfirmed else TxFailed) confirmations block_number).

Definition evm_tx_receipt (network : EvmNetwork) (hash : str) : io TxReceiptInfo :=
  receipt ← evm_rpc_call (T := Json) network (lit "eth_getTransactionReceipt") (JArr [JStr hash]);
  if is_null receipt then
    tx ← evm_rpc_call (T := Json) network (lit "eth_getTransactionByHash") (JArr [JStr hash]);
    mret (mkReceipt WEvm (Some network) hash (negb (is_null tx)) None None None None JNull)
  else
    let gas_used := hex_field receipt (lit "gasUsed") in
    let fee_raw := match gas_used, hex_field receipt (lit "effectiveGasPrice") with
                   | Some g, Some p => show_dec <$> checked_mul u128_max g p
                   | _, _ => None
                   end in
    mret (mkReceipt WEvm (Some network) hash true (receipt_success receipt) (block_number_of receipt)
            (show_dec <$> gas_used) fee_raw receipt).

Definition evm_lookup_tx (network : EvmNetwork) (hash : str) : io TxLookupInfo :=
  tx ← evm_rpc_call (T := Json) network (lit "eth_getTransactionByHash") (JArr [JStr hash]);
  mret (mkLookup WEvm (Some network) hash (negb (is_null tx)) tx).

(** * Bitcoin *)

Definition btc_native_balance (address : str) : io Z :=
  _ ← lift (map_err addr_error_text (btc_validate address));
  info ← rest_get_json (T := EsploraAddressInfo) WBtc (lit "address/" ++ address);
  let confirmed := sat_sub (funded_txo_sum (chain_stats info)) (spent_txo_sum (chain_stats info)) in
  let pending := sat_sub (funded_txo_sum (mempool_stats info)) (spent_txo_sum (mempool_stats info)) in
  mret (confirmed + pending).

Definition is_not_found (error : str) : bool := contains error (lit "status=404").

Definition status_row (hash : str) (state : TxState) (confirmations block : option Z) : TxStatusInfo :=
  mkTxStatus WBtc None hash state confirmations block.

(** [get(key).and_then(as_bool).unwrap_or(false)]. *)
Definition flag (key : str) (v : Json) : bool := default false (jget key v ≫= as_bool).

Definition btc_tx_status (hash : str) : io TxStatusInfo :=
  got ← attempt (rest_get_json (T := Json) WBtc (lit "tx/" ++ hash ++ lit "/status"));
  match got with
  | Err e => if is_not_found e then mret (status_row hash TxNotFound None None) else Done (Err e)
  | Panic => Done Panic
  | Ok status =>
      if negb (flag (lit "confirmed") status) then mret (status_row hash TxPending (Some 0) None)
      else
        let block_number := jget (lit "block_height") status ≫= as_u64 in
        confirmations ← match block_number with
                        | Some bn =>
                            tip ← attempt (rest_get_text WBtc (lit "blocks/tip/height"));
                            mret ((fun tip => depth tip bn) <$> (ok_of tip ≫= fun t => ok_of (parse_u64 (trim t))))
                        | None => mret None
                        end;
        mret (status_row hash TxConfirmed confirmations block_number)
  end.

Definition btc_tx_receipt (hash : str) : io TxReceiptInfo :=
  got ← attempt (rest_get_json (T := Json) WBtc (lit "tx/" ++ hash));
  match got with
  | Err e => if is_not_found e then mret (mkReceipt WBtc None hash false None None None None JNull) else Done (Err e)
  | Panic => Done Panic
  | Ok tx =>
      let status := jget (lit "status") tx in
      let confirmed := default false ((status ≫= jget (lit "confirmed")) ≫= as_bool) in
      let block_number := (status ≫= jget (lit "block_height")) ≫= as_u64 in
      let fee_raw := show_dec <$> (jget (lit "fee") tx ≫= as_u64) in
      mret (mkReceipt WBtc None hash true (if confirmed then Some true else None) block_number None fee_raw tx)
  end.

Definition btc_lookup_tx (hash : str) : io TxLookupInfo :=
  got ← attempt (rest_get_json (T := Json) WBtc (lit "tx/" ++ hash));
  match got with
  | Ok tx => mret (mkLookup WBtc None hash true tx)
  | Err e => if is_not_found e then mret (mkLookup WBtc None hash false JNull) else Done (Err e)
  | Panic => Done Panic
  end.

(** * Solana *)

Definition solana_native_balance (address : str) : io Z :=
  _ ← lift (map_err addr_error_text (solana_validate address));
  result ← rpc_call (T := BalanceResult) WSolana (lit "getBalance") (JArr [JStr address]);
  mret (br_value result).

Definition solana_tx_status (hash : str) : io TxStatusInfo :=
  resp ← rpc_call (T := StatusResp) WSolana (lit "getSignatureStatuses")
           (JArr [JArr [JStr hash]; jobj [(lit "searchTransactionHistory", JBool true)]]);
  let entry := mjoin (head (sr_value resp)) in
  let '(state, confirmations, block_number) :=
    match entry with
    | None => (TxNotFound, None, None)
    | Some status =>
        let state := match err status, sig_confirmations status with
                     | Some _, _ => TxFailed
                     | None, None => TxConfirmed
                     | None, Some _ => TxPending
                     end in
        (state, sig_confirmations status, Some (slot status))
    end in
  mret (mkTxStatus WSolana None hash state confirmations block_number).

Definition get_transaction (hash : str) : io Json :=
  rpc_call WSolana (lit "getTransaction")
    (JArr [JStr hash; jobj [(lit "maxSupportedTransactionVersion", JNum (JPos 0)); (lit "encoding", JStr (lit "json"))]]).

Definition solana_tx_receipt (hash : str) : io TxReceiptInfo :=
  tx ← get_transaction hash;
  if is_null tx then mret (mkReceipt WSolana None hash false None None None None JNull)
  else
    let meta := jget (lit "meta") tx in
    let success := (fun m => match jget (lit "err") m with Some e => is_null e | None => true end) <$> meta in
    let fee_raw := show_dec <$> ((meta ≫= jget (lit "fee")) ≫= as_u64) in
    mret (mkReceipt WSolana None hash true success (jget (lit "slot") tx ≫= as_u64) None fee_raw tx).

Definition solana_lookup_tx (hash : str) : io TxLookupInfo :=
  tx ← get_transaction hash;
  mret (mkLookup WSolana None hash (negb (is_null tx)) tx).

(** * Tron *)

Definition tron_native_balance (address : str) : io Z :=
  _ ← lift (validate_tron_address address);
  hex ← lift (tron_address_to_hex address);
  resp ← rest_post_json (T := Json) WTron (lit "wallet/getaccount")
           (jobj [(lit "address", JStr hex); (lit "visible", JBool false)]);
  mret (default 0 (jget (lit "balance") resp ≫= as_u64)).

Definition is_slash (b : Z) : bool := b =? 47.

(** [path.trim_start_matches('/')]. *)
Fixpoint trim_slashes (path : str) : str :=
  match path with
  | b :: rest => if is_slash b then trim_slashes rest else path
  | [] => []
  end.

Definition tron_post (path : str) (body : Json) : io Json := rest_post_json WTron (trim_slashes path) body.

Definition is_known_tx (tx : Json) : bool :=
  bool_decide (is_Some (jget (lit "txID") tx)) || bool_decide (is_Some (jget (lit "raw_data") tx)).

Definition receipt_result (info : Json) : option str := (jget (lit "receipt") info ≫= jget (lit "result")) ≫= as_str.

(** A bare transfer has no result, and is successful once mined. *)
Definition tron_success (info : Json) : bool :=
  match receipt_result info with Some r => bool_decide (r = lit "SUCCESS") | None => true end.

Definition by_hash (hash : str) : Json := jobj [(lit "value", JStr hash)].

Definition tron_tx_status (hash : str) : io TxStatusInfo :=
  info ← tron_post (lit "wallet/gettransactioninfobyid") (by_hash hash);
  '(state, block_number) ← match jget (lit "blockNumber") info ≫= as_u64 with
                           | Some bn => mret (if tron_success info then TxConfirmed else TxFailed, Some bn)
                           | None =>
                               tx ← tron_post (lit "wallet/gettransactionbyid") (by_hash hash);
                               mret (if is_known_tx tx then TxPending else TxNotFound, None)
                           end;
  mret (mkTxStatus WTron None hash state None block_number).

Definition tron_tx_receipt (hash : str) : io TxReceiptInfo :=
  info ← tron_post (lit "wallet/gettransactioninfobyid") (by_hash hash);
  match jget (lit "blockNumber") info ≫= as_u64 with
  | None => mret (mkReceipt WTron None hash false None None None None JNull)
  | Some block_number =>
      let fee_raw := show_dec <$> (jget (lit "fee") info ≫= as_u64) in
      let gas_used := show_dec <$> ((jget (lit "receipt") info ≫= jget (lit "energy_usage_total")) ≫= as_u64) in
      mret (mkReceipt WTron None hash true (Some (tron_success info)) (Some block_number) gas_used fee_raw info)
  end.

Definition tron_lookup_tx (hash : str) : io TxLookupInfo :=
  tx ← tron_post (lit "wallet/gettransactionbyid") (by_hash hash);
  mret (mkLookup WTron None hash (is_known_tx tx) tx).

(** * Lookups by chain *)

Definition clean_hash (hash : str) : res str str :=
  let hash := trim hash in if is_nil hash then Err (lit "tx hash is empty") else Ok hash.

Definition read_network (evm_network : option EvmNetwork) : EvmNetwork := default EthereumMainnet evm_network.

Definition tx_status (chain : WalletChain) (evm_network : option EvmNetwork) (hash : str) : io TxStatusInfo :=
  hash ← lift (clean_hash hash);
  match chain with
  | WEvm => evm_tx_status (read_network evm_network) hash
  | WBtc => btc_tx_status hash
  | WSolana => solana_tx_status hash
  | WTron => tron_tx_status hash
  end.

Definition tx_receipt (chain : WalletChain) (evm_network : option EvmNetwork) (hash : str) : io TxReceiptInfo :=
  hash ← lift (clean_hash hash);
  match chain with
  | WEvm => evm_tx_receipt (read_network evm_network) hash
  | WBtc => btc_tx_receipt hash
  | WSolana => solana_tx_receipt hash
  | WTron => tron_tx_receipt hash
  end.

Definition lookup_tx (chain : WalletChain) (evm_network : option EvmNetwork) (hash : str) : io TxLookupInfo :=
  hash ← lift (clean_hash hash);
  match chain with
  | WEvm => evm_lookup_tx (read_network evm_network) hash
  | WBtc => btc_lookup_tx hash
  | WSolana => solana_lookup_tx hash
  | WTron => tron_lookup_tx hash
  end.

(** * Listings, probes and balances *)

Definition EVM_BALANCE_NETWORKS : list EvmNetwork := [EthereumMainnet; BaseMainnet; BscMainnet].

Definition asset_to_supported (a : WalletAssetDefinition) : SupportedAsset :=
  mkSupported (ad_chain a) (ad_evm_network a) (ad_symbol a) (ad_name a) (ad_native a) (ad_decimals a) (ad_contract_address a).

Definition supported_assets : io (list SupportedAsset) :=
  cluster ← solana_cluster;
  mret (asset_to_supported <$> (EvmNetwork_ALL ≫= evm_asset_catalog) ++ ([WBtc; WSolana; WTron] ≫= fun c => asset_catalog c cluster)).

(** [for x in l { rows.push(f(x).await) }]. *)
Fixpoint each {A B} (f : A -> io B) (l : list A) : io (list B) :=
  match l with
  | [] => mret []
  | x :: l => y ← f x; ys ← each f l; mret (y :: ys)
  end.

Definition evm_defaults (network : EvmNetwork) : io WalletNetworkDefaults :=
  url ← endpoint_url WEvm (Some network);
  source ← endpoint_source WEvm (Some network);
  mret (mkDefaults WEvm (Some network) (network_label_for_evm network) (Some (EvmNetwork_chain_id network)) url source
          (explorer_tx_base_for_evm network) None true true true (evm_asset_catalog network)).

Definition chain_defaults (cluster : SolanaCluster) (row : WalletChain * str * str * str) : io WalletNetworkDefaults :=
  let '(chain, label, explorer, suffix) := row in
  url ← endpoint_url chain None;
  source ← endpoint_source chain None;
  mret (mkDefaults chain None label None url source explorer (if is_nil suffix then None else Some suffix) true
          (negb (bool_decide (chain = WBtc))) false (asset_catalog chain cluster)).

Definition network_defaults : io (list WalletNetworkDefaults) :=
  cluster ← solana_cluster;
  evm ← each evm_defaults EvmNetwork_ALL;
  others ← each (chain_defaults cluster)
    [(WBtc, lit "bitcoin-mainnet", BLOCKSTREAM_TX_BASE, []);
     (WSolana, cluster_label cluster, SOLSCAN_TX_BASE, explorer_tx_suffix cluster);
     (WTron, lit "tron-mainnet", TRONSCAN_TX_BASE, [])];
  mret (evm ++ others).

Definition probe_provider (chain : WalletChain) (network : option EvmNetwork) : io unit :=
  match chain with
  | WEvm =>
      height ← evm_rpc_call (read_network network) (lit "eth_blockNumber") (JArr []);
      lift ((fun _ => tt) <$> map_err (fun e => lit "eth_blockNumber did not return a block number: " ++ e) (hex_to_u128 height))
  | WSolana => _ ← rpc_call (T := Json) WSolana (lit "getHealth") (JArr []); mret tt
  | WBtc =>
      body ← rest_get_text WBtc (lit "blocks/tip/height");
      lift ((fun _ => tt) <$> map_err (fun _ => lit "BTC chain tip height was not a number") (parse_u64 (trim body)))
  | WTron =>
      block ← rest_post_json (T := Json) WTron (lit "wallet/getnowblock") (jobj []);
      lift ((fun _ => tt) <$> ok_or (jget (lit "blockID") block ≫= as_str) (lit "Tron getnowblock returned no block"))
  end.

Definition chain_status_row (chain : WalletChain) (network : option EvmNetwork) (has_account : bool) : io ChainStatus :=
  '(provider_status, error) ←
    if has_account then
      probed ← attempt (probe_provider chain network);
      mret match probed with Err e => (ProviderMissing, Some e) | _ => (ProviderReady, None) end
    else mret (ProviderMissing, None);
  url ← endpoint_url chain network;
  mret (mkChainStatus chain network has_account provider_status url error).

Definition chain_status : io (list ChainStatus) :=
  status ← status;
  let has chain := existsb (fun a => bool_decide (wa_chain a = chain)) (accounts status) in
  evm ← each (fun network => chain_status_row WEvm (Some network) (has WEvm)) EvmNetwork_ALL;
  others ← each (fun chain => chain_status_row chain None (has chain)) [WBtc; WSolana; WTron];
  mret (evm ++ others).

Definition native_asset_for (chain : WalletChain) : io WalletAssetDefinition :=
  cluster ← solana_cluster;
  lift (ok_or (find_native (asset_catalog chain cluster))
          (lit "native asset metadata missing for '" ++ WalletChain_as_str chain ++ lit "'")).

Definition read_balance (account : WalletAccount) (network : option EvmNetwork) : io Z :=
  match wa_chain account with
  | WEvm => evm_balance (read_network network) (wa_address account)
  | WBtc => btc_native_balance (wa_address account)
  | WSolana => solana_native_balance (wa_address account)
  | WTron => tron_native_balance (wa_address account)
  end.

Definition balance_row (account : WalletAccount) (network : option EvmNetwork) (asset : WalletAssetDefinition) : io BalanceInfo :=
  read ← attempt (read_balance account network);
  let '(raw, provider_status) := match read with
                                 | Ok balance => (show_dec balance, ProviderReady)
                                 | _ => (lit "0", ProviderMissing)
                                 end in
  let raw_u128 := default 0 (ok_of (parse_u128 raw)) in
  mret (mkBalance (wa_chain account) network (wa_address account) (ad_symbol asset) (ad_decimals asset) raw
          (format_amount raw_u128 (ad_decimals asset)) provider_status).

(** The rows of one account. *)
Definition account_rows (account : WalletAccount) : io (list BalanceInfo) :=
  match wa_chain account with
  | WEvm =>
      each (fun network =>
              asset ← lift (ok_or (find_native (evm_asset_catalog network))
                (lit "native asset metadata missing for evm network '" ++ EvmNetwork_as_str network ++ lit "'"));
              balance_row account (Some network) asset) EVM_BALANCE_NETWORKS
  | chain =>
      asset ← native_asset_for chain;
      row ← balance_row account None asset;
      mret [row]
  end.

Definition balances : io (list BalanceInfo) :=
  status ← status;
  if negb (configured status) then Done (Err WALLET_NOT_CONFIGURED_MESSAGE)
  else rows ← each account_rows (accounts status); mret (concat rows).
End Reads.

(** * Evidence *)

Section Evidence.
Context `{CodecLaws, SerdeReads}.

(** What a node said, decoded: to a JSON-RPC call, to a GET and to a POST. *)
Definition rpc_said {T} `{Deserialize T} (tr : list event) (net : NetworkId) (method : str) (params : Json) (x : T) : Prop :=
  exists v, Ev (JsonRpc net method params) (inr v) ∈ tr /\ from_value v = inr x.
Definition get_said {T} `{Deserialize T} (tr : list event) (chain : WalletChain) (path : str) (x : T) : Prop :=
  exists body, Ev (RestGet (network_id chain None) path) (inr body) ∈ tr /\ from_str body = inr x.
Definition post_said {T} `{Deserialize T} (tr : list event) (chain : WalletChain) (path : str) (body : Json) (x : T) : Prop :=
  exists t, Ev (RestPost (network_id chain None) path (json_text body) (lit "application/json")) (inr t) ∈ tr /\ from_str t = inr x.

(** Esplora's 404, in the transport's error or in an unreadable body. *)
Definition esplora_404 (tr : list event) (path : str) : Prop :=
  (exists e, Ev (RestGet (network_id WBtc None) path) (inl e) ∈ tr /\ is_not_found (transport_message e) = true) \/
  (exists body e, Ev (RestGet (network_id WBtc None) path) (inr body) ∈ tr /\ from_str (T := Json) body = inl e /\
     contains (lit "wallet REST GET decode failed: " ++ e ++ lit "; body=" ++ body) (lit "status=404") = true).

(** On an EVM network, by the receipt, and without one by the transaction. *)
Definition evm_evidence (net : EvmNetwork) (hash : str) (tr : list event) (info : TxStatusInfo) : Prop :=
  let id := network_id WEvm (Some net) in
  exists receipt : Json, rpc_said tr id (lit "eth_getTransactionReceipt") (JArr [JStr hash]) receipt /\
    match ts_state info with
    | TxNotFound => is_null receipt = true /\
        exists tx : Json, rpc_said tr id (lit "eth_getTransactionByHash") (JArr [JStr hash]) tx /\ is_null tx = true
    | TxPending => is_null receipt = true /\
        exists tx : Json, rpc_said tr id (lit "eth_getTransactionByHash") (JArr [JStr hash]) tx /\ is_null tx = false
    | TxConfirmed => is_null receipt = false /\ receipt_success receipt <> Some false
    | TxFailed => is_null receipt = false /\ receipt_success receipt = Some false
    end.

Definition btc_evidence (hash : str) (tr : list event) (info : TxStatusInfo) : Prop :=
  let path := lit "tx/" ++ hash ++ lit "/status" in
  match ts_state info with
  | TxNotFound => esplora_404 tr path
  | TxPending => exists v : Json, get_said tr WBtc path v /\ flag (lit "confirmed") v = false
  | TxConfirmed => exists v : Json, get_said tr WBtc path v /\ flag (lit "confirmed") v = true
  | TxFailed => False
  end.

(** By the first status: its error first, then whether it is rooted. *)
Definition solana_evidence (hash : str) (tr : list event) (info : TxStatusInfo) : Prop :=
  exists resp : StatusResp,
    rpc_said tr (network_id WSolana None) (lit "getSignatureStatuses")
      (JArr [JArr [JStr hash]; jobj [(lit "searchTransactionHistory", JBool true)]]) resp /\
    match ts_state info, mjoin (head (sr_value resp)) with
    | TxNotFound, None => True
    | TxFailed, Some st => is_Some (err st)
    | TxConfirmed, Some st => err st = None /\ sig_confirmations st = None
    | TxPending, Some st => err st = None /\ is_Some (sig_confirmations st)
    | _, _ => False
    end.

Definition tron_evidence (hash : str) (tr : list event) (info : TxStatusInfo) : Prop :=
  exists reply : Json, post_said tr WTron (lit "wallet/gettransactioninfobyid") (by_hash hash) reply /\
    match ts_state info with
    | TxConfirmed => is_Some (jget (lit "blockNumber") reply ≫= as_u64) /\ tron_success reply = true
    | TxFailed => is_Some (jget (lit "blockNumber") reply ≫= as_u64) /\ tron_success reply = false
    | TxPending => exists tx : Json, post_said tr WTron (lit "wallet/gettransactionbyid") (by_hash hash) tx /\ is_known_tx tx = true
    | TxNotFound => exists tx : Json, post_said tr WTron (lit "wallet/gettransactionbyid") (by_hash hash) tx /\ is_known_tx tx = false
    end.

(** Confirmations count the block itself, and never wrap. *)
Definition counted (info : TxStatusInfo) : Prop :=
  forall c, confirmations info = Some c -> ts_chain info = WEvm -> 1 <= c <= u64_max.

Lemma depth_bounds head bn : 1 <= depth head bn <= u64_max.
Proof. unfold depth, sat_add, sat_sub, u64_max. lia. Qed.

Lemma rpc_said_mono {T} `{Deserialize T} tr tr' net m p (x : T) :
  tr `prefix_of` tr' -> rpc_said tr net m p x -> rpc_said tr' net m p x.
Proof. intros Hp (v & Hv & Hx). exists v. split; [exact (elem_of_prefix _ _ _ Hv Hp) | exact Hx]. Qed.

Lemma post_said_mono {T} `{Deserialize T} tr tr' c path body (x : T) :
  tr `prefix_of` tr' -> post_said tr c path body x -> post_said tr' c path body x.
Proof. intros Hp (v & Hv & Hx). exists v. split; [exact (elem_of_prefix _ _ _ Hv Hp) | exact Hx]. Qed.

Lemma evm_status_runs net hash :
  quietly (evm_tx_status net hash) (fun tr info => ts_chain info = WEvm /\ ts_hash info = hash /\ evm_evidence net hash tr info /\ counted info).
Proof.
  unfold evm_tx_status, evm_rpc_call.
  eapply quietly_bind; [apply (quiet_json_rpc (T := Json)); reflexivity|]. intros receipt tr0 Hr.
  destruct (is_null receipt) eqn:Hn.
  - eapply quietly_bind; [apply (quiet_json_rpc (T := Json)); reflexivity|]. intros tx tr1 Htx.
    eapply quietly_mono; [apply quietly_ret|]. intros tr info -> H1' H2'. unfold evm_row. cbn [ts_chain ts_hash].
    split_and!; auto; [|intros c [=]]. exists receipt. split; [eapply rpc_said_mono; [|exact Hr]; exact H2'|].
    cbn [ts_state]. destruct (is_null tx) eqn:Hx; (split; [exact Hn|]; exists tx; split; [eapply rpc_said_mono; [|exact Htx]; exact H1' | exact Hx]).
  - eapply (quietly_bind _ _ (fun _ c => forall n, c = Some n -> 1 <= n <= u64_max)).
    + destruct (block_number_of receipt) as [bn|]; [|eapply quietly_mono; [apply quietly_ret|]; intros; subst; discriminate].
      eapply quietly_bind; [apply (quiet_json_rpc (T := str)); reflexivity|]. intros head tr1 _.
      eapply quietly_mono; [apply quietly_ret|]. intros tr c -> _ n Hc. destruct (ok_of (hex_to_u128 head)); [|discriminate Hc].
      injection Hc as <-. apply depth_bounds.
    + intros c tr1 Hc. eapply quietly_mono; [apply quietly_ret|]. intros tr info -> H1' H2'. unfold evm_row. cbn [ts_chain ts_hash].
      split_and!; auto; [|intros n Hn' _; exact (Hc n Hn')]. exists receipt. split; [eapply rpc_said_mono; [|exact Hr]; exact H2'|].
      cbn [ts_state]. destruct (receipt_success receipt) as [[]|] eqn:Hs; cbn; (split; [exact Hn | congruence]).
Qed.

(** What a GET answered: its value, or the error the lookup inspects. *)
Definition get_answered {T} `{Deserialize T} (tr : list event) (chain : WalletChain) (path : str) (r : res str T) : Prop :=
  match r with
  | Ok x => get_said tr chain path x
  | Err e =>
      (exists te, Ev (RestGet (network_id chain None) path) (inl te) ∈ tr /\ e = transport_message te) \/
      (exists body d, Ev (RestGet (network_id chain None) path) (inr body) ∈ tr /\ from_str (T := T) body = inl d /\
         e = lit "wallet REST GET decode failed: " ++ d ++ lit "; body=" ++ body)
  | Panic => False
  end.

Lemma last_event {A} (l : list A) x : x ∈ l ++ [x].
Proof. apply elem_of_app. right. left. Qed.

Lemma quiet_attempt_get {T} `{Deserialize T} chain path :
  quietly (attempt (rest_get_json (T := T) chain path)) (fun tr r => get_answered tr chain path r).
Proof.
  intros past r. unfold from_transport, rest_get_json, decoded. destruct r as [te|body]; cbn.
  - split_and!; [apply prefix_snoc | apply effects_quiet; reflexivity|]. left. eauto using last_event.
  - destruct (from_str body) as [d|x] eqn:Hd; cbn; (split_and!; [apply prefix_snoc | apply effects_quiet; reflexivity|]).
    + right. exists body, d. eauto using last_event.
    + exists body. eauto using last_event.
Qed.

Lemma quiet_attempt_text chain path : quietly (attempt (rest_get_text chain path)) (fun _ r => r <> Panic).
Proof.
  intros past r. destruct r as [te|body]; cbn; (split_and!; [apply prefix_snoc | apply effects_quiet; reflexivity | discriminate]).
Qed.

Lemma get_said_mono {T} `{Deserialize T} tr tr' c path (x : T) :
  tr `prefix_of` tr' -> get_said tr c path x -> get_said tr' c path x.
Proof. intros Hp (v & Hv & Hx). exists v. split; [exact (elem_of_prefix _ _ _ Hv Hp) | exact Hx]. Qed.

(** An error that reads as a 404 is Esplora's. *)
Lemma not_found_is_404 tr path e :
  get_answered (T := Json) tr WBtc path (Err e) -> is_not_found e = true -> esplora_404 tr path.
Proof. intros [(te & Hin & ->)|(body & d & Hin & Hd & ->)] He; [left | right]; eauto 6. Qed.

Lemma esplora_404_mono tr tr' path : tr `prefix_of` tr' -> esplora_404 tr path -> esplora_404 tr' path.
Proof.
  intros Hp [(e & Hin & He)|(body & e & Hin & He)]; [left | right]; [exists e | exists body, e];
    (split; [exact (elem_of_prefix _ _ _ Hin Hp) | exact He]).
Qed.

Lemma btc_status_runs hash :
  quietly (btc_tx_status hash) (fun tr info => ts_chain info = WBtc /\ ts_hash info = hash /\ btc_evidence hash tr info).
Proof.
  unfold btc_tx_status. eapply quietly_bind; [apply (quiet_attempt_get (T := Json))|]. intros got tr0 Hgot.
  destruct got as [v|e|]; [|destruct (is_not_found e) eqn:He; [|apply quietly_err] | destruct Hgot].
  - destruct (flag (lit "confirmed") v) eqn:Hf; cbn [negb].
    + eapply (quietly_bind _ _ (fun _ _ => True)).
      * destruct (jget (lit "block_height") v ≫= as_u64) as [bn|]; [|eapply quietly_mono; [apply quietly_ret | auto]].
        eapply quietly_bind; [apply quiet_attempt_text|]. intros tip tr1 _. eapply quietly_mono; [apply quietly_ret | auto].
      * intros c tr1 _. eapply quietly_mono; [apply quietly_ret|]. intros tr info -> _ Hp. cbn.
        split_and!; auto. exists v. split; [eapply get_said_mono; [exact Hp | exact Hgot] | exact Hf].
    + eapply quietly_mono; [apply quietly_ret|]. intros tr info -> Hp. cbn. split_and!; auto.
      exists v. split; [eapply get_said_mono; [exact Hp | exact Hgot] | exact Hf].
  - eapply quietly_mono; [apply quietly_ret|]. intros tr info -> Hp. cbn. split_and!; auto.
    eapply esplora_404_mono; [exact Hp|]. eapply not_found_is_404; eassumption.
Qed.

Lemma solana_status_runs hash :
  quietly (solana_tx_status hash) (fun tr info => ts_chain info = WSolana /\ ts_hash info = hash /\ solana_evidence hash tr info).
Proof.
  unfold solana_tx_status, rpc_call.
  eapply quietly_bind; [apply (quiet_json_rpc (T := StatusResp)); reflexivity|]. intros resp tr0 Hr.
  destruct (mjoin (head (sr_value resp))) as [st|] eqn:Hst;
    [destruct (err st) as [e|] eqn:He; [|destruct (sig_confirmations st) as [c|] eqn:Hc]|];
    (eapply quietly_mono; [apply quietly_ret|]; intros tr info -> Hp; cbn; split_and!; auto;
     exists resp; split; [exact (rpc_said_mono _ _ _ _ _ _ Hp Hr)|]; cbn; rewrite Hst; eauto).
Qed.

Lemma tron_status_runs hash :
  quietly (tron_tx_status hash) (fun tr info => ts_chain info = WTron /\ ts_hash info = hash /\ tron_evidence hash tr info).
Proof.
  unfold tron_tx_status, tron_post.
  eapply quietly_bind; [apply (quiet_post_json (T := Json)); reflexivity|]. intros reply tr0 Hr.
  destruct (jget (lit "blockNumber") reply ≫= as_u64) as [bn|] eqn:Hb.
  - eapply quietly_mono; [apply quietly_ret|]. intros tr info -> Hp. cbn. split_and!; auto.
    exists reply. split; [exact (post_said_mono _ _ _ _ _ _ Hp Hr)|]. cbn [ts_state].
    destruct (tron_success reply); (split; [eauto | reflexivity]).
  - eapply (quietly_bind _ _ (fun tr x => exists tx : Json, post_said tr WTron (lit "wallet/gettransactionbyid") (by_hash hash) tx /\
        x = (if is_known_tx tx then TxPending else TxNotFound, @None Z))).
    + eapply quietly_bind; [apply (quiet_post_json (T := Json)); reflexivity|]. intros tx tr1 Htx.
      eapply quietly_mono; [apply quietly_ret|]. intros tr x -> Hp. exists tx. split; [|reflexivity].
      exact (post_said_mono _ _ _ _ _ _ Hp Htx).
    + intros x tr1 (tx & Htx & ->). eapply quietly_mono; [apply quietly_ret|]. intros tr info -> Hp Hp0.
      cbn [ts_chain ts_hash]. split_and!; auto. exists reply. split; [exact (post_said_mono _ _ _ _ _ _ Hp0 Hr)|].
      cbn [ts_state]. destruct (is_known_tx tx) eqn:Hk; (exists tx; split; [exact (post_said_mono _ _ _ _ _ _ Hp Htx) | exact Hk]).
Qed.

(** The evidence of each chain. *)
Definition status_evidence (chain : WalletChain) (network : EvmNetwork) (hash : str) (tr : list event) (info : TxStatusInfo) : Prop :=
  match chain with
  | WEvm => evm_evidence network hash tr info /\ counted info
  | WBtc => btc_evidence hash tr info
  | WSolana => solana_evidence hash tr info
  | WTron => tron_evidence hash tr info
  end.

End Evidence.

(** * Balances *)

Section Balances.
Context `{CodecLaws, SerdeReads}.

Lemma answers_cluster : answers solana_cluster (fun _ _ => True).
Proof. intros past c. cbn. split_and!; [apply prefix_snoc | apply effects_quiet; reflexivity | eauto]. Qed.

Lemma answers_each {A B} (f : A -> io B) (l : list A) (R : A -> list event -> B -> Prop) :
  (forall x tr tr' b, tr `prefix_of` tr' -> R x tr b -> R x tr' b) ->
  (forall x, x ∈ l -> answers (f x) (R x)) ->
  answers (each f l) (fun tr => Forall2 (fun x => R x tr) l).
Proof.
  intros Hmono. induction l as [|x l IH]; intros Hf; cbn [each].
  - eapply answers_mono; [apply answers_ret|]. intros tr a ->. constructor.
  - eapply answers_bind; [apply Hf; left|]. intros y tr0 Hy.
    eapply answers_bind; [apply IH; intros z Hz; apply Hf; right; exact Hz|]. intros ys tr1 Hys.
    eapply answers_mono; [apply answers_ret|]. intros tr a -> Hp1 Hp0. constructor; [eapply Hmono; eassumption|].
    revert Hys. apply Forall2_impl. intros z b. apply Hmono, Hp1.
Qed.

(** What the chain's node said the balance of [address] is. *)
Definition balance_said (tr : list event) (chain : WalletChain) (network : EvmNetwork) (address : str) (n : Z) : Prop :=
  match chain with
  | WEvm => exists raw : str,
      rpc_said tr (network_id WEvm (Some network)) (lit "eth_getBalance") (JArr [JStr address; JStr (lit "latest")]) raw /\
      hex_to_u128 raw = Ok n
  | WBtc => exists info : EsploraAddressInfo, get_said tr WBtc (lit "address/" ++ address) info /\
      n = sat_sub (funded_txo_sum (chain_stats info)) (spent_txo_sum (chain_stats info)) +
          sat_sub (funded_txo_sum (mempool_stats info)) (spent_txo_sum (mempool_stats info))
  | WSolana => rpc_said tr (network_id WSolana None) (lit "getBalance") (JArr [JStr address]) (mkBalanceResult n)
  | WTron => exists hex, to_hex address = Ok hex /\ exists resp : Json,
      post_said tr WTron (lit "wallet/getaccount") (jobj [(lit "address", JStr hex); (lit "visible", JBool false)]) resp /\
      n = default 0 (jget (lit "balance") resp ≫= as_u64)
  end.

Lemma balance_said_mono tr tr' c net a n :
  tr `prefix_of` tr' -> balance_said tr c net a n -> balance_said tr' c net a n.
Proof.
  intros Hp. destruct c; cbn.
  - intros (raw & Hr & Hn). exists raw. split; [exact (rpc_said_mono _ _ _ _ _ _ Hp Hr) | exact Hn].
  - intros (info & Hr & Hn). exists info. split; [exact (get_said_mono _ _ _ _ _ Hp Hr) | exact Hn].
  - exact (rpc_said_mono _ _ _ _ _ _ Hp).
  - intros (hex & Hh & resp & Hr & Hn). exists hex. split; [exact Hh|]. exists resp.
    split; [exact (post_said_mono _ _ _ _ _ _ Hp Hr) | exact Hn].
Qed.

Lemma tron_address_to_hex_no_panic a : tron_address_to_hex a <> Panic.
Proof. unfold tron_address_to_hex. no_panic. Qed.

Lemma read_balance_runs account network :
  quietly (read_balance account network)
    (fun tr n => balance_said tr (wa_chain account) (read_network network) (wa_address account) n).
Proof.
  unfold read_balance. destruct (wa_chain account).
  - unfold evm_balance, evm_rpc_call. eapply quietly_bind; [apply (quiet_json_rpc (T := str)); reflexivity|]. intros raw tr0 Hr.
    eapply quietly_mono; [apply quietly_lift; unfold hex_to_u128; no_panic|]. intros tr n Hn Hp. cbn.
    exists raw. split; [exact (rpc_said_mono _ _ _ _ _ _ Hp Hr) | exact Hn].
  - unfold btc_native_balance. eapply quietly_bind; [apply quietly_lift, map_err_no_panic, (validate_no_panic Btc)|]. intros _ tr0 _.
    eapply quietly_bind; [apply (quiet_get_json (T := EsploraAddressInfo))|]. intros info tr1 Hr.
    eapply quietly_mono; [apply quietly_ret|]. intros tr n -> Hp _. cbn. exists info.
    split; [exact (get_said_mono _ _ _ _ _ Hp Hr) | reflexivity].
  - unfold solana_native_balance, rpc_call. eapply quietly_bind; [apply quietly_lift, map_err_no_panic, (validate_no_panic Solana)|].
    intros _ tr0 _. eapply quietly_bind; [apply (quiet_json_rpc (T := BalanceResult)); reflexivity|]. intros r tr1 Hr.
    eapply quietly_mono; [apply quietly_ret|]. intros tr n -> Hp _. cbn. destruct r. exact (rpc_said_mono _ _ _ _ _ _ Hp Hr).
  - unfold tron_native_balance. eapply quietly_bind; [apply quietly_lift; unfold validate_tron_address; apply map_err_no_panic, (validate_no_panic Tron)|].
    intros _ tr0 _. eapply quietly_bind; [apply quietly_lift, tron_address_to_hex_no_panic|]. intros hex tr1 Hh.
    eapply quietly_bind; [apply (quiet_post_json (T := Json)); reflexivity|]. intros resp tr2 Hr.
    eapply quietly_mono; [apply quietly_ret|]. intros tr n -> Hp _ _. cbn. exists hex.
    split; [unfold tron_address_to_hex in Hh; destruct (to_hex (wa_address account)); cbn in Hh; congruence|].
    exists resp. split; [exact (post_said_mono _ _ _ _ _ _ Hp Hr) | reflexivity].
Qed.

(** A row tells the node's answer, or says the provider is missing. *)
Definition honest_row (tr : list event) (row : BalanceInfo) : Prop :=
  match bi_provider_status row with
  | ProviderReady => exists n, balance_said tr (bi_chain row) (read_network (bi_evm_network row)) (bi_address row) n /\
      bi_raw row = show_dec n /\ (is_u128 n -> bi_formatted row = format_amount n (bi_decimals row))
  | ProviderMissing => bi_raw row = lit "0" /\ bi_formatted row = format_amount 0 (bi_decimals row)
  end.

Lemma honest_row_mono tr tr' row : tr `prefix_of` tr' -> honest_row tr row -> honest_row tr' row.
Proof.
  intros Hp. unfold honest_row. destruct (bi_provider_status row); [|tauto].
  intros (n & Hn & Hr). exists n. split; [exact (balance_said_mono _ _ _ _ _ _ Hp Hn) | exact Hr].
Qed.

(** What a row is of: the chain's own coin for the account's address. *)
Definition row_key (row : BalanceInfo) : WalletChain * option EvmNetwork * str * str * Z :=
  (bi_chain row, bi_evm_network row, bi_address row, bi_asset_symbol row, bi_decimals row).

Definition account_keys (account : WalletAccount) : list (WalletChain * option EvmNetwork * str * str * Z) :=
  let at_address net symbol decimals := (wa_chain account, net, wa_address account, symbol, decimals) in
  match wa_chain account with
  | WEvm => [at_address (Some EthereumMainnet) (lit "ETH") 18; at_address (Some BaseMainnet) (lit "ETH") 18;
             at_address (Some BscMainnet) (lit "BNB") 18]
  | WBtc => [at_address None (lit "BTC") 8]
  | WSolana => [at_address None (lit "SOL") 9]
  | WTron => [at_address None (lit "TRX") 6]
  end.

Lemma parse_shown_u128 n : is_u128 n -> parse_u128 (show_dec n) = Ok n.
Proof. intros Hn. apply parse_show_dec; [exact Hn | unfold is_u128, u128_max in *; lia]. Qed.

Lemma balance_row_answers account network asset :
  answers (balance_row account network asset) (fun tr row =>
    row_key row = (wa_chain account, network, wa_address account, ad_symbol asset, ad_decimals asset) /\ honest_row tr row).
Proof.
  unfold balance_row. eapply answers_bind; [apply answers_attempt, read_balance_runs|]. intros r tr0 Hr.
  destruct r as [n|e|]; [| |destruct Hr]; (eapply answers_mono; [apply answers_ret|]; intros tr row -> Hp; split; [reflexivity|]).
  - unfold honest_row. cbn [bi_provider_status bi_chain bi_evm_network bi_address bi_raw bi_formatted bi_decimals]. exists n. split; [exact (balance_said_mono _ _ _ _ _ _ Hp Hr)|]. split; [reflexivity|].
    intros Hn. rewrite parse_shown_u128 by exact Hn. reflexivity.
  - split; reflexivity.
Qed.

Lemma single_row account symbol decimals :
  (forall cluster, exists a, find_native (asset_catalog (wa_chain account) cluster) = Some a /\
     ad_symbol a = symbol /\ ad_decimals a = decimals) ->
  answers (asset ← native_asset_for (wa_chain account); row ← balance_row account None asset; mret [row])
    (fun tr rows => row_key <$> rows = [(wa_chain account, None, wa_address account, symbol, decimals)] /\
       Forall (honest_row tr) rows).
Proof.
  intros Hnative. unfold native_asset_for.
  eapply (answers_bind _ _ (fun _ a => ad_symbol a = symbol /\ ad_decimals a = decimals)).
  - eapply answers_bind; [apply answers_cluster|]. intros cluster tr0 _. destruct (Hnative cluster) as (a & -> & Ha).
    eapply answers_mono; [apply answers_ret|]. intros tr x -> _. exact Ha.
  - intros a tr0 [<- <-]. eapply answers_bind; [apply balance_row_answers|]. intros row tr1 [Hk Hh].
    eapply answers_mono; [apply answers_ret|]. intros tr rows -> Hp _. cbn. rewrite Hk. split; [reflexivity|].
    repeat constructor. exact (honest_row_mono _ _ _ Hp Hh).
Qed.

Lemma account_rows_answer account :
  answers (account_rows account) (fun tr rows => row_key <$> rows = account_keys account /\ Forall (honest_row tr) rows).
Proof.
  unfold account_rows, account_keys. destruct (wa_chain account) eqn:Hc.
  - eapply answers_mono.
    + apply (answers_each _ _ (fun net tr row => row_key row =
        (wa_chain account, Some net, wa_address account, (if bool_decide (net = BscMainnet) then lit "BNB" else lit "ETH"), 18) /\
        honest_row tr row)).
      * intros net tr tr' row Hp (Hk & Hh). split; [exact Hk | exact (honest_row_mono _ _ _ Hp Hh)].
      * intros net Hnet. unfold EVM_BALANCE_NETWORKS in Hnet.
        repeat (apply elem_of_cons in Hnet as [->|Hnet]; [exact (balance_row_answers _ _ _)|]). inversion Hnet.
    + intros tr rows Hrows. unfold EVM_BALANCE_NETWORKS in Hrows.
      repeat (apply Forall2_cons_inv_l in Hrows as (? & ? & [? ?] & Hrows & ->)). apply Forall2_nil_inv_l in Hrows as ->.
      rewrite <- Hc. cbn [fmap list_fmap].
      split; [|repeat constructor; assumption]. repeat match goal with K : row_key _ = _ |- _ => rewrite K; clear K end. reflexivity.
  - rewrite <- Hc. apply single_row. rewrite Hc. intros cluster. eexists. split_and!; reflexivity.
  - rewrite <- Hc. apply single_row. rewrite Hc. intros cluster. eexists. split_and!; reflexivity.
  - rewrite <- Hc. apply single_row. rewrite Hc. intros cluster. eexists. split_and!; reflexivity.
Qed.

(** C15. Reading balances makes no effect, and once the wallet's own status is
    read it fails only when the wallet is not configured, with that message:
    whatever the nodes do, a configured wallet gets its rows.  There is one row
    for each Bitcoin, Solana or Tron account and three for an EVM account, in
    the order of the accounts, each for the chain's native coin with that coin's
    decimals; a row marked ready is the number the chain's node answered in this
    run, in decimal and formatted to the coin's decimals, and any other row is a
    zero marked missing. *)
Theorem balances_always_answer (h : host) past :
  let '(tr, r) := exec h past balances in
  past `prefix_of` tr /\ effects tr = effects past /\
  match h past Status with
  | inl e => r = Err e
  | inr s =>
      if configured s then
        exists rows, r = Ok rows /\ row_key <$> rows = accounts s ≫= account_keys /\ Forall (honest_row tr) rows
      else r = Err WALLET_NOT_CONFIGURED_MESSAGE
  end.
Proof.
  unfold balances, status. cbn [exec mbind io_bind io_then]. destruct (h past Status) as [e|s]; cbn [or_error io_then].
  { cbn. split_and!; [apply prefix_snoc | apply effects_quiet; reflexivity | reflexivity]. }
  destruct (configured s); cbn [negb].
  2: { cbn. split_and!; [apply prefix_snoc | apply effects_quiet; reflexivity | reflexivity]. }
  assert (Ha : answers (rows ← each account_rows (accounts s); mret (concat rows))
    (fun tr rows => row_key <$> rows = accounts s ≫= account_keys /\ Forall (honest_row tr) rows)).
  { eapply answers_bind.
    - apply (answers_each _ _ (fun a tr rows => row_key <$> rows = account_keys a /\ Forall (honest_row tr) rows)).
      + intros a tr tr' rows Hp (Hk & Hh). split; [exact Hk|]. revert Hh. apply Forall_impl.
        intros row. apply honest_row_mono, Hp.
      + intros a _. apply account_rows_answer.
    - intros rows tr0 Hrows. eapply answers_mono; [apply answers_ret|]. intros tr all -> Hp.
      revert Hrows. generalize (accounts s) as l. intros l. cbv beta. clear -Hp. intros Hl.
      induction Hl as [|a rows' l all [Hk Hh] _ [IHk IHh]]; [split; [reflexivity | constructor]|].
      cbn [concat]. rewrite fmap_app, Hk, IHk. split; [reflexivity|]. apply Forall_app. split; [|exact IHh].
      revert Hh. apply Forall_impl. intros row. apply honest_row_mono, Hp. }
  specialize (Ha (past ++ [Ev Status (inr s)])). apply (wp_exec _ h) in Ha. revert Ha.
  destruct (exec h _ _) as [tr r]. cbn [fst snd]. intros (Hp & He & rows & -> & Hr). split_and!.
  - etransitivity; [apply prefix_snoc | exact Hp].
  - rewrite He. apply effects_quiet. reflexivity.
  - eauto.
Qed.
End Balances.

(** A pending spend of confirmed coins leaves the Bitcoin balance as it was:
    the unconfirmed outgoing value is subtracted from the unconfirmed incoming
    value only, and saturates. *)
Lemma pending_spend_not_subtracted `{SerdeReads} address body info past k :
  btc_validate address = Ok k -> from_str body = inr info ->
  funded_txo_sum (mempool_stats info) <= spent_txo_sum (mempool_stats info) ->
  (exec ((fun _ q => match q with RestGet _ _ => inr body | q => demo_host [] q end) : host) past (btc_native_balance address)).2 =
    Ok (sat_sub (funded_txo_sum (chain_stats info)) (spent_txo_sum (chain_stats info))).
Proof.
  intros Ha Hb Hle. unfold btc_native_balance, rest_get_json, rest_get_text. rewrite Ha. cbn. rewrite Hb. cbn.
  unfold sat_sub at 2. rewrite Z.max_r by lia. rewrite Z.add_0_r. reflexivity.
Qed.

Definition toy_reads : SerdeReads := {|
  reads_serde := toy_serde;
  serde_balance := {| from_value _ := inl []; from_str _ := inl [] |};
  serde_address_info := {| from_value _ := inl []; from_str _ := inr (mkAddressInfo (mkStats 700 200) (mkStats 0 100)) |};
  serde_statuses := {| from_value _ := inl []; from_str _ := inl [] |}
|}.

(** One EVM account: three rows, each the node's answer. *)
Lemma balances_always_answer_witness :
  let run := exec demo_host [] (balances (H := base58_codecs) (H0 := toy_reads)) in
  match run.2 with
  | Ok rows => map (fun row => (bi_asset_symbol row, bi_raw row, bi_provider_status row)) rows
  | _ => []
  end = [(lit "ETH", lit "21000", ProviderReady); (lit "ETH", lit "21000", ProviderReady); (lit "BNB", lit "21000", ProviderReady)] /\
  exists rows, run.2 = Ok rows /\ row_key <$> rows = account_keys demo_account /\
    Forall (honest_row (H := base58_codecs) (H1 := toy_reads) run.1) rows.
Proof.
  cbv zeta. split; [vm_compute; reflexivity|].
  pose proof (balances_always_answer (H := base58_codecs) (H0 := base58_codec_laws) (H1 := toy_reads) demo_host []) as Hrun.
  destruct (exec demo_host [] _) as [tr r]. destruct Hrun as (_ & _ & rows & -> & Hk & Hh). exists rows. auto.
Defined.
