(* ===== verification/LedgerTypes.v ===== *)
(** The payment ledger's data ([crates/tinywallet-x402/src/ledger/types.rs],
    [persist.rs], [schema.rs], [schema/legacy_payment.rs] and
    [crates/tinywallet-bus/src/storage/payment.rs]).

    Records, budgets and verdicts, and the conversions between a record, its
    stored form and the legacy form.  [chrono] is the parameter [Chrono].
    Shown here: cutting to milliseconds is exactly what storage does to a
    record, so what is in memory is what a reopened ledger reads. *)

From stdpp Require Import base list strings numbers gmap.
From S2P Require Import Prelude Text.

(** * Time

    A [DateTime<Utc>] is an integer (its order is the order of instants); the
    [chrono] functions the ledger calls are parameters with documented laws. *)
Class Chrono := {
  timestamp_millis : Z -> Z;
  from_timestamp_millis : Z -> option Z;
  (** [(year(), month())] and [date_naive()] *)
  year_month : Z -> Z * Z;
  date_naive : Z -> Z;
  (** midnight of the date, and midnight of the first of its month *)
  start_of_day : Z -> Z;
  start_of_month : Z -> Z;
  (** [checked_add_signed(days(1))], [checked_add_months(1)], [MAX_UTC] *)
  add_day : Z -> option Z;
  add_month : Z -> option Z;
  max_utc : Z
}.

Definition end_of_day `{Chrono} (t : Z) : Z := default max_utc (add_day (start_of_day t)).
Definition end_of_month `{Chrono} (t : Z) : Z := default max_utc (add_month (start_of_month t)).

Class ChronoLaws `{Chrono} : Prop := {
  millis_mono a b : a <= b -> timestamp_millis a <= timestamp_millis b;
  (** a representable millisecond count is the instant that many milliseconds in *)
  millis_from m t : from_timestamp_millis m = Some t -> timestamp_millis t = m;
  from_millis_le t u : from_timestamp_millis (timestamp_millis t) = Some u -> u <= t;
  from_millis_total t : is_Some (from_timestamp_millis (timestamp_millis t));
  date_window t u : date_naive u = date_naive t <-> start_of_day t <= u < end_of_day t;
  month_window t u : year_month u = year_month t <-> start_of_month t <= u < end_of_month t;
  day_in_month t : start_of_month t <= start_of_day t /\ end_of_day t <= end_of_month t
}.

(** * Records *)

Inductive PaymentStatus := Pending | Settled | Failed | Denied.
#[export] Instance PaymentStatus_eq_dec : EqDecision PaymentStatus.
Proof. solve_decision. Defined.

Record PaymentRecord := mkRecord {
  p_id : str;
  p_url : str;
  p_asset : str;
  p_amount_atomic : Z;
  p_amount_display : str;
  p_recipient : str;
  p_network : str;
  p_tx_signature : option str;
  p_status : PaymentStatus;
  p_timestamp : Z;
  p_authorization_valid_until : option Z;
  p_solana_last_valid_block_height : option Z;
  p_authorization_expired_at : option Z;
  p_authorization_expiry_observed_height : option Z;
  p_session_id : str;
  p_thread_id : option str
}.
#[export] Instance PaymentRecord_eq_dec : EqDecision PaymentRecord.
Proof. solve_decision. Defined.

Definition cut `{Chrono} (at_ : Z) : Z := default at_ (from_timestamp_millis (timestamp_millis at_)).

Definition at_millisecond_precision `{Chrono} (r : PaymentRecord) : PaymentRecord :=
  mkRecord (p_id r) (p_url r) (p_asset r) (p_amount_atomic r) (p_amount_display r)
    (p_recipient r) (p_network r) (p_tx_signature r) (p_status r) (cut (p_timestamp r))
    (cut <$> p_authorization_valid_until r) (p_solana_last_valid_block_height r)
    (cut <$> p_authorization_expired_at r) (p_authorization_expiry_observed_height r)
    (p_session_id r) (p_thread_id r).

(** [format!("{}.{:06} USDC", a / 1_000_000, a % 1_000_000)]. *)
Definition format_usdc (amount_atomic : Z) : str :=
  show_dec (amount_atomic / 1000000) ++ lit "."
  ++ pad_left_zeros 6 (show_dec (amount_atomic mod 1000000)) ++ lit " USDC".

(** * Budgets *)

Record SpendingSummary := mkSummary {
  session_total_atomic : Z; daily_total_atomic : Z; monthly_total_atomic : Z;
  session_count : Z; daily_count : Z; monthly_count : Z
}.

Record SpendingBudget := mkBudget {
  per_request_max_atomic : Z; daily_max_atomic : Z; monthly_max_atomic : Z
}.
Definition SpendingBudget_default : SpendingBudget := mkBudget 1000000 10000000 100000000.

Inductive BudgetCheck :=
  | Allowed
  | ExceedsPerRequest (requested cap : Z)
  | ExceedsDailyBudget (current cap : Z)
  | ExceedsMonthlyBudget (current cap : Z).

Inductive BudgetRefusal :=
  | PerRequest (requested cap : Z)
  | Daily (current cap : Z)
  | Monthly (current cap : Z).

Definition refusal (c : BudgetCheck) : option BudgetRefusal :=
  match c with
  | Allowed => None
  | ExceedsPerRequest requested cap => Some (PerRequest requested cap)
  | ExceedsDailyBudget current cap => Some (Daily current cap)
  | ExceedsMonthlyBudget current cap => Some (Monthly current cap)
  end.

(** * Stored form *)

Inductive StoredPaymentStatus := SPending | SSettled | SFailed | SDenied.
#[export] Instance StoredPaymentStatus_eq_dec : EqDecision StoredPaymentStatus.
Proof. solve_decision. Defined.

Definition to_stored_status (s : PaymentStatus) : StoredPaymentStatus :=
  match s with Pending => SPending | Settled => SSettled | Failed => SFailed | Denied => SDenied end.
Definition from_stored_status (s : StoredPaymentStatus) : PaymentStatus :=
  match s with SPending => Pending | SSettled => Settled | SFailed => Failed | SDenied => Denied end.

Record StoredPayment := mkStored {
  s_id : str;
  s_url : str;
  s_asset : str;
  s_amount_atomic : Z;
  s_amount_display : str;
  s_recipient : str;
  s_network : str;
  s_tx_signature : option str;
  s_status : StoredPaymentStatus;
  s_timestamp_ms : Z;
  s_authorization_valid_until_ms : option Z;
  s_solana_last_valid_block_height : option Z;
  s_authorization_expired_at_ms : option Z;
  s_authorization_expiry_observed_height : option Z;
  s_session_id : str;
  s_thread_id : option str;
  s_committed_hold : option str
}.
#[export] Instance StoredPayment_eq_dec : EqDecision StoredPayment.
Proof. solve_decision. Defined.

Definition stored_payment `{Chrono} (r : PaymentRecord) (committed_hold : option str) : StoredPayment :=
  mkStored (p_id r) (p_url r) (p_asset r) (p_amount_atomic r) (p_amount_display r)
    (p_recipient r) (p_network r) (p_tx_signature r) (to_stored_status (p_status r))
    (timestamp_millis (p_timestamp r)) (timestamp_millis <$> p_authorization_valid_until r)
    (p_solana_last_valid_block_height r) (timestamp_millis <$> p_authorization_expired_at r)
    (p_authorization_expiry_observed_height r) (p_session_id r) (p_thread_id r) committed_hold.

Definition from_ms `{Chrono} (field : str) (ms : Z) : res str Z :=
  ok_or (from_timestamp_millis ms) (field ++ lit " " ++ show_signed ms ++ lit " is out of range").

(** [Option::map(f).transpose()]. *)
Definition transpose {E A B} (f : A -> res E B) (o : option A) : res E (option B) :=
  match o with None => Ok None | Some a => Some <$> f a end.

Definition into_record `{Chrono} (s : StoredPayment) : res str (PaymentRecord * option str) :=
  timestamp ← from_ms (lit "timestamp_ms") (s_timestamp_ms s);
  valid_until ← transpose (from_ms (lit "authorization_valid_until_ms")) (s_authorization_valid_until_ms s);
  expired_at ← transpose (from_ms (lit "authorization_expired_at_ms")) (s_authorization_expired_at_ms s);
  Ok (mkRecord (s_id s) (s_url s) (s_asset s) (s_amount_atomic s) (s_amount_display s)
        (s_recipient s) (s_network s) (s_tx_signature s) (from_stored_status (s_status s)) timestamp
        valid_until (s_solana_last_valid_block_height s) expired_at
        (s_authorization_expiry_observed_height s) (s_session_id s) (s_thread_id s),
      s_committed_hold s).

(** * Holds *)

Definition HOLD_TTL_MS : Z := 15 * 60 * 1000.

Record Hold := mkHold { h_amount : Z; h_expires_ms : Z }.
#[export] Instance Hold_eq_dec : EqDecision Hold.
Proof. solve_decision. Defined.

(** The hold document: a [BTreeMap] keyed by owner-qualified id. *)
Abbreviation HoldsDoc := (gmap str Hold).

(** * Facts *)

Section Times.
Context `{ChronoLaws}.

Lemma cut_spec t : timestamp_millis (cut t) = timestamp_millis t /\ cut t <= t
  /\ from_timestamp_millis (timestamp_millis t) = Some (cut t).
Proof.
  unfold cut. destruct (from_millis_total t) as [u Hu]. rewrite Hu. cbn.
  split_and!; [eapply millis_from | eapply from_millis_le |]; eauto.
Qed.

Lemma cut_idem t : cut (cut t) = cut t.
Proof.
  destruct (cut_spec t) as (H1 & _ & H2). unfold cut at 1. rewrite H1, H2. reflexivity.
Qed.

Lemma from_ms_cut f t : from_ms f (timestamp_millis t) = Ok (cut t).
Proof. unfold from_ms. destruct (cut_spec t) as (_ & _ & ->). reflexivity. Qed.

Lemma transpose_cut f o : transpose (from_ms f) (timestamp_millis <$> o) = Ok (cut <$> o).
Proof. destruct o as [t|]; cbn; [rewrite from_ms_cut|]; reflexivity. Qed.

Lemma status_stored s : from_stored_status (to_stored_status s) = s.
Proof. destruct s; reflexivity. Qed.

Lemma into_record_stored r k :
  into_record (stored_payment r k) = Ok (at_millisecond_precision r, k).
Proof.
  unfold into_record, stored_payment. cbn [s_timestamp_ms s_authorization_valid_until_ms
    s_authorization_expired_at_ms]. rewrite from_ms_cut, !transpose_cut.
  cbn. rewrite status_stored. reflexivity.
Qed.

Lemma at_millisecond_precision_idem r :
  at_millisecond_precision (at_millisecond_precision r) = at_millisecond_precision r.
Proof.
  unfold at_millisecond_precision. cbn. rewrite cut_idem. f_equal.
  - destruct (p_authorization_valid_until r); cbn; [rewrite cut_idem|]; reflexivity.
  - destruct (p_authorization_expired_at r); cbn; [rewrite cut_idem|]; reflexivity.
Qed.

Lemma stored_payment_cut r k :
  stored_payment (at_millisecond_precision r) k = stored_payment r k.
Proof.
  unfold stored_payment, at_millisecond_precision. cbn.
  destruct (cut_spec (p_timestamp r)) as (-> & _). f_equal.
  - destruct (p_authorization_valid_until r) as [t|]; cbn; [|reflexivity].
    destruct (cut_spec t) as (-> & _). reflexivity.
  - destruct (p_authorization_expired_at r) as [t|]; cbn; [|reflexivity].
    destruct (cut_spec t) as (-> & _). reflexivity.
Qed.
End Times.

(** * A concrete calendar

    Instants in microseconds, months of thirty days: enough to satisfy the laws,
    for the closed examples. *)
Definition toy_day : Z := 86400000000.
Definition toy_month : Z := 30 * toy_day.
#[export] Instance toy_chrono : Chrono := {
  timestamp_millis t := t / 1000;
  from_timestamp_millis m := Some (m * 1000);
  year_month t := (0, t / toy_month);
  date_naive t := t / toy_day;
  start_of_day t := t / toy_day * toy_day;
  start_of_month t := t / toy_month * toy_month;
  add_day t := Some (t + toy_day);
  add_month t := Some (t + toy_month);
  max_utc := 0
}.

Lemma toy_window d t u : 0 < d -> u / d = t / d <-> t / d * d <= u < t / d * d + d.
Proof.
  intros Hd. pose proof (Z.div_mod u d ltac:(lia)). pose proof (Z.mod_pos_bound u d Hd). split.
  - intros <-. nia.
  - intros Hu. symmetry. apply Z.div_unique with (r := u - t / d * d); lia.
Qed.

#[export] Instance toy_chrono_laws : ChronoLaws.
Proof.
  constructor; cbn -[toy_day toy_month]; intros.
  - apply Z.div_le_mono; lia.
  - injection H as <-. apply Z.div_mul. lia.
  - injection H as <-. pose proof (Z.mul_div_le t 1000). lia.
  - eauto.
  - apply toy_window. unfold toy_day. lia.
  - unfold end_of_month. cbn -[toy_month]. rewrite <- (toy_window toy_month t u) by (unfold toy_month, toy_day; lia).
    split; [intros [= E]; exact E | intros ->; reflexivity].
  - unfold end_of_day, end_of_month. cbn -[toy_month toy_day]. unfold toy_month, toy_day.
    Z.to_euclidean_division_equations; lia.
Qed.

(** * Properties *)

(** C24. Storage keeps exactly what the ledger keeps.  A record written to the
    payments stream, with the hold it commits, reads back as the same record
    cut to milliseconds and the same hold; cutting is idempotent, so the
    record a ledger holds in memory is the one a reopened ledger reads; and
    nothing but the sub-millisecond part of its three instants is lost. *)
Theorem stored_record_roundtrip `{ChronoLaws} r k :
  into_record (stored_payment r k) = Ok (at_millisecond_precision r, k) /\
  into_record (stored_payment (at_millisecond_precision r) k) = Ok (at_millisecond_precision r, k) /\
  at_millisecond_precision (at_millisecond_precision r) = at_millisecond_precision r /\
  stored_payment (at_millisecond_precision r) k = stored_payment r k.
Proof.
  split_and!; [apply into_record_stored | | apply at_millisecond_precision_idem | apply stored_payment_cut].
  rewrite stored_payment_cut. apply into_record_stored.
Qed.

Definition example_record (id : str) (amount : Z) (status : PaymentStatus) (at_ : Z) : PaymentRecord :=
  mkRecord id [] [] amount [] [] [] None status at_ None None None None [] None.

Lemma stored_record_roundtrip_witness :
  into_record (stored_payment (example_record [1] 5 Pending 1234567) (Some [7]))
  = Ok (example_record [1] 5 Pending 1234000, Some [7]).
Proof.
  destruct (stored_record_roundtrip (example_record [1] 5 Pending 1234567) (Some [7])) as (H & _).
  exact H.
Defined.
