(* ===== verification/Migration.v ===== *)
(** Moving the ledger's first storage schema into the current one
    ([crates/tinywallet-x402/src/ledger/schema.rs] and
    [schema/legacy_payment.rs], and the module's handler
    [crates/tinywallet-module/src/service/migration.rs]).

    A legacy payment carries RFC 3339 instants, read by integer arithmetic; the
    rest of a record's decoding is serde's (the class [LegacySerde]).  Shown: the
    reader accepts exactly the texts of the format and gives the instant of the
    calendar; the payments stream keeps every readable entry, in order, and
    nothing else; the hold document keeps every hold or is refused; and the
    handler answers exactly its two operations. *)

From stdpp Require Import base list strings numbers.
From S2P Require Import Prelude Text Json LedgerTypes.

(** * RFC 3339 instants *)

(** [bytes.get(from..from + len)]. *)
Definition slice (text : str) (from len : nat) : option str :=
  if (from + len <=? length text)%nat then Some (take len (drop from text)) else None.

Definition digits_number (part : str) : Z := foldl (fun n d => n * 10 + (d - 48)) 0 part.

(** The closure [digits]. *)
Definition digits (text : str) (from len : nat) : option Z :=
  part ← slice text from len;
  if negb (forallb is_ascii_digit part) then None else Some (digits_number part).

(** The closure [separator]. *)
Definition separator (text : str) (at_ : nat) (want : str) : bool :=
  match text !! at_ with Some b => bool_decide (b ∈ want) | None => false end.

Definition leap_year (year : Z) : bool :=
  (year mod 4 =? 0) && (negb (year mod 100 =? 0) || (year mod 400 =? 0)).

Definition days_in_month (year month : Z) : option Z :=
  if month =? 2 then Some (if leap_year year then 29 else 28)
  else if (month =? 4) || (month =? 6) || (month =? 9) || (month =? 11) then Some 30
  else if (1 <=? month) && (month <=? 12) then Some 31
  else None.

(** [while bytes.get(end).is_some_and(u8::is_ascii_digit)]: the digits from here. *)
Fixpoint digit_run (text : str) : nat :=
  match text with
  | b :: rest => if is_ascii_digit b then S (digit_run rest) else O
  | [] => O
  end.

(** The first three digits, as milliseconds. *)
Definition fraction_millis (part : str) : Z := foldl Z.add 0 (zip_with (fun d place => (d - 48) * place) part [100; 10; 1]).

(** The optional fraction: where it ends, and its milliseconds. *)
Definition fraction (text : str) (at_ : nat) : option (nat * Z) :=
  if bool_decide (text !! at_ = Some 46) then
    let start := S at_ in
    let end_ := (start + digit_run (drop start text))%nat in
    if (end_ =? start)%nat then None
    else Some (end_, fraction_millis (take (end_ - start) (drop start text)))
  else Some (at_, 0).

Definition offset_minutes (text : str) (at_ : nat) : option Z :=
  b ← text !! at_;
  if ((b =? 90) || (b =? 122)) && (at_ + 1 =? length text)%nat then Some 0
  else if ((b =? 43) || (b =? 45)) && (at_ + 6 =? length text)%nat && separator text (at_ + 3) [58] then
    hours ← digits text (at_ + 1) 2;
    minute_part ← digits text (at_ + 4) 2;
    if (23 <? hours) || (59 <? minute_part) then None
    else let minutes := hours * 60 + minute_part in Some (if b =? 45 then - minutes else minutes)
  else None.

(** Days from civil, proleptic Gregorian. *)
Definition days_from_civil (year month day : Z) : Z :=
  let y := if month <=? 2 then year - 1 else year in
  let era := y / 400 in
  let year_of_era := y - era * 400 in
  let day_of_year := (153 * ((month + 9) mod 12) + 2) / 5 + day - 1 in
  let day_of_era := year_of_era * 365 + year_of_era / 4 - year_of_era / 100 + day_of_year in
  era * 146097 + day_of_era - 719468.

Definition parse_rfc3339_ms (text : str) : option Z :=
  if negb (separator text 4 [45] && separator text 7 [45] && separator text 10 [84; 116; 32]
           && separator text 13 [58] && separator text 16 [58]) then None
  else
    year ← digits text 0 4;
    month ← digits text 5 2;
    day ← digits text 8 2;
    hour ← digits text 11 2;
    minute ← digits text 14 2;
    second ← digits text 17 2;
    last ← days_in_month year month;
    if negb ((1 <=? day) && (day <=? last)) || (23 <? hour) || (59 <? minute) || (60 <? second) then None
    else
      '(at_, millis) ← fraction text 19;
      offset ← offset_minutes text at_;
      let days := days_from_civil year month day in
      let seconds := days * 86400 + hour * 3600 + minute * 60 + second - offset * 60 in
      Some (seconds * 1000 + millis).

Example rfc3339_epoch : parse_rfc3339_ms (lit "1970-01-01T00:00:00Z") = Some 0.
Proof. vm_compute. reflexivity. Qed.
Example rfc3339_offset : parse_rfc3339_ms (lit "2026-03-15T12:00:00.2504+01:30") = Some 1773570600250.
Proof. vm_compute. reflexivity. Qed.

(** * The calendar *)

Record Date := mkDate { d_year : Z; d_month : Z; d_day : Z }.

Definition last_day (y m : Z) : Z := default 0 (days_in_month y m).
Definition real_date (d : Date) : Prop := 1 <= d_month d <= 12 /\ 1 <= d_day d <= last_day (d_year d) (d_month d).

(** The day after, as a calendar counts. *)
Definition next_day (d : Date) : Date :=
  let '(mkDate y m n) := d in
  if n <? last_day y m then mkDate y m (n + 1)
  else if m <? 12 then mkDate y (m + 1) 1
  else mkDate (y + 1) 1 1.

Definition days_of (d : Date) : Z := days_from_civil (d_year d) (d_month d) (d_day d).
Definition EPOCH : Date := mkDate 1970 1 1.

(** Days to the first of March of a year. *)
Definition to_march (y : Z) : Z := 365 * y + y / 4 - y / 100 + y / 400.

Lemma era_split y c k : 0 < c -> c * k = 400 -> y / c = k * (y / 400) + (y - y / 400 * 400) / c.
Proof.
  intros Hc Hk. assert (He : k * (y / 400) * c = y / 400 * 400) by (rewrite <- Hk; ring).
  rewrite <- He. replace y with (y - k * (y / 400) * c + k * (y / 400) * c) at 1 by lia. rewrite Z.div_add by lia. lia.
Qed.

Lemma civil_march y month day :
  days_from_civil y month day =
  to_march (if month <=? 2 then y - 1 else y) + (153 * ((month + 9) mod 12) + 2) / 5 + day - 719469.
Proof.
  unfold days_from_civil, to_march. set (y' := if month <=? 2 then y - 1 else y).
  rewrite (era_split y' 4 100), (era_split y' 100 4) by lia. lia.
Qed.

Lemma march_year y : to_march y - to_march (y - 1) = if leap_year y then 366 else 365.
Proof.
  unfold to_march, leap_year.
  destruct (Z.eqb_spec (y mod 4) 0), (Z.eqb_spec (y mod 100) 0), (Z.eqb_spec (y mod 400) 0); cbn;
    Z.to_euclidean_division_equations; lia.
Qed.

Lemma month_cases m : 1 <= m <= 12 -> m ∈ [1; 2; 3; 4; 5; 6; 7; 8; 9; 10; 11; 12].
Proof. intros Hm. rewrite !elem_of_cons. lia. Qed.

Lemma next_day_counts d : real_date d -> days_of (next_day d) = days_of d + 1.
Proof.
  destruct d as [y m n]. intros [Hm%month_cases Hn]. unfold next_day, days_of. cbn [d_year d_month d_day] in *.
  destruct (Z.ltb_spec n (last_day y m)) as [Hlt|Hge]; [cbn [d_year d_month d_day]; rewrite !civil_march; lia|].
  assert (n = last_day y m) as -> by lia. clear Hn Hge. unfold last_day.
  assert (Hfeb := march_year y).
  repeat (apply elem_of_cons in Hm as [->|Hm]); [..|inversion Hm]; cbn [Z.ltb Z.compare Pos.compare Pos.compare_cont d_year d_month d_day];
    rewrite !civil_march; cbn -[to_march leap_year Z.add Z.sub];
    try (replace (y + 1 - 1) with y by lia); destruct (leap_year y); cbn -[to_march Z.add Z.sub] in *;
    repeat match goal with |- context [?a <=? ?b] => destruct (Z.leb_spec a b); try lia end;
    Z.to_euclidean_division_equations; lia.
Qed.

Lemma next_day_real d : real_date d -> real_date (next_day d).
Proof.
  destruct d as [y m n]. intros [Hm Hn]. unfold next_day. cbn [d_year d_month d_day] in *.
  destruct (Z.ltb_spec n (last_day y m)); [split; cbn; lia|].
  assert (Hlast : forall y m, 1 <= m <= 12 -> 1 <= last_day y m).
  { intros y' m' Hm'%month_cases. unfold last_day.
    repeat (apply elem_of_cons in Hm' as [->|Hm']); [..|inversion Hm']; cbn; destruct (leap_year y'); cbn; lia. }
  destruct (Z.ltb_spec m 12); split; cbn [d_year d_month d_day]; try lia; split; try lia; apply Hlast; lia.
Qed.

Lemma iter_real n d : real_date d -> real_date (Nat.iter n next_day d).
Proof. intros Hd. induction n as [|n IH]; [exact Hd|]. rewrite Nat.iter_succ. apply next_day_real, IH. Qed.

(** Counting day by day. *)
Lemma days_counted n d : real_date d -> days_of (Nat.iter n next_day d) = days_of d + Z.of_nat n.
Proof.
  intros Hd. induction n as [|n IH]; [cbn; lia|]. rewrite Nat.iter_succ, next_day_counts by (apply iter_real, Hd). lia.
Qed.

(** * The format *)

Inductive Zone := Zulu (letter : Z) | Shift (sign hours minutes : Z).

(** What an instant's text says; no fraction is the empty one. *)
Record Stamp := mkStamp {
  st_date : Date;
  st_separator : Z;
  st_hour : Z;
  st_minute : Z;
  st_second : Z;
  st_fraction : str;
  st_zone : Zone
}.

Definition two (n : Z) : str := [48 + n / 10; 48 + n mod 10].
Definition four (n : Z) : str := [48 + n / 1000; 48 + n / 100 mod 10; 48 + n / 10 mod 10; 48 + n mod 10].

Definition head_text (y m d sep h mi s : Z) : str :=
  four y ++ [45] ++ two m ++ [45] ++ two d ++ [sep] ++ two h ++ [58] ++ two mi ++ [58] ++ two s.
Definition fraction_text (ds : str) : str := match ds with [] => [] | _ => 46 :: ds end.
Definition zone_text (z : Zone) : str :=
  match z with Zulu c => [c] | Shift sign hours minutes => [sign] ++ two hours ++ [58] ++ two minutes end.

Definition text_of (s : Stamp) : str :=
  let '(mkDate y m d) := st_date s in
  head_text y m d (st_separator s) (st_hour s) (st_minute s) (st_second s) ++ fraction_text (st_fraction s) ++ zone_text (st_zone s).

Definition zone_ok (z : Zone) : Prop :=
  match z with
  | Zulu c => c = 90 \/ c = 122
  | Shift sign hours minutes => (sign = 43 \/ sign = 45) /\ 0 <= hours <= 23 /\ 0 <= minutes <= 59
  end.
Definition zone_minutes (z : Zone) : Z :=
  match z with Zulu _ => 0 | Shift sign hours minutes => (if sign =? 45 then -1 else 1) * (hours * 60 + minutes) end.

Definition stamp_ok (s : Stamp) : Prop :=
  real_date (st_date s) /\ 0 <= d_year (st_date s) <= 9999 /\ st_separator s ∈ [84; 116; 32] /\
  0 <= st_hour s <= 23 /\ 0 <= st_minute s <= 59 /\ 0 <= st_second s <= 60 /\
  forallb is_ascii_digit (st_fraction s) = true /\ zone_ok (st_zone s).

(** The instant: the day, the time of day and the fraction cut to milliseconds,
    less the zone's offset. *)
Definition instant_ms (s : Stamp) : Z :=
  days_of (st_date s) * 86400000 + (st_hour s * 3600 + st_minute s * 60 + st_second s) * 1000
  - zone_minutes (st_zone s) * 60000 + fraction_millis (st_fraction s).

Lemma separator_spec text at_ want : separator text at_ want = true <-> exists b, text !! at_ = Some b /\ b ∈ want.
Proof.
  unfold separator. destruct (text !! at_) as [b|]; [rewrite bool_decide_eq_true|]; split.
  - eauto. - intros (b' & [= ->] & Hb). exact Hb. - discriminate. - intros (b & [=] & _).
Qed.

Lemma digit_bounds b : is_ascii_digit b = true <-> 48 <= b <= 57.
Proof. unfold is_ascii_digit. rewrite andb_true_iff, !Z.leb_le. tauto. Qed.

Lemma digits_two text from n : digits text from 2 = Some n <-> 0 <= n <= 99 /\ slice text from 2 = Some (two n).
Proof.
  unfold digits. destruct (slice text from 2) as [part|] eqn:Hs; cbn [mbind option_bind]; [|split; [discriminate | intros [_ [=]]]].
  assert (Hl : length part = 2%nat).
  { unfold slice in Hs. destruct (Nat.leb_spec (from + 2) (length text)); [|discriminate]. injection Hs as <-.
    rewrite length_take, length_drop. lia. }
  destruct part as [|a [|b [|]]]; try discriminate. cbn [forallb]. rewrite andb_true_r.
  destruct (is_ascii_digit a && is_ascii_digit b) eqn:Hd; cbn.
  - apply andb_true_iff in Hd as [Ha%digit_bounds Hb%digit_bounds]. unfold digits_number, two. cbn. split.
    + intros [= <-]. split; [lia|]. do 2 f_equal; [|f_equal]; Z.to_euclidean_division_equations; lia.
    + intros [Hn [= -> ->]]. f_equal. Z.to_euclidean_division_equations; lia.
  - split; [discriminate|]. intros [Hn [= -> ->]]. apply andb_false_iff in Hd. rewrite <- !not_true_iff_false, !digit_bounds in Hd.
    Z.to_euclidean_division_equations; lia.
Qed.

Lemma digits_four text from n : digits text from 4 = Some n <-> 0 <= n <= 9999 /\ slice text from 4 = Some (four n).
Proof.
  unfold digits. destruct (slice text from 4) as [part|] eqn:Hs; cbn [mbind option_bind]; [|split; [discriminate | intros [_ [=]]]].
  assert (Hl : length part = 4%nat).
  { unfold slice in Hs. destruct (Nat.leb_spec (from + 4) (length text)); [|discriminate]. injection Hs as <-.
    rewrite length_take, length_drop. lia. }
  destruct part as [|a [|b [|c [|e [|]]]]]; try discriminate. cbn [forallb]. rewrite andb_true_r.
  destruct (is_ascii_digit a && (is_ascii_digit b && (is_ascii_digit c && is_ascii_digit e))) eqn:Hd; cbn.
  - rewrite !andb_true_iff, !digit_bounds in Hd. unfold digits_number, four. cbn. split.
    + intros [= <-]. split; [lia|]. do 2 f_equal; [|f_equal; [|f_equal; [|f_equal]]]; Z.to_euclidean_division_equations; lia.
    + intros [Hn [= -> -> -> ->]]. f_equal. Z.to_euclidean_division_equations; lia.
  - split; [discriminate|]. intros [Hn [= -> -> -> ->]]. rewrite !andb_false_iff, <- !not_true_iff_false, !digit_bounds in Hd.
    Z.to_euclidean_division_equations; lia.
Qed.

(** ** The tail, after any head *)

Lemma slice_app a b n len : slice (a ++ b) (length a + n) len = slice b n len.
Proof.
  unfold slice. rewrite length_app, drop_app_add. replace (length a + n + len <=? length a + length b)%nat with (n + len <=? length b)%nat;
    [reflexivity|]. destruct (Nat.leb_spec (n + len) (length b)), (Nat.leb_spec (length a + n + len) (length a + length b)); lia || reflexivity.
Qed.

Lemma lookup_after (a b : str) n : (a ++ b) !! (length a + n)%nat = b !! n.
Proof. rewrite lookup_app_r by lia. f_equal. lia. Qed.

Lemma offset_app a b n : offset_minutes (a ++ b) (length a + n) = offset_minutes b n.
Proof.
  unfold offset_minutes, separator, digits. rewrite lookup_after. destruct (b !! n) as [c|]; cbn [mbind option_bind]; [|reflexivity].
  rewrite <- !Nat.add_assoc, lookup_after, !slice_app, length_app.
  assert (Hl : forall k, (length a + k =? length a + length b)%nat = (k =? length b)%nat).
  { intros k. destruct (Nat.eqb_spec (length a + k) (length a + length b)), (Nat.eqb_spec k (length b)); lia || reflexivity. }
  rewrite !Hl. reflexivity.
Qed.

Lemma digit_run_all l : forallb is_ascii_digit (take (digit_run l) l) = true.
Proof. induction l as [|b l IH]; [reflexivity|]. cbn. destruct (is_ascii_digit b) eqn:Hb; cbn; [rewrite Hb; exact IH | reflexivity]. Qed.

Lemma digit_run_app ds l : forallb is_ascii_digit ds = true -> digit_run l = O -> digit_run (ds ++ l) = length ds.
Proof. induction ds as [|b ds IH]; cbn; [auto|]. intros [-> Hd]%andb_true_iff Hl. rewrite IH by assumption. reflexivity. Qed.

Lemma fraction_app a b : fraction (a ++ b) (length a) = (fun '(n, millis) => (length a + n, millis)%nat) <$> fraction b 0.
Proof.
  unfold fraction. assert (H0 : (a ++ b) !! length a = b !! 0%nat) by (rewrite <- (lookup_after a b 0), Nat.add_0_r; reflexivity).
  rewrite H0. case_bool_decide; [|cbn; rewrite Nat.add_0_r; reflexivity].
  replace (S (length a)) with (length a + 1)%nat by lia. rewrite drop_app_add.
  set (r := digit_run (drop 1 b)). replace (length a + 1 + r =? length a + 1)%nat with (1 + r =? 1)%nat;
    [|destruct (Nat.eqb_spec (1 + r) 1), (Nat.eqb_spec (length a + 1 + r) (length a + 1)); lia || reflexivity].
  destruct (Nat.eqb_spec (1 + r) 1) as [|Hr]; [reflexivity|]. cbn [fmap option_fmap option_map].
  replace (length a + 1 + r - (length a + 1))%nat with (1 + r - 1)%nat by lia. do 2 f_equal. lia.
Qed.

(** A zone, and nothing after it. *)
Lemma offset_spec tail off : offset_minutes tail 0 = Some off <-> exists z, zone_ok z /\ tail = zone_text z /\ off = zone_minutes z.
Proof.
  split.
  - unfold offset_minutes. destruct tail as [|b tail]; [discriminate|]. cbn [lookup list_lookup mbind option_bind].
    destruct (((b =? 90) || (b =? 122)) && (0 + 1 =? length (b :: tail))%nat) eqn:Hz.
    + apply andb_true_iff in Hz as [Hb Hl%Nat.eqb_eq]. destruct tail; [|discriminate]. intros [= <-].
      exists (Zulu b). apply orb_true_iff in Hb. rewrite !Z.eqb_eq in Hb. split_and!; auto.
    + clear Hz. destruct (((b =? 43) || (b =? 45)) && (0 + 6 =? length (b :: tail))%nat && separator (b :: tail) (0 + 3) [58]) eqn:Hs; [|discriminate].
      apply andb_true_iff in Hs as [[Hb Hl%Nat.eqb_eq]%andb_true_iff Hsep]. apply orb_true_iff in Hb. rewrite !Z.eqb_eq in Hb.
      do 5 (destruct tail as [|? tail]; [discriminate|]). destruct tail; [|discriminate].
      apply separator_spec in Hsep as (c & [= <-] & Hc). apply list_elem_of_singleton in Hc as ->.
      destruct (digits _ (0 + 1) 2) as [hours|] eqn:Hh; [|discriminate]. destruct (digits _ (0 + 4) 2) as [minutes|] eqn:Hm; [|discriminate].
      cbn [mbind option_bind]. apply digits_two in Hh as [Hh [= -> ->]], Hm as [Hm [= -> ->]].
      destruct (Z.ltb_spec 23 hours), (Z.ltb_spec 59 minutes); try discriminate. intros [= <-].
      exists (Shift b hours minutes). split_and!; [cbn; lia | reflexivity | cbn; destruct (b =? 45); lia].
  - intros (z & Hz & -> & ->). destruct z as [c|sign hours minutes]; cbn in Hz.
    + destruct Hz as [-> | ->]; reflexivity.
    + destruct Hz as (Hs & Hh & Hm).
      assert (Hdh : digits (zone_text (Shift sign hours minutes)) (0 + 1) 2 = Some hours) by (apply digits_two; split; [lia | reflexivity]).
      assert (Hdm : digits (zone_text (Shift sign hours minutes)) (0 + 4) 2 = Some minutes) by (apply digits_two; split; [lia | reflexivity]).
      unfold offset_minutes. rewrite Hdh, Hdm. cbn -[Z.ltb Z.mul].
      destruct Hs as [-> | ->]; cbn -[Z.ltb Z.mul]; destruct (Z.ltb_spec 23 hours), (Z.ltb_spec 59 minutes); try lia;
        cbn -[Z.mul]; f_equal; lia.
Qed.

Lemma fraction_sound rest n millis : fraction rest 0 = Some (n, millis) ->
  exists ds tail, forallb is_ascii_digit ds = true /\ rest = fraction_text ds ++ tail /\ n = length (fraction_text ds) /\
    millis = fraction_millis ds.
Proof.
  unfold fraction. case_bool_decide as Hdot.
  - destruct rest as [|b rest]; [discriminate|]. injection Hdot as ->. cbn [drop]. rewrite drop_0.
    destruct (Nat.eqb_spec (1 + digit_run rest) 1) as [|Hr]; [discriminate|]. intros [= <- <-]. rewrite Nat.sub_0_r.
    set (ds := take (digit_run rest) rest). assert (Hl : length ds = digit_run rest).
    { unfold ds. rewrite length_take. apply Nat.min_l. clear. induction rest as [|b rest IH]; [cbn; lia|]. cbn.
      destruct (is_ascii_digit b); lia. }
    exists ds, (drop (digit_run rest) rest). assert (Hd : fraction_text ds = 46 :: ds) by (destruct ds; [cbn in Hl; lia | reflexivity]).
    rewrite Hd. split_and!; [apply digit_run_all | cbn; unfold ds; rewrite take_drop; reflexivity | cbn; lia | reflexivity].
  - intros [= <- <-]. exists [], rest. auto.
Qed.

Lemma fraction_complete ds tail : forallb is_ascii_digit ds = true -> digit_run tail = O -> tail !! 0%nat <> Some 46 ->
  fraction (fraction_text ds ++ tail) 0 = Some (length (fraction_text ds), fraction_millis ds).
Proof.
  intros Hd Ht Hdot. unfold fraction. destruct ds as [|x ds].
  - cbn [fraction_text app]. rewrite bool_decide_false by exact Hdot. reflexivity.
  - cbn [fraction_text]. rewrite bool_decide_true by reflexivity. change (drop 1 ((46 :: x :: ds) ++ tail)) with ((x :: ds) ++ tail).
    rewrite digit_run_app by assumption. cbn [length Nat.add Nat.eqb Nat.sub].
    change (S (length ds)) with (length (x :: ds)). rewrite take_app_length. reflexivity.
Qed.

Lemma head_length y m d sep h mi s : length (head_text y m d sep h mi s) = 19%nat.
Proof. reflexivity. Qed.

(** The head's fields, read by position. *)
Lemma head_read t y m d sep h mi s :
  t !! 4%nat = Some 45 -> t !! 7%nat = Some 45 -> t !! 10%nat = Some sep -> t !! 13%nat = Some 58 -> t !! 16%nat = Some 58 ->
  slice t 0 4 = Some (four y) -> slice t 5 2 = Some (two m) -> slice t 8 2 = Some (two d) -> slice t 11 2 = Some (two h) ->
  slice t 14 2 = Some (two mi) -> slice t 17 2 = Some (two s) ->
  t = head_text y m d sep h mi s ++ drop 19 t.
Proof.
  do 19 (destruct t as [|? t]; [intros; discriminate|]). unfold slice, head_text, four, two. cbn -[Z.add Z.div Z.modulo].
  intros [= ->] [= ->] [= ->] [= ->] [= ->] [= -> -> -> ->] [= -> ->] [= -> ->] [= -> ->] [= -> ->] [= -> ->]. reflexivity.
Qed.

Lemma single_separator text at_ c : separator text at_ [c] = true <-> text !! at_ = Some c.
Proof.
  rewrite separator_spec. split; [intros (b & Hb & ->%list_elem_of_singleton); exact Hb | intros Hb; exists c; split; [exact Hb | left]].
Qed.

Lemma last_day_month y m l : days_in_month y m = Some l <-> 1 <= m <= 12 /\ l = last_day y m.
Proof.
  unfold last_day. split.
  - intros Hl. rewrite Hl. split; [|reflexivity]. unfold days_in_month in Hl.
    destruct (Z.eqb_spec m 2), (Z.eqb_spec m 4), (Z.eqb_spec m 6), (Z.eqb_spec m 9), (Z.eqb_spec m 11), (Z.leb_spec 1 m), (Z.leb_spec m 12);
      cbn in Hl; try discriminate; lia.
  - intros [Hm ->]. unfold days_in_month.
    destruct (Z.eqb_spec m 2), (Z.eqb_spec m 4), (Z.eqb_spec m 6), (Z.eqb_spec m 9), (Z.eqb_spec m 11), (Z.leb_spec 1 m), (Z.leb_spec m 12);
      cbn; reflexivity || lia.
Qed.

Lemma last_day_most y m : last_day y m <= 31.
Proof. unfold last_day, days_in_month. repeat (case_match; cbn; try lia). Qed.

Lemma zone_starts z : zone_ok z -> digit_run (zone_text z) = O /\ zone_text z !! 0%nat <> Some 46.
Proof. destruct z as [c|c hours minutes]; cbn; [intros [-> | ->] | intros ([-> | ->] & _)]; split; reflexivity || discriminate. Qed.

Lemma parse_sound t ms : parse_rfc3339_ms t = Some ms -> exists s, stamp_ok s /\ t = text_of s /\ ms = instant_ms s.
Proof.
  unfold parse_rfc3339_ms. destruct (_ && _) eqn:Hsep; [cbn [negb]|discriminate].
  rewrite !andb_true_iff, !single_separator, separator_spec in Hsep. destruct Hsep as ((((H4 & H7) & (sep & H10 & Hin)) & H13) & H16).
  intros (y & (Hy & Hy')%digits_four & (m & (Hm & Hm')%digits_two & (d & (Hd & Hd')%digits_two & (h & (Hh & Hh')%digits_two &
    (mi & (Hmi & Hmi')%digits_two & (sc & (Hs & Hs')%digits_two & (l & (Hl & ->)%last_day_month & Hrest)%bind_Some)%bind_Some)%bind_Some)%bind_Some)%bind_Some)%bind_Some)%bind_Some.
  pose proof (head_read t _ _ _ _ _ _ _ H4 H7 H10 H13 H16 Hy' Hm' Hd' Hh' Hmi' Hs') as Ht.
  destruct (negb _ || _ || _ || _) eqn:Hok; [discriminate|]. rewrite !orb_false_iff, negb_false_iff, andb_true_iff, !Z.leb_le, !Z.ltb_ge in Hok.
  apply bind_Some in Hrest as ([n millis] & Hf & Hrest). apply bind_Some in Hrest as (off & Ho & [= <-]).
  rewrite Ht in Hf, Ho. change 19%nat with (length (head_text y m d sep h mi sc)) in Hf at 2.
  rewrite fraction_app in Hf. apply fmap_Some in Hf as ([n' millis'] & Hf & [= -> ->]).
  assert (Ho' : offset_minutes (head_text y m d sep h mi sc ++ drop 19 t) (length (head_text y m d sep h mi sc) + n') = Some off) by exact Ho.
  rewrite offset_app in Ho'. destruct (fraction_sound _ _ _ Hf) as (ds & tail & Hds & Htail & -> & ->).
  rewrite Htail, <- (Nat.add_0_r (length _)), offset_app in Ho'. apply offset_spec in Ho' as (z & Hz & -> & ->).
  exists (mkStamp (mkDate y m d) sep h mi sc ds z). split_and!.
  - unfold stamp_ok, real_date. cbn [st_date st_separator st_hour st_minute st_second st_fraction st_zone d_year d_month d_day].
    split_and!; assumption || lia.
  - rewrite Ht, Htail. reflexivity.
  - unfold instant_ms, days_of. cbn [st_date st_separator st_hour st_minute st_second st_fraction st_zone d_year d_month d_day]. lia.
Qed.

Lemma parse_complete s : stamp_ok s -> parse_rfc3339_ms (text_of s) = Some (instant_ms s).
Proof.
  destruct s as [[y m d] sep h mi sc ds z]. intros ([Hm Hd] & Hy & Hin & Hh & Hmi & Hs & Hds & Hz).
  cbn [st_date st_separator st_hour st_minute st_second st_fraction st_zone d_year d_month d_day] in *.
  destruct (zone_starts z Hz) as [Hz0 Hz46]. set (t := text_of _).
  assert (Hy' : digits t 0 4 = Some y) by (apply digits_four; split; [exact Hy | reflexivity]).
  assert (Htwo : forall from n, 0 <= n <= 99 -> slice t from 2 = Some (two n) -> digits t from 2 = Some n) by (intros; apply digits_two; auto).
  unfold parse_rfc3339_ms.
  assert (Hsep : separator t 4 [45] && separator t 7 [45] && separator t 10 [84; 116; 32] && separator t 13 [58] && separator t 16 [58] = true).
  { rewrite !andb_true_iff, !single_separator, separator_spec. split_and!; try reflexivity. exists sep. split; [reflexivity | exact Hin]. }
  pose proof (last_day_most y m) as H31.
  rewrite Hsep, Hy', (Htwo 5%nat m), (Htwo 8%nat d), (Htwo 11%nat h), (Htwo 14%nat mi), (Htwo 17%nat sc) by (lia || reflexivity).
  cbn [negb mbind option_bind]. rewrite (proj2 (last_day_month y m _)) by (split; [lia | reflexivity]). cbn [mbind option_bind].
  assert (Hok : negb ((1 <=? d) && (d <=? last_day y m)) || (23 <? h) || (59 <? mi) || (60 <? sc) = false).
  { rewrite !orb_false_iff, negb_false_iff, andb_true_iff, !Z.leb_le, !Z.ltb_ge. lia. }
  rewrite Hok. unfold t, text_of. cbn [st_date st_separator st_hour st_minute st_second st_fraction st_zone].
  rewrite <- (head_length y m d sep h mi sc), fraction_app, fraction_complete by assumption. cbn [fmap option_fmap option_map mbind option_bind].
  rewrite offset_app, <- (Nat.add_0_r (length (fraction_text ds))), offset_app, (proj2 (offset_spec (zone_text z) _)) by eauto.
  cbn [mbind option_bind]. f_equal. unfold instant_ms, days_of.
  cbn [st_date st_separator st_hour st_minute st_second st_fraction st_zone d_year d_month d_day]. lia.
Qed.

Lemma days_bounds d : real_date d -> 0 <= d_year d <= 9999 -> -719528 <= days_of d <= 2932896.
Proof.
  destruct d as [y m n]. unfold real_date, days_of. cbn [d_year d_month d_day]. intros [Hm Hn] Hy.
  pose proof (last_day_most y m). rewrite civil_march. unfold to_march.
  assert (Hdoy : 0 <= (153 * ((m + 9) mod 12) + 2) / 5 <= 337 /\ (m <= 2 -> 306 <= (153 * ((m + 9) mod 12) + 2) / 5) /\
    (2 < m -> (153 * ((m + 9) mod 12) + 2) / 5 <= 275)) by (Z.to_euclidean_division_equations; lia).
  destruct (Z.leb_spec m 2); Z.to_euclidean_division_equations; lia.
Qed.

(** The legacy reader accepts exactly the RFC 3339 instants whose date is on
    the calendar, and gives their milliseconds: the day counted from 1970 one
    calendar day at a time, the time of day, the zone's offset taken off, the
    fraction cut to three digits.  Nothing it computes leaves 64 bits. *)
Theorem legacy_instant_exact :
  (forall text ms, parse_rfc3339_ms text = Some ms <-> exists s, stamp_ok s /\ text = text_of s /\ ms = instant_ms s) /\
  (forall n d, real_date d -> days_of EPOCH = 0 /\ days_of (Nat.iter n next_day d) = days_of d + Z.of_nat n) /\
  (forall s, stamp_ok s -> -62167305540000 <= instant_ms s <= 253402387141999).
Proof.
  split_and!.
  - intros text ms. split; [apply parse_sound | intros (s & Hs & -> & ->); apply parse_complete, Hs].
  - intros n d Hd. split; [reflexivity | apply days_counted, Hd].
  - intros s (Hd & Hy & _ & Hh & Hm & Hs & Hf & Hz). pose proof (days_bounds _ Hd Hy). unfold instant_ms.
    assert (0 <= fraction_millis (st_fraction s) <= 999).
    { revert Hf. generalize (st_fraction s). intros ds. destruct ds as [|a [|b [|c ds]]]; cbn [forallb]; intros Hf;
        rewrite ?andb_true_iff, ?digit_bounds in Hf; unfold fraction_millis; cbn -[Z.mul Z.sub]; try destruct ds; cbn -[Z.mul Z.sub]; lia. }
    assert (-1439 <= zone_minutes (st_zone s) <= 1439) by (destruct (st_zone s) as [c|c hh mm]; cbn in *; [lia|]; destruct (c =? 45); lia).
    lia.
Qed.

Lemma legacy_instant_exact_witness :
  parse_rfc3339_ms (lit "2024-02-29T23:59:60.1239+01:00") = Some (instant_ms
    (mkStamp (mkDate 2024 2 29) 84 23 59 60 (lit "1239") (Shift 43 1 0))) /\
  days_of (mkDate 2024 3 1) = days_of (mkDate 2024 2 28) + 2.
Proof.
  destruct legacy_instant_exact as (Hp & Hd & _). split.
  - apply Hp. exists (mkStamp (mkDate 2024 2 29) 84 23 59 60 (lit "1239") (Shift 43 1 0)).
    split_and!; [|vm_compute; reflexivity|reflexivity]. unfold stamp_ok, real_date. cbn. rewrite !elem_of_cons.
    split_and!; try lia; try (vm_compute; reflexivity || discriminate); auto.
  - exact (proj2 (Hd 2%nat (mkDate 2024 2 28) ltac:(split; split; vm_compute; discriminate))).
Defined.

(** * Payments *)

(** [LegacyPayment]. *)
Record LegacyPayment := mkLegacy {
  l_id : str;
  l_url : str;
  l_asset : str;
  l_amount_atomic : Z;
  l_amount_display : str;
  l_recipient : str;
  l_network : str;
  l_tx_signature : option str;
  l_status : StoredPaymentStatus;
  l_timestamp : Z;
  l_authorization_valid_until : option Z;
  l_solana_last_valid_block_height : option Z;
  l_authorization_expired_at : option Z;
  l_authorization_expiry_observed_height : option Z;
  l_session_id : str;
  l_thread_id : option str;
  l_committed_hold : option str
}.

Definition stored_of_legacy (l : LegacyPayment) : StoredPayment :=
  mkStored (l_id l) (l_url l) (l_asset l) (l_amount_atomic l) (l_amount_display l) (l_recipient l) (l_network l)
    (l_tx_signature l) (l_status l) (l_timestamp l) (l_authorization_valid_until l) (l_solana_last_valid_block_height l)
    (l_authorization_expired_at l) (l_authorization_expiry_observed_height l) (l_session_id l) (l_thread_id l) (l_committed_hold l).

(** [instant_ms] and [optional_instant_ms]: what they make of a string. *)
Definition not_an_instant (text : str) : str := lit "`" ++ text ++ lit "` is not an RFC 3339 instant".
Definition read_instant (text : str) : str + Z :=
  match parse_rfc3339_ms text with Some ms => inr ms | None => inl (not_an_instant text) end.

(** serde's part: a legacy entry decoded with the given reader of instants, and a
    stored payment written and read. *)
Class LegacySerde := {
  decode_legacy : (str -> str + Z) -> Json -> str + LegacyPayment;
  stored_json : StoredPayment -> str + Json;
  stored_of_json : Json -> str + StoredPayment
}.

(** A stored payment can be written, and reads back as itself. *)
Class LegacySerdeLaws `{LegacySerde} : Prop := {
  stored_written p : exists v, stored_json p = inr v /\ stored_of_json v = inr p
}.

Definition OWNER : str := lit "wallet".
Definition BUDGETS_COLLECTION : str := lit "wallet.budgets".
Definition PAYMENTS_STREAM : str := lit "wallet.payments".
Definition LEGACY_BUDGET_COLLECTION : str := lit "x402_budget".
Definition LEGACY_PAYMENTS_STREAM : str := lit "x402.payments".

(** [StorageError::invalid_input]. *)
Inductive StorageError := InvalidInput (message : str).

Section Payments.
Context `{LegacySerde}.

Definition legacy_of (entry : Json) : option LegacyPayment :=
  match decode_legacy read_instant entry with inr l => Some l | inl _ => None end.

Fixpoint migrate_entries (entries : list Json) : res StorageError (list Json) :=
  match entries with
  | [] => Ok []
  | entry :: rest =>
      match legacy_of entry with
      | None => migrate_entries rest
      | Some legacy =>
          match stored_json (stored_of_legacy legacy) with
          | inl e => Err (InvalidInput e)
          | inr v => migrated ← migrate_entries rest; Ok (v :: migrated)
          end
      end
  end.

Definition migrate_payments_stream (source : str) (entries : list Json) : res StorageError (option (str * list Json)) :=
  if negb (bool_decide (source = LEGACY_PAYMENTS_STREAM)) then Ok None
  else migrated ← migrate_entries entries; Ok (Some (PAYMENTS_STREAM, migrated)).
End Payments.

(** * Budgets *)

(** A stored document, and one to write: [SourceRecord] and [TargetRecord], the
    fields used. *)
Record SourceRecord := mkSource { sr_id : str; sr_body : Json; created_ms : Z; expires_ms : option Z }.
Record TargetRecord := mkTarget { tr_collection : str; tr_id : str; tr_body : Json; tr_created_ms : Z; tr_expires_ms : option Z }.

Definition hold_json (amount expires_ms : Z) : Json :=
  jobj [(lit "amount", JNum (JPos amount));
        (lit "expires_ms", JNum (if 0 <=? expires_ms then JPos expires_ms else JNeg expires_ms))].

Definition renamed_hold (hold : Json) : option Json :=
  amount ← jget (lit "amount") hold ≫= as_u64;
  expires_ms ← jget (lit "expires_at_ms") hold ≫= as_i64;
  Some (hold_json amount expires_ms).

(** The entries collected into a map, unless one of them is malformed. *)
Fixpoint rename_each (holds : list (str * Json)) (made : list (str * Json)) : option (list (str * Json)) :=
  match holds with
  | [] => Some made
  | (key, hold) :: rest => renamed ← renamed_hold hold; rename_each rest (jput key renamed made)
  end.

Definition renamed_holds (body : Json) : option (list (str * Json)) :=
  match jget (lit "holds") body with
  | None => Some []
  | Some holds => entries ← as_object holds; rename_each entries []
  end.

Definition migrate_budget (record : SourceRecord) : res StorageError TargetRecord :=
  holds ← ok_or (renamed_holds (sr_body record))
    (InvalidInput (lit "legacy wallet budget document `" ++ sr_id record ++ lit "` is malformed"));
  Ok (mkTarget BUDGETS_COLLECTION (sr_id record) (jobj [(lit "holds", JObj holds)]) (created_ms record) (expires_ms record)).

Fixpoint migrate_budgets (batch : list SourceRecord) : res StorageError (list TargetRecord) :=
  match batch with
  | [] => Ok []
  | record :: rest => t ← migrate_budget record; ts ← migrate_budgets rest; Ok (t :: ts)
  end.

(** * The module's handler *)

Definition BUDGETS_STEP : str := lit "budgets_v2".
Definition BUDGETS_OPERATION : str := lit "tinywallet.budgets-v2".
Definition PAYMENTS_STEP : str := lit "payments_v2".
Definition PAYMENTS_OPERATION : str := lit "tinywallet.payments-v2".
Definition OPERATION_VERSION : Z := 1.

Inductive TransformErrorKind := TInvalidInput | TUnsupportedVersion | TUnsupportedOperation.
Record TransformError := mkTransformError { te_kind : TransformErrorKind; te_message : str }.

Definition unsupported_operation : TransformError :=
  mkTransformError TUnsupportedOperation (lit "TinyWallet migration operation unsupported").

(** A schema's step, as the storage library keeps it: the fields used. *)
Inductive StepBody :=
  | StepDocuments (transform : list SourceRecord -> res StorageError (list TargetRecord))
  | StepStreams (transform : str -> list Json -> res StorageError (option (str * list Json)))
  | StepBlobs.
Record Step := mkStep { st_id : str; st_item : str; st_from : Z; st_to : Z; st_source : option str; st_run : StepBody }.

Inductive MigrationPayload :=
  | Documents (operation : str) (version : Z) (records : list SourceRecord)
  | StreamPlan (operation : str) (version : Z) (source : str)
  | StreamEntries (operation : str) (version : Z) (entries : list Json)
  | BlobTarget.

(** An independent entry-by-entry plan is its target. *)
Inductive MigrationPayloadReply :=
  | RDocuments (r : res TransformError (list TargetRecord))
  | RStreamPlan (r : res TransformError (option str))
  | RStreamEntries (r : res TransformError (list Json))
  | RBlobTarget (r : res TransformError unit).

Definition operation_for_step (id : str) : option (str * Z) :=
  if bool_decide (id = BUDGETS_STEP) then Some (BUDGETS_OPERATION, OPERATION_VERSION)
  else if bool_decide (id = PAYMENTS_STEP) then Some (PAYMENTS_OPERATION, OPERATION_VERSION)
  else None.

(** [WalletMigrationHandler::step]. *)
Definition handler_step (schema : list Step) (operation : str) (version : Z) (expected_operation step_id : str) : res TransformError Step :=
  _ ← err_if (negb (bool_decide (operation = expected_operation))) unsupported_operation;
  _ ← err_if (negb (version =? OPERATION_VERSION))
        (mkTransformError TUnsupportedVersion (lit "TinyWallet migration operation version unsupported"));
  ok_or (find_first (fun s => bool_decide (st_id s = step_id)) schema) unsupported_operation.

Definition rejected (message : string) : StorageError -> TransformError := fun _ => mkTransformError TInvalidInput (lit message).

Definition documents (schema : list Step) (operation : str) (version : Z) (records : list SourceRecord) : res TransformError (list TargetRecord) :=
  step ← handler_step schema operation version BUDGETS_OPERATION BUDGETS_STEP;
  match st_run step with
  | StepDocuments transform => map_err (rejected "TinyWallet budget migration rejected its input") (transform records)
  | _ => Err unsupported_operation
  end.

Definition stream_plan (schema : list Step) (operation : str) (version : Z) (source : str) : res TransformError (option str) :=
  step ← handler_step schema operation version PAYMENTS_OPERATION PAYMENTS_STEP;
  match st_run step with
  | StepStreams transform =>
      found ← map_err (rejected "TinyWallet payment migration rejected its source") (transform source []);
      Ok (match found with Some (target, _) => Some target | None => None end)
  | _ => Err unsupported_operation
  end.

Definition stream_entries (schema : list Step) (operation : str) (version : Z) (entries : list Json) : res TransformError (list Json) :=
  step ← handler_step schema operation version PAYMENTS_OPERATION PAYMENTS_STEP;
  match st_run step with
  | StepStreams transform =>
      source ← ok_or (st_source step) unsupported_operation;
      found ← map_err (rejected "TinyWallet payment migration rejected its entries") (transform source entries);
      match found with Some (_, entries) => Ok entries | None => Err unsupported_operation end
  | _ => Err unsupported_operation
  end.

Definition transform (schema : list Step) (payload : MigrationPayload) : MigrationPayloadReply :=
  match payload with
  | Documents operation version records => RDocuments (documents schema operation version records)
  | StreamPlan operation version source => RStreamPlan (stream_plan schema operation version source)
  | StreamEntries operation version entries => RStreamEntries (stream_entries schema operation version entries)
  | BlobTarget => RBlobTarget (Err unsupported_operation)
  end.

(** [storage_schema]'s steps. *)
Definition storage_schema `{LegacySerde} : list Step :=
  [mkStep BUDGETS_STEP BUDGETS_COLLECTION 1 2 (Some LEGACY_BUDGET_COLLECTION) (StepDocuments migrate_budgets);
   mkStep PAYMENTS_STEP PAYMENTS_STREAM 1 2 (Some LEGACY_PAYMENTS_STREAM) (StepStreams migrate_payments_stream)].

(** * Properties *)

(** ** Payments *)

Section PaymentFacts.
Context `{LegacySerdeLaws}.

Lemma migrate_entries_spec entries : exists out, migrate_entries entries = Ok out /\
  stored_of_json <$> out = (fun l => inr (stored_of_legacy l)) <$> omap legacy_of entries.
Proof.
  induction entries as [|entry entries (out & IH & Hout)]; [exists []; auto|]. cbn [migrate_entries omap list_omap].
  destruct (legacy_of entry) as [l|]; [|eauto]. destruct (stored_written (stored_of_legacy l)) as (v & -> & Hv).
  rewrite IH. exists (v :: out). split; [reflexivity|]. cbn. rewrite Hv. f_equal. exact Hout.
Qed.

(** What migrating a stream means: every readable entry, in order, and nothing
    else. *)
Definition stream_migrated (entries out : list Json) : Prop :=
  stored_of_json <$> out = (fun l => inr (stored_of_legacy l)) <$> omap legacy_of entries.

Lemma payments_stream_spec source entries :
  if bool_decide (source = LEGACY_PAYMENTS_STREAM)
  then exists out, migrate_payments_stream source entries = Ok (Some (PAYMENTS_STREAM, out)) /\ stream_migrated entries out
  else migrate_payments_stream source entries = Ok None.
Proof.
  unfold migrate_payments_stream. case_bool_decide; cbn [negb]; [|reflexivity].
  destruct (migrate_entries_spec entries) as (out & -> & Hout). exists out. auto.
Qed.
End PaymentFacts.

(** ** Budgets *)

Lemma hold_json_expires a e : jget (lit "expires_ms") (hold_json a e) = Some (JNum (if 0 <=? e then JPos e else JNeg e)).
Proof. reflexivity. Qed.

Lemma rename_each_spec holds : forall made, NoDup holds.*1 ->
  match rename_each holds made with
  | Some out => (forall k, jget k (JObj out) = from_option renamed_hold (jget k (JObj made)) (jget k (JObj holds))) /\
                Forall (fun e => is_Some (renamed_hold e.2)) holds
  | None => Exists (fun e => renamed_hold e.2 = None) holds
  end.
Proof.
  induction holds as [|[key hold] holds IH]; intros made Hn; cbn [rename_each].
  - split; [reflexivity | constructor].
  - cbn in Hn. inversion Hn as [|? ? Hni Hn']; subst. clear Hn; rename Hn' into Hn. destruct (renamed_hold hold) as [v|] eqn:Hv; cbn [mbind option_bind]; [|left; exact Hv].
    specialize (IH (jput key v made) Hn). destruct (rename_each holds (jput key v made)) as [out|]; [|right; exact IH].
    destruct IH as [Hl Hf]. split; [|constructor; [cbn; rewrite Hv; eauto | exact Hf]].
    intros k. rewrite Hl, jget_jput. cbn. destruct (bool_decide_reflect (key = k)) as [<-|Hk]; [|reflexivity].
    cbn. replace (find_first (fun '(k, _) => bool_decide (k = key)) holds) with (@None (str * Json)); [cbn; congruence|].
    symmetry. clear -Hni. induction holds as [|[k w] holds IH]; [reflexivity|]. cbn in *. apply not_elem_of_cons in Hni as [Hk Hni].
    rewrite bool_decide_false by congruence. apply IH, Hni.
Qed.

(** The legacy document's holds; one without any has none. *)
Definition legacy_holds (body : Json) : option (list (str * Json)) :=
  match jget (lit "holds") body with None => Some [] | Some v => as_object v end.

(** A map has one entry per key. *)
Definition keys_once (record : SourceRecord) : Prop :=
  forall entries, legacy_holds (sr_body record) = Some entries -> NoDup entries.*1.

Definition malformed (record : SourceRecord) : Prop :=
  legacy_holds (sr_body record) = None \/
  exists entries, legacy_holds (sr_body record) = Some entries /\ Exists (fun e => renamed_hold e.2 = None) entries.

(** Every hold under its key, with its amount and expiry. *)
Definition budget_migrated (record : SourceRecord) (t : TargetRecord) : Prop :=
  tr_collection t = BUDGETS_COLLECTION /\ tr_id t = sr_id record /\ tr_created_ms t = created_ms record /\
  tr_expires_ms t = expires_ms record /\
  exists entries m, legacy_holds (sr_body record) = Some entries /\ tr_body t = jobj [(lit "holds", JObj m)] /\
    (forall k, jget k (JObj m) = (jget k (JObj entries) ≫= renamed_hold)) /\ Forall (fun e => is_Some (renamed_hold e.2)) entries.

Lemma migrate_budget_spec record : keys_once record ->
  match migrate_budget record with
  | Ok t => budget_migrated record t
  | Err _ => malformed record
  | Panic => False
  end.
Proof.
  intros Hk. unfold migrate_budget, renamed_holds. unfold keys_once, budget_migrated, malformed, legacy_holds in *.
  destruct (jget (lit "holds") (sr_body record)) as [v|].
  - destruct (as_object v) as [entries|]; cbn [mbind option_bind]; [|left; reflexivity].
    pose proof (rename_each_spec entries [] (Hk entries eq_refl)) as He. destruct (rename_each entries []) as [m|]; cbn [mbind option_bind ok_or res_bind tr_collection tr_id tr_created_ms tr_expires_ms tr_body].
    + destruct He as [Hl Hf]. split_and!; try reflexivity. exists entries, m. split_and!; [reflexivity | reflexivity | | exact Hf]. intros k. rewrite Hl. cbn. destruct (snd <$> _); reflexivity.
    + right. eauto.
  - cbn. split_and!; try reflexivity. exists [], []. split_and!; try reflexivity. constructor.
Qed.

Lemma migrate_budgets_spec batch : Forall keys_once batch ->
  match migrate_budgets batch with
  | Ok ts => Forall2 budget_migrated batch ts
  | Err _ => Exists malformed batch
  | Panic => False
  end.
Proof.
  induction 1 as [|record batch Hk _ IH]; cbn [migrate_budgets]; [constructor|].
  pose proof (migrate_budget_spec record Hk) as Ht. destruct (migrate_budget record) as [t|e|]; cbn; [|left; exact Ht | exact Ht].
  destruct (migrate_budgets batch) as [ts|e|]; cbn; [constructor; assumption | right; exact IH | exact IH].
Qed.

(** ** The handler *)

(** Why an operation was refused before anything was read. *)
Definition unrouted (expected operation : str) (version : Z) (e : TransformError) : Prop :=
  (operation <> expected /\ te_kind e = TUnsupportedOperation) \/
  (operation = expected /\ version <> OPERATION_VERSION /\ te_kind e = TUnsupportedVersion).

Lemma handler_step_spec schema operation version expected id s :
  find_first (fun s => bool_decide (st_id s = id)) schema = Some s ->
  match handler_step schema operation version expected id with
  | Ok s' => operation = expected /\ version = OPERATION_VERSION /\ s' = s
  | Err e => unrouted expected operation version e
  | Panic => False
  end.
Proof.
  intros Hs. unfold handler_step, unrouted. destruct (bool_decide_reflect (operation = expected)); cbn; [|auto].
  destruct (Z.eqb_spec version OPERATION_VERSION); cbn; [rewrite Hs; cbn; auto | auto 6].
Qed.

Section Handled.
Context `{LegacySerdeLaws}.

(** What a reply says of its request. *)
Definition answered (payload : MigrationPayload) (reply : MigrationPayloadReply) : Prop :=
  match payload, reply with
  | Documents operation version records, RDocuments (Ok ts) =>
      operation = BUDGETS_OPERATION /\ version = OPERATION_VERSION /\ Forall2 budget_migrated records ts
  | Documents operation version records, RDocuments (Err e) =>
      unrouted BUDGETS_OPERATION operation version e \/ (te_kind e = TInvalidInput /\ Exists malformed records)
  | StreamPlan operation version source, RStreamPlan (Ok target) =>
      operation = PAYMENTS_OPERATION /\ version = OPERATION_VERSION /\
      target = if bool_decide (source = LEGACY_PAYMENTS_STREAM) then Some PAYMENTS_STREAM else None
  | StreamEntries operation version entries, RStreamEntries (Ok out) =>
      operation = PAYMENTS_OPERATION /\ version = OPERATION_VERSION /\ stream_migrated entries out
  | StreamPlan operation version _, RStreamPlan (Err e) | StreamEntries operation version _, RStreamEntries (Err e) =>
      unrouted PAYMENTS_OPERATION operation version e
  | BlobTarget, RBlobTarget (Err e) => te_kind e = TUnsupportedOperation
  | _, _ => False
  end.

End Handled.

(** * Instances *)

(** A serde that writes a payment's fields as an array, and reads a legacy entry
    of an id and an instant. *)
Definition enc_opt {A} (f : A -> Json) (o : option A) : Json := match o with None => JNull | Some a => JArr [f a] end.
Definition enc_int (n : Z) : Json := JNum (JPos n).
Definition enc_status (s : StoredPaymentStatus) : Json :=
  enc_int (match s with SPending => 0 | SSettled => 1 | SFailed => 2 | SDenied => 3 end).
Definition dec_int (v : Json) : Z := match v with JNum (JPos n) => n | _ => 0 end.
Definition dec_str (v : Json) : str := match v with JStr s => s | _ => [] end.
Definition dec_opt {A} (f : Json -> A) (v : Json) : option A := match v with JArr [w] => Some (f w) | _ => None end.
Definition dec_status (v : Json) : StoredPaymentStatus :=
  match dec_int v with 0 => SPending | 1 => SSettled | 2 => SFailed | _ => SDenied end.

Definition plain_payment (id : str) (at_ : Z) : LegacyPayment :=
  mkLegacy id [] [] 0 [] [] [] None SPending at_ None None None None [] None None.

#[local] Instance plain_serde : LegacySerde := {
  decode_legacy read v :=
    match v with
    | JArr [JStr id; JStr t] => match read t with inr ms => inr (plain_payment id ms) | inl e => inl e end
    | _ => inl (lit "no payment")
    end;
  stored_json p := inr (JArr [JStr (s_id p); JStr (s_url p); JStr (s_asset p); enc_int (s_amount_atomic p); JStr (s_amount_display p);
    JStr (s_recipient p); JStr (s_network p); enc_opt JStr (s_tx_signature p); enc_status (s_status p); enc_int (s_timestamp_ms p);
    enc_opt enc_int (s_authorization_valid_until_ms p); enc_opt enc_int (s_solana_last_valid_block_height p);
    enc_opt enc_int (s_authorization_expired_at_ms p); enc_opt enc_int (s_authorization_expiry_observed_height p);
    JStr (s_session_id p); enc_opt JStr (s_thread_id p); enc_opt JStr (s_committed_hold p)]);
  stored_of_json v :=
    match v with
    | JArr [a; b; c; d; e; f; g; h; i; j; k; l; m; n; o; p; q] =>
        inr (mkStored (dec_str a) (dec_str b) (dec_str c) (dec_int d) (dec_str e) (dec_str f) (dec_str g) (dec_opt dec_str h)
               (dec_status i) (dec_int j) (dec_opt dec_int k) (dec_opt dec_int l) (dec_opt dec_int m) (dec_opt dec_int n)
               (dec_str o) (dec_opt dec_str p) (dec_opt dec_str q))
    | _ => inl (lit "no payment")
    end
}.

#[local] Instance plain_serde_laws : LegacySerdeLaws.
Proof.
  constructor. intros [id url asset amount display recipient network tx status ts valid height expired observed session thread hold]. eexists. split; [reflexivity|]. cbn. f_equal.
  assert (Hint : forall o, dec_opt dec_int (enc_opt enc_int o) = o) by (intros []; reflexivity).
  assert (Hstr : forall o, dec_opt dec_str (enc_opt JStr o) = o) by (intros []; reflexivity).
  rewrite !Hint, !Hstr. destruct status; reflexivity.
Qed.

(** A legacy document of one hold. *)
Definition example_holds (amount : Json) : SourceRecord :=
  mkSource (lit "holds") (jobj [(lit "holds", jobj [(lit "a:1", jobj [(lit "amount", amount); (lit "expires_at_ms", JNum (JPos 8000))])])])
    11 (Some 99).


(** A body that is no object at all is taken for a document without holds. *)
Example not_a_document : migrate_budget (mkSource (lit "holds") (JStr (lit "??")) 0 None)
  = Ok (mkTarget BUDGETS_COLLECTION (lit "holds") (jobj [(lit "holds", JObj [])]) 0 None).
Proof. reflexivity. Qed.
