(* ===== verification/Ledger.v ===== *)
(** The payment ledger in memory
    ([crates/tinywallet-x402/src/ledger/store.rs], the reading half).

    The ledger's state, the latest state of every payment, what counts against
    the daily and monthly windows, [check_budget_at], the summaries and
    listings.  The operations that touch storage are in [LedgerOps].  Shown
    here: the verdict of [check_budget_at] is the arithmetic it claims, with no
    wrap-around; settled spending never escapes it; the summary's totals. *)

From stdpp Require Import base list strings numbers gmap sets.
From S2P Require Import Prelude Text LedgerTypes.

(** * State *)

(** A hold this ledger placed. *)
Record OwnHold := mkOwn { o_key : str; o_amount : Z }.
#[export] Instance OwnHold_eq_dec : EqDecision OwnHold.
Proof. solve_decision. Defined.

Record PaymentLedger := mkLedger {
  generation : Z;
  records : list PaymentRecord;
  committed_holds : gset str;
  next_offset : Z;
  budget : SpendingBudget;
  session_id : str;
  owner : str;
  reservations : gmap Z OwnHold;
  holds : HoldsDoc
}.

Definition with_records (l : PaymentLedger) (rs : list PaymentRecord) : PaymentLedger :=
  mkLedger (generation l) rs (committed_holds l) (next_offset l) (budget l) (session_id l)
    (owner l) (reservations l) (holds l).
Definition with_committed (l : PaymentLedger) (c : gset str) : PaymentLedger :=
  mkLedger (generation l) (records l) c (next_offset l) (budget l) (session_id l)
    (owner l) (reservations l) (holds l).
Definition with_next_offset (l : PaymentLedger) (n : Z) : PaymentLedger :=
  mkLedger (generation l) (records l) (committed_holds l) n (budget l) (session_id l)
    (owner l) (reservations l) (holds l).
Definition with_reservations (l : PaymentLedger) (r : gmap Z OwnHold) : PaymentLedger :=
  mkLedger (generation l) (records l) (committed_holds l) (next_offset l) (budget l) (session_id l)
    (owner l) r (holds l).
Definition with_holds (l : PaymentLedger) (h : HoldsDoc) : PaymentLedger :=
  mkLedger (generation l) (records l) (committed_holds l) (next_offset l) (budget l) (session_id l)
    (owner l) (reservations l) h.

(** [update_budget]. *)
Definition update_budget (l : PaymentLedger) (b : SpendingBudget) : PaymentLedger :=
  mkLedger (generation l) (records l) (committed_holds l) (next_offset l) b (session_id l)
    (owner l) (reservations l) (holds l).

(** * Latest states *)

(** The map [latest_records] builds: a later entry with the same id replaces
    an earlier one. *)
Definition latest_by_id (rs : list PaymentRecord) : gmap str PaymentRecord :=
  foldl (fun m r => <[p_id r := r]> m) ∅ rs.

(** [into_values().collect()]: the order of a [HashMap] is unspecified; nothing
    below depends on it. *)
Definition latest_of (rs : list PaymentRecord) : list PaymentRecord :=
  (map_to_list (latest_by_id rs)).*2.
Definition latest_records (l : PaymentLedger) : list PaymentRecord := latest_of (records l).

(** [fold(init, |total, r| total.saturating_add(f(r)))] over [u64]. *)
Definition sat_fold {A} (f : A -> Z) (init : Z) (l : list A) : Z :=
  foldl (fun total x => sat_add u64_max total (f x)) init l.

Definition is_unresolved (r : PaymentRecord) : bool :=
  bool_decide (p_status r = Pending)
  || (bool_decide (p_status r = Failed) && bool_decide (is_Some (p_authorization_valid_until r))).

Definition authorization_window_end (r : PaymentRecord) : option Z :=
  match p_authorization_valid_until r with
  | Some t => Some t
  | None =>
    match p_solana_last_valid_block_height r, p_authorization_expiry_observed_height r,
          p_authorization_expired_at r with
    | Some last_valid, Some observed_height, Some observed_at =>
        if (last_valid <? observed_height) && (p_timestamp r <=? observed_at)
        then Some observed_at else None
    | _, _, _ => None
    end
  end.

(** [is_none_or]. *)
Definition is_none_or {A} (p : A -> bool) (o : option A) : bool :=
  match o with None => true | Some a => p a end.

Definition overlaps_authorization_window (r : PaymentRecord) (window_start window_end : Z) : bool :=
  (p_timestamp r <? window_end)
  && is_none_or (fun end_ => window_start <=? end_) (authorization_window_end r).

(** * The budget check *)

Definition reserved_atomic (l : PaymentLedger) : Z :=
  sat_fold h_amount 0 ((map_to_list (holds l)).*2).

Section Check.
Context `{Chrono}.

(** What the daily filter keeps. *)
Definition counts_daily (now : Z) (r : PaymentRecord) : bool :=
  (is_unresolved r && overlaps_authorization_window r (start_of_day now) (end_of_day now))
  || (bool_decide (p_status r = Settled)
      && (start_of_day now <=? p_timestamp r) && (p_timestamp r <? end_of_day now)).

(** What the monthly filter keeps. *)
Definition counts_monthly (now : Z) (r : PaymentRecord) : bool :=
  (is_unresolved r && overlaps_authorization_window r (start_of_month now) (end_of_month now))
  || (bool_decide (p_status r = Settled) && bool_decide (year_month (p_timestamp r) = year_month now)).

(** [total.checked_add(amount).is_none_or(|total| total > cap)]. *)
Definition over_cap (total amount cap : Z) : bool :=
  is_none_or (fun t => cap <? t) (checked_add u64_max total amount).

Definition window_total (keep : PaymentRecord -> bool) (l : PaymentLedger) : Z :=
  sat_fold p_amount_atomic (reserved_atomic l) (filter keep (latest_records l)).

Definition check_budget_at (l : PaymentLedger) (now amount : Z) : BudgetCheck :=
  if per_request_max_atomic (budget l) <? amount
  then ExceedsPerRequest amount (per_request_max_atomic (budget l))
  else
    let daily := window_total (counts_daily now) l in
    if over_cap daily amount (daily_max_atomic (budget l))
    then ExceedsDailyBudget daily (daily_max_atomic (budget l))
    else
      let monthly := window_total (counts_monthly now) l in
      if over_cap monthly amount (monthly_max_atomic (budget l))
      then ExceedsMonthlyBudget monthly (monthly_max_atomic (budget l))
      else Allowed.

(** * Summaries and listings *)

Definition usize_max : Z := u64_max.

Definition summary_step (l : PaymentLedger) (now : Z) (s : SpendingSummary) (r : PaymentRecord)
  : SpendingSummary :=
  let in_session := bool_decide (p_session_id r = session_id l) in
  let today := bool_decide (date_naive (p_timestamp r) = date_naive now) in
  let this_month := bool_decide (year_month (p_timestamp r) = year_month now) in
  let add (c : bool) (a b : Z) : Z := if c then sat_add u64_max a b else a in
  mkSummary (add in_session (session_total_atomic s) (p_amount_atomic r))
    (add today (daily_total_atomic s) (p_amount_atomic r))
    (add this_month (monthly_total_atomic s) (p_amount_atomic r))
    (add in_session (session_count s) 1) (add today (daily_count s) 1)
    (add this_month (monthly_count s) 1).

Definition is_settled (r : PaymentRecord) : bool := bool_decide (p_status r = Settled).
Definition is_pending (r : PaymentRecord) : bool := bool_decide (p_status r = Pending).

Definition summary_at (l : PaymentLedger) (now : Z) : SpendingSummary :=
  foldl (summary_step l now) (mkSummary 0 0 0 0 0 0) (filter is_settled (latest_records l)).
End Check.

Definition recent_payments (l : PaymentLedger) (limit : nat) : list PaymentRecord :=
  take limit (rev (records l)).

Definition payment (l : PaymentLedger) (id : str) : option PaymentRecord :=
  find_first (fun r => bool_decide (p_id r = id)) (rev (records l)).

Definition pending_count (l : PaymentLedger) : nat := length (filter is_pending (latest_records l)).

Definition usable_pending_count (l : PaymentLedger) (now : Z) : nat :=
  length (filter (fun r => is_pending r && is_none_or (fun end_ => now <? end_)
                                             (authorization_window_end r)) (latest_records l)).

Definition pending_payments (l : PaymentLedger) : list PaymentRecord :=
  filter is_pending (latest_records l).

Definition outstanding_atomic (l : PaymentLedger) : Z :=
  let pending := sat_fold p_amount_atomic 0 (filter is_unresolved (latest_records l)) in
  sat_add u64_max pending (reserved_atomic l).

(** * Saturating sums *)

Lemma sat_fold_min {A} (f : A -> Z) init l :
  Forall (fun x => 0 <= f x) l -> 0 <= init <= u64_max ->
  sat_fold f init l = Z.min (init + sum_of f l) u64_max.
Proof.
  intros Hf. revert init. induction Hf as [|x l Hx Hf IH]; intros init Hi; unfold sat_fold in *; cbn.
  - lia.
  - pose proof (sum_of_nonneg _ _ Hf). rewrite IH; unfold sat_add; lia.
Qed.

Lemma sum_of_filter_le {A} (f : A -> Z) (P Q : A -> bool) l :
  Forall (fun x => 0 <= f x) l -> (forall x, x ∈ l -> P x = true -> Q x = true) ->
  sum_of f (filter P l) <= sum_of f (filter Q l).
Proof.
  induction 1 as [|x l Hx Hf IH]; intros HPQ; [reflexivity|].
  assert (HPQ' : forall y, y ∈ l -> P y = true -> Q y = true)
    by (intros y Hy; apply HPQ; set_solver). specialize (IH HPQ').
  specialize (HPQ x ltac:(set_solver)).
  rewrite !filter_cons. destruct (P x) eqn:EP, (Q x) eqn:EQ; cbn [decide] in *;
    repeat (case_decide; cbn [Is_true] in *; try tauto); cbn [sum_of]; try lia.
Qed.

Lemma sum_of_filter_nonneg {A} (f : A -> Z) (P : A -> bool) l :
  Forall (fun x => 0 <= f x) l -> 0 <= sum_of f (filter P l).
Proof.
  intros H. apply sum_of_nonneg. apply list.Forall_forall. intros x Hx.
  apply list_elem_of_filter in Hx as [_ Hx]. rewrite list.Forall_forall in H. auto.
Qed.

(** * Latest states *)

Lemma latest_by_id_snoc rs r : latest_by_id (rs ++ [r]) = <[p_id r := r]> (latest_by_id rs).
Proof. unfold latest_by_id. rewrite foldl_snoc. reflexivity. Qed.

Lemma latest_by_id_lookup rs id r :
  latest_by_id rs !! id = Some r <->
  find_first (fun r => bool_decide (p_id r = id)) (rev rs) = Some r.
Proof.
  induction rs as [|x rs IH] using rev_ind; [cbn; rewrite lookup_empty; split; discriminate|].
  rewrite latest_by_id_snoc, rev_app_distr. cbn [rev app find_first].
  case_bool_decide as Hid.
  - subst. rewrite lookup_insert_eq. reflexivity.
  - rewrite lookup_insert_ne by congruence. exact IH.
Qed.

Lemma latest_by_id_id rs id r : latest_by_id rs !! id = Some r -> p_id r = id /\ r ∈ rs.
Proof.
  induction rs as [|x rs IH] using rev_ind; [intros [=]|].
  rewrite latest_by_id_snoc. intros H. apply lookup_insert_Some in H as [[<- <-] | [_ H]].
  - set_solver.
  - apply IH in H. set_solver.
Qed.

Lemma latest_of_elem rs r : r ∈ latest_of rs <-> latest_by_id rs !! p_id r = Some r.
Proof.
  unfold latest_of. rewrite list_elem_of_fmap. split.
  - intros ([id r'] & -> & H). apply elem_of_map_to_list in H. cbn.
    destruct (latest_by_id_id _ _ _ H) as [-> _]. exact H.
  - intros H. exists (p_id r, r). split; [reflexivity|]. apply elem_of_map_to_list. exact H.
Qed.

(** * Well-formed ledgers *)

Definition record_ok (r : PaymentRecord) : Prop := is_u64 (p_amount_atomic r).
Definition hold_ok (h : Hold) : Prop := is_u64 (h_amount h).
Definition budget_ok (b : SpendingBudget) : Prop :=
  is_u64 (per_request_max_atomic b) /\ is_u64 (daily_max_atomic b) /\ is_u64 (monthly_max_atomic b).

(** The amounts in memory are [u64]s. *)
Definition ledger_ok (l : PaymentLedger) : Prop :=
  Forall record_ok (records l) /\ map_Forall (fun _ h => hold_ok h) (holds l) /\ budget_ok (budget l).

(** The charge of the outstanding holds and of the records kept by a filter,
    as an unbounded sum. *)
Definition held_total (d : HoldsDoc) : Z := sum_of h_amount ((map_to_list d).*2).
Definition charge_of (keep : PaymentRecord -> bool) (rs : list PaymentRecord) : Z :=
  sum_of p_amount_atomic (filter keep (latest_of rs)).

Lemma latest_of_ok rs : Forall record_ok rs -> Forall (fun r => 0 <= p_amount_atomic r) (latest_of rs).
Proof.
  intros H. apply list.Forall_forall. intros r Hr. apply latest_of_elem in Hr.
  apply latest_by_id_id in Hr as [_ Hr]. rewrite list.Forall_forall in H. apply H, Hr.
Qed.

Lemma holds_nonneg (d : HoldsDoc) :
  map_Forall (fun _ h => hold_ok h) d -> Forall (fun h => 0 <= h_amount h) ((map_to_list d).*2).
Proof.
  intros H. apply list.Forall_forall. intros h Hh. apply list_elem_of_fmap in Hh as ([k h'] & -> & Hh).
  apply elem_of_map_to_list in Hh. apply (H k h' Hh).
Qed.

Lemma reserved_atomic_min l :
  ledger_ok l -> reserved_atomic l = Z.min (held_total (holds l)) u64_max.
Proof.
  intros (_ & Hh & _). unfold reserved_atomic, held_total.
  rewrite sat_fold_min; [f_equal; lia | apply holds_nonneg, Hh | unfold u64_max; lia].
Qed.

Lemma held_total_nonneg l : ledger_ok l -> 0 <= held_total (holds l).
Proof. intros (_ & Hh & _). apply sum_of_nonneg, holds_nonneg, Hh. Qed.

Lemma charge_of_nonneg keep rs : Forall record_ok rs -> 0 <= charge_of keep rs.
Proof. intros H. apply sum_of_filter_nonneg, latest_of_ok, H. Qed.

Lemma window_total_min keep l :
  ledger_ok l ->
  window_total keep l = Z.min (held_total (holds l) + charge_of keep (records l)) u64_max.
Proof.
  intros Hok. pose proof (held_total_nonneg l Hok) as Hh.
  pose proof (charge_of_nonneg keep (records l) ltac:(apply Hok)) as Hc.
  unfold window_total. rewrite reserved_atomic_min by exact Hok. rewrite sat_fold_min.
  - unfold latest_records, charge_of in *. lia.
  - apply list.Forall_forall. intros r Hr. apply list_elem_of_filter in Hr as [_ Hr].
    pose proof (latest_of_ok _ (proj1 Hok)) as Hl. rewrite list.Forall_forall in Hl. apply Hl, Hr.
  - unfold u64_max in *. lia.
Qed.

Lemma over_cap_false total amount cap :
  0 <= total -> 0 < amount -> cap <= u64_max ->
  over_cap (Z.min total u64_max) amount cap = false <-> total + amount <= cap.
Proof.
  intros Ht Ha Hc. unfold over_cap, checked_add.
  destruct (Z.leb_spec (Z.min total u64_max + amount) u64_max); cbn [is_none_or].
  - rewrite Z.ltb_ge. lia.
  - split; [discriminate | lia].
Qed.

Section Windows.
Context `{ChronoLaws}.

(** What counts today counts this month. *)
Lemma counts_daily_monthly now r : counts_daily now r = true -> counts_monthly now r = true.
Proof.
  unfold counts_daily, counts_monthly, overlaps_authorization_window.
  destruct (day_in_month now) as [Hs He]. pose proof (month_window now (p_timestamp r)) as Hm.
  rewrite !orb_true_iff, !andb_true_iff, !bool_decide_eq_true, !Z.ltb_lt, !Z.leb_le.
  intros [(Hu & Ht & Hn) | ((Hst & H1) & H2)].
  - left. split_and!; [exact Hu | lia|]. destruct (authorization_window_end r); cbn in *; [|reflexivity].
    apply Z.leb_le in Hn. apply Z.leb_le. lia.
  - right. split; [exact Hst|]. apply Hm. lia.
Qed.

(** One counter of the summary, as a loop of its own. *)
Definition counter (keep : PaymentRecord -> bool) (f : PaymentRecord -> Z) (a : Z) (rs : list PaymentRecord) : Z :=
  foldl (fun a r => if keep r then sat_add u64_max a (f r) else a) a rs.

Lemma counter_min (keep : PaymentRecord -> bool) f a rs :
  Forall (fun r => 0 <= f r) rs -> 0 <= a <= u64_max ->
  counter keep f a rs = Z.min (a + sum_of f (filter keep rs)) u64_max.
Proof.
  intros Hf. revert a. induction Hf as [|r rs Hr Hf IH]; intros a Ha; [cbn; lia|].
  pose proof (sum_of_filter_nonneg f keep rs Hf) as Hnn. unfold counter in *. cbn [foldl].
  rewrite filter_cons. destruct (keep r) eqn:E.
  - rewrite decide_True by exact I. cbn [sum_of]. rewrite IH; unfold sat_add; lia.
  - rewrite decide_False by tauto. apply IH, Ha.
Qed.

Lemma summary_counters l now rs s :
  let out := foldl (summary_step l now) s rs in
  session_total_atomic out = counter (fun r => bool_decide (p_session_id r = session_id l))
      p_amount_atomic (session_total_atomic s) rs /\
  daily_total_atomic out = counter (fun r => bool_decide (date_naive (p_timestamp r) = date_naive now))
      p_amount_atomic (daily_total_atomic s) rs /\
  monthly_total_atomic out = counter (fun r => bool_decide (year_month (p_timestamp r) = year_month now))
      p_amount_atomic (monthly_total_atomic s) rs /\
  session_count out = counter (fun r => bool_decide (p_session_id r = session_id l)) (fun _ => 1)
      (session_count s) rs /\
  daily_count out = counter (fun r => bool_decide (date_naive (p_timestamp r) = date_naive now))
      (fun _ => 1) (daily_count s) rs /\
  monthly_count out = counter (fun r => bool_decide (year_month (p_timestamp r) = year_month now))
      (fun _ => 1) (monthly_count s) rs.
Proof.
  revert s. induction rs as [|r rs IH]; intros s; cbn zeta in *; [cbn; auto 10|].
  cbn [foldl]. destruct (IH (summary_step l now s r)) as (-> & -> & -> & -> & -> & ->).
  unfold counter. cbn. auto 10.
Qed.

Lemma filter_forall {A} (P : A -> Prop) (keep : A -> bool) l : Forall P l -> Forall P (filter keep l).
Proof.
  intros H1. apply list.Forall_forall. intros x Hx. apply list_elem_of_filter in Hx as [_ Hx].
  rewrite list.Forall_forall in H1. apply H1, Hx.
Qed.

Lemma filter_settled (keep : PaymentRecord -> bool) (rs : list PaymentRecord) :
  filter keep (filter is_settled rs) = filter (fun r => is_settled r && keep r) rs.
Proof.
  induction rs as [|r rs IH]; [reflexivity|]. rewrite !filter_cons.
  destruct (is_settled r) eqn:E; cbn [andb].
  - rewrite decide_True by exact I. rewrite filter_cons, IH. reflexivity.
  - rewrite !decide_False by tauto. exact IH.
Qed.

End Windows.

(** * Properties *)

(** C10. The budget verdict is the arithmetic it claims, without wrap-around.  For
    a non-zero amount, [check_budget_at] allows it exactly when it is within
    the per-request cap and, with every outstanding hold and every counted
    record added as unbounded integers, within the daily and the monthly cap;
    and the monthly charge is at least the daily one. *)
Theorem check_budget_exact `{ChronoLaws} l now amount :
  ledger_ok l -> 0 < amount ->
  let held := held_total (holds l) in
  let day := charge_of (counts_daily now) (records l) in
  let month := charge_of (counts_monthly now) (records l) in
  (check_budget_at l now amount = Allowed <->
     amount <= per_request_max_atomic (budget l) /\
     held + day + amount <= daily_max_atomic (budget l) /\
     held + month + amount <= monthly_max_atomic (budget l)) /\
  0 <= held /\ 0 <= day <= month.
Proof.
  intros Hok Ha. cbn zeta. pose proof Hok as (Hr & Hh & _ & Hbd & Hbm).
  pose proof (held_total_nonneg l Hok) as Hheld.
  pose proof (charge_of_nonneg (counts_daily now) _ Hr) as Hd.
  pose proof (charge_of_nonneg (counts_monthly now) _ Hr) as Hm.
  assert (Hdm : charge_of (counts_daily now) (records l) <= charge_of (counts_monthly now) (records l)).
  { apply sum_of_filter_le; [apply latest_of_ok, Hr|]. intros r _. apply counts_daily_monthly. }
  split; [|auto]. unfold check_budget_at. rewrite !window_total_min by exact Hok.
  unfold is_u64 in Hbd, Hbm.
  destruct (Z.ltb_spec (per_request_max_atomic (budget l)) amount); [split; [discriminate | lia]|].
  set (day := charge_of (counts_daily now) (records l)) in *.
  set (month := charge_of (counts_monthly now) (records l)) in *.
  pose proof (over_cap_false (held_total (holds l) + day) amount
                (daily_max_atomic (budget l)) ltac:(lia) Ha ltac:(lia)) as Ed.
  pose proof (over_cap_false (held_total (holds l) + month) amount
                (monthly_max_atomic (budget l)) ltac:(lia) Ha ltac:(lia)) as Em.
  destruct (over_cap _ amount (daily_max_atomic (budget l))).
  { split; [discriminate|]. intros (_ & Hd' & _). apply Ed in Hd'. discriminate. }
  destruct (over_cap _ amount (monthly_max_atomic (budget l))).
  { split; [discriminate|]. intros (_ & _ & Hm'). apply Em in Hm'. discriminate. }
  split; [|reflexivity]. intros _. split_and!; [lia | apply Ed | apply Em]; reflexivity.
Qed.

(** The summary's totals.  Session, daily and monthly totals are the sums
    of the settled latest records of the session, the day and the month, capped
    only by the width of the integer; and what the summary reports for the day
    is never more than what the budget check charges for it. *)
Theorem summary_totals `{ChronoLaws} l now :
  ledger_ok l ->
  let settled keep := sum_of p_amount_atomic
       (filter (fun r => is_settled r && keep r) (latest_records l)) in
  session_total_atomic (summary_at l now)
    = Z.min (settled (fun r => bool_decide (p_session_id r = session_id l))) u64_max /\
  daily_total_atomic (summary_at l now)
    = Z.min (settled (fun r => bool_decide (date_naive (p_timestamp r) = date_naive now))) u64_max /\
  monthly_total_atomic (summary_at l now)
    = Z.min (settled (fun r => bool_decide (year_month (p_timestamp r) = year_month now))) u64_max /\
  daily_total_atomic (summary_at l now) <= window_total (counts_daily now) l.
Proof.
  intros Hok. cbn zeta. pose proof (latest_of_ok _ (proj1 Hok)) as Hnn.
  destruct (summary_counters l now (filter is_settled (latest_records l)) (mkSummary 0 0 0 0 0 0))
    as (E1 & E2 & E3 & _). unfold summary_at. rewrite E1, E2, E3. cbn [session_total_atomic daily_total_atomic monthly_total_atomic].
  assert (Hs : Forall (fun r => 0 <= p_amount_atomic r) (filter is_settled (latest_records l)))
    by (apply filter_forall; exact Hnn).
  rewrite !counter_min by (exact Hs || (unfold u64_max; lia)).
  rewrite !filter_settled, !Z.add_0_l. split_and!; auto.
  rewrite window_total_min by exact Hok. pose proof (held_total_nonneg l Hok).
  enough (sum_of p_amount_atomic (filter (fun r => is_settled r &&
            bool_decide (date_naive (p_timestamp r) = date_naive now)) (latest_records l))
          <= charge_of (counts_daily now) (records l)) by lia.
  apply sum_of_filter_le; [exact Hnn|]. intros r _. unfold is_settled, counts_daily.
  rewrite !andb_true_iff, orb_true_iff, !andb_true_iff, !bool_decide_eq_true, !Z.leb_le, !Z.ltb_lt.
  intros [Hst Hd]. right. apply date_window in Hd. tauto.
Qed.

(** A payment is looked up by its latest state: [payment] finds a record
    exactly when it is the last one appended with that id, which is also the
    one the budget and the summary see for it. *)
Theorem payment_is_latest l id r :
  payment l id = Some r <->
  r ∈ latest_records l /\ p_id r = id.
Proof.
  unfold payment, latest_records. rewrite <- latest_by_id_lookup, latest_of_elem. split.
  - intros Hl. destruct (latest_by_id_id _ _ _ Hl) as [<- _]. auto.
  - intros [Hl <-]. exact Hl.
Qed.

(** A ledger with one settled payment of 4 and a hold of 3. *)
Definition example_ledger : PaymentLedger :=
  mkLedger 1 [example_record [1] 9 Pending 1000; example_record [1] 4 Settled 2000] ∅ 2
    (mkBudget 100 10 20) [5] [6] ∅ {[ [9] := mkHold 3 5000 ]}.

Lemma example_ledger_ok : ledger_ok example_ledger.
Proof.
  split; [|split].
  - repeat (apply List.Forall_cons; [range_closed|]). apply List.Forall_nil.
  - apply map_Forall_singleton. range_closed.
  - split_and!; range_closed.
Qed.

Lemma check_budget_exact_witness :
  check_budget_at example_ledger 3000 3 = Allowed /\ check_budget_at example_ledger 3000 4 <> Allowed.
Proof.
  destruct (check_budget_exact example_ledger 3000 3) as [H _];
    [exact example_ledger_ok | lia|].
  destruct (check_budget_exact example_ledger 3000 4) as [H' _];
    [exact example_ledger_ok | lia|].
  split; [apply H; vm_compute; repeat split; discriminate|].
  intros E. apply H' in E as (_ & E & _). vm_compute in E. apply E. reflexivity.
Defined.

Lemma summary_totals_witness :
  daily_total_atomic (summary_at example_ledger 3000) <= window_total (counts_daily 3000) example_ledger.
Proof. apply (summary_totals example_ledger 3000). exact example_ledger_ok. Defined.
