(* ===== verification/Store.v ===== *)
(** Storage as the ledger sees it ([crates/tinywallet-x402/src/ledger/persist.rs]).

    The storage ports belong to another crate, so a port call is a constructor
    of [call] and a ledger operation is a [prog]: a tree that asks for one call
    at a time and continues with whatever the port answers, an error included.
    Nothing is assumed of the answers here; [LedgerSafety] runs many such
    programs against one shared storage, in any order. *)

From stdpp Require Import base list strings numbers gmap sets.
From S2P Require Import Prelude Text LedgerTypes.

(** * Port calls *)

(** What a stream entry's JSON value decodes to, [None] when it does not. *)
Abbreviation Entry := (option StoredPayment).

Inductive put_outcome := Written | Conflict.

(** The host's readiness record: schema version and import epoch. *)
Record StorageMigrationReady := mkReady { schema_version : Z; import_epoch : str }.

Inductive call : Type -> Type :=
  (** [streams.read_window(PAYMENTS_STREAM, from, n)]: entries with offsets *)
  | ReadWindow (from : Z) (n : nat) : call (list (Z * Entry))
  (** [streams.append(PAYMENTS_STREAM, value)]: the new entry's offset *)
  | Append (e : StoredPayment) : call Z
  (** [documents.get(BUDGETS_COLLECTION, HOLDS_ID)]: version and body, or why
      the body is not a hold document *)
  | GetHolds : call (option (Z * (str + HoldsDoc)))
  (** [documents.put_with(.., precondition)]: a version, or absent *)
  | PutHolds (version : option Z) (doc : HoldsDoc) : call put_outcome
  (** [documents.get(BUDGETS_COLLECTION, MIGRATION_READY_ID)] *)
  | GetReady : call (option (option StorageMigrationReady))
  (** [streams.len(LEGACY_PAYMENTS_STREAM)], [documents.get(LEGACY_BUDGET_COLLECTION, HOLDS_ID)] *)
  | LegacyLen : call Z
  | LegacyHolds : call bool
  (** [NEXT_RESERVATION.fetch_add(1)] *)
  | FreshId : call Z.

(** [Spin] is a loop that was cut off after its fuel: it answers nothing. *)
Inductive prog (A : Type) : Type :=
  | Ret (a : A)
  | Call {R : Type} (c : call R) (k : str + R -> prog A)
  | Spin.
Arguments Ret {A} a.
Arguments Call {A R} c k.
Arguments Spin {A}.

Fixpoint pbind {A B} (p : prog A) (f : A -> prog B) : prog B :=
  match p with
  | Ret a => f a
  | Call c k => Call c (fun r => pbind (k r) f)
  | Spin => Spin
  end.
#[export] Instance prog_ret : MRet prog := @Ret.
#[export] Instance prog_bind : MBind prog := fun A B f p => pbind p f.

(** [?] on a [Result] inside a program. *)
Definition on_ok {E A B} (m : res E A) (f : A -> prog (res E B)) : prog (res E B) :=
  match m with Ok a => f a | Err e => Ret (Err e) | Panic => Ret Panic end.

(** * Persist *)

(** [Persist::run]: failures carry the operation's name. *)
Definition run {R} (what : str) (c : call R) : prog (res str R) :=
  Call c (fun r => match r with
                   | inl error => Ret (Err (what ++ lit ": " ++ error))
                   | inr v => Ret (Ok v)
                   end).

(** A payment read back, with the hold its entry committed. *)
Abbreviation LoadedPayment := (PaymentRecord * option str)%type.

Definition WINDOW : nat := 512.

Section Persist.
Context `{Chrono}.

(** Entries that do not parse are skipped. *)
Definition parse_entry (e : Z * Entry) : option LoadedPayment :=
  match e.2 with
  | Some s => match into_record s with Ok p => Some p | _ => None end
  | None => None
  end.

(** [fuel] bounds the number of windows. *)
Fixpoint read_loop (fuel : nat) (next : Z) (acc : list LoadedPayment)
  : prog (res str (list LoadedPayment * Z)) :=
  match fuel with
  | O => Spin
  | S fuel' =>
    w ← run (lit "read payments stream") (ReadWindow next WINDOW);
    on_ok w (fun window =>
      match list.last window with
      | None => Ret (Ok (acc, next))
      | Some last =>
          read_loop fuel' (sat_add u64_max last.1 1) (acc ++ omap parse_entry window)
      end)
  end.

(** Windows read before giving up on a stream that others keep extending. *)
Definition READ_FUEL : nat := 4096.

Definition read_from (from : Z) : prog (res str (list LoadedPayment * Z)) :=
  read_loop READ_FUEL from [].

Definition append (r : PaymentRecord) (committed_hold : option str) : prog (res str Z) :=
  run (lit "append ledger record") (Append (stored_payment r committed_hold)).
End Persist.

Definition load_holds : prog (res str (option Z * HoldsDoc)) :=
  found ← run (lit "read budget holds") GetHolds;
  on_ok found (fun found =>
    match found with
    | None => Ret (Ok (None, ∅))
    | Some (version, inr doc) => Ret (Ok (Some version, doc))
    | Some (_, inl e) => Ret (Err (lit "budget holds document is unreadable: " ++ e))
    end).

Definition store_holds (version : option Z) (doc : HoldsDoc) : prog (res str bool) :=
  Call (PutHolds version doc) (fun r =>
    match r with
    | inr Written => Ret (Ok true)
    | inr Conflict => Ret (Ok false)
    | inl error => Ret (Err (lit "write budget holds: " ++ error))
    end).

Definition STORAGE_SCHEMA_VERSION : Z := 2.
Definition PAYMENTS_IMPORT_EPOCH : str := lit "x402-payments-jsonl-v1".

Definition require_migration_ready : prog (res str unit) :=
  found ← run (lit "read wallet migration readiness") GetReady;
  on_ok found (fun found =>
    match found with
    | None => Ret (Err (lit "wallet storage migration readiness is missing"))
    | Some None => Ret (Err (lit "wallet storage migration readiness is malformed"))
    | Some (Some ready) =>
        if negb (schema_version ready =? STORAGE_SCHEMA_VERSION)
        then Ret (Err (lit "wallet storage migration readiness has the wrong schema version"))
        else if negb (bool_decide (import_epoch ready = PAYMENTS_IMPORT_EPOCH))
        then Ret (Err (lit "wallet legacy payment import is not complete"))
        else Ret (Ok tt)
    end).

Definition refuse_unmigrated : prog (res str unit) :=
  legacy ← run (lit "read legacy payments stream") LegacyLen;
  on_ok legacy (fun legacy =>
    if 0 <? legacy
    then Ret (Err (show_dec legacy ++ lit " unmigrated x402.payments entries: compose storage_schema() and migrate before opening the ledger"))
    else
      holds ← run (lit "check legacy budget holds") LegacyHolds;
      on_ok holds (fun is_some =>
        if is_some : bool
        then Ret (Err (lit "legacy x402 budget holds remain: complete storage migration before opening the ledger"))
        else Ret (Ok tt))).
