(* ===== verification/LedgerOps.v ===== *)
(** The ledger's operations on storage
    ([crates/tinywallet-x402/src/ledger/store.rs], the writing half).

    Each operation is a program of [Store] that threads the ledger's state, in
    the order the code makes its calls; [&mut self] is the ledger argument and
    result.  Shown here: the operations' behaviour when nobody interferes.
    [LedgerSafety] shows what holds when they interleave. *)

From stdpp Require Import base list strings numbers gmap sets.
From S2P Require Import Prelude Text LedgerTypes Ledger Store.

Definition HOLD_CAS_ATTEMPTS : nat := 16.

Section Ops.
Context `{Chrono}.

(** A program that returns the new state and a result. *)
Abbreviation op A := (prog (PaymentLedger * A)).

(** [?] in an operation: on an error the state so far is returned with it. *)
Definition try_ {A B} (l : PaymentLedger) (m : res str A) (f : A -> op (res str B)) : op (res str B) :=
  match m with Ok a => f a | Err e => Ret (l, Err e) | Panic => Ret (l, Panic) end.

(** * Opening and refreshing *)

(** [committed_hold] of every loaded entry, added to a set. *)
Definition add_committed (c : gset str) (fresh : list LoadedPayment) : gset str :=
  foldl (fun c e => match e.2 with Some k => {[ k ]} ∪ c | None => c end) c fresh.

(** [owner] is the process-qualified name the code formats from its pid, the
    generation and the clock. *)
Definition from_persist (session_id owner : str) (budget : SpendingBudget) (generation : Z)
  : prog (res str PaymentLedger) :=
  loaded ← read_from 0;
  on_ok loaded (fun '(entries, next_offset) =>
    Ret (Ok (mkLedger generation (entries.*1) (add_committed ∅ entries) next_offset budget
               session_id owner ∅ ∅))).

Definition open (session_id owner : str) (budget : SpendingBudget) (generation : Z)
  : prog (res str PaymentLedger) :=
  checked ← refuse_unmigrated;
  on_ok checked (fun _ => from_persist session_id owner budget generation).

Definition open_current (session_id owner : str) (budget : SpendingBudget) (generation : Z)
  : prog (res str PaymentLedger) :=
  checked ← require_migration_ready;
  on_ok checked (fun _ => from_persist session_id owner budget generation).

Definition refreshed (l : PaymentLedger) (fresh : list LoadedPayment) (next : Z) : PaymentLedger :=
  with_next_offset
    (with_records (with_committed l (add_committed (committed_holds l) fresh))
       (records l ++ fresh.*1)) next.

Definition refresh_records (l : PaymentLedger) : op (res str unit) :=
  loaded ← read_from (next_offset l);
  try_ l loaded (fun '(fresh, next) => Ret (refreshed l fresh next, Ok tt)).

Definition push_record (l : PaymentLedger) (r : PaymentRecord) : PaymentLedger :=
  with_records l (records l ++ [r]).

Definition append_record (l : PaymentLedger) (record : PaymentRecord) (committed_hold : option str)
  : op (res str unit) :=
  let record := at_millisecond_precision record in
  appended ← append record committed_hold;
  try_ l appended (fun offset =>
    let l := match committed_hold with
             | Some key => with_committed l ({[ key ]} ∪ committed_holds l)
             | None => l
             end in
    if offset =? next_offset l
    then Ret (with_next_offset (push_record l record) (sat_add u64_max offset 1), Ok tt)
    else
      '(l, refreshed) ← refresh_records l;
      if is_ok refreshed then Ret (l, Ok tt) else Ret (push_record l record, Ok tt)).

(** * Reserving *)

(** [doc.holds.retain(..)] of a reservation: unexpired and not committed. *)
Definition live_holds (l : PaymentLedger) (now_ms : Z) (doc : HoldsDoc) : HoldsDoc :=
  filter (fun '(key, hold) => now_ms < h_expires_ms hold /\ key ∉ committed_holds l) doc.

Definition hold_key (l : PaymentLedger) (id : Z) : str := owner l ++ lit ":" ++ show_dec id.

Definition saturating_expiry (now_ms : Z) : Z := sat_add i64_max now_ms HOLD_TTL_MS.

Fixpoint reserve_loop (attempts : nat) (l : PaymentLedger) (now amount : Z)
  : op (res str (sum Z BudgetRefusal)) :=
  match attempts with
  | O => Ret (l, Err (lit "x402 budget hold contention: gave up after repeated conflicts"))
  | S attempts' =>
    let now_ms := timestamp_millis now in
    loaded ← load_holds;
    try_ l loaded (fun '(version, doc) =>
    '(l, fresh) ← refresh_records l;
    try_ l fresh (fun _ =>
    let doc := live_holds l now_ms doc in
    let l := with_holds l doc in
    match refusal (check_budget_at l now amount) with
    | Some refused =>
        again ← load_holds;
        try_ l again (fun '(current, _) =>
          if bool_decide (current = version) then Ret (l, Ok (inr refused))
          else reserve_loop attempts' l now amount)
    | None =>
        id ← Call FreshId Ret;
        match id with
        | inl _ => Spin
        | inr id =>
          let key := hold_key l id in
          let doc := <[key := mkHold amount (saturating_expiry now_ms)]> doc in
          stored ← store_holds version doc;
          try_ l stored (fun stored =>
            if stored : bool
            then Ret (with_reservations (with_holds l doc)
                        (<[id := mkOwn key amount]> (reservations l)), Ok (inl id))
            else reserve_loop attempts' l now amount)
        end
    end))
  end.

Definition reserve_at (l : PaymentLedger) (now amount : Z) : op (res str (sum Z BudgetRefusal)) :=
  if per_request_max_atomic (budget l) <? amount
  then Ret (l, Ok (inr (PerRequest amount (per_request_max_atomic (budget l)))))
  else reserve_loop HOLD_CAS_ATTEMPTS l now amount.

(** * Releasing and renewing *)

(** Storage failures leave the stored hold to expire. *)
Fixpoint release_loop (attempts : nat) (l : PaymentLedger) (key : str) : op unit :=
  match attempts with
  | O => Ret (l, tt)
  | S attempts' =>
    found ← load_holds;
    match found with
    | Ok (Some version, doc) =>
        match doc !! key with
        | None => Ret (l, tt)
        | Some _ =>
            stored ← store_holds (Some version) (delete key doc);
            match stored with
            | Ok false => release_loop attempts' l key
            | _ => Ret (l, tt)
            end
        end
    | _ => Ret (l, tt)
    end
  end.

Definition release (l : PaymentLedger) (id : Z) : op unit :=
  match reservations l !! id with
  | None => Ret (l, tt)
  | Some own =>
      let l := with_reservations l (delete id (reservations l)) in
      let l := with_holds l (delete (o_key own) (holds l)) in
      release_loop HOLD_CAS_ATTEMPTS l (o_key own)
  end.

(** The document with every own hold re-placed at a fresh expiry. *)
Definition renewed (l : PaymentLedger) (now_ms : Z) (doc : HoldsDoc) : HoldsDoc :=
  foldl (fun d own => <[o_key own := mkHold (o_amount own) (saturating_expiry now_ms)]> d)
    (filter (fun '(_, hold) => now_ms < h_expires_ms hold) doc)
    ((map_to_list (reservations l)).*2).

Fixpoint renew_loop (attempts : nat) (l : PaymentLedger) (now_ms : Z) : op (res str Z) :=
  match attempts with
  | O => Ret (l, Err (lit "x402 budget hold renewal: gave up after repeated conflicts"))
  | S attempts' =>
    loaded ← load_holds;
    try_ l loaded (fun '(version, doc) =>
    let doc := renewed l now_ms doc in
    stored ← store_holds version doc;
    try_ l stored (fun stored =>
      if stored : bool
      then Ret (with_holds l doc, Ok (Z.of_nat (size (reservations l))))
      else renew_loop attempts' l now_ms))
  end.

Definition renew_holds_at (l : PaymentLedger) (now : Z) : op (res str Z) :=
  if bool_decide (reservations l = ∅) then Ret (l, Ok 0)
  else renew_loop HOLD_CAS_ATTEMPTS l (timestamp_millis now).

(** * Recording *)

Definition own_key (l : PaymentLedger) (id : Z) : option str := o_key <$> reservations l !! id.

Definition commit_reservation (l : PaymentLedger) (id : Z) (record : PaymentRecord) : op unit :=
  '(l, appended) ← append_record l record (own_key l id);
  let l := if is_ok appended then l else push_record l (at_millisecond_precision record) in
  release l id.

Definition record_payment (l : PaymentLedger) (record : PaymentRecord) : op unit :=
  '(l, appended) ← append_record l record None;
  Ret (if is_ok appended then l else push_record l (at_millisecond_precision record), tt).

Definition try_record_payment (l : PaymentLedger) (record : PaymentRecord) : op (res str unit) :=
  append_record l record None.

Definition try_commit_reservation (l : PaymentLedger) (id : Z) (record : PaymentRecord)
  : op (res str unit) :=
  '(l, appended) ← append_record l record (own_key l id);
  try_ l appended (fun _ =>
    '(l, _) ← release l id;
    Ret (l, Ok tt)).

Definition with_expiry (r : PaymentRecord) (observed_at observed_height : Z) : PaymentRecord :=
  mkRecord (p_id r) (p_url r) (p_asset r) (p_amount_atomic r) (p_amount_display r)
    (p_recipient r) (p_network r) (p_tx_signature r) (p_status r) (p_timestamp r)
    (p_authorization_valid_until r) (p_solana_last_valid_block_height r)
    (Some observed_at) (Some observed_height) (p_session_id r) (p_thread_id r).

Definition observe_solana_expiry (l : PaymentLedger) (expected_generation : Z) (id : str)
    (expected_issued_at expected_last_valid_height observed_height observed_at : Z)
  : op (res str bool) :=
  if negb (generation l =? expected_generation) || (observed_height <=? expected_last_valid_height)
  then Ret (l, Ok false)
  else
    '(l, fresh) ← refresh_records l;
    try_ l fresh (fun _ =>
      match payment l id with
      | None => Ret (l, Ok false)
      | Some latest =>
          if negb (bool_decide (p_status latest = Pending))
             || negb (p_timestamp latest =? expected_issued_at)
             || negb (bool_decide (p_solana_last_valid_block_height latest
                                   = Some expected_last_valid_height))
             || bool_decide (is_Some (p_authorization_expired_at latest))
             || (observed_at <? p_timestamp latest)
          then Ret (l, Ok false)
          else
            '(l, recorded) ← try_record_payment l (with_expiry latest observed_at observed_height);
            try_ l recorded (fun _ => Ret (l, Ok true))
      end).
End Ops.
