(* ===== verification/LedgerLogic.v ===== *)
(** Interleaved ledgers: the storage contract and the proof rules.

    [Shared] is the storage several ledgers work on, [port_step] what the
    storage ports promise about one call (documented behaviour of the storage
    crate: reads see the current state, an append lands at the end, a
    conditional put lands only on the version it names, any call may fail, a
    write may land and still report failure).  [safe] says that a program keeps
    the budget invariant whatever the other ledgers do between its calls; it has
    one rule per kind of call, used by [LedgerSafety] for every operation. *)

From stdpp Require Import base list strings numbers gmap sets.
From S2P Require Import Prelude Text LedgerTypes Ledger Store LedgerOps.

(** * Sums over holds and records *)

Lemma held_total_empty : held_total ∅ = 0.
Proof. reflexivity. Qed.

Lemma held_total_insert (d : HoldsDoc) k h :
  d !! k = None -> held_total (<[k := h]> d) = h_amount h + held_total d.
Proof.
  intros Hk. unfold held_total.
  rewrite (sum_of_perm _ _ (((k, h) :: map_to_list d).*2)); [reflexivity|].
  apply fmap_Permutation. apply map_to_list_insert. exact Hk.
Qed.

Lemma held_total_delete (d : HoldsDoc) k h :
  d !! k = Some h -> held_total d = h_amount h + held_total (delete k d).
Proof.
  intros Hk. rewrite <- (held_total_insert (delete k d) k h) by apply lookup_delete_eq.
  rewrite insert_delete_id by exact Hk. reflexivity.
Qed.

Abbreviation holds_ok := (map_Forall (fun (_ : str) h => hold_ok h)).

Lemma holds_ok_sub (d d' : HoldsDoc) : d ⊆ d' -> holds_ok d' -> holds_ok d.
Proof. intros Hs Hd k h Hk. apply (Hd k h). eapply lookup_weaken; eauto. Qed.

(** More holds, or larger ones, hold more. *)
Lemma held_total_amounts (d d' : HoldsDoc) :
  (forall k h, d !! k = Some h -> exists h', d' !! k = Some h' /\ h_amount h <= h_amount h') ->
  holds_ok d' -> held_total d <= held_total d'.
Proof.
  revert d'. induction d as [|k h d Hk IH] using map_ind; intros d' Hs Hd.
  - apply sum_of_nonneg, holds_nonneg, Hd.
  - rewrite held_total_insert by exact Hk.
    destruct (Hs k h (lookup_insert_eq _ _ _)) as (h' & Hh' & Hle). rewrite (held_total_delete d' k h' Hh').
    assert (held_total d <= held_total (delete k d')); [|lia]. apply IH.
    + intros k1 h1 H1. destruct (decide (k1 = k)) as [->|Hne]; [congruence|].
      destruct (Hs k1 h1) as (h2 & H2 & Hle2); [rewrite lookup_insert_ne by congruence; exact H1|].
      exists h2. rewrite lookup_delete_ne by congruence. auto.
    + eapply holds_ok_sub; [apply delete_subseteq | exact Hd].
Qed.

Lemma held_total_mono (d d' : HoldsDoc) : d ⊆ d' -> holds_ok d' -> held_total d <= held_total d'.
Proof.
  intros Hs. apply held_total_amounts. intros k h Hk. exists h. split; [|lia]. eapply lookup_weaken; eauto.
Qed.

Lemma held_total_insert_le (d : HoldsDoc) k h :
  holds_ok d -> held_total (<[k := h]> d) <= h_amount h + held_total d.
Proof.
  intros Hd. rewrite <- insert_delete_eq. rewrite held_total_insert by apply lookup_delete_eq.
  pose proof (held_total_mono (delete k d) d (delete_subseteq _ _) Hd). lia.
Qed.

(** A record with a new id adds at most its amount. *)
Lemma charge_of_fresh keep rs r :
  latest_by_id rs !! p_id r = None ->
  charge_of keep (rs ++ [r]) = (if keep r then p_amount_atomic r else 0) + charge_of keep rs.
Proof.
  intros Hid. unfold charge_of, latest_of. rewrite latest_by_id_snoc.
  rewrite (sum_of_perm _ _ (filter keep (((p_id r, r) :: map_to_list (latest_by_id rs)).*2))).
  - rewrite fmap_cons, filter_cons. cbn [snd]. destruct (keep r) eqn:E.
    + rewrite decide_True by exact I. reflexivity.
    + rewrite decide_False by tauto. reflexivity.
  - apply filter_Permutation, fmap_Permutation, map_to_list_insert. exact Hid.
Qed.

Lemma charge_of_latest keep rs rs' :
  latest_by_id rs = latest_by_id rs' -> charge_of keep rs = charge_of keep rs'.
Proof. unfold charge_of, latest_of. intros ->. reflexivity. Qed.

Lemma latest_by_id_app rs rs' t :
  latest_by_id rs = latest_by_id rs' -> latest_by_id (rs ++ t) = latest_by_id (rs' ++ t).
Proof. unfold latest_by_id. intros E. rewrite !foldl_app, E. reflexivity. Qed.

(** Later records win. *)
Lemma latest_by_id_union rs t : latest_by_id (rs ++ t) = latest_by_id t ∪ latest_by_id rs.
Proof.
  induction t as [|x t IH] using rev_ind.
  - rewrite app_nil_r. symmetry. apply map_empty_union.
  - rewrite app_assoc, !latest_by_id_snoc, IH, insert_union_l. reflexivity.
Qed.

Lemma latest_by_id_dom rs id : is_Some (latest_by_id rs !! id) <-> id ∈ p_id <$> rs.
Proof.
  induction rs as [|x rs IH] using rev_ind.
  - split; [intros [r [=]] | intros H; inversion H].
  - rewrite latest_by_id_snoc, fmap_app, elem_of_app, <- IH. cbn [fmap list_fmap]. rewrite list_elem_of_singleton.
    destruct (decide (id = p_id x)) as [->|Hne].
    + rewrite lookup_insert_eq. split; [auto | intros _; eauto].
    + rewrite lookup_insert_ne by congruence. tauto.
Qed.

(** A record that a later one replaces changes nothing. *)
Lemma latest_by_id_replaced rs r t :
  p_id r ∈ p_id <$> t -> latest_by_id ((rs ++ [r]) ++ t) = latest_by_id (rs ++ t).
Proof.
  rewrite <- latest_by_id_dom. intros [r' Hr]. rewrite !(latest_by_id_union _ t), latest_by_id_snoc.
  apply map_eq. intros id. rewrite !lookup_union.
  destruct (decide (id = p_id r)) as [->|Hne].
  - rewrite Hr, !union_Some_l. reflexivity.
  - rewrite lookup_insert_ne by congruence. reflexivity.
Qed.

(** * Shared storage *)

(** [sh_next] is the reservation counter of each ledger's process, [sh_clock]
    bounds the versions handed out, [sh_time] is the time in milliseconds. *)
Record Shared := mkShared {
  sh_stream : list Entry;
  sh_doc : option (Z * HoldsDoc);
  sh_clock : Z;
  sh_time : Z;
  sh_next : nat -> Z
}.

Definition holds_of (s : Shared) : HoldsDoc := default ∅ (snd <$> sh_doc s).
Definition end_of (s : Shared) : Z := Z.of_nat (length (sh_stream s)).

Definition appended (s : Shared) (e : Entry) : Shared :=
  mkShared (sh_stream s ++ [e]) (sh_doc s) (sh_clock s) (sh_time s) (sh_next s).
Definition put (s : Shared) (v : Z) (d : HoldsDoc) : Shared :=
  mkShared (sh_stream s) (Some (v, d)) v (sh_time s) (sh_next s).
Definition issued (s : Shared) (i : nat) (next : Z) : Shared :=
  mkShared (sh_stream s) (sh_doc s) (sh_clock s) (sh_time s)
    (fun j => if decide (j = i) then next else sh_next s j).
Definition at_time (s : Shared) (t : Z) : Shared :=
  mkShared (sh_stream s) (sh_doc s) (sh_clock s) t (sh_next s).

(** Up to [n] entries from offset [from], an entry's offset being its position. *)
Definition window (from : Z) (n : nat) (es : list Entry) : list (Z * Entry) :=
  let part := take n (drop (Z.to_nat from) es) in
  zip (seqZ from (Z.of_nat (length part))) part.

Definition failed {R} (r : str + R) : Prop := exists e, r = inl e.

(** The hold document as a read answers it. *)
Definition doc_answer (d : option (Z * HoldsDoc)) : option (Z * (str + HoldsDoc)) :=
  match d with Some (v, body) => Some (v, inr body) | None => None end.

(** One call of ledger [i]: what it may answer and leave behind. *)
Definition port_step (i : nat) {R} (c : call R) (s : Shared) : str + R -> Shared -> Prop :=
  match c in call R return str + R -> Shared -> Prop with
  | ReadWindow from n => fun r s' => s' = s /\ (failed r \/ r = inr (window from n (sh_stream s)))
  | Append e => fun r s' =>
      (s' = s /\ failed r) \/ (s' = appended s (Some e) /\ (failed r \/ r = inr (end_of s)))
  | GetHolds => fun r s' =>
      s' = s /\ (failed r \/ r = inr (doc_answer (sh_doc s)))
  | PutHolds version d => fun r s' =>
      (s' = s /\ (failed r \/ r = inr Conflict)) \/
      (exists v, version = fst <$> sh_doc s /\ sh_clock s < v /\ s' = put s v d /\
         (failed r \/ r = inr Written))
  | GetReady => fun r s' => s' = s
  | LegacyLen => fun r s' => s' = s
  | LegacyHolds => fun r s' => s' = s
  | FreshId => fun r s' =>
      exists id, r = inr id /\ 0 <= id < u64_max /\ sh_next s i <= id /\ s' = issued s i (id + 1)
  end.

Section Loading.
Context {CH : Chrono} {CL : ChronoLaws}.
(** What a ledger that reads these entries loads, keeps and treats as committed. *)
Definition loaded (es : list Entry) : list LoadedPayment := omap (fun e => parse_entry (0, e)) es.
Definition parsed (es : list Entry) : list PaymentRecord := (loaded es).*1.
Definition commits (es : list Entry) : gset str := list_to_set (omap snd (loaded es)).

(** Holds that still count: unexpired, and not yet turned into a record. *)
Definition counted (t : Z) (es : list Entry) (d : HoldsDoc) : HoldsDoc :=
  filter (fun '(k, h) => t < h_expires_ms h /\ k ∉ commits es) d.

Lemma loaded_app a b : loaded (a ++ b) = loaded a ++ loaded b.
Proof. apply omap_app. Qed.

Lemma parsed_app a b : parsed (a ++ b) = parsed a ++ parsed b.
Proof. unfold parsed. rewrite loaded_app. apply fmap_app. Qed.

Lemma commits_app a b : commits (a ++ b) = commits a ∪ commits b.
Proof. unfold commits. rewrite loaded_app, omap_app, list_to_set_app_L. reflexivity. Qed.

Lemma loaded_stored r k : loaded [Some (stored_payment r k)] = [(at_millisecond_precision r, k)].
Proof. unfold loaded, parse_entry. cbn. rewrite into_record_stored. reflexivity. Qed.

Lemma commits_stored r k :
  commits [Some (stored_payment r k)] = match k with Some key => {[ key ]} | None => ∅ end.
Proof. unfold commits. rewrite loaded_stored. destruct k; cbn; set_solver. Qed.

Lemma parsed_stored r k : parsed [Some (stored_payment r k)] = [at_millisecond_precision r].
Proof. unfold parsed. rewrite loaded_stored. reflexivity. Qed.

Lemma counted_lookup t es d k h :
  counted t es d !! k = Some h <-> d !! k = Some h /\ t < h_expires_ms h /\ k ∉ commits es.
Proof. unfold counted. rewrite map_lookup_filter_Some. tauto. Qed.

Lemma counted_mono t t' es es' d :
  t <= t' -> commits es ⊆ commits es' -> counted t' es' d ⊆ counted t es d.
Proof.
  intros Ht Hc. apply map_subseteq_spec. intros k h. rewrite !counted_lookup.
  intros (Hk & He & Hn). split_and!; [exact Hk | lia | set_solver].
Qed.

Lemma counted_sub t es d : counted t es d ⊆ d.
Proof. apply map_filter_subseteq. Qed.

End Loading.

Section Totals.
Context {CH : Chrono} {CL : ChronoLaws}.
(** The records that count, those of a day or of a month. *)
Context (keep : PaymentRecord -> bool).

(** Everything charged against the window. *)
Definition total (s : Shared) : Z :=
  held_total (counted (sh_time s) (sh_stream s) (holds_of s)) + charge_of keep (parsed (sh_stream s)).

(** ** Claims: the holds a ledger relies on *)

Definition claim_held (s : Shared) (k : str) (a : Z) : Prop :=
  k ∈ commits (sh_stream s) \/
  exists h, holds_of s !! k = Some h /\ h_amount h = a /\ sh_time s < h_expires_ms h.

(** An append a caller may make: it does not raise what is charged, or it is
    the first record of its payment and the first commit of its hold. *)
Definition append_allowed (s : Shared) (e : StoredPayment) : Prop :=
  end_of s < u64_max /\
  (charge_of keep (parsed (sh_stream s ++ [Some e])) <= charge_of keep (parsed (sh_stream s)) \/
   match s_committed_hold e with
   | Some k => (k ∉ commits (sh_stream s)) /\ latest_by_id (parsed (sh_stream s)) !! s_id e = None
   | None => False
   end).

Definition call_allowed {R} (c : call R) (s : Shared) : Prop :=
  match c with Append e => append_allowed s e | _ => True end.

#[export] Instance append_allowed_dec s e : Decision (append_allowed s e).
Proof. unfold append_allowed. destruct (s_committed_hold e); apply _. Defined.

(** An allowed append of a record within its claim never raises the total. *)
Lemma total_append s r k :
  holds_ok (holds_of s) -> record_ok r -> append_allowed s (stored_payment r k) ->
  (forall key, k = Some key -> exists a, claim_held s key a /\ p_amount_atomic r <= a) ->
  total (appended s (Some (stored_payment r k))) <= total s.
Proof.
  intros Hd Hr [_ Ha] Hk. unfold total. cbn [sh_time sh_stream appended holds_of sh_doc].
  set (c := counted (sh_time s) (sh_stream s) (holds_of s)).
  assert (Hc : holds_ok c) by (eapply holds_ok_sub; [apply counted_sub | exact Hd]).
  assert (Hsub : counted (sh_time s) (sh_stream s ++ [Some (stored_payment r k)]) (holds_of s) ⊆ c)
    by (apply counted_mono; [lia | rewrite commits_app; set_solver]).
  destruct Ha as [Ha | Ha].
  { pose proof (held_total_mono _ _ Hsub Hc). unfold holds_of in *. cbn in *. lia. }
  cbn [s_committed_hold stored_payment] in Ha. destruct k as [key|]; [|destruct Ha]. destruct Ha as [Hn Hid].
  destruct (Hk key eq_refl) as (a & [Hin | (h & Hh & Eh & Het)] & Hle); [tauto|].
  assert (Hch : c !! key = Some h) by (apply counted_lookup; auto).
  rewrite (held_total_delete c key h Hch), parsed_app, parsed_stored, charge_of_fresh by exact Hid.
  assert (Hsub' : counted (sh_time s) (sh_stream s ++ [Some (stored_payment r (Some key))]) (holds_of s)
                  ⊆ delete key c).
  { apply map_subseteq_spec. intros k h' Hl. pose proof (lookup_weaken _ _ _ _ Hl Hsub) as Hl'.
    apply counted_lookup in Hl as (_ & _ & Hl). rewrite commits_app, commits_stored in Hl.
    rewrite lookup_delete_ne by set_solver. exact Hl'. }
  pose proof (held_total_mono _ _ Hsub' (holds_ok_sub _ _ (delete_subseteq _ _) Hc)).
  unfold record_ok, is_u64 in Hr. unfold holds_of in *. cbn in *.
  destruct (keep (at_millisecond_precision r)); lia.
Qed.

(** A put that only drops holds, or changes their expiry. *)
Lemma total_put_le s v d :
  holds_ok (holds_of s) ->
  (forall k h, counted (sh_time s) (sh_stream s) d !! k = Some h ->
     exists h', counted (sh_time s) (sh_stream s) (holds_of s) !! k = Some h' /\ h_amount h <= h_amount h') ->
  total (put s v d) <= total s.
Proof.
  intros Hok Hs. unfold total.
  change (holds_of (put s v d)) with d. cbn [put sh_time sh_stream].
  enough (held_total (counted (sh_time s) (sh_stream s) d)
          <= held_total (counted (sh_time s) (sh_stream s) (holds_of s))) by lia.
  apply held_total_amounts; [exact Hs|]. eapply holds_ok_sub; [apply counted_sub | exact Hok].
Qed.
End Totals.

(** * Rely and guarantee *)

Section Rely.
Context {CH : Chrono} {CL : ChronoLaws}.
Context (keep : PaymentRecord -> bool) (cap : Z).

(** What always holds of the storage. *)
Definition sane (s : Shared) : Prop :=
  Forall record_ok (parsed (sh_stream s)) /\ holds_ok (holds_of s) /\
  (forall v d, sh_doc s = Some (v, d) -> v <= sh_clock s) /\
  end_of s <= u64_max /\ total keep s <= cap.

(** What any step by anyone does to it: the stream grows, clocks and counters
    advance, and either the hold document is untouched and the total has not
    risen, or the document has a version never seen before. *)
Definition evolves (s s' : Shared) : Prop :=
  (exists t, sh_stream s' = sh_stream s ++ t) /\
  sh_time s <= sh_time s' /\ sh_clock s <= sh_clock s' /\ (forall i, sh_next s i <= sh_next s' i) /\
  ((sh_doc s' = sh_doc s /\ total keep s' <= total keep s) \/
   (exists v d, sh_doc s' = Some (v, d) /\ sh_clock s < v)).

Abbreviation claims := (gmap str Z).

Definition claims_held (c : claims) (s : Shared) : Prop := map_Forall (claim_held s) c.

(** What a ledger with claims [c] may count on between its calls. *)
Definition rely (c : claims) (s s' : Shared) : Prop :=
  evolves s s' /\ sane s' /\ claims_held c s'.

Lemma evolves_refl s : evolves s s.
Proof. unfold evolves. split_and!; try lia; [exists []; rewrite app_nil_r; reflexivity|]. left. split; [reflexivity | lia]. Qed.

Lemma evolves_trans a b c : evolves a b -> evolves b c -> evolves a c.
Proof.
  intros ([t Et] & Ht & Hc & Hn & Hd) ([t' Et'] & Ht' & Hc' & Hn' & Hd'). unfold evolves. split_and!; try lia.
  - exists (t ++ t'). rewrite Et', Et, app_assoc. reflexivity.
  - intros i. specialize (Hn i). specialize (Hn' i). lia.
  - destruct Hd' as [[Ed' Htot'] | (v & d & E & Hv)]; [|right; exists v, d; split; [exact E | lia]].
    destruct Hd as [[Ed Htot] | (v & d & E & Hv)].
    + left. split; [congruence | lia].
    + right. exists v, d. split; [congruence | exact Hv].
Qed.

Lemma rely_refl c s : sane s -> claims_held c s -> rely c s s.
Proof. intros Hs Hc. split_and!; auto using evolves_refl. Qed.

Lemma rely_trans c c' a b d : rely c a b -> rely c' b d -> rely c' a d.
Proof. intros (H1 & _ & _) (H2 & H3 & H4). split_and!; eauto using evolves_trans. Qed.

Lemma rely_weaken c c' a b : c' ⊆ c -> rely c a b -> rely c' a b.
Proof.
  intros Hsub (H1 & H2 & H3). split_and!; auto. intros k x Hk. apply (H3 k x). eapply lookup_weaken; eauto.
Qed.

(** A conditional put that succeeds found the document its version was read from. *)
Lemma cas_same_doc c s s' :
  sane s -> rely c s s' -> fst <$> sh_doc s' = fst <$> sh_doc s ->
  sh_doc s' = sh_doc s /\ total keep s' <= total keep s.
Proof.
  intros (_ & _ & Hv & _) ((_ & _ & _ & _ & [Hd | (v & d & E & Hlt)]) & _) Ev; [exact Hd|].
  rewrite E in Ev. destruct (sh_doc s) as [[v' d']|] eqn:E'; [|discriminate].
  injection Ev as ->. specialize (Hv v' d' eq_refl). lia.
Qed.

(** Nor did anyone write it in between. *)
Lemma cas_between c a b d :
  sane a -> rely c a b -> rely c b d -> fst <$> sh_doc d = fst <$> sh_doc a ->
  sh_doc b = sh_doc a /\ sh_doc d = sh_doc b /\ total keep d <= total keep b.
Proof.
  intros Ha Hab Hbd Ev. destruct (cas_same_doc c a d Ha (rely_trans _ _ _ _ _ Hab Hbd) Ev) as [Ed _].
  destruct Hab as ((_ & _ & Hc & _ & Hdoc) & Hb & _). destruct Hbd as ((_ & _ & _ & _ & Hdoc') & _).
  destruct Ha as (_ & _ & Hv & _). destruct Hdoc' as [[E H] | (v & x & E & Hlt)].
  - split_and!; congruence || exact H.
  - rewrite <- Ed in Hv. specialize (Hv v x E). lia.
Qed.

Lemma commits_mono s s' : evolves s s' -> commits (sh_stream s) ⊆ commits (sh_stream s').
Proof. intros ([t ->] & _). rewrite commits_app. set_solver. Qed.

(** ** Safe programs

    Ledger [i] runs an operation started at [now] with the ledger [start]. *)
Section Safe.
Context (i : nat) (name : nat -> str) (now : Z) (start : PaymentLedger).

Definition own_of (i : nat) (k : str) : Prop := exists n, is_u64 n /\ k = name i ++ lit ":" ++ show_dec n.

(** Leases outlive the operation. *)
Definition on_time (s : Shared) : Prop :=
  timestamp_millis now <= sh_time s < saturating_expiry (timestamp_millis now).

(** The claims are holds the ledger owned when the operation started. *)
Definition within (c : claims) (l : PaymentLedger) : Prop :=
  map_Forall (fun k a => exists id, reservations l !! id = Some (mkOwn k a)) c.

(** What a step of this ledger, going from claims [c] to [c'], gives the others. *)
Definition guarantee (s : Shared) (c' : claims) (s' : Shared) : Prop :=
  rely c' s s' /\ map_Forall (fun k _ => own_of i k) c' /\
  (forall k a, ~ own_of i k -> claim_held s k a -> claim_held s' k a).

Definition own_claims (c : claims) : Prop := map_Forall (fun k _ => own_of i k) c.

Fixpoint safe {A} (p : prog A) (Q : A -> claims -> Shared -> Prop) (c : claims) (s : Shared) : Prop :=
  match p with
  | Ret a => Q a c s
  | Spin => True
  | Call call k =>
      within c start /\
      forall s1, own_claims c -> rely c s s1 -> on_time s1 -> call_allowed keep call s1 ->
      forall r s2, port_step i call s1 r s2 ->
      exists c', guarantee s1 c' s2 /\ safe (k r) Q c' s2
  end.

Lemma safe_bind {A B} (p : prog A) (f : A -> prog B) Q R c s :
  safe p Q c s -> (forall a c' s', Q a c' s' -> safe (f a) R c' s') -> safe (p ≫= f) R c s.
Proof.
  intros Hp Hf. revert c s Hp. induction p as [a | X call k IH |]; intros c s Hp; cbn in *; [auto | | exact I].
  destruct Hp as [Hw Hp]. split; [exact Hw|]. intros s1 Ho Hr Ht Hal r s2 Hs.
  destruct (Hp s1 Ho Hr Ht Hal r s2 Hs) as (c' & Hg & Hk). exists c'. split; [exact Hg|]. apply IH, Hk.
Qed.

Lemma safe_mono {A} (p : prog A) (Q R : A -> claims -> Shared -> Prop) c s :
  safe p Q c s -> (forall a c' s', Q a c' s' -> R a c' s') -> safe p R c s.
Proof.
  intros Hp Hf. revert c s Hp. induction p as [a | X call k IH |]; intros c s Hp; cbn in *; [auto | | exact I].
  destruct Hp as [Hw Hp]. split; [exact Hw|]. intros s1 Ho Hr Ht Hal r s2 Hs.
  destruct (Hp s1 Ho Hr Ht Hal r s2 Hs) as (c' & Hg & Hk). exists c'. split; [exact Hg|]. apply IH, Hk.
Qed.

(** A step that changes nothing may drop claims. *)
Lemma guarantee_read c c' s s1 :
  own_claims c -> c' ⊆ c -> rely c s s1 -> guarantee s1 c' s1.
Proof.
  intros Ho Hsub Hr. pose proof (rely_weaken _ _ _ _ Hsub Hr) as (_ & Hs & Hc). split_and!.
  - apply rely_refl; assumption.
  - intros k a Hk. apply (Ho k a). eapply lookup_weaken; eauto.
  - tauto.
Qed.

Lemma guarantee_rely c c' s s1 s2 : rely c s s1 -> guarantee s1 c' s2 -> rely c' s s2.
Proof. intros H1 (H2 & _). eapply rely_trans; eauto. Qed.

(** A program about to make a call may first drop claims. *)
Definition is_call {A} (p : prog A) : Prop := match p with Call _ _ => True | _ => False end.

Lemma safe_drop {A} (p : prog A) Q c c' s :
  is_call p -> c' ⊆ c -> within c start -> safe p Q c' s -> safe p Q c s.
Proof.
  intros Hp Hsub Hw. destruct p as [| X call k |]; [destruct Hp | | destruct Hp].
  intros [_ Hs]. split; [exact Hw|]. intros s1 Ho Hr. apply Hs.
  - intros x a Hx. apply (Ho x a). eapply lookup_weaken; eauto.
  - eapply rely_weaken; eauto.
Qed.

(** ** Reads *)

Lemma safe_run_read {R} what (call : call R) c s :
  (forall s r s', port_step i call s r s' -> s' = s) -> within c start ->
  safe (run what call)
    (fun m c' s' => c' = c /\ rely c s s' /\ on_time s' /\
       match m with Ok v => port_step i call s' (inr v) s' | Err _ => True | Panic => False end) c s.
Proof.
  intros Hro Hw. cbn. split; [exact Hw|]. intros s1 Ho Hr Ht _ r s2 Hs.
  pose proof (Hro _ _ _ Hs) as ->. exists c. split; [eapply guarantee_read; eauto|].
  destruct r; cbn; auto.
Qed.

Lemma safe_load_holds c s :
  within c start ->
  safe load_holds
    (fun m c' s' => c' = c /\ rely c s s' /\ on_time s' /\
       match m with
       | Ok (version, doc) => version = fst <$> sh_doc s' /\ doc = holds_of s'
       | Err _ => True
       | Panic => False
       end) c s.
Proof.
  intros Hw. unfold load_holds. eapply safe_bind.
  { apply safe_run_read; [intros ? ? ? [-> _]; reflexivity | exact Hw]. }
  cbn beta. intros m c' s' (-> & Hr & Ht & Hm). destruct m as [found | e |]; [|cbn; auto | destruct Hm].
  destruct Hm as [_ [[e [=]] | [= ->]]]. cbn [on_ok]. unfold holds_of.
  destruct (sh_doc s') as [[v d]|] eqn:Ed; cbn; rewrite ?Ed; split_and!; auto.
Qed.

(** A new reservation id is larger than any this process drew before. *)
Lemma safe_fresh_id c s :
  within c start ->
  safe (Call FreshId Ret)
    (fun m c' s' => c' = c /\ rely c s s' /\ on_time s' /\
       exists id s1, m = inr id /\ rely c s s1 /\ 0 <= id < u64_max /\ sh_next s1 i <= id /\
         sh_next s' i = id + 1) c s.
Proof.
  intros Hw. cbn. split; [exact Hw|]. intros s1 Ho Hr Ht _ r s2 (id & -> & Hid & Hn & ->).
  pose proof Hr as (_ & Hs & Hc).
  assert (Hg : guarantee s1 c (issued s1 i (id + 1))).
  { split; [split; [|split]|split]; [| exact Hs | exact Hc | exact Ho | tauto].
    unfold evolves. cbn. split_and!; try lia; [exists []; rewrite app_nil_r; reflexivity | |].
    - intros j. destruct (decide (j = i)) as [->|]; lia.
    - left. split; [reflexivity|]. apply Z.le_refl. }
  exists c. split; [exact Hg|]. split_and!; [reflexivity | eapply guarantee_rely; eauto | exact Ht |].
  exists id, s1. split_and!; auto; try lia. cbn. rewrite decide_True by reflexivity. reflexivity.
Qed.

(** ** Conditional puts

    [c1] are the claims after a reported success, [c2] after anything else. *)
Lemma safe_store_holds version d c c1 c2 s :
  within c start -> c2 ⊆ c ->
  (forall s1 v, own_claims c -> rely c s s1 -> on_time s1 -> version = fst <$> sh_doc s1 ->
     sh_clock s1 < v -> guarantee s1 c1 (put s1 v d) /\ guarantee s1 c2 (put s1 v d)) ->
  safe (store_holds version d)
    (fun m c' s' => rely c' s s' /\ own_claims c' /\ on_time s' /\
       match m with
       | Ok true => c' = c1 /\ exists s1 v, s' = put s1 v d
       | Panic => False
       | _ => c' = c2
       end) c s.
Proof.
  intros Hw Hsub Hput. cbn. split; [exact Hw|]. intros s1 Ho Hr Ht _ r s2 [[-> Hf] | (v & Ev & Hv & -> & Hf)].
  - pose proof (guarantee_read _ _ _ _ Ho Hsub Hr) as Hg. exists c2. split; [exact Hg|].
    pose proof (guarantee_rely _ _ _ _ _ Hr Hg). destruct Hg as (_ & Ho2 & _).
    destruct Hf as [[e ->] | ->]; cbn; auto.
  - destruct (Hput s1 v Ho Hr Ht Ev Hv) as [Hg1 Hg2].
    destruct Hf as [[e ->] | ->]; [exists c2 | exists c1]; (split; [eassumption|]; cbn).
    + split_and!; [eapply guarantee_rely; eauto | apply Hg2 | apply Ht | reflexivity].
    + split_and!; [eapply guarantee_rely; eauto | apply Hg1 | apply Ht | reflexivity | eauto].
Qed.

(** A put that keeps the total and the others' holds. *)
Lemma guarantee_put c c' s s1 v d :
  rely c s s1 -> sh_clock s1 < v -> holds_ok d -> map_Forall (fun k _ => own_of i k) c' ->
  total keep (put s1 v d) <= cap ->
  claims_held c' (put s1 v d) ->
  (forall k h, ~ own_of i k -> k ∉ commits (sh_stream s1) -> holds_of s1 !! k = Some h ->
     sh_time s1 < h_expires_ms h -> d !! k = Some h) ->
  guarantee s1 c' (put s1 v d).
Proof.
  intros (_ & (Hrec & Hholds & Hver & Hend & Htot) & Hcl) Hv Hd Ho Ht Hc Hoth. split; [split; [|split]|split].
  - unfold evolves. cbn. split_and!; try lia; [exists []; rewrite app_nil_r; reflexivity|].
    right. exists v, d. auto.
  - unfold sane. cbn. split_and!; auto. intros v' d' [= <- <-]. lia.
  - exact Hc.
  - exact Ho.
  - intros k a Hk [Hin | (h & Hh & Ha & He)]; [left; exact Hin|].
    destruct (decide (k ∈ commits (sh_stream s1))) as [Hin|Hin]; [left; exact Hin|].
    right. exists h. split_and!; auto.
Qed.

(** ** Appends *)

Lemma safe_append r key c s :
  within c start -> record_ok r ->
  (forall k, key = Some k -> exists a, c !! k = Some a /\ p_amount_atomic r <= a) ->
  safe (append r key)
    (fun m c' s' => c' = c /\ rely c s s' /\ on_time s' /\
       match m with
       | Ok offset => exists s1, rely c s s1 /\ offset = end_of s1 /\
                        s' = appended s1 (Some (stored_payment r key))
       | Err _ => True
       | Panic => False
       end) c s.
Proof.
  intros Hw Hr Hk. cbn. split; [exact Hw|]. intros s1 Ho Hrel Ht Hal r' s2 Hs.
  assert (Hg : guarantee s1 c s2).
  { destruct Hs as [[-> _] | [-> _]]; [eapply guarantee_read; eauto|].
    pose proof Hrel as (_ & (Hrec & Hholds & Hver & Hend & Htot) & Hcl).
    assert (Hle : total keep (appended s1 (Some (stored_payment r key))) <= total keep s1).
    { apply total_append; auto. intros k E. destruct (Hk k E) as (a & Ha & Hle). exists a. split; [|exact Hle].
      apply (Hcl k a Ha). }
    assert (Hheld : forall k a, claim_held s1 k a -> claim_held (appended s1 (Some (stored_payment r key))) k a).
    { intros k a [Hin | Hh]; [left | right; exact Hh]. cbn [sh_stream appended].
      rewrite commits_app. set_solver. }
    split; [split; [|split]|split].
    - unfold evolves. cbn [sh_stream appended sh_doc sh_clock sh_time sh_next]. split_and!; try lia; [eexists; reflexivity | left; split; [reflexivity | exact Hle]].
    - unfold sane. destruct Hal as [Hal _]. unfold end_of in *. cbn [sh_stream appended sh_doc sh_clock].
      rewrite length_app, parsed_app, parsed_stored. cbn [length]. split_and!; auto; try lia.
      apply Forall_app. split; [exact Hrec|]. repeat constructor; apply Hr.
    - intros k a Hka. apply Hheld, Hcl, Hka.
    - exact Ho.
    - intros k a _. apply Hheld. }
  exists c. split; [exact Hg|]. pose proof (guarantee_rely _ _ _ _ _ Hrel Hg) as Hrel2.
  destruct Hs as [[-> [e ->]] | [-> [[e ->] | ->]]]; cbn; auto.
  split_and!; auto. exists s1. auto.
Qed.
End Safe.
End Rely.
