(* ===== verification/LedgerSafety.v ===== *)
(** Several ledgers on one storage never overspend together.

    Any number of ledgers run reservations, commits, releases, renewals and
    record appends against one storage, their calls interleaved in any order,
    calls failing and acknowledgements lost.  Shown here: what is held and
    recorded against the day or the month stays within the cap every ledger
    enforces, and every hold a ledger believes it owns really is counted, as
    long as leases are renewed before they lapse; and that this last condition is
    necessary. *)

From stdpp Require Import base list strings numbers gmap sets.
From S2P Require Import Prelude Text LedgerTypes Ledger Store LedgerOps LedgerLogic.

(** * Reading the stream *)

Lemma zip_seqZ_last {A} from (part : list A) :
  list.last (zip (seqZ from (Z.of_nat (length part))) part)
  = (fun x => (from + Z.of_nat (length part) - 1, x)) <$> list.last part.
Proof.
  induction part as [|x part _] using rev_ind; [reflexivity|].
  rewrite length_app, last_snoc. cbn [length]. rewrite Nat.add_1_r, seqZ_S.
  rewrite zip_with_app by (rewrite length_seqZ; lia). cbn. rewrite last_snoc.
  f_equal. f_equal. lia.
Qed.

Section Reading.
Context {CH : Chrono} {CL : ChronoLaws}.

Lemma window_loaded from n es :
  omap parse_entry (window from n es) = loaded (take n (drop (Z.to_nat from) es)).
Proof.
  unfold window. generalize (take n (drop (Z.to_nat from) es)). intros part. revert from.
  induction part as [|e part IH]; intros from; [reflexivity|].
  rewrite length_cons, Nat2Z.inj_succ, seqZ_cons by lia. rewrite Z.pred_succ. unfold loaded in *.
  cbn [zip_with omap list_omap]. rewrite IH. reflexivity.
Qed.

Lemma window_last from n es :
  list.last (window from n es)
  = (fun x => (from + Z.of_nat (length (take n (drop (Z.to_nat from) es))) - 1, x))
      <$> list.last (take n (drop (Z.to_nat from) es)).
Proof. apply zip_seqZ_last. Qed.

Lemma add_committed_union c fresh : add_committed c fresh = c ∪ list_to_set (omap snd fresh).
Proof.
  unfold add_committed. revert c. induction fresh as [|[r k] fresh IH]; intros c; [cbn; set_solver|].
  cbn. rewrite IH. destruct k; cbn; set_solver.
Qed.
End Reading.

(** * Hold keys *)

Lemma show_dec_no_colon n : is_u64 n -> 58 ∉ show_dec n.
Proof.
  intros Hn Hin. assert (Hn' : is_u128 n) by (unfold is_u64, is_u128, u64_max, u128_max in *; lia).
  pose proof (show_dec_digits n Hn') as Hd. rewrite list.Forall_forall in Hd. apply Hd in Hin. lia.
Qed.

Lemma hold_key_inj l a b : is_u64 a -> is_u64 b -> hold_key l a = hold_key l b -> a = b.
Proof.
  intros Ha Hb E. apply app_inv_head, app_inv_head in E.
  apply show_dec_inj; [| | exact E]; unfold is_u64, is_u128, u64_max, u128_max in *; lia.
Qed.

(** Different owners never share a key. *)
Lemma own_of_disjoint name i j k :
  (forall a b, name a = name b -> a = b) -> own_of name i k -> own_of name j k -> i = j.
Proof.
  intros Hinj (n & Hn & ->) (m & Hm & E). apply Hinj.
  apply (split_last_sep 58) in E as [E _]; [exact E | apply show_dec_no_colon, Hn | apply show_dec_no_colon, Hm].
Qed.

(** * One ledger among others *)

Section Ledgers.
Context {CH : Chrono} {CL : ChronoLaws}.
Context (keep : PaymentRecord -> bool) (cap : Z) (name : nat -> str).

Section One.
Context (i : nat) (now : Z) (start : PaymentLedger).

Abbreviation claims := (gmap str Z).
Abbreviation Safe := (safe keep cap i name now start).
Abbreviation Rely := (rely keep cap).
Abbreviation OnTime := (on_time now).

Lemma rely_end c s s' : Rely c s s' -> end_of s <= end_of s'.
Proof. intros (([t E] & _) & _). unfold end_of. rewrite E, length_app. lia. Qed.

Lemma safe_read_loop fuel from next acc c s :
  within c start -> 0 <= from <= next -> next <= end_of s ->
  acc = loaded (take (Z.to_nat (next - from)) (drop (Z.to_nat from) (sh_stream s))) ->
  Safe (read_loop fuel next acc)
    (fun m c' s' => c' = c /\ Rely c s s' /\ OnTime s' /\
       match m with
       | Ok (l, n) => n = end_of s' /\ l = loaded (drop (Z.to_nat from) (sh_stream s'))
       | Err _ => True
       | Panic => False
       end) c s.
Proof.
  intros Hw. revert next acc s. induction fuel as [|fuel IH]; intros next acc s Hn He Hacc; [exact I|].
  cbn [read_loop]. eapply safe_bind; [apply safe_run_read; [intros ? ? ? [-> _]; reflexivity | exact Hw]|].
  cbn beta. intros m c' s1 (-> & Hr & Ht & Hm).
  destruct m as [w | e |]; [|cbn; auto | destruct Hm].
  destruct Hm as [_ [[e [=]] | [= ->]]]. cbn [on_ok].
  pose proof (rely_end _ _ _ Hr) as Hend.
  pose proof Hr as (([t Et] & _) & (_ & _ & _ & Hmax & _) & _).
  assert (Hacc' : acc = loaded (take (Z.to_nat (next - from)) (drop (Z.to_nat from) (sh_stream s1)))).
  { rewrite Hacc, Et. unfold end_of in *. rewrite drop_app_le by lia. rewrite take_app_le by (rewrite length_drop; lia).
    reflexivity. }
  unfold end_of in *. set (es := sh_stream s1) in *. rewrite window_last, window_loaded.
  assert (Hsplit : drop (Z.to_nat from) es = take (Z.to_nat (next - from)) (drop (Z.to_nat from) es)
                                            ++ drop (Z.to_nat next) es).
  { rewrite <- (take_drop (Z.to_nat (next - from)) (drop (Z.to_nat from) es)) at 1. rewrite drop_drop.
    do 2 f_equal. lia. }
  set (part := take WINDOW (drop (Z.to_nat next) es)).
  destruct (list.last part) as [x|] eqn:El; cbn [fmap option_fmap option_map].
  - assert (Hlen : (0 < length part)%nat) by (destruct part; [discriminate | cbn; lia]).
    assert (Hle : Z.of_nat (length part) <= Z.of_nat (length es) - next)
      by (unfold part; rewrite length_take, length_drop; lia).
    assert (Hoff : sat_add u64_max (next + Z.of_nat (length part) - 1) 1 = next + Z.of_nat (length part)).
    { unfold sat_add. lia. }
    cbn [fst]. rewrite Hoff. eapply safe_mono.
    { apply (IH (next + Z.of_nat (length part)) _ s1); fold es; [lia | lia |].
      rewrite Hacc', <- loaded_app. f_equal. rewrite Hsplit at 2.
      replace (Z.to_nat (next + Z.of_nat (length part) - from))
        with (length (take (Z.to_nat (next - from)) (drop (Z.to_nat from) es)) + length part)%nat
        by (rewrite length_take, length_drop; lia).
      rewrite take_app_add. f_equal. symmetry.
      unfold part. rewrite length_take. rewrite <- (firstn_all2 (n := length (drop (Z.to_nat next) es)) (drop (Z.to_nat next) es)) at 3 by lia.
      rewrite take_take. reflexivity. }
    cbn beta. intros m c' s2 (-> & Hr2 & Hm). split_and!; [reflexivity | eapply rely_trans; eauto | apply Hm | apply Hm].
  - assert (Hnil : part = []) by (destruct part as [|y p] using rev_ind; [reflexivity | rewrite last_snoc in El; discriminate]).
    assert (Hdrop : drop (Z.to_nat next) es = []).
    { unfold part in Hnil. destruct (drop (Z.to_nat next) es); [reflexivity | discriminate]. }
    cbn. split_and!; [reflexivity | exact Hr | exact Ht | |].
    + apply (f_equal length) in Hdrop. rewrite length_drop in Hdrop. cbn in Hdrop. fold es. lia.
    + rewrite Hacc'. fold es. rewrite Hsplit at 2. rewrite Hdrop, app_nil_r. reflexivity.
Qed.

Lemma safe_read_from from c s :
  within c start -> 0 <= from <= end_of s ->
  Safe (read_from from)
    (fun m c' s' => c' = c /\ Rely c s s' /\ OnTime s' /\
       match m with
       | Ok (l, n) => n = end_of s' /\ l = loaded (drop (Z.to_nat from) (sh_stream s'))
       | Err _ => True
       | Panic => False
       end) c s.
Proof.
  intros Hw Hf. apply safe_read_loop; [exact Hw | lia | lia|].
  rewrite Z.sub_diag. reflexivity.
Qed.

(** ** What a ledger keeps true of itself *)

(** Memory and what is left to read give the payments of the stream. *)
Definition mirror (l : PaymentLedger) (s : Shared) : Prop :=
  0 <= next_offset l <= end_of s /\
  latest_by_id (records l ++ parsed (drop (Z.to_nat (next_offset l)) (sh_stream s)))
    = latest_by_id (parsed (sh_stream s)) /\
  committed_holds l ⊆ commits (sh_stream s) /\
  Forall record_ok (records l).

Definition owner_ok (l : PaymentLedger) (s : Shared) : Prop :=
  owner l = name i /\
  map_Forall (fun id own => 0 <= id < sh_next s i /\ id < u64_max /\
    o_key own = hold_key l id /\ is_u64 (o_amount own)) (reservations l).

Context (limit : SpendingBudget -> Z).

Definition settings_ok (l : PaymentLedger) : Prop := budget_ok (budget l) /\ limit (budget l) <= cap.

Definition ledger_inv (l : PaymentLedger) (s : Shared) : Prop :=
  mirror l s /\ owner_ok l s /\ settings_ok l.

(** Everything but the mirror of the stream is the same. *)
Definition same_own (l' l : PaymentLedger) : Prop :=
  reservations l' = reservations l /\ owner l' = owner l /\ budget l' = budget l.

Lemma same_own_inv l l' s : same_own l' l -> mirror l' s -> ledger_inv l s -> ledger_inv l' s.
Proof.
  intros (Er & Eo & Eb) Hm (_ & [Ho Hown] & Hs). split; [exact Hm|]. split.
  - split; [congruence|]. rewrite Er. intros id own Hid. destruct (Hown id own Hid) as (H1 & H2 & H3 & H4).
    split_and!; auto; try lia. unfold hold_key in *. congruence.
  - unfold settings_ok in *. rewrite Eb. exact Hs.
Qed.

Lemma mirror_evolves l s s' : evolves keep s s' -> mirror l s -> mirror l s'.
Proof.
  intros He (Hn & Hl & Hc & Hr). pose proof (commits_mono _ _ _ He) as Hcm.
  destruct He as ([t Et] & _). unfold mirror, end_of in *. rewrite Et, length_app.
  split_and!; auto; try lia.
  - rewrite drop_app_le by lia. rewrite !parsed_app, app_assoc. apply latest_by_id_app, Hl.
  - rewrite <- Et. set_solver.
Qed.

Lemma ledger_inv_rely l c s s' : Rely c s s' -> ledger_inv l s -> ledger_inv l s'.
Proof.
  intros (He & _) (Hm & [Ho Hown] & Hs). split; [eapply mirror_evolves; eauto|]. split; [|exact Hs].
  split; [exact Ho|]. intros id own Hid. destruct (Hown id own Hid) as (H1 & H2 & H3).
  destruct He as (_ & _ & _ & Hn & _). specialize (Hn i). split_and!; try lia; apply H3.
Qed.

(** ** Refreshing and appending *)

Lemma safe_refresh_records l c s :
  within c start -> ledger_inv l s ->
  Safe (refresh_records l)
    (fun lr c' s' => c' = c /\ Rely c s s' /\ OnTime s' /\ ledger_inv lr.1 s' /\ same_own lr.1 l /\
       match lr.2 with
       | Ok _ => latest_by_id (records lr.1) = latest_by_id (parsed (sh_stream s'))
       | Err _ => lr.1 = l
       | Panic => False
       end) c s.
Proof.
  intros Hw Hi. unfold refresh_records. eapply safe_bind; [apply safe_read_from; [exact Hw | apply Hi]|].
  cbn beta. intros m c' s' (-> & Hr & Ht & Hm). pose proof (ledger_inv_rely _ _ _ _ Hr Hi) as Hi'.
  assert (Hsame : forall x n, same_own (refreshed l x n) l) by (intros; split_and!; reflexivity).
  destruct m as [[fresh n] | e |]; [| | destruct Hm].
  - destruct Hm as [-> ->]. cbn [try_ safe].
    pose proof Hi' as ((Hn & Hl & Hc & Hrec) & _).
    set (es := sh_stream s') in *. set (tail := drop (Z.to_nat (next_offset l)) es) in *.
    assert (Hes : es = take (Z.to_nat (next_offset l)) es ++ tail) by (symmetry; apply take_drop).
    pose proof Hr as (_ & (Hall & _) & _). fold es in Hall.
    split_and!; [reflexivity | exact Hr | exact Ht | | apply Hsame |].
    + eapply same_own_inv; [apply Hsame | | exact Hi']. unfold mirror, refreshed.
      cbn [fst next_offset records committed_holds with_next_offset with_records with_committed].
      fold es. split; [unfold end_of; lia|]. split; [|split].
      * rewrite (drop_ge es) by (unfold end_of; fold es; lia). cbn [parsed loaded omap list_omap fmap list_fmap].
        rewrite app_nil_r. exact Hl.
      * rewrite add_committed_union. fold (commits tail).
        assert (Hct : commits tail ⊆ commits es) by (rewrite Hes, commits_app; set_solver). set_solver.
      * apply Forall_app. split; [exact Hrec|]. rewrite Hes, parsed_app in Hall. apply Forall_app in Hall as [_ Hall].
        exact Hall.
    + exact Hl.
  - cbn. split_and!; auto; split_and!; reflexivity.
Qed.

Lemma mirror_pushed l s s' r key t :
  0 <= next_offset l < end_of s -> record_ok r ->
  sh_stream s' = sh_stream s ++ [Some (stored_payment (at_millisecond_precision r) key)] ++ t ->
  mirror l s' -> mirror (push_record l (at_millisecond_precision r)) s'.
Proof.
  intros Hn Hr Es (Hn' & Hl & Hc & Hrec). unfold mirror, push_record.
  cbn [next_offset records committed_holds with_records]. split_and!; [lia | lia | | exact Hc |].
  - rewrite latest_by_id_replaced; [exact Hl|]. rewrite Es. unfold end_of in *.
    rewrite drop_app_le by lia. rewrite !parsed_app, parsed_stored, at_millisecond_precision_idem, !fmap_app.
    apply elem_of_app. right. apply elem_of_app. left. apply list_elem_of_singleton. reflexivity.
  - apply Forall_app. split; [exact Hrec|]. repeat constructor; apply Hr.
Qed.

Lemma safe_append_record l r key c s :
  within c start -> ledger_inv l s -> record_ok r ->
  (forall k, key = Some k -> exists a, c !! k = Some a /\ p_amount_atomic r <= a) ->
  Safe (append_record l r key)
    (fun lr c' s' => c' = c /\ Rely c s s' /\ OnTime s' /\ ledger_inv lr.1 s' /\ same_own lr.1 l /\
       match lr.2 with Ok _ => True | Err _ => lr.1 = l | Panic => False end) c s.
Proof.
  intros Hw Hi Hr Hk. unfold append_record. set (r' := at_millisecond_precision r).
  eapply safe_bind; [apply safe_append; [exact Hw | exact Hr | exact Hk]|].
  cbn beta. intros m c' s2 (-> & Hrel & Ht & Hm). pose proof (ledger_inv_rely _ _ _ _ Hrel Hi) as Hi2.
  destruct m as [off | e |]; [| cbn; split_and!; auto; split_and!; reflexivity | destruct Hm].
  destruct Hm as (s1 & Hr1 & -> & Es2). pose proof (ledger_inv_rely _ _ _ _ Hr1 Hi) as Hi1.
  cbn [try_]. set (l1 := match key with Some _ => _ | None => l end).
  assert (Hs1 : same_own l1 l) by (unfold l1; destruct key; split_and!; reflexivity).
  assert (Hc1 : committed_holds l1 ⊆ commits (sh_stream s2)).
  { destruct Hi1 as ((_ & _ & Hc & _) & _). rewrite Es2. cbn [sh_stream appended].
    rewrite commits_app, commits_stored. unfold l1. destruct key; cbn; set_solver. }
  assert (Hn1 : next_offset l1 = next_offset l) by (unfold l1; destruct key; reflexivity).
  assert (Hrec1 : records l1 = records l) by (unfold l1; destruct key; reflexivity).
  assert (Hi3 : ledger_inv l1 s2).
  { eapply same_own_inv; [exact Hs1 | | exact Hi2]. destruct Hi2 as ((? & ? & ? & ?) & _).
    unfold mirror. rewrite Hn1, Hrec1. auto. }
  clearbody l1. destruct (Z.eqb_spec (end_of s1) (next_offset l1)) as [E|E].
  - cbn [safe fst snd]. split_and!; auto; try (apply Hs1).
    eapply same_own_inv; [|unfold mirror | exact Hi3]; [split_and!; reflexivity|].
    cbn [fst next_offset records committed_holds with_next_offset push_record with_records].
    pose proof Hrel as (_ & (_ & _ & _ & Hmax & _) & _).
    assert (He2 : end_of s2 = end_of s1 + 1) by (rewrite Es2; unfold end_of; cbn; rewrite length_app; cbn; lia).
    unfold sat_add. rewrite Z.min_l by lia.
    destruct Hi1 as ((_ & Hl & _ & Hrec) & _). rewrite Hrec1. split; [unfold end_of in *; lia|]. split; [|split; [exact Hc1|]].
    + rewrite drop_ge by (unfold end_of in *; lia). rewrite app_nil_r, Es2. cbn [sh_stream appended].
      rewrite parsed_app, parsed_stored, !latest_by_id_snoc. unfold r'. rewrite !at_millisecond_precision_idem.
      f_equal. rewrite <- Hn1, <- E in Hl. unfold end_of in Hl. rewrite Nat2Z.id, drop_ge, app_nil_r in Hl by lia. exact Hl.
    + apply Forall_app. split; [exact Hrec|]. repeat constructor; apply Hr.
  - eapply safe_bind; [apply safe_refresh_records; [exact Hw | exact Hi3]|].
    intros [l2 res] c' s3 (-> & Hr3 & Ht3 & Hi4 & Hs4 & Hres). cbn [fst snd] in *.
    assert (Hs : same_own l2 l) by (destruct Hs1 as (? & ? & ?), Hs4 as (? & ? & ?); split_and!; congruence).
    assert (Hrel3 : Rely c s s3) by (eapply rely_trans; [exact Hrel | exact Hr3]).
    destruct res as [u | e |]; [| | destruct Hres]; cbn [is_ok safe fst snd].
    + split_and!; auto; apply Hs.
    + subst l2. split_and!; auto; try (apply Hs). pose proof Hr3 as (([t Et] & _) & _).
      rewrite Es2 in Et. cbn [sh_stream appended] in Et. rewrite <- app_assoc in Et.
      eapply same_own_inv; [|eapply (mirror_pushed l1 s1 s3 r key t) | exact Hi4]; [split_and!; reflexivity | | exact Hr | | ].
      * destruct Hi1 as ((? & _) & _). lia.
      * exact Et.
      * apply Hi4.
Qed.

(** ** Operations *)

Definition owns (c : claims) (l : PaymentLedger) : Prop :=
  forall id k a, reservations l !! id = Some (mkOwn k a) -> c !! k = Some a.

(** A ledger between operations: its claims are exactly its reservations. *)
Definition settled (l : PaymentLedger) (c : claims) (s : Shared) : Prop :=
  ledger_inv l s /\ owns c l /\ within c l.

Lemma settled_same l l' c s s' :
  same_own l' l -> ledger_inv l' s' -> settled l c s -> settled l' c s'.
Proof.
  intros (Er & _ & _) Hi (_ & Ho & Hw). split; [exact Hi|].
  unfold owns, within in *. rewrite Er. auto.
Qed.

Lemma within_same c l l' : same_own l' l -> within c l -> within c l'.
Proof. intros (Er & _) Hw. unfold within. rewrite Er. exact Hw. Qed.

Lemma same_own_trans a b c : same_own a b -> same_own b c -> same_own a c.
Proof. intros (? & ? & ?) (? & ? & ?). split_and!; congruence. Qed.

(** Reservations have distinct keys, all of this ledger. *)
Lemma reservation_key l s id own :
  ledger_inv l s -> reservations l !! id = Some own ->
  is_u64 id /\ o_key own = hold_key l id /\ own_of name i (o_key own) /\ is_u64 (o_amount own).
Proof.
  intros (_ & [Ho Hown] & _) Hid. destruct (Hown id own Hid) as (H1 & H2 & H3 & H4).
  assert (is_u64 id) by (unfold is_u64; lia). split_and!; auto; try apply H4; try lia.
  exists id. split; [assumption|]. rewrite H3. unfold hold_key. rewrite Ho. reflexivity.
Qed.

Lemma reservation_key_inj l s id id' own own' :
  ledger_inv l s -> reservations l !! id = Some own -> reservations l !! id' = Some own' ->
  o_key own = o_key own' -> id = id'.
Proof.
  intros Hi H1 H2 E. destruct (reservation_key _ _ _ _ Hi H1) as (U1 & K1 & _).
  destruct (reservation_key _ _ _ _ Hi H2) as (U2 & K2 & _).
  apply (hold_key_inj l); auto. congruence.
Qed.

(** *** Release *)

Lemma safe_release_loop n l key c s :
  within c start -> ledger_inv l s -> own_of name i key -> c !! key = None ->
  Safe (release_loop n l key) (fun lu c' s' => c' = c /\ lu.1 = l /\ ledger_inv l s') c s.
Proof.
  intros Hw Hi Hk Hc. revert s Hi. induction n as [|n IH]; intros s Hi; [cbn; auto|].
  cbn [release_loop]. eapply safe_bind; [apply safe_load_holds, Hw|].
  cbn beta. intros m c' s1 (-> & Hr1 & Ht1 & Hm). pose proof (ledger_inv_rely _ _ _ _ Hr1 Hi) as Hi1.
  destruct m as [[version d] | e |]; [| cbn; auto | destruct Hm]. destruct Hm as [Ev ->].
  destruct version as [v|]; [| cbn; auto].
  destruct (holds_of s1 !! key) as [h|] eqn:Ek; [| cbn; auto].
  eapply safe_bind.
  { apply (safe_store_holds _ _ _ _ _ _ _ _ c c c); [exact Hw | reflexivity|].
    intros s2 v' Ho Hr2 Ht2 Ev2 Hlt. rewrite Ev in Ev2. symmetry in Ev2.
    destruct (cas_same_doc keep cap c s1 s2 (proj1 (proj2 Hr1)) Hr2 Ev2) as [Ed Htot].
    assert (Hd : holds_of s2 = holds_of s1) by (unfold holds_of; rewrite Ed; reflexivity).
    pose proof Hr2 as (_ & (_ & Hok & _ & _ & Hcap) & Hheld).
    assert (guarantee keep cap i name s2 c (put s2 v' (delete key (holds_of s1)))); [|auto].
    rewrite <- Hd. eapply guarantee_put; [exact Hr2 | exact Hlt | | exact Ho | | |].
    - eapply holds_ok_sub; [apply delete_subseteq | exact Hok].
    - etransitivity; [apply total_put_le; [exact Hok|] | exact Hcap].
      intros k h'. rewrite !counted_lookup. intros (Hl & He & Hn). apply lookup_delete_Some in Hl as [_ Hl].
      exists h'. split; [apply counted_lookup; auto | lia].
    - intros k a Ha. destruct (Hheld k a Ha) as [Hin | (h' & Hh' & Hr')]; [left; exact Hin|].
      right. exists h'. split; [|exact Hr']. cbn. rewrite lookup_delete_ne by congruence. exact Hh'.
    - intros k h' Hn _ Hh' _. rewrite lookup_delete_ne by congruence. exact Hh'. }
  cbn beta. intros m c' s2 (Hr2 & _ & _ & Hm).
  destruct m as [[]| e |]; cbn [safe fst]; [| | | destruct Hm].
  - destruct Hm as [-> _]. split_and!; auto. eapply ledger_inv_rely; eauto.
  - subst. apply IH. eapply ledger_inv_rely; eauto.
  - subst. split_and!; auto. eapply ledger_inv_rely; eauto.
Qed.

Lemma within_sub c c' l : c' ⊆ c -> within c l -> within c' l.
Proof. intros Hs Hw k a Hk. apply (Hw k a). eapply lookup_weaken; eauto. Qed.

(** A ledger without one of its reservations. *)
Definition without (l : PaymentLedger) (id : Z) (own : OwnHold) : PaymentLedger :=
  with_holds (with_reservations l (delete id (reservations l))) (delete (o_key own) (holds l)).

Lemma settled_without l c s id own :
  reservations l !! id = Some own -> settled l c s ->
  settled (without l id own) (delete (o_key own) c) s.
Proof.
  intros Hid (Hi & Ho & Hw). split; [|split].
  - destruct Hi as (Hm & [Hname Hown] & Hs). split; [exact Hm|]. split; [|exact Hs].
    split; [exact Hname|]. cbn. apply map_Forall_delete. exact Hown.
  - intros id' k a Hl. cbn in Hl. apply lookup_delete_Some in Hl as [Hne Hl].
    rewrite lookup_delete_ne; [apply (Ho id' k a Hl)|]. intros E.
    apply Hne. apply (reservation_key_inj l s id id' _ _ Hi Hid Hl). exact E.
  - intros k a Hk. apply lookup_delete_Some in Hk as [Hne Hk]. destruct (Hw k a Hk) as [id' Hl].
    exists id'. cbn. rewrite lookup_delete_ne; [exact Hl|]. intros ->. rewrite Hid in Hl. injection Hl as ->.
    apply Hne. reflexivity.
Qed.

Lemma safe_release l id c s :
  within c start -> settled l c s ->
  Safe (release l id) (fun lu c' s' => settled lu.1 c' s') c s.
Proof.
  intros Hw Hset. unfold release. destruct (reservations l !! id) as [own|] eqn:Hid; [|exact Hset].
  fold (without l id own). pose proof (settled_without _ _ _ _ _ Hid Hset) as Hset'.
  apply (safe_drop _ _ _ _ _ _ _ _ _ (delete (o_key own) c)); [exact I | apply delete_subseteq | exact Hw|].
  eapply safe_mono.
  - apply safe_release_loop.
    + eapply within_sub; [apply delete_subseteq | exact Hw].
    + apply Hset'.
    + apply (reservation_key l s id own (proj1 Hset) Hid).
    + apply lookup_delete_eq.
  - cbn beta. intros lu c' s' (-> & -> & Hi'). split; [exact Hi' | apply Hset'].
Qed.

(** *** Renewal *)

Lemma insert_all_in (F : OwnHold -> Hold) (os : list OwnHold) (own : OwnHold) (d : HoldsDoc) :
  own ∈ os -> (forall own', own' ∈ os -> o_key own' = o_key own -> own' = own) ->
  foldl (fun d own => <[o_key own := F own]> d) d os !! o_key own = Some (F own).
Proof.
  induction os as [|x os IH] using rev_ind; intros Hin Hu; [inversion Hin|]. rewrite foldl_snoc.
  destruct (decide (o_key x = o_key own)) as [E|E].
  - rewrite (Hu x ltac:(set_solver) E). apply lookup_insert_eq.
  - rewrite lookup_insert_ne by exact E. apply IH; [|intros y Hy; apply Hu; set_solver].
    apply elem_of_app in Hin as [Hin|Hin]; [exact Hin|]. apply list_elem_of_singleton in Hin. congruence.
Qed.

Lemma insert_all_out (F : OwnHold -> Hold) (os : list OwnHold) (k : str) (d : HoldsDoc) :
  k ∉ o_key <$> os -> foldl (fun d own => <[o_key own := F own]> d) d os !! k = d !! k.
Proof.
  induction os as [|x os IH] using rev_ind; intros Hk; [reflexivity|]. rewrite foldl_snoc.
  rewrite fmap_app in Hk. rewrite lookup_insert_ne by set_solver. apply IH. set_solver.
Qed.

(** A renewed document: own holds at their amounts with a fresh lease, the
    unexpired holds of the others as they were. *)
Lemma renewed_lookup l c s t d k :
  settled l c s ->
  renewed l t d !! k = match c !! k with
                       | Some a => Some (mkHold a (saturating_expiry t))
                       | None => filter (fun '(_, hold) => t < h_expires_ms hold) d !! k
                       end.
Proof.
  intros (Hi & Ho & Hw). unfold renewed. set (os := (map_to_list (reservations l)).*2).
  assert (Hos : forall own, own ∈ os <-> exists id, reservations l !! id = Some own).
  { intros own. unfold os. rewrite list_elem_of_fmap. split.
    - intros ([id x] & -> & Hx). exists id. apply elem_of_map_to_list. exact Hx.
    - intros [id Hid]. exists (id, own). split; [reflexivity|]. apply elem_of_map_to_list. exact Hid. }
  destruct (c !! k) as [a|] eqn:Ek.
  - destruct (Hw k a Ek) as [id Hid]. change k with (o_key (mkOwn k a)).
    rewrite (insert_all_in (fun own => mkHold (o_amount own) (saturating_expiry t))); [reflexivity | apply Hos; eauto|].
    intros own' Hin E. apply Hos in Hin as [id' Hid'].
    pose proof (reservation_key_inj l s id' id _ _ Hi Hid' Hid E). subst id'. congruence.
  - apply (insert_all_out (fun own => mkHold (o_amount own) (saturating_expiry t))).
    intros Hin. apply list_elem_of_fmap in Hin as ([k' a] & -> & Hin). apply Hos in Hin as [id Hid].
    apply Ho in Hid. cbn in Ek. congruence.
Qed.

Lemma safe_renew_loop n l c s :
  within c start -> settled l c s ->
  Safe (renew_loop n l (timestamp_millis now)) (fun lr c' s' => settled lr.1 c' s') c s.
Proof.
  intros Hw. revert s. induction n as [|n IH]; intros s Hset; [exact Hset|]. cbn [renew_loop].
  set (now_ms := timestamp_millis now) in *. eapply safe_bind; [apply safe_load_holds, Hw|].
  cbn beta. intros m c' s1 (-> & Hr1 & Ht1 & Hm).
  assert (Hset1 : settled l c s1) by (split; [eapply ledger_inv_rely; [exact Hr1 | apply Hset] | apply Hset]).
  destruct m as [[version d] | e |]; [| exact Hset1 | destruct Hm]. destruct Hm as [Ev ->]. cbn [try_].
  eapply safe_bind.
  { apply (safe_store_holds _ _ _ _ _ _ _ _ c c c); [exact Hw | reflexivity|].
    intros s2 v Ho Hr2 Ht2 Ev2 Hlt. rewrite Ev in Ev2. symmetry in Ev2.
    destruct (cas_same_doc keep cap c s1 s2 (proj1 (proj2 Hr1)) Hr2 Ev2) as [Ed _].
    assert (Hd : holds_of s1 = holds_of s2) by (unfold holds_of; rewrite Ed; reflexivity). rewrite Hd.
    pose proof Hr2 as (_ & (_ & Hok & _ & _ & Hcap) & Hheld). destruct Ht2 as [Hle Hexp].
    assert (guarantee keep cap i name s2 c (put s2 v (renewed l now_ms (holds_of s2)))); [|auto].
    eapply guarantee_put; [exact Hr2 | exact Hlt | | exact Ho | | |].
    - intros k h. rewrite (renewed_lookup l c s1) by exact Hset1. destruct (c !! k) as [a|] eqn:Ek.
      + intros [= <-]. destruct (proj2 (proj2 Hset1) k a Ek) as [id Hid].
        apply (reservation_key _ _ _ _ (proj1 Hset1) Hid).
      + rewrite map_lookup_filter_Some. intros [Hk _]. apply (Hok k h Hk).
    - etransitivity; [apply total_put_le; [exact Hok|] | exact Hcap].
      intros k h. rewrite counted_lookup, (renewed_lookup l c s1) by exact Hset1. intros (Hk & He & Hn).
      destruct (c !! k) as [a|] eqn:Ek.
      + injection Hk as <-. destruct (Hheld k a Ek) as [Hin | (h' & Hh' & Ha & He')]; [tauto|].
        exists h'. split; [apply counted_lookup; auto | cbn; lia].
      + apply map_lookup_filter_Some in Hk as [Hk _]. exists h. split; [apply counted_lookup; auto | lia].
    - intros k a Ek. right. exists (mkHold a (saturating_expiry now_ms)).
      split; [|split; [reflexivity | exact Hexp]].
      change (holds_of (put s2 v (renewed l now_ms (holds_of s2)))) with (renewed l now_ms (holds_of s2)).
      rewrite (renewed_lookup l c s1) by exact Hset1. rewrite Ek. reflexivity.
    - intros k h Hn _ Hh He. rewrite (renewed_lookup l c s1) by exact Hset1.
      destruct (c !! k) as [a|] eqn:Ek; [destruct (Hn (Ho k a Ek))|].
      apply map_lookup_filter_Some. split; [exact Hh | unfold now_ms; lia]. }
  cbn beta. intros m c' s2 (Hr2 & _ & _ & Hm).
  assert (Hset2 : settled l c s2) by
    (split; [eapply ledger_inv_rely; [exact Hr2 | apply Hset1] | apply Hset]).
  destruct m as [[]| e |]; cbn [try_ safe fst]; [| | | destruct Hm].
  - destruct Hm as [-> _]. eapply settled_same; [| | exact Hset2]; [split_and!; reflexivity|].
    eapply same_own_inv; [| | apply Hset2]; [split_and!; reflexivity | apply Hset2].
  - subst. apply IH. exact Hset2.
  - subst. exact Hset2.
Qed.

(** *** Reservation *)

Section Reserving.
(** The verdict looks at this window against this limit. *)
Hypothesis verdict : forall l amount,
  refusal (check_budget_at l now amount) = None ->
  over_cap (window_total keep l) amount (limit (budget l)) = false.
Hypothesis limit_u64 : forall b, budget_ok b -> is_u64 (limit b).

(** An amount that passed the check fits, whatever of it the hold document
    and the stream then showed. *)
Lemma verdict_fits l c s s' amount :
  ledger_inv l s' -> Rely c s s' -> OnTime s' -> 0 < amount ->
  latest_by_id (records l) = latest_by_id (parsed (sh_stream s')) ->
  refusal (check_budget_at (with_holds l (live_holds l (timestamp_millis now) (holds_of s'))) now amount) = None ->
  total keep s' + amount <= cap.
Proof.
  intros Hi (_ & (_ & Hok & _) & _) [Hle _] Ha Hrec Hv. apply verdict in Hv.
  set (d := live_holds l (timestamp_millis now) (holds_of s')) in *.
  assert (Hd : holds_ok d) by (eapply holds_ok_sub; [apply map_filter_subseteq | exact Hok]).
  destruct Hi as ((_ & _ & Hc & Hr) & _ & Hb & Hcap).
  rewrite window_total_min in Hv by (split; [exact Hr | split; [exact Hd | exact Hb]]).
  cbn [with_holds holds records budget] in Hv. rewrite (charge_of_latest keep _ _ Hrec) in Hv.
  assert (Hheld : held_total (counted (sh_time s') (sh_stream s') (holds_of s')) <= held_total d).
  { apply held_total_mono; [|exact Hd]. apply map_subseteq_spec. intros k h. rewrite counted_lookup.
    intros (Hk & He & Hn). apply map_lookup_filter_Some. split; [exact Hk|]. split; [lia | set_solver]. }
  assert (Hnn : 0 <= charge_of keep (parsed (sh_stream s'))).
  { rewrite <- (charge_of_latest keep _ _ Hrec). apply charge_of_nonneg, Hr. }
  assert (0 <= held_total d) by (apply sum_of_nonneg, holds_nonneg, Hd).
  apply over_cap_false in Hv; [unfold total; lia | lia | exact Ha | apply limit_u64, Hb].
Qed.

(** The document with a new hold in it keeps within the cap. *)
Lemma guarantee_reserve l c s1 s2 s3 v key amount :
  let d := <[key := mkHold amount (saturating_expiry (timestamp_millis now))]>
             (live_holds l (timestamp_millis now) (holds_of s1)) in
  ledger_inv l s2 -> own_claims i name c -> own_of name i key -> c !! key = None -> is_u64 amount ->
  sane keep cap s1 -> Rely c s1 s2 -> Rely c s2 s3 -> OnTime s3 ->
  fst <$> sh_doc s3 = fst <$> sh_doc s1 -> sh_clock s3 < v ->
  (0 < amount -> total keep s2 + amount <= cap) ->
  guarantee keep cap i name s3 (<[key := amount]> c) (put s3 v d) /\
  guarantee keep cap i name s3 c (put s3 v d).
Proof.
  intros d Hi Ho Hkey Hnone Ha Hs1 H12 H23 [Hle Hexp] Ev Hlt Hfit.
  destruct (cas_between keep cap c s1 s2 s3 Hs1 H12 H23 Ev) as (E2 & E3 & Htot).
  assert (Hd : holds_of s1 = holds_of s3) by (unfold holds_of; rewrite E3, E2; reflexivity).
  pose proof H23 as (He23 & (_ & Hok & _ & _ & Hcap) & Hheld).
  assert (Hcom : committed_holds l ⊆ commits (sh_stream s3)).
  { pose proof (commits_mono _ _ _ He23). destruct Hi as ((_ & _ & Hc & _) & _). set_solver. }
  unfold d; clear d. rewrite Hd. set (live := live_holds l (timestamp_millis now) (holds_of s3)).
  set (d := <[key := _]> live).
  assert (Hlive : forall k h, live !! k = Some h <->
            holds_of s3 !! k = Some h /\ timestamp_millis now < h_expires_ms h /\ (k ∉ committed_holds l)).
  { intros k h. unfold live. unfold live_holds. rewrite map_lookup_filter_Some. tauto. }
  assert (Hlok : holds_ok live) by (intros k h Hk; apply Hlive in Hk as [Hk _]; apply (Hok k h Hk)).
  assert (Hdok : holds_ok d) by (apply map_Forall_insert_2; [exact Ha | exact Hlok]).
  assert (Hcl : claims_held c (put s3 v d)).
  { intros k a Hk. destruct (decide (k ∈ commits (sh_stream s3))) as [Hin|Hin]; [left; exact Hin|].
    destruct (Hheld k a Hk) as [? | (h & Hh & Hr & He)]; [tauto|]. right. exists h. split; [|split; [exact Hr | exact He]].
    change (d !! k = Some h). unfold d. rewrite lookup_insert_ne by congruence. apply Hlive.
    split_and!; [exact Hh | lia | set_solver]. }
  assert (Hsum : total keep (put s3 v d) <= cap).
  { unfold total. change (holds_of (put s3 v d)) with d. cbn [put sh_time sh_stream].
    set (cnt := counted (sh_time s3) (sh_stream s3)).
    assert (Hle1 : held_total (cnt d) <= amount + held_total (cnt live)).
    { etransitivity; [|apply (held_total_insert_le _ key (mkHold amount 0))].
      - apply held_total_amounts; [|apply map_Forall_insert_2; [exact Ha | eapply holds_ok_sub; [apply counted_sub | exact Hlok]]].
        intros k h Hk. apply counted_lookup in Hk as (Hk & He & Hn). unfold d in Hk.
        apply lookup_insert_Some in Hk as [[<- <-] | [Hne Hk]].
        + eexists. split; [apply lookup_insert_eq | cbn; lia].
        + exists h. rewrite lookup_insert_ne by exact Hne. split; [apply counted_lookup; auto | lia].
      - eapply holds_ok_sub; [apply counted_sub | exact Hlok]. }
    assert (Hle2 : held_total (cnt live) <= held_total (cnt (holds_of s3))).
    { apply held_total_mono; [|eapply holds_ok_sub; [apply counted_sub | exact Hok]].
      apply map_subseteq_spec. intros k h Hk. apply counted_lookup in Hk as (Hk & Hr). apply Hlive in Hk as [Hk _].
      apply counted_lookup. auto. }
    unfold total in *. fold cnt in Hcap. fold cnt in Htot. unfold is_u64 in Ha.
    destruct (Z.lt_ge_cases 0 amount) as [Hpos|Hz]; [specialize (Hfit Hpos); lia | lia]. }
  assert (Hoth : forall k h, ~ own_of name i k -> k ∉ commits (sh_stream s3) -> holds_of s3 !! k = Some h ->
            sh_time s3 < h_expires_ms h -> d !! k = Some h).
  { intros k h Hn Hin Hh He. unfold d. rewrite lookup_insert_ne by congruence. apply Hlive.
    split_and!; [exact Hh | lia | set_solver]. }
  split; (eapply guarantee_put; [exact H23 | exact Hlt | exact Hdok | | exact Hsum | | exact Hoth]).
  - apply map_Forall_insert_2; [exact Hkey | exact Ho].
  - apply map_Forall_insert_2; [|exact Hcl]. right. eexists. split; [apply lookup_insert_eq|].
    split; [reflexivity | exact Hexp].
  - exact Ho.
  - exact Hcl.
Qed.

(** A ledger with a new reservation. *)
Definition with_reserved (l : PaymentLedger) (d : HoldsDoc) (id : Z) (key : str) (amount : Z) : PaymentLedger :=
  with_reservations (with_holds l d) (<[id := mkOwn key amount]> (reservations l)).

Lemma settled_reserved l c s d id amount :
  settled l c s -> map_Forall (fun id' _ => id' < id) (reservations l) -> is_u64 amount ->
  0 <= id -> id < sh_next s i -> id < u64_max -> c !! hold_key l id = None ->
  settled (with_reserved l d id (hold_key l id) amount) (<[hold_key l id := amount]> c) s.
Proof.
  intros (Hi & Ho & Hw) Hfresh Ha H0 Hlt Hmax Hnone.
  assert (Hid : reservations l !! id = None).
  { destruct (reservations l !! id) as [own|] eqn:E; [|reflexivity]. specialize (Hfresh id own E). cbn in Hfresh. lia. }
  assert (Hu : is_u64 id) by (unfold is_u64; lia). split; [|split].
  - destruct Hi as (Hm & [Hname Hown] & Hs). split; [exact Hm|]. split; [|exact Hs].
    split; [exact Hname|]. cbn. apply map_Forall_insert_2; [|exact Hown]. split_and!; auto; apply Ha.
  - intros id' k a Hl. cbn in Hl. apply lookup_insert_Some in Hl as [[<- [= <- <-]] | [Hne Hl]].
    + apply lookup_insert_eq.
    + apply Ho in Hl. rewrite lookup_insert_ne; [exact Hl | congruence].
  - intros k a Hk. apply lookup_insert_Some in Hk as [[<- <-] | [Hne Hk]].
    + exists id. apply lookup_insert_eq.
    + destruct (Hw k a Hk) as [id' Hl]. exists id'. cbn. rewrite lookup_insert_ne; [exact Hl | congruence].
Qed.


(** A reservation id drawn now gives a key nobody has used. *)
Lemma fresh_key l c s id :
  settled l c s -> sh_next s i <= id -> 0 <= id < u64_max ->
  own_of name i (hold_key l id) /\ c !! hold_key l id = None /\
  map_Forall (fun id' _ => id' < id) (reservations l).
Proof.
  intros ((_ & [Hname Hown] & _) & _ & Hw) Hn Hid.
  assert (Hlt : map_Forall (fun id' _ => id' < id) (reservations l))
    by (intros id' own Hl; destruct (Hown id' own Hl); lia).
  split_and!; [| | exact Hlt].
  - exists id. split; [unfold is_u64; lia|]. unfold hold_key. rewrite Hname. reflexivity.
  - destruct (c !! hold_key l id) as [a|] eqn:E; [|reflexivity]. destruct (Hw _ a E) as [id' Hl].
    destruct (Hown id' _ Hl) as (H1 & H2 & H3 & _). specialize (Hlt id' _ Hl). cbn in *.
    apply hold_key_inj in H3; [| unfold is_u64; lia | unfold is_u64; lia]. lia.
Qed.

Lemma settled_rely l c s s' : Rely c s s' -> settled l c s -> settled l c s'.
Proof. intros Hr (Hi & Ho & Hw). split; [eapply ledger_inv_rely; eauto | auto]. Qed.

Lemma settled_holds l d c s : settled l c s -> settled (with_holds l d) c s.
Proof.
  intros Hset. eapply settled_same; [| | exact Hset]; [split_and!; reflexivity|].
  eapply same_own_inv; [| | apply Hset]; [split_and!; reflexivity | apply Hset].
Qed.

Lemma safe_reserve_loop n l c s amount :
  within c start -> settled l c s -> is_u64 amount ->
  Safe (reserve_loop n l now amount) (fun lr c' s' => settled lr.1 c' s') c s.
Proof.
  intros Hw Hset Ha. revert l s Hset. induction n as [|n IH]; intros l s Hset; [exact Hset|]. cbn [reserve_loop].
  set (now_ms := timestamp_millis now) in *. eapply safe_bind; [apply safe_load_holds, Hw|].
  cbn beta. intros m c' s1 (-> & Hr1 & Ht1 & Hm). pose proof (settled_rely _ _ _ _ Hr1 Hset) as Hset1.
  destruct m as [[version d] | e |]; [| exact Hset1 | destruct Hm]. destruct Hm as [Ev ->]. cbn [try_].
  eapply safe_bind; [apply safe_refresh_records; [exact Hw | apply Hset1]|].
  intros [l2 res] c' s2 (-> & Hr2 & Ht2 & Hi2 & Hsame & Hres). cbn [fst snd] in *.
  pose proof (settled_same _ _ _ _ _ Hsame Hi2 Hset1) as Hset2.
  destruct res as [u | e |]; [| exact Hset2 | destruct Hres]. cbn [try_].
  set (live := live_holds l2 now_ms (holds_of s1)).
  pose proof (settled_holds l2 live _ _ Hset2) as Hset3.
  destruct (refusal (check_budget_at (with_holds l2 live) now amount)) as [refused|] eqn:Hv.
  - eapply safe_bind; [apply safe_load_holds, Hw|].
    cbn beta. intros m c' s3 (-> & Hr3 & _ & Hm3). pose proof (settled_rely _ _ _ _ Hr3 Hset3) as Hset4.
    destruct m as [[current d3] | e |]; [| exact Hset4 | destruct Hm3]. cbn [try_].
    case_bool_decide; [exact Hset4 | apply IH, Hset4].
  - eapply safe_bind; [apply safe_fresh_id, Hw|].
    cbn beta. intros m c' s3 (-> & Hr3 & _ & id & s2' & -> & Hr2' & Hid & Hn & Hn').
    destruct (fresh_key _ _ _ id (settled_rely _ _ _ _ Hr2' Hset3) Hn Hid) as (Hkey & Hnone & Hlt).
    set (key := hold_key (with_holds l2 live) id) in *. eapply safe_bind.
    { apply (safe_store_holds _ _ _ _ _ _ _ _ c (<[key := amount]> c) c); [exact Hw | reflexivity|].
      intros s4 v Ho Hr4 Ht4 Ev4 Hclk. rewrite Ev in Ev4.
      apply (guarantee_reserve l2 c s1 s2 s4 v key amount); auto.
      - apply Hr1.
      - eapply rely_trans; [exact Hr3 | exact Hr4].
      - intros Hpos.
        destruct (cas_between keep cap c s1 s2 s4) as (E2 & _);
          [apply Hr1 | exact Hr2 | eapply rely_trans; [exact Hr3 | exact Hr4] | congruence|].
        apply (verdict_fits l2 c s1 s2 amount); auto.
        replace (holds_of s2) with (holds_of s1) by (unfold holds_of; rewrite E2; reflexivity). exact Hv. }
    cbn beta. intros m c' s4 (Hr4 & _ & _ & Hm4).
    assert (Hset4 : c' = c -> settled (with_holds l2 live) c' s4).
    { intros ->. eapply settled_rely; [exact Hr4|]. eapply settled_rely; [exact Hr3 | exact Hset3]. }
    destruct m as [[]| e |]; cbn [try_ safe fst]; [| | | destruct Hm4].
    + destruct Hm4 as [-> _].
      assert (Hr5 : Rely c s3 s4) by (eapply rely_weaken; [apply insert_subseteq, Hnone | exact Hr4]).
      pose proof Hr5 as ((_ & _ & _ & Hnext & _) & _). specialize (Hnext i).
      apply settled_reserved; auto; try lia.
      eapply settled_rely; [exact Hr5|]. eapply settled_rely; [exact Hr3 | exact Hset3].
    + rewrite Hm4 in *. apply IH. exact (Hset4 eq_refl).
    + exact (Hset4 Hm4).
Qed.

Lemma safe_reserve_at l c s amount :
  within c start -> settled l c s -> is_u64 amount ->
  Safe (reserve_at l now amount) (fun lr c' s' => settled lr.1 c' s') c s.
Proof.
  intros Hw Hset Ha. unfold reserve_at. destruct (per_request_max_atomic (budget l) <? amount); [exact Hset|].
  apply safe_reserve_loop; assumption.
Qed.

End Reserving.

(** *** The other operations *)

Lemma safe_renew_holds_at l c s :
  within c start -> settled l c s ->
  Safe (renew_holds_at l now) (fun lr c' s' => settled lr.1 c' s') c s.
Proof.
  intros Hw Hset. unfold renew_holds_at. case_bool_decide; [exact Hset | apply safe_renew_loop; assumption].
Qed.

Lemma safe_try_record_payment l c s r :
  within c start -> settled l c s -> record_ok r ->
  Safe (try_record_payment l r) (fun lr c' s' => settled lr.1 c' s') c s.
Proof.
  intros Hw Hset Hr. eapply safe_mono; [apply safe_append_record; [exact Hw | apply Hset | exact Hr | discriminate]|].
  cbn beta. intros lr c' s' (-> & Hrel & _ & Hi & Hs & _). eapply settled_same; eauto.
Qed.

Lemma safe_try_commit_reservation l c s id r :
  within c start -> settled l c s -> record_ok r ->
  (forall own, reservations l !! id = Some own -> p_amount_atomic r <= o_amount own) ->
  Safe (try_commit_reservation l id r) (fun lr c' s' => settled lr.1 c' s') c s.
Proof.
  intros Hw Hset Hr Ha. unfold try_commit_reservation, own_key. eapply safe_bind.
  { apply safe_append_record; [exact Hw | apply Hset | exact Hr|]. intros k Hk.
    destruct (reservations l !! id) as [[k' a]|] eqn:E; [|discriminate]. injection Hk as <-.
    exists a. split; [apply (proj1 (proj2 Hset) id), E | apply (Ha _ eq_refl)]. }
  intros [l2 res] c' s' (-> & Hrel & _ & Hi & Hs & _). cbn [fst] in *.
  pose proof (settled_same _ _ _ _ _ Hs Hi Hset) as Hset2.
  destruct res; cbn [try_ safe fst]; [| exact Hset2 | exact Hset2].
  eapply safe_bind; [apply safe_release; eassumption|]. intros [l3 u] c3 s3 Hset3. exact Hset3.
Qed.

Lemma safe_observe_solana_expiry l c s g id issued_at last_height height observed_at :
  within c start -> settled l c s ->
  Safe (observe_solana_expiry l g id issued_at last_height height observed_at)
    (fun lr c' s' => settled lr.1 c' s') c s.
Proof.
  intros Hw Hset. unfold observe_solana_expiry. destruct (_ || _); [exact Hset|].
  eapply safe_bind; [apply safe_refresh_records; [exact Hw | apply Hset]|].
  intros [l2 res] c' s' (-> & Hrel & _ & Hi & Hs & _). cbn [fst] in *.
  pose proof (settled_same _ _ _ _ _ Hs Hi Hset) as Hset2.
  destruct res; cbn [try_]; [| exact Hset2 | exact Hset2].
  destruct (payment l2 id) as [latest|] eqn:El; [|exact Hset2].
  destruct (_ || _); [exact Hset2|]. eapply safe_bind.
  - apply safe_try_record_payment; [exact Hw | exact Hset2|].
    unfold payment in El. rewrite <- latest_by_id_lookup in El. apply latest_by_id_id in El as [_ Hin].
    destruct Hi as ((_ & _ & _ & Hall) & _). rewrite list.Forall_forall in Hall. apply (Hall latest Hin).
  - intros [l3 res'] c3 s3 Hset3. destruct res'; exact Hset3.
Qed.

(** *** Opening *)

Lemma safe_from_persist session b g s :
  budget_ok b -> limit b <= cap ->
  Safe (from_persist session (name i) b g)
    (fun m c' s' => match m with Ok l => settled l c' s' | _ => c' = ∅ end) ∅ s.
Proof.
  intros Hb Hcap. unfold from_persist. eapply safe_bind.
  { apply safe_read_from; [apply map_Forall_empty | unfold end_of; lia]. }
  cbn beta. intros m c' s' (-> & (_ & (Hall & _) & _) & _ & Hm).
  destruct m as [[entries n] | e |]; [| reflexivity | destruct Hm]. destruct Hm as [-> ->]. cbn [on_ok safe].
  rewrite drop_0. split; [|split; [intros id k a [=] | apply map_Forall_empty]].
  split; [|split; [split; [reflexivity | apply map_Forall_empty] | split; assumption]].
  unfold mirror. cbn [records next_offset committed_holds]. split; [unfold end_of; lia|]. split_and!.
  - rewrite drop_ge by (unfold end_of; lia). rewrite app_nil_r. reflexivity.
  - rewrite add_committed_union. unfold commits. set_solver.
  - exact Hall.
Qed.

Lemma safe_open_current session b g s :
  budget_ok b -> limit b <= cap ->
  Safe (open_current session (name i) b g)
    (fun m c' s' => match m with Ok l => settled l c' s' | _ => c' = ∅ end) ∅ s.
Proof.
  intros Hb Hcap. unfold open_current, require_migration_ready. eapply safe_bind.
  - eapply safe_bind; [apply safe_run_read; [intros ? ? ?; exact id | apply map_Forall_empty]|].
    cbn beta. intros m c' s' (-> & _ & _ & Hm). instantiate (1 := fun _ c' _ => c' = ∅).
    destruct m as [[[ready|]|] | e |]; cbn [on_ok safe]; try reflexivity.
    destruct (negb _); [reflexivity|]. destruct (negb _); reflexivity.
  - intros m c' s' ->. destruct m; cbn [on_ok safe]; try reflexivity. apply safe_from_persist; assumption.
Qed.

Lemma safe_open session b g s :
  budget_ok b -> limit b <= cap ->
  Safe (LedgerOps.open session (name i) b g)
    (fun m c' s' => match m with Ok l => settled l c' s' | _ => c' = ∅ end) ∅ s.
Proof.
  intros Hb Hcap. unfold LedgerOps.open, refuse_unmigrated. eapply safe_bind.
  - eapply safe_bind; [apply safe_run_read; [intros ? ? ?; exact id | apply map_Forall_empty]|].
    cbn beta. intros m c' s' (-> & _). instantiate (1 := fun _ c' _ => c' = ∅).
    destruct m as [n | e |]; cbn [on_ok]; try reflexivity. destruct (0 <? n); [reflexivity|].
    eapply safe_bind; [apply safe_run_read; [intros ? ? ?; exact id | apply map_Forall_empty]|].
    cbn beta. intros m c' s2 (-> & _). destruct m as [[] | e |]; reflexivity.
  - intros m c' s' ->. destruct m; cbn [on_ok safe]; try reflexivity. apply safe_from_persist; assumption.
Qed.
End One.
End Ledgers.
