(* ===== verification/LedgerReads.v ===== *)
(** The ledger's reading loop ends ([Persist::read_from],
    [crates/tinywallet-x402/src/ledger/persist.rs]).

    The source loops until a window comes back empty; [Store.read_loop] carries a
    fuel.  Here the loop is followed through what the stream's port answers read
    by read, while other ledgers append: it ends as soon as the stream stops
    growing, after no more reads than there were entries, whatever fuel above
    that it was given; and on a stream at rest it takes one read per full or
    partial window and one more, so that [READ_FUEL] is enough for two million
    entries. *)

From stdpp Require Import base list strings numbers gmap.
From S2P Require Import Prelude Text LedgerTypes Ledger Store LedgerOps LedgerLogic LedgerSafety.

Section Reads.
Context {CH : Chrono} {CL : ChronoLaws}.

(** The stream at each read, or why the port failed it. *)
Context (views : nat -> str + list Entry).

(** A program followed through the port's answers from the [k]-th on: what it
    returns, and the number of the next read; [None] if it spins, or asks
    anything but a window. *)
Fixpoint follow {A} (k : nat) (p : prog A) : option (A * nat) :=
  match p with
  | Ret a => Some (a, k)
  | Spin => None
  | Call c f =>
      match c in call R return (str + R -> prog A) -> option (A * nat) with
      | ReadWindow from n => fun f => follow (S k) (f (match views k with inl error => inl error | inr es => inr (window from n es) end))
      | _ => fun _ => None
      end f
  end.

(** One turn of the loop. *)
Lemma follow_read fuel k next acc :
  follow k (read_loop (S fuel) next acc) =
  match views k with
  | inl error => Some (Err (lit "read payments stream: " ++ error), S k)
  | inr es =>
      let part := take WINDOW (drop (Z.to_nat next) es) in
      if (length part =? 0)%nat then Some (Ok (acc, next), S k)
      else follow (S k) (read_loop fuel (sat_add u64_max (next + Z.of_nat (length part) - 1) 1) (acc ++ loaded part))
  end.
Proof.
  cbn [read_loop]. unfold run. cbn [mbind prog_bind pbind follow]. destruct (views k) as [e|es]; cbn [pbind on_ok follow]; [reflexivity|].
  rewrite window_last, window_loaded. set (part := take WINDOW (drop (Z.to_nat next) es)).
  destruct part as [|y p] using rev_ind; [reflexivity|]. rewrite last_snoc. cbn [fmap option_fmap option_map fst].
  rewrite length_app. cbn [length]. rewrite Nat.add_1_r. reflexivity.
Qed.

Lemma take_drop_window {A} n (l : list A) : take n l ++ drop (length (take n l)) l = l.
Proof.
  rewrite length_take. destruct (Nat.le_gt_cases n (length l)); [rewrite Nat.min_l by lia; apply take_drop|].
  rewrite Nat.min_r, take_ge, drop_ge by lia. apply app_nil_r.
Qed.

(** More fuel changes nothing that ended. *)
Lemma follow_more d fuel k next acc x :
  follow k (read_loop fuel next acc) = Some x -> follow k (read_loop (fuel + d) next acc) = Some x.
Proof.
  revert k next acc. induction fuel as [|fuel IH]; intros k next acc; [discriminate|]. cbn [Nat.add]. rewrite !follow_read.
  destruct (views k); [auto|]. cbv zeta. destruct (_ =? 0)%nat; auto.
Qed.

(** The stream only grows, within [final]. *)
Definition growing (final : list Entry) : Prop :=
  (forall j k es es', (j <= k)%nat -> views j = inr es -> views k = inr es' -> es `prefix_of` es') /\
  forall k es, views k = inr es -> es `prefix_of` final.

(** How the loop ends, having started at [next] with [acc], at read [n]. *)
Definition read_ends (next : Z) (acc : list LoadedPayment) (n : nat) (r : res str (list LoadedPayment * Z)) : Prop :=
  match views n, r with
  | inl error, Err e => e = lit "read payments stream: " ++ error
  | inr es, Ok (l, stop) => l = acc ++ loaded (drop (Z.to_nat next) es) /\ stop = Z.max next (Z.of_nat (length es))
  | _, _ => False
  end.

Lemma loop_ends final k next acc :
  growing final -> Z.of_nat (length final) <= u64_max -> 0 <= next ->
  exists n r, (k <= n <= k + (length final - Z.to_nat next))%nat /\ read_ends next acc n r /\
    forall fuel, (n - k < fuel)%nat -> follow k (read_loop fuel next acc) = Some (r, S n).
Proof.
  intros [Hmono Hfin] Hmax. remember (length final - Z.to_nat next)%nat as m eqn:Hm.
  revert k next acc Hm. induction m as [m IH] using lt_wf_ind. intros k next acc Hm Hn.
  destruct (views k) as [e|es] eqn:Hk.
  { exists k, (Err (lit "read payments stream: " ++ e)). split; [lia|]. split; [unfold read_ends; rewrite Hk; reflexivity|].
    intros [|fuel] Hf; [lia|]. rewrite follow_read, Hk. reflexivity. }
  pose proof (prefix_length _ _ (Hfin k es Hk)) as Hlen. set (part := take WINDOW (drop (Z.to_nat next) es)).
  assert (Hpart : length part = (WINDOW `min` (length es - Z.to_nat next))%nat) by (unfold part; rewrite length_take, length_drop; reflexivity).
  destruct (decide (part = [])) as [Hnil|Hne].
  - assert (Hd : drop (Z.to_nat next) es = []).
    { apply nil_length_inv. rewrite length_drop. rewrite Hnil in Hpart. cbn [length] in Hpart. unfold WINDOW in Hpart. lia. }
    exists k, (Ok (acc, next)). split; [lia|]. split.
    + unfold read_ends. rewrite Hk, Hd. split; [symmetry; apply app_nil_r|].
      apply (f_equal length) in Hd. rewrite length_drop in Hd. cbn in Hd. lia.
    + intros [|fuel] Hf; [lia|]. rewrite follow_read, Hk. cbv zeta. fold part. rewrite Hnil. reflexivity.
  - assert (Hpos : (0 < length part)%nat) by (destruct part; [congruence | cbn; lia]).
    set (next' := next + Z.of_nat (length part)).
    assert (Hsat : sat_add u64_max (next + Z.of_nat (length part) - 1) 1 = next') by (unfold sat_add, next'; lia).
    assert (Hto : Z.to_nat next' = (Z.to_nat next + length part)%nat) by (unfold next'; lia).
    destruct (IH (length final - Z.to_nat next')%nat ltac:(lia) (S k) next' (acc ++ loaded part) eq_refl ltac:(unfold next'; lia))
      as (n & r & Hb & Hr & Hf).
    exists n, r. split; [lia|]. split.
    + unfold read_ends in *. destruct (views n) as [e|es'] eqn:Hvn; [exact Hr|]. destruct r as [[l stop]|e|]; [|exact Hr..].
      destruct Hr as [-> ->]. pose proof (Hmono k n es es' ltac:(lia) Hk Hvn) as [ext ->]. split.
      * rewrite <- app_assoc. f_equal. unfold loaded. rewrite <- omap_app. f_equal.
        rewrite Hto, <- drop_drop. unfold part. rewrite drop_app_le by lia.
        rewrite drop_app_le by (rewrite length_take; lia). rewrite app_assoc, take_drop_window. reflexivity.
      * rewrite length_app. unfold next'. lia.
    + intros [|fuel] Hfu; [lia|]. rewrite follow_read, Hk. cbv zeta. fold part. rewrite (proj2 (Nat.eqb_neq _ _)) by lia.
      rewrite Hsat. apply Hf. lia.
Qed.

(** Windows a rest of [n] entries takes. *)
Definition windows (n : nat) : nat := ((n + (WINDOW - 1)) / WINDOW)%nat.

Lemma windows_next n : (0 < n)%nat -> windows n = S (windows (n - WINDOW `min` n)).
Proof.
  intros Hn. unfold windows, WINDOW. cbn [Nat.sub]. destruct (Nat.le_gt_cases n 512) as [Hle|Hgt].
  - rewrite Nat.min_r by lia. replace (n + 511)%nat with ((n - 1) + 1 * 512)%nat by lia. rewrite Nat.div_add, Nat.div_small by lia.
    rewrite Nat.sub_diag. reflexivity.
  - rewrite Nat.min_l by lia. replace (n + 511)%nat with ((n - 512 + 511) + 1 * 512)%nat by lia. rewrite Nat.div_add by lia. lia.
Qed.

Lemma rest_reads final fuel k next acc :
  (forall j, views j = inr final) -> Z.of_nat (length final) <= u64_max -> 0 <= next ->
  (windows (length final - Z.to_nat next) < fuel)%nat ->
  option_map snd (follow k (read_loop fuel next acc)) = Some (k + S (windows (length final - Z.to_nat next)))%nat.
Proof.
  intros Hv Hmax. revert k next acc. induction fuel as [|fuel IH]; intros k next acc Hn Hf; [lia|].
  rewrite follow_read, Hv. cbv zeta. set (part := take WINDOW (drop (Z.to_nat next) final)).
  assert (Hpart : length part = (WINDOW `min` (length final - Z.to_nat next))%nat) by (unfold part; rewrite length_take, length_drop; reflexivity).
  destruct (Nat.eqb_spec (length part) 0) as [H0|H0].
  - assert (length final - Z.to_nat next = 0)%nat as -> by (unfold WINDOW in Hpart; lia). cbn. f_equal. lia.
  - rewrite windows_next in * by lia. rewrite <- Hpart in *.
    assert (Hsat : sat_add u64_max (next + Z.of_nat (length part) - 1) 1 = next + Z.of_nat (length part)) by (unfold sat_add; lia).
    rewrite Hsat. assert (Hto : (length final - Z.to_nat (next + Z.of_nat (length part)) = length final - Z.to_nat next - length part)%nat) by lia.
    rewrite IH by (rewrite ?Hto; lia). rewrite Hto. f_equal. lia.
Qed.
End Reads.

(** C35. Reading the ledger's stream ends, with all of it.  However the stream
    grows under the reader (each read sees an extension of what earlier ones saw,
    within some final stream) and whichever read the port fails, the loop makes at
    most one read more than there are entries left and returns the same for every
    fuel above that: the failure of the read that failed, or every entry that
    parses from the start to the end of the stream as the last read saw it, once
    and in order, with that end as the next offset.  On a stream at rest it takes
    one read per window, full or not, and one more, so that the fuel of
    [read_from] is enough for [4095 * 512] entries. *)
Theorem ledger_reads_end `{ChronoLaws} views final from :
  growing views final -> Z.of_nat (length final) <= u64_max -> 0 <= from ->
  (exists n r, (n <= length final - Z.to_nat from)%nat /\ read_ends views from [] n r /\
     forall fuel, (n < fuel)%nat -> follow views 0 (read_loop fuel from []) = Some (r, S n)) /\
  ((forall k, views k = inr final) -> (length final - Z.to_nat from <= 4095 * 512)%nat ->
   follow views 0 (read_from from) =
     Some (Ok (loaded (drop (Z.to_nat from) final), Z.max from (Z.of_nat (length final))), S (windows (length final - Z.to_nat from)))).
Proof.
  intros Hg Hmax Hn. split.
  - destruct (loop_ends views final 0 from [] Hg Hmax Hn) as (n & r & Hb & Hr & Hf). exists n, r. split; [lia|]. split; [exact Hr|].
    intros fuel Hfu. apply Hf. lia.
  - intros Hv Hle. assert (Hw : (windows (length final - Z.to_nat from) < READ_FUEL)%nat).
    { unfold windows, READ_FUEL, WINDOW. apply Nat.Div0.div_lt_upper_bound. lia. }
    pose proof (rest_reads views final READ_FUEL 0 from [] Hv Hmax Hn Hw) as Hcount.
    destruct (loop_ends views final 0 from [] Hg Hmax Hn) as (n & r & Hb & Hr & Hf). unfold read_from.
    destruct (follow views 0 (read_loop READ_FUEL from [])) as [[out m]|] eqn:Hrun; [|discriminate].
    cbn [option_map snd Nat.add] in Hcount. injection Hcount as ->.
    apply (follow_more views (S n)) in Hrun. rewrite Hf in Hrun by lia. injection Hrun as <- Hw'. rewrite Hw' in Hr.
    unfold read_ends in Hr. rewrite Hv in Hr. destruct r as [[l stop]|e|]; [|destruct Hr..]. destruct Hr as [-> ->]. reflexivity.
Qed.

(** Two records in the stream, the second appended while the first is read. *)
Lemma ledger_reads_end_witness :
  let entry : Entry := None in
  let views k : str + list Entry := inr (if (k =? 0)%nat then [entry] else [entry; entry]) in
  (exists n r, (n <= 2)%nat /\ read_ends (CH := toy_chrono) views 0 [] n r) /\
  follow views 0 (read_loop (H := toy_chrono) 3 0 []) = Some (Ok ([], 2), 3%nat).
Proof.
  cbv zeta. split; [|vm_compute; reflexivity].
  set (views := fun k : nat => inr (if (k =? 0)%nat then [None] else [None; None]) : str + list Entry).
  destruct (ledger_reads_end (H := toy_chrono) (H0 := toy_chrono_laws) views [None; None] 0) as [(n & r & Hn & Hr & _) _].
  - split; [|intros k es; unfold views; intros [= <-]; destruct (k =? 0)%nat; [exists [None] | exists []]; reflexivity].
    intros j k es es' Hjk. unfold views. intros [= <-] [= <-].
    destruct (Nat.eqb_spec j 0), (Nat.eqb_spec k 0); try lia; [exists [] | exists [None] | exists []]; reflexivity.
  - vm_compute. discriminate.
  - lia.
  - exists n, r. split; [exact Hn | exact Hr].
Defined.
