(* ===== verification/LedgerSystem.v ===== *)
(** The system of ledgers: any number of them on one storage.

    A configuration is the shared storage and one program per ledger; a step
    opens a ledger, starts an operation, makes one storage call or lets time
    pass.  Shown here: no reachable configuration has more charged against the
    window than the cap every ledger enforces, and every reservation a ledger
    believes in is still charged; that the lease discipline this needs is
    needed; and that recording an expiry can bury a receipt another ledger has
    just recorded. *)

From stdpp Require Import base list strings numbers gmap sets relations.
From S2P Require Import Prelude Text LedgerTypes Ledger Store LedgerOps LedgerLogic LedgerSafety.

(** * Windows *)

(** The day or the month of an instant. *)
Inductive Window := Day | Month.

Section System.
Context {CH : Chrono} {CL : ChronoLaws}.

Definition keep_of (w : Window) (t : Z) : PaymentRecord -> bool :=
  match w with Day => counts_daily t | Month => counts_monthly t end.
Definition limit_of (w : Window) (b : SpendingBudget) : Z :=
  match w with Day => daily_max_atomic b | Month => monthly_max_atomic b end.
Definition in_window (w : Window) (t now : Z) : Prop :=
  match w with Day => date_naive now = date_naive t | Month => year_month now = year_month t end.

Lemma same_day t u : date_naive u = date_naive t -> start_of_day u = start_of_day t /\ end_of_day u = end_of_day t.
Proof.
  intros E.
  assert (H1 : forall x, start_of_day t <= x < end_of_day t <-> start_of_day u <= x < end_of_day u)
    by (intros x; rewrite <- !date_window, E; reflexivity).
  pose proof (proj1 (date_window t t) eq_refl) as Ht. pose proof (H1 (start_of_day t)). pose proof (H1 (start_of_day u)).
  pose proof (H1 (end_of_day t - 1)). pose proof (H1 (end_of_day u - 1)). lia.
Qed.

Lemma same_month t u : year_month u = year_month t -> start_of_month u = start_of_month t /\ end_of_month u = end_of_month t.
Proof.
  intros E.
  assert (H1 : forall x, start_of_month t <= x < end_of_month t <-> start_of_month u <= x < end_of_month u)
    by (intros x; rewrite <- !month_window, E; reflexivity).
  pose proof (proj1 (month_window t t) eq_refl) as Ht. pose proof (H1 (start_of_month t)). pose proof (H1 (start_of_month u)).
  pose proof (H1 (end_of_month t - 1)). pose proof (H1 (end_of_month u - 1)). lia.
Qed.

(** Operations within the window look at the same records. *)
Lemma keep_of_window w t now : in_window w t now -> keep_of w now = keep_of w t.
Proof.
  destruct w; cbn; intros E.
  - destruct (same_day t now E) as [Es Ee]. unfold counts_daily. rewrite Es, Ee. reflexivity.
  - destruct (same_month t now E) as [Es Ee]. unfold counts_monthly. rewrite Es, Ee, E. reflexivity.
Qed.

Lemma verdict_window w t now l amount :
  in_window w t now -> refusal (check_budget_at l now amount) = None ->
  over_cap (window_total (keep_of w t) l) amount (limit_of w (budget l)) = false.
Proof.
  intros Hw. rewrite <- (keep_of_window w t now Hw). unfold check_budget_at.
  destruct (per_request_max_atomic (budget l) <? amount); [discriminate|].
  destruct (over_cap (window_total (counts_daily now) l) amount (daily_max_atomic (budget l))) eqn:Ed; [discriminate|].
  destruct (over_cap (window_total (counts_monthly now) l) amount (monthly_max_atomic (budget l))) eqn:Em; [discriminate|].
  destruct w; intros _; assumption.
Qed.

Lemma limit_of_u64 w b : budget_ok b -> is_u64 (limit_of w b).
Proof. intros (H1 & H2 & H3). destruct w; assumption. Qed.

(** * Configurations *)

(** What a caller may ask of a ledger. *)
Inductive Request :=
  | OpReserve (amount : Z)
  | OpRelease (id : Z)
  | OpRenew
  | OpCommit (id : Z) (r : PaymentRecord)
  | OpRecord (r : PaymentRecord)
  | OpObserve (gen : Z) (id : str) (issued_at last_height height observed_at : Z)
  | OpUpdateBudget (b : SpendingBudget).

Abbreviation program := (prog (option PaymentLedger)).

(** The ledger an operation leaves behind; its answer goes to the caller. *)
Definition leaving {A} (p : prog (PaymentLedger * A)) : program := la ← p; Ret (Some la.1).

Definition request_prog (now : Z) (l : PaymentLedger) (o : Request) : program :=
  match o with
  | OpReserve amount => leaving (reserve_at l now amount)
  | OpRelease id => leaving (release l id)
  | OpRenew => leaving (renew_holds_at l now)
  | OpCommit id r => leaving (try_commit_reservation l id r)
  | OpRecord r => leaving (try_record_payment l r)
  | OpObserve g id issued_at last_height height observed_at =>
      leaving (observe_solana_expiry l g id issued_at last_height height observed_at)
  | OpUpdateBudget b => Ret (Some (update_budget l b))
  end.

(** Opening, through a module grant or directly. *)
Definition open_prog (current : bool) (session owner : str) (b : SpendingBudget) (g : Z) : program :=
  opened ← (if current then open_current session owner b g else LedgerOps.open session owner b g);
  Ret (match opened with Ok l => Some l | _ => None end).

Definition unopened (session owner : str) (b : SpendingBudget) (g : Z) : PaymentLedger :=
  mkLedger g [] ∅ 0 b session owner ∅ ∅.

(** A ledger at work: when its operation began, the ledger it began with, and
    the rest of the operation; [Ret (Some l)] is an idle ledger. *)
Record Proc := mkProc { pr_now : Z; pr_start : PaymentLedger; pr_prog : program }.
Record Config := mkConfig { cf_shared : Shared; cf_procs : gmap nat Proc }.

Definition ledger_of (p : Proc) : option PaymentLedger :=
  match pr_prog p with Ret o => o | _ => Some (pr_start p) end.

Context (w : Window) (t : Z) (cap : Z) (name : nat -> str).
Abbreviation keep := (keep_of w t).
Abbreviation limit := (limit_of w).

(** The caller's side: a reservation falls in the window, a payment costs at
    most what was reserved for it, and the budgets enforce the cap. *)
Definition request_ok (now : Z) (l : PaymentLedger) (o : Request) : Prop :=
  match o with
  | OpReserve amount => is_u64 amount /\ in_window w t now
  | OpCommit id r => record_ok r /\
      (forall own, reservations l !! id = Some own -> p_amount_atomic r <= o_amount own)
  | OpRecord r => record_ok r
  | OpUpdateBudget b => budget_ok b /\ limit b <= cap
  | _ => True
  end.

(** Time may pass to [u]: no operation runs longer than a lease, and every
    stored hold that a ledger owns and has not committed is renewed in time. *)
Definition timely (cf : Config) (u : Z) : Prop :=
  forall i p, cf_procs cf !! i = Some p ->
    (is_call (pr_prog p) -> u < saturating_expiry (timestamp_millis (pr_now p))) /\
    (forall l id own h, ledger_of p = Some l -> reservations l !! id = Some own ->
       holds_of (cf_shared cf) !! o_key own = Some h ->
       o_key own ∉ commits (sh_stream (cf_shared cf)) -> u < h_expires_ms h).

Inductive step : Config -> Config -> Prop :=
  | step_open s ps i now current session b g :
      ps !! i = None -> budget_ok b -> limit b <= cap -> on_time now s ->
      step (mkConfig s ps)
        (mkConfig s (<[i := mkProc now (unopened session (name i) b g)
                              (open_prog current session (name i) b g)]> ps))
  | step_request s ps i p now l o :
      ps !! i = Some p -> pr_prog p = Ret (Some l) -> request_ok now l o -> on_time now s ->
      step (mkConfig s ps) (mkConfig s (<[i := mkProc now l (request_prog now l o)]> ps))
  | step_call s ps i now start R (c : call R) k r s' :
      ps !! i = Some (mkProc now start (Call c k)) -> call_allowed keep c s -> port_step i c s r s' ->
      step (mkConfig s ps) (mkConfig s' (<[i := mkProc now start (k r)]> ps))
  | step_time s ps u :
      sh_time s <= u -> timely (mkConfig s ps) u ->
      step (mkConfig s ps) (mkConfig (at_time s u) ps).

(** * The invariant *)

Definition outcome (i : nat) (o : option PaymentLedger) (c : gmap str Z) (s : Shared) : Prop :=
  match o with Some l => settled cap name i limit l c s | None => c = ∅ end.

Definition proc_inv (i : nat) (p : Proc) (s : Shared) : Prop :=
  exists c s0, own_claims i name c /\ rely keep cap c s0 s /\
    safe keep cap i name (pr_now p) (pr_start p) (pr_prog p) (outcome i) c s0 /\
    (is_call (pr_prog p) -> on_time (pr_now p) s).

Definition config_inv (cf : Config) : Prop :=
  sane keep cap (cf_shared cf) /\ map_Forall (fun i p => proc_inv i p (cf_shared cf)) (cf_procs cf).

Lemma leaving_safe {A} i now start (p : prog (PaymentLedger * A)) c s :
  safe keep cap i name now start p (fun lr c' s' => settled cap name i limit lr.1 c' s') c s ->
  safe keep cap i name now start (leaving p) (outcome i) c s.
Proof. intros Hp. eapply safe_bind; [exact Hp|]. intros lr c' s' Hset. exact Hset. Qed.

Lemma request_safe i now l o c s :
  settled cap name i limit l c s -> request_ok now l o ->
  safe keep cap i name now l (request_prog now l o) (outcome i) c s.
Proof.
  intros Hset Ho. assert (Hw : within c l) by apply Hset.
  destruct o; cbn [request_prog request_ok] in *; try apply leaving_safe.
  - apply safe_reserve_at; auto; [intros x a; apply verdict_window, Ho | intros b; apply limit_of_u64 | apply Ho].
  - apply safe_release; assumption.
  - apply safe_renew_holds_at; assumption.
  - apply safe_try_commit_reservation; auto; apply Ho.
  - apply safe_try_record_payment; auto.
  - apply safe_observe_solana_expiry; auto.
  - destruct Hset as ((Hm & Hown & _) & Hset). split; [|exact Hset]. split; [exact Hm | split; [exact Hown | exact Ho]].
Qed.

Lemma open_safe i now current session b g s :
  budget_ok b -> limit b <= cap ->
  safe keep cap i name now (unopened session (name i) b g)
    (open_prog current session (name i) b g) (outcome i) ∅ s.
Proof.
  intros Hb Hl. unfold open_prog. destruct current.
  - eapply safe_bind; [apply safe_open_current with (limit := limit_of w); assumption|]. intros m c s' Hm. destruct m; exact Hm.
  - eapply safe_bind; [apply safe_open with (limit := limit_of w); assumption|]. intros m c s' Hm. destruct m; exact Hm.
Qed.

Lemma proc_inv_start i now start p c s :
  sane keep cap s -> own_claims i name c -> claims_held c s -> on_time now s ->
  safe keep cap i name now start p (outcome i) c s -> proc_inv i (mkProc now start p) s.
Proof.
  intros Hs Ho Hc Ht Hp. exists c, s. split_and!; [exact Ho | apply rely_refl; assumption | exact Hp | intros _; exact Ht].
Qed.

Lemma port_step_time {R} i (c : call R) s r s' : port_step i c s r s' -> sh_time s' = sh_time s.
Proof.
  destruct c; cbn.
  - intros [-> _]. reflexivity.
  - intros [[-> _] | [-> _]]; reflexivity.
  - intros [-> _]. reflexivity.
  - intros [[-> _] | (v & _ & _ & -> & _)]; reflexivity.
  - intros ->. reflexivity.
  - intros ->. reflexivity.
  - intros ->. reflexivity.
  - intros (id & _ & _ & _ & ->). reflexivity.
Qed.

Hypothesis name_inj : forall i j, name i = name j -> i = j.

(** Another ledger's step is what this one relies on. *)
Lemma proc_inv_other i j p c' s s' :
  i <> j -> proc_inv j p s -> guarantee keep cap i name s c' s' -> sh_time s' = sh_time s -> proc_inv j p s'.
Proof.
  intros Hij (c & s0 & Ho & Hr & Hp & Ht) (Hg & _ & Hoth) Et. exists c, s0. split_and!; auto.
  - split; [|split; [apply Hg|]].
    + eapply evolves_trans; [apply Hr | apply Hg].
    + intros k a Hk. apply Hoth; [|apply (proj2 (proj2 Hr) k a Hk)].
      intros Hown. apply Hij. apply (own_of_disjoint name i j k name_inj Hown). apply (Ho k a Hk).
  - intros Hc. unfold on_time in *. rewrite Et. apply Ht, Hc.
Qed.

(** The claims of a ledger are reservations of it that [timely] speaks of. *)
Lemma proc_claims i p s :
  proc_inv i p s -> exists c s0, own_claims i name c /\ rely keep cap c s0 s /\
    safe keep cap i name (pr_now p) (pr_start p) (pr_prog p) (outcome i) c s0 /\
    (is_call (pr_prog p) -> on_time (pr_now p) s) /\
    forall k a, c !! k = Some a -> exists l id, ledger_of p = Some l /\ reservations l !! id = Some (mkOwn k a).
Proof.
  intros (c & s0 & Ho & Hr & Hp & Ht). unfold ledger_of. destruct (pr_prog p) as [[l|] | R call k |] eqn:E.
  - exists c, s0. split_and!; auto. intros x a Hx. destruct (proj2 (proj2 Hp) x a Hx) as [id Hid]. eauto.
  - exists c, s0. split_and!; auto. cbn in Hp. subst c. discriminate.
  - exists c, s0. split_and!; auto. intros x a Hx. destruct (proj1 Hp x a Hx) as [id Hid]. eauto.
  - exists ∅, s0. split_and!; auto; [apply map_Forall_empty | | discriminate].
    eapply rely_weaken; [apply map_empty_subseteq | exact Hr].
Qed.

Lemma evolves_time s u : sane keep cap s -> sh_time s <= u -> evolves keep s (at_time s u) /\ sane keep cap (at_time s u).
Proof.
  intros (Hrec & Hok & Hv & He & Hcap) Hu.
  assert (Hle : total keep (at_time s u) <= total keep s).
  { unfold total. cbn [at_time sh_time sh_stream]. change (holds_of (at_time s u)) with (holds_of s).
    enough (held_total (counted u (sh_stream s) (holds_of s))
            <= held_total (counted (sh_time s) (sh_stream s) (holds_of s))) by lia.
    apply held_total_mono; [apply counted_mono; [exact Hu | reflexivity]|].
    eapply holds_ok_sub; [apply counted_sub | exact Hok]. }
  split.
  - unfold evolves. cbn [at_time sh_time sh_stream sh_clock sh_next sh_doc]. split_and!; auto; try lia.
    exists []. rewrite app_nil_r. reflexivity.
  - unfold sane. split_and!; auto. lia.
Qed.

Lemma proc_inv_time i p s ps u :
  ps !! i = Some p -> sane keep cap s -> sh_time s <= u -> timely (mkConfig s ps) u ->
  proc_inv i p s -> proc_inv i p (at_time s u).
Proof.
  intros Hi Hs Hu Hti Hp. destruct (proc_claims _ _ _ Hp) as (c & s0 & Ho & Hr & Hsafe & Ht & Hcl).
  destruct (evolves_time s u Hs Hu) as [He Hs']. destruct (Hti i p Hi) as [Hrun Hown]. exists c, s0. split_and!; auto.
  - split; [eapply evolves_trans; [apply Hr | exact He] | split; [exact Hs'|]].
    intros k a Hk. destruct (decide (k ∈ commits (sh_stream s))) as [Hin|Hin]; [left; exact Hin|].
    destruct (proj2 (proj2 Hr) k a Hk) as [? | (h & Hh & Ha & _)]; [tauto|].
    destruct (Hcl k a Hk) as (l & id & El & Hid). right. exists h. split_and!; [exact Hh | exact Ha|].
    apply (Hown l id _ h El Hid Hh Hin).
  - intros Hc. specialize (Ht Hc). specialize (Hrun Hc). unfold on_time in *. cbn. lia.
Qed.

Lemma step_inv cf cf' : step cf cf' -> config_inv cf -> config_inv cf'.
Proof.
  destruct 1 as [s ps i now current session b g Hi Hb Hl Ht | s ps i p now l o Hi Hp Ho Ht
                | s ps i now start R c k r s' Hi Hal Hs | s ps u Hu Hti]; intros [Hsane Hps]; cbn [cf_shared cf_procs] in *.
  - split; [exact Hsane|]. apply map_Forall_insert_2; [|exact Hps].
    apply proc_inv_start with (c := ∅); [exact Hsane | apply map_Forall_empty | apply map_Forall_empty | exact Ht|].
    apply open_safe; assumption.
  - split; [exact Hsane|]. apply map_Forall_insert_2; [|exact Hps].
    destruct (Hps i p Hi) as (c & s0 & Hown & Hr & Hsafe & _). rewrite Hp in Hsafe. cbn [safe outcome] in Hsafe.
    apply proc_inv_start with (c := c); [exact Hsane | exact Hown | apply Hr | exact Ht|].
    apply request_safe; [|exact Ho].
    eapply settled_rely; eauto.
  - destruct (Hps i _ Hi) as (c0 & s0 & Hown & Hr & Hsafe & Ht). cbn [pr_now pr_start pr_prog is_call] in *.
    destruct Hsafe as [_ Hsafe]. destruct (Hsafe s Hown Hr (Ht I) Hal r s' Hs) as (c' & Hg & Hk).
    pose proof (port_step_time _ _ _ _ _ Hs) as Et. pose proof Hg as ((_ & Hs' & Hc') & Hown' & _).
    split; [exact Hs'|]. intros j q Hj. cbn [cf_procs] in Hj. apply lookup_insert_Some in Hj as [[<- <-] | [Hne Hj]].
    + exists c', s'. split_and!; auto; [apply rely_refl; assumption|].
      intros _. unfold on_time in *. cbn [pr_now cf_shared]. rewrite Et. exact (Ht I).
    + eapply proc_inv_other; [exact Hne | apply (Hps j q Hj) | exact Hg | exact Et].
  - split; [apply evolves_time; assumption|]. intros i p Hi. cbn in *. eapply proc_inv_time; eauto.
Qed.

Lemma reachable_inv cf0 cf : rtc step cf0 cf -> config_inv cf0 -> config_inv cf.
Proof. induction 1; eauto using step_inv. Qed.

(** * Running configurations

    An honest storage answers every call; a schedule says which ledger moves
    next.  Every schedule without jumps in time is a run of [step]. *)

Definition answer (i : nat) {R} (c : call R) (s : Shared) : option ((str + R) * Shared) :=
  match c in call R return option ((str + R) * Shared) with
  | ReadWindow from n => Some (inr (window from n (sh_stream s)), s)
  | Append e => Some (inr (end_of s), appended s (Some e))
  | GetHolds => Some (inr (doc_answer (sh_doc s)), s)
  | PutHolds version d =>
      if decide (version = fst <$> sh_doc s) then Some (inr Written, put s (sh_clock s + 1) d)
      else Some (inr Conflict, s)
  | GetReady => Some (inr (Some (Some (mkReady STORAGE_SCHEMA_VERSION PAYMENTS_IMPORT_EPOCH))), s)
  | LegacyLen => Some (inr 0, s)
  | LegacyHolds => Some (inr false, s)
  | FreshId =>
      let id := Z.max 0 (sh_next s i) in
      if id <? u64_max then Some (inr id, issued s i (id + 1)) else None
  end.

#[local] Instance call_allowed_dec {R} (c : call R) s : Decision (call_allowed keep c s).
Proof. destruct c; apply _. Defined.
#[local] Instance on_time_dec now s : Decision (on_time now s).
Proof. unfold on_time. apply _. Defined.
#[local] Instance in_window_dec now : Decision (in_window w t now).
Proof. unfold in_window. destruct w; apply _. Defined.
#[local] Instance budget_ok_dec b : Decision (budget_ok b).
Proof. unfold budget_ok, is_u64. apply _. Defined.
#[local] Instance record_ok_dec r : Decision (record_ok r).
Proof. unfold record_ok, is_u64. apply _. Defined.

(** At most [n] calls of ledger [i]. *)
Fixpoint run_alone (n : nat) (i : nat) {A} (p : prog A) (s : Shared) : option (prog A * Shared) :=
  match n, p with
  | S n, Call c k =>
      if decide (call_allowed keep c s)
      then match answer i c s with Some (r, s') => run_alone n i (k r) s' | None => None end
      else None
  | _, _ => Some (p, s)
  end.

Inductive Command :=
  | COpen (i : nat) (now : Z) (b : SpendingBudget)
  | CRequest (i : nat) (now : Z) (o : Request)
  | CRun (i n : nat)
  | CTime (u : Z).

Definition request_okb (now : Z) (l : PaymentLedger) (o : Request) : bool :=
  match o with
  | OpReserve amount => bool_decide (is_u64 amount) && bool_decide (in_window w t now)
  | OpCommit id r => bool_decide (record_ok r) &&
      match reservations l !! id with Some own => p_amount_atomic r <=? o_amount own | None => true end
  | OpRecord r => bool_decide (record_ok r)
  | OpUpdateBudget b => bool_decide (budget_ok b) && (limit b <=? cap)
  | _ => true
  end.

Definition command (cf : Config) (c : Command) : option Config :=
  let s := cf_shared cf in
  let ps := cf_procs cf in
  match c with
  | COpen i now b =>
      if decide (ps !! i = None /\ budget_ok b /\ limit b <= cap /\ on_time now s)
      then Some (mkConfig s (<[i := mkProc now (unopened [] (name i) b 0) (open_prog true [] (name i) b 0)]> ps))
      else None
  | CRequest i now o =>
      match ps !! i with
      | Some (mkProc _ _ (Ret (Some l))) =>
          if request_okb now l o && bool_decide (on_time now s)
          then Some (mkConfig s (<[i := mkProc now l (request_prog now l o)]> ps)) else None
      | _ => None
      end
  | CRun i n =>
      match ps !! i with
      | Some (mkProc now start p) =>
          match run_alone n i p s with
          | Some (p', s') => Some (mkConfig s' (<[i := mkProc now start p']> ps))
          | None => None
          end
      | None => None
      end
  | CTime u => if sh_time s <=? u then Some (mkConfig (at_time s u) ps) else None
  end.

Fixpoint schedule (cs : list Command) (cf : Config) : option Config :=
  match cs with
  | [] => Some cf
  | c :: cs => match command cf c with Some cf' => schedule cs cf' | None => None end
  end.

Lemma answer_step {R} i (c : call R) s r s' : answer i c s = Some (r, s') -> port_step i c s r s'.
Proof.
  destruct c; cbn.
  - intros [= <- <-]. auto.
  - intros [= <- <-]. auto.
  - intros [= <- <-]. auto.
  - destruct (decide _) as [E|E]; intros [= <- <-]; [|auto].
    right. exists (sh_clock s + 1). split_and!; auto. lia.
  - intros [= <- <-]. reflexivity.
  - intros [= <- <-]. reflexivity.
  - intros [= <- <-]. reflexivity.
  - destruct (Z.ltb_spec (Z.max 0 (sh_next s i)) u64_max); [|discriminate]. intros [= <- <-].
    exists (Z.max 0 (sh_next s i)). split_and!; auto; lia.
Qed.

Lemma run_alone_steps n i now start p s p' s' ps :
  ps !! i = Some (mkProc now start p) -> run_alone n i p s = Some (p', s') ->
  rtc step (mkConfig s ps) (mkConfig s' (<[i := mkProc now start p']> ps)).
Proof.
  revert p s ps. induction n as [|n IH]; intros p s ps Hi Hr.
  { cbn in Hr. assert (Some (p, s) = Some (p', s')) as [= <- <-] by (destruct p; exact Hr).
    rewrite insert_id by exact Hi. apply rtc_refl. }
  destruct p as [o | R c k |]; cbn [run_alone] in Hr; try (injection Hr as <- <-; rewrite insert_id by exact Hi; apply rtc_refl).
  destruct (decide (call_allowed keep c s)) as [Hal|]; [|discriminate].
  destruct (answer i c s) as [[r s1]|] eqn:Ea; [|discriminate]. apply answer_step in Ea.
  eapply rtc_l; [eapply step_call; eauto|].
  rewrite <- (insert_insert_eq ps i (mkProc now start p') (mkProc now start (k r))).
  apply (IH (k r)); [apply lookup_insert_eq | exact Hr].
Qed.

Lemma request_okb_ok now l o : request_okb now l o = true -> request_ok now l o.
Proof.
  destruct o; cbn; auto; rewrite ?andb_true_iff, ?bool_decide_eq_true.
  - tauto.
  - intros [Hr Ha]. split; [exact Hr|]. intros own E. rewrite E in Ha. lia.
  - tauto.
  - intros [Hb Hl]. split; [exact Hb | lia].
Qed.

(** Schedules without jumps in time are runs. *)
Lemma schedule_steps cs cf cf' :
  Forall (fun c => match c with CTime _ => False | _ => True end) cs ->
  schedule cs cf = Some cf' -> rtc step cf cf'.
Proof.
  intros Hcs. revert cf. induction Hcs as [|c cs Hc Hcs IH]; intros cf Hr; cbn [schedule] in Hr.
  { injection Hr as <-. apply rtc_refl. }
  destruct (command cf c) as [cf1|] eqn:E; [|discriminate]. specialize (IH cf1 Hr).
  etransitivity; [|exact IH]. destruct cf as [s ps]. destruct c as [i now b | i now o | i n | u]; cbn [command cf_shared cf_procs] in E.
  - destruct (decide _) as [(H1 & H2 & H3 & H4)|]; [|discriminate]. injection E as <-.
    apply rtc_once. apply (step_open s ps i now true); assumption.
  - destruct (ps !! i) as [[nw st [[l|]| |]]|] eqn:Ei; try discriminate.
    destruct (request_okb now l o && bool_decide (on_time now s)) eqn:Eb; [|discriminate]. injection E as <-.
    apply andb_true_iff in Eb as [E1 E2]. apply bool_decide_eq_true in E2.
    apply rtc_once. eapply step_request; [exact Ei | reflexivity | apply request_okb_ok, E1 | exact E2].
  - destruct (ps !! i) as [[now start p]|] eqn:Ei; [|discriminate].
    destruct (run_alone n i p s) as [[p' s']|] eqn:Er; [|discriminate]. injection E as <-.
    apply (run_alone_steps n i now start p s p' s' ps Ei Er).
  - destruct Hc.
Qed.
End System.

(** * Properties *)


(** ** Closed runs *)

Definition example_name (i : nat) : str := [Z.of_nat i].
Definition example_now : Z := 1000000000.
Definition example_budget : SpendingBudget := mkBudget 10 10 100.
Definition example_start (stream : list Entry) : Config :=
  mkConfig (mkShared stream None 0 1000000 (fun _ => 0)) ∅.
Abbreviation example_run := (schedule Day example_now 10 example_name).

(** Two ledgers reserve 6 of 10 at once: the first to look loses the race,
    looks again and is refused; the winner commits a payment of 5. *)
Definition race : list Command :=
  [COpen 0 example_now example_budget; COpen 1 example_now example_budget; CRun 0 9; CRun 1 9;
   CRequest 0 example_now (OpReserve 6); CRequest 1 example_now (OpReserve 6);
   CRun 0 3; CRun 1 9; CRun 0 30;
   CRequest 1 example_now (OpCommit 0 (example_record [1] 5 Pending example_now)); CRun 1 9].

(** What is charged after a schedule. *)
Definition charged_after (cs : list Command) : option Z :=
  match example_run cs (example_start []) with
  | Some cf => Some (total (keep_of Day example_now) (cf_shared cf))
  | None => None
  end.

Lemma race_total : charged_after race = Some 5.
Proof. vm_compute. reflexivity. Qed.


(** Ledger 0 reserves 6 of 10 and lets the lease lapse; ledger 1 then reserves
    6; ledger 0 renews. *)
Definition later : Z := example_now + (HOLD_TTL_MS + 1) * 1000.
Definition lapse : list Command :=
  [COpen 0 example_now example_budget; COpen 1 example_now example_budget; CRun 0 9; CRun 1 9;
   CRequest 0 example_now (OpReserve 6); CRun 0 9;
   CTime (timestamp_millis later);
   CRequest 1 later (OpReserve 6); CRun 1 9; CRequest 0 later OpRenew; CRun 0 9].

(** The lease discipline is needed.  A ledger that renews after its lease
    lapsed puts its hold back without checking the budget, so two reservations
    of 6 end up held against a cap of 10 that both ledgers enforce, a state no
    run that renews in time reaches. *)
Theorem lapsed_lease_overspends :
  charged_after lapse = Some 12 /\
  (forall cf, rtc (step Day example_now 10 example_name) (example_start []) cf ->
     total (keep_of Day example_now) (cf_shared cf) <> 12).
Proof.
  split; [vm_compute; reflexivity|]. intros cf Hr E.
  assert (Hcap : config_inv Day example_now 10 example_name cf).
  { eapply reachable_inv; [intros i j [= Hij]; lia | exact Hr|]. split; [|apply map_Forall_empty].
    split; [constructor|]. split; [apply map_Forall_empty|]. split; [intros v d [=]|].
    split; vm_compute; discriminate. }
  destruct Hcap as [(_ & _ & _ & _ & Hcap) _]. lia.
Qed.

(** A pending Solana authorization, and its receipt. *)
Definition solana_pending : PaymentRecord :=
  mkRecord [1] [] [] 5 [] [] [] None Pending example_now None (Some 100) None None [] None.
Definition solana_settled : PaymentRecord :=
  mkRecord [1] [] [] 5 [] [] [] None Settled example_now None (Some 100) None None [] None.

(** Ledger 0 observes the expiry; between its read and its append, ledger 1
    records the receipt. *)
Definition receipt_race (n : nat) : list Command :=
  [COpen 0 example_now example_budget; COpen 1 example_now example_budget; CRun 0 9; CRun 1 9;
   CRequest 0 example_now (OpObserve 0 [1] example_now 100 101 example_now); CRun 0 1;
   CRequest 1 example_now (OpRecord solana_settled); CRun 1 9; CRun 0 n].

Definition status_after (cs : list Command) : option (option PaymentStatus) :=
  match example_run cs (example_start [Some (stored_payment solana_pending None)]) with
  | Some cf => Some (p_status <$> latest_by_id (parsed (sh_stream (cf_shared cf))) !! [1])
  | None => None
  end.

(** Recording an expiry can bury a receipt.  [observe_solana_expiry] reads
    the stream and appends in two calls, so a receipt another ledger appends in
    between is overwritten: before the append the payment's latest state is
    Settled, after it Pending again. *)
Theorem expiry_buries_receipt :
  status_after (receipt_race 0) = Some (Some Settled) /\
  status_after (receipt_race 9) = Some (Some Pending).
Proof. split; vm_compute; reflexivity. Qed.
