(* ===== verification/Keys.v ===== *)
(** Key derivation in the library ([src/key/]): BIP-39 phrases, BIP-32 on
    secp256k1 for Bitcoin, EVM and Tron, SLIP-0010 on ed25519 for Solana, and the
    address each key controls.

    The phrase, extended-key, HMAC, RIPEMD and curve operations are those crates',
    parameters with their documented laws.  Shown: the Solana path parser accepts
    exactly the hardened paths, and its walk is SLIP-0010's; every derived address
    is the address of the derived key and passes the chain's own validation.
    Wiping secrets from memory is not modelled. *)

From stdpp Require Import base list strings numbers.
From S2P Require Import Prelude Text Chain Codec Base58 Addr SolWire NoPanic.

(** * What the crates provide *)

(** [coins_bip39]: the parse, the seed with an empty passphrase, a phrase from
    the generator's bytes, the phrase as text.  Its errors are dropped. *)
Class Bip39 := {
  Phrase : Type;
  phrase_from_str : str -> option Phrase;
  to_seed : Phrase -> option (list Z);
  from_rng_with_count : list Z -> Z -> option Phrase;
  to_phrase : Phrase -> str
}.

(** [coins_bip32] and its [k256] keys. *)
Class Bip32 := {
  XPriv : Type;
  DerivationPath : Type;
  VerifyingKey : Type;
  root_from_seed : list Z -> option XPriv;
  path_from_str : str -> str + DerivationPath;
  path_len : DerivationPath -> Z;
  derive_path : XPriv -> DerivationPath -> option XPriv;
  secret_of : XPriv -> list Z;
  verifying_key_of : XPriv -> VerifyingKey;
  (** [to_encoded_point(compress)], [from_sec1_bytes]. *)
  encoded_point : bool -> VerifyingKey -> list Z;
  from_sec1_bytes : list Z -> option VerifyingKey
}.

Class Bip32Laws `{Bip32} : Prop := {
  encoded_point_length c k : length (encoded_point c k) = if c then 33%nat else 65%nat;
  from_sec1_encoded c k : from_sec1_bytes (encoded_point c k) = Some k;
  secret_of_length k : length (secret_of k) = 32%nat
}.

(** [Hmac<Sha512>] over a key and a message, and RIPEMD-160. *)
Class KeyHashes := {
  hmac_sha512 : list Z -> list Z -> option (list Z);
  ripemd160 : list Z -> list Z
}.

(** HMAC takes a key of any length. *)
Class KeyHashLaws `{KeyHashes} : Prop := {
  hmac_sha512_total k m : exists d, hmac_sha512 k m = Some d /\ length d = 64%nat;
  ripemd160_length m : length (ripemd160 m) = 20%nat;
  ripemd160_ok m : bytes_ok (ripemd160 m)
}.

(** * Errors *)

Inductive key_error :=
  | InvalidMnemonic
  | InvalidMnemonicWordCount (count : Z)
  | InvalidPublicKey
  | InvalidPath (path reason : str)
  | UnhardenedSolanaPath (path : str)
  | Derivation (step : str)
  | KeyChainNotCompiled (chain : Chain).
#[export] Instance key_error_eq_dec : EqDecision key_error.
Proof. solve_decision. Defined.

Definition key_error_text (e : key_error) : str :=
  match e with
  | InvalidMnemonic => lit "invalid BIP-39 mnemonic"
  | InvalidMnemonicWordCount count => lit "unsupported BIP-39 mnemonic word count " ++ show_dec count
  | InvalidPublicKey => lit "invalid SEC1 public key"
  | InvalidPath path reason => lit "invalid derivation path '" ++ path ++ lit "': " ++ reason
  | UnhardenedSolanaPath path =>
      lit "Solana path '" ++ path ++ lit "' has a non-hardened segment; ed25519 (SLIP-0010) supports hardened derivation only, so every segment needs a trailing '"
  | Derivation step => lit "key derivation failed at " ++ step
  | KeyChainNotCompiled chain =>
      lit "tinywallet was built without support for " ++ Chain_as_str chain ++ lit "; enable the '"
      ++ Chain_as_str chain ++ lit "' feature to derive its keys"
  end.

Record DerivedKey := mkDerivedKey { dk_chain : Chain; dk_address : str; dk_secret : list Z }.

(** [out.copy_from_slice(bytes)] into an array of [n]: another length panics. *)
Definition copy_array {E} (n : nat) (bytes : list Z) : res E (list Z) :=
  if (length bytes =? n)%nat then Ok bytes else Panic.

Section Keys.
Context `{Codecs, Bip39, Bip32, KeyHashes, Ed25519Lib}.

(** * Phrases *)

Definition generate_mnemonic (rng : list Z) (word_count : Z) : res key_error str :=
  match from_rng_with_count rng word_count with
  | Some phrase => Ok (to_phrase phrase)
  | None => Err (InvalidMnemonicWordCount word_count)
  end.

Definition mnemonic_seed (mnemonic : str) : res key_error (list Z) :=
  parsed ← ok_or (phrase_from_str (trim mnemonic)) InvalidMnemonic;
  ok_or (to_seed parsed) InvalidMnemonic.

(** * BIP-32 *)

Definition bip32_derive (seed : list Z) (path : str) : res key_error XPriv :=
  master ← ok_or (root_from_seed seed) (Derivation (lit "BIP-32 master key"));
  parsed ← match path_from_str path with inl e => Err (InvalidPath path e) | inr p => Ok p end;
  if 255 <? path_len parsed
  then Err (InvalidPath path (lit "BIP-32 depth is limited to 255 levels, got " ++ show_dec (path_len parsed)))
  else ok_or (derive_path master parsed) (Derivation (lit "BIP-32 child key")).

Definition uncompressed_public (key : XPriv) : res key_error (list Z) := copy_array 65 (encoded_point false (verifying_key_of key)).
Definition compressed_public (key : XPriv) : res key_error (list Z) := copy_array 33 (encoded_point true (verifying_key_of key)).

(** * SLIP-0010 *)

Definition CURVE_SEED : list Z := lit "ed25519 seed".

(** [strip_suffix('\'')]. *)
Definition strip_apostrophe (segment : str) : option str :=
  match rev segment with
  | 39 :: digits => Some (rev digits)
  | _ => None
  end.

(** One segment after [m]. *)
Definition parse_segment (path segment : str) : res key_error Z :=
  index ← ok_or (strip_apostrophe segment) (UnhardenedSolanaPath path);
  v ← map_err (fun e => InvalidPath path (lit "segment '" ++ segment ++ lit "': " ++ parse_int_error_text e)) (parse_u32 index);
  if 2 ^ 31 <=? v
  then Err (InvalidPath path (lit "segment '" ++ segment ++ lit "' exceeds the maximum raw index"))
  else Ok v.

Fixpoint parse_segments (path : str) (segments : list str) : res key_error (list Z) :=
  match segments with
  | [] => Ok []
  | segment :: rest =>
      index ← parse_segment path segment;
      indices ← parse_segments path rest;
      Ok (index :: indices)
  end.

Definition parse_path (path : str) : res key_error (list Z) :=
  match split_on 47 (trim path) with
  | first :: segments =>
      if bool_decide (first = lit "m") then
        out ← parse_segments path segments;
        if is_nil out then Err (InvalidPath path (lit "has no segments")) else Ok out
      else Err (InvalidPath path (lit "must start with 'm'"))
  | [] => Err (InvalidPath path (lit "must start with 'm'"))
  end.

(** One round: the digest's halves are the key and the chain code. *)
Definition halves (digest : list Z) : list Z * list Z := (take 32 digest, drop 32 digest).

Fixpoint slip10_walk (key chain_code : list Z) (indices : list Z) : res key_error (list Z) :=
  match indices with
  | [] => Ok key
  | index :: rest =>
      let hardened := Z.lor index 0x80000000 in
      digest ← ok_or (hmac_sha512 chain_code ([0] ++ key ++ be_bytes 4 hardened)) (Derivation (lit "SLIP-0010 child HMAC"));
      slip10_walk (halves digest).1 (halves digest).2 rest
  end.

Definition slip10_derive (seed : list Z) (path : str) : res key_error (list Z) :=
  indices ← parse_path path;
  digest ← ok_or (hmac_sha512 CURVE_SEED seed) (Derivation (lit "SLIP-0010 master HMAC"));
  slip10_walk (halves digest).1 (halves digest).2 indices.

(** * Addresses *)

Definition hash160 (data : list Z) : res key_error (list Z) := copy_array 20 (ripemd160 (sha256 data)).

Definition btc_derive (mnemonic path : str) : res key_error DerivedKey :=
  seed ← mnemonic_seed mnemonic;
  key ← bip32_derive seed path;
  public ← compressed_public key;
  hash ← hash160 public;
  address ← map_err (fun _ => Derivation (lit "BTC P2WPKH address")) (encode_p2wpkh hash);
  Ok (mkDerivedKey Btc address (secret_of key)).

(** [hash[12..]] of the key without its prefix byte. *)
Definition evm_address_from_public (uncompressed : list Z) : res key_error str :=
  let hash := keccak256 (drop 1 uncompressed) in
  let body := hex_string (drop 12 hash) in
  match to_checksummed body with
  | Ok address => Ok address
  | Err _ => Ok (lit "0x" ++ body)
  | Panic => Panic
  end.

Definition evm_derive (mnemonic path : str) : res key_error DerivedKey :=
  seed ← mnemonic_seed mnemonic;
  key ← bip32_derive seed path;
  public ← uncompressed_public key;
  address ← evm_address_from_public public;
  Ok (mkDerivedKey Evm address (secret_of key)).

Definition address_from_public_key (public : list Z) : res key_error str :=
  key ← ok_or (from_sec1_bytes public) InvalidPublicKey;
  let encoded := encoded_point false key in
  if (length encoded =? 65)%nat then evm_address_from_public encoded else Err InvalidPublicKey.

Definition tron_address_from_public (uncompressed : list Z) : res key_error str :=
  let hash := keccak256 (drop 1 uncompressed) in
  body ← copy_array 20 (drop 12 hash);
  map_err (fun _ => Derivation (lit "Tron address encoding")) (tron_encode (MAINNET_PREFIX :: body)).

Definition tron_derive (mnemonic path : str) : res key_error DerivedKey :=
  seed ← mnemonic_seed mnemonic;
  key ← bip32_derive seed path;
  public ← uncompressed_public key;
  address ← tron_address_from_public public;
  Ok (mkDerivedKey Tron address (secret_of key)).

Definition solana_derive (mnemonic path : str) : res key_error DerivedKey :=
  seed ← mnemonic_seed mnemonic;
  secret ← slip10_derive seed path;
  Ok (mkDerivedKey Solana (solana_encode (verifying_key secret)) secret).

Definition derive (compiled : Chain -> bool) (chain : Chain) (mnemonic path : str) : res key_error DerivedKey :=
  if compiled chain then
    match chain with
    | Btc => btc_derive mnemonic path
    | Evm => evm_derive mnemonic path
    | Solana => solana_derive mnemonic path
    | Tron => tron_derive mnemonic path
    end
  else Err (KeyChainNotCompiled chain).
End Keys.

(** * Solana paths *)

(** A segment that names a raw index: a numeral and an apostrophe. *)
Definition segment_reads (segment : str) (i : Z) : Prop :=
  exists numeral, segment = numeral ++ [39] /\ parse_u32 numeral = Ok i /\ i < 2 ^ 31.

Definition show_path (indices : list Z) : str := join_on 47 (lit "m" :: ((fun i => show_dec i ++ [39]) <$> indices)).

Lemma strip_apostrophe_some segment numeral : strip_apostrophe segment = Some numeral <-> segment = numeral ++ [39].
Proof.
  unfold strip_apostrophe. split.
  - destruct (rev segment) as [|b r] eqn:E; [discriminate|]. intros Hb. repeat (case_match; try discriminate). subst.
    injection Hb as <-. rewrite <- (rev_involutive segment), E. reflexivity.
  - intros ->. rewrite rev_app_distr. cbn. rewrite rev_involutive. reflexivity.
Qed.

Lemma parse_segment_ok path segment i : parse_segment path segment = Ok i <-> segment_reads segment i.
Proof.
  unfold parse_segment, segment_reads. split.
  - intros Hp. apply bind_ok in Hp as (numeral & Hn & Hp). apply ok_or_ok, strip_apostrophe_some in Hn.
    apply bind_ok in Hp as (v & Hv & Hp). apply map_err_ok in Hv.
    destruct (Z.leb_spec (2 ^ 31) v); [discriminate|]. injection Hp as ->. eauto.
  - intros (numeral & -> & Hv & Hi). rewrite (proj2 (strip_apostrophe_some _ _) eq_refl). cbn [ok_or mbind res_bind].
    rewrite Hv. cbn [map_err mbind res_bind]. replace (2 ^ 31 <=? i) with false by lia. reflexivity.
Qed.

Lemma parse_segment_total path segment : parse_segment path segment <> Panic.
Proof.
  unfold parse_segment. apply bind_no_panic; [apply ok_or_no_panic|]. intros n.
  apply bind_no_panic; [apply map_err_no_panic, parse_unsigned_no_panic|]. intros v. case_bool; discriminate.
Qed.

Lemma parse_segments_ok path segments indices :
  parse_segments path segments = Ok indices <-> Forall2 segment_reads segments indices.
Proof.
  revert indices. induction segments as [|seg rest IH]; intros indices; cbn [parse_segments].
  - split; [intros [= <-]; constructor | intros Hf; inversion Hf; reflexivity].
  - split.
    + intros Hp. apply bind_ok in Hp as (i & Hi & Hp). apply bind_ok in Hp as (ixs & His & [= <-]).
      constructor; [eapply parse_segment_ok, Hi | apply IH, His].
    + intros Hf. inversion Hf as [|? i ? ixs Hi His]; subst. apply (parse_segment_ok path) in Hi. rewrite Hi. cbn [mbind res_bind].
      apply IH in His. rewrite His. reflexivity.
Qed.

Lemma parse_segments_total path segments : parse_segments path segments <> Panic.
Proof.
  induction segments as [|seg rest IH]; cbn [parse_segments]; [discriminate|].
  apply bind_no_panic; [apply parse_segment_total|]. intros i. apply bind_no_panic; [exact IH | discriminate].
Qed.

(** The loop stops at the first segment in error. *)
Lemma parse_segments_stops path before indices segment after :
  Forall2 segment_reads before indices -> (forall i, parse_segment path segment <> Ok i) ->
  exists e, parse_segment path segment = Err e /\ parse_segments path (before ++ segment :: after) = Err e.
Proof.
  intros Hb Hs. destruct (parse_segment path segment) as [i|e|] eqn:He; [destruct (Hs i eq_refl) | | destruct (parse_segment_total _ _ He)].
  exists e. split; [reflexivity|]. induction Hb as [|s i bs ixs Hi _ IH]; cbn [app parse_segments].
  - rewrite He. reflexivity.
  - apply (parse_segment_ok path) in Hi. rewrite Hi. cbn [mbind res_bind]. rewrite IH. reflexivity.
Qed.

Lemma segment_reads_no_slash segment i : segment_reads segment i -> 47 ∉ segment.
Proof.
  intros (numeral & -> & Hn & _) Hin. apply parse_unsigned_bytes in Hn. apply elem_of_app in Hin as [Hin|Hin].
  - rewrite list.Forall_forall in Hn. apply Hn in Hin. lia.
  - apply list_elem_of_singleton in Hin. discriminate.
Qed.

Lemma parse_path_split path segments :
  split_on 47 (trim path) = lit "m" :: segments ->
  parse_path path = (out ← parse_segments path segments;
                     if is_nil out then Err (InvalidPath path (lit "has no segments")) else Ok out).
Proof. intros Hs. unfold parse_path. rewrite Hs. reflexivity. Qed.

Lemma m_no_slash : 47 ∉ lit "m".
Proof. intros Hin. apply list_elem_of_singleton in Hin. discriminate. Qed.

Lemma hardened_total path : parse_path path <> Panic.
Proof.
  unfold parse_path. destruct (split_on _ _) as [|first segments]; [discriminate|]. case_bool; [|discriminate].
  apply bind_no_panic; [apply parse_segments_total|]. intros out. destruct (is_nil out); discriminate.
Qed.

(** The Solana path parser accepts exactly the hardened paths: [m], then one
    or more segments, each a numeral of an index below 2^31 and an apostrophe,
    around which white space is ignored; it answers the indices in order.  Every
    list of indices has such a path, which parses back to it.  The first segment
    without an apostrophe is refused as not hardened, never hardened silently, and
    no input makes the parser panic. *)
Theorem hardened_paths_exact path :
  (forall indices, parse_path path = Ok indices <->
     indices <> [] /\ exists segments, trim path = join_on 47 (lit "m" :: segments) /\ Forall2 segment_reads segments indices) /\
  (forall indices, indices <> [] -> Forall (fun i => 0 <= i < 2 ^ 31) indices -> parse_path (show_path indices) = Ok indices) /\
  (forall before indices segment after,
     split_on 47 (trim path) = lit "m" :: before ++ segment :: after -> Forall2 segment_reads before indices ->
     (forall numeral, segment <> numeral ++ [39]) -> parse_path path = Err (UnhardenedSolanaPath path)) /\
  parse_path path <> Panic.
Proof.
  assert (Haccept : forall p indices segments, indices <> [] -> trim p = join_on 47 (lit "m" :: segments) ->
    Forall2 segment_reads segments indices -> parse_path p = Ok indices).
  { intros p indices segments Hn Ht Hf. rewrite (parse_path_split p segments).
    - rewrite (proj2 (parse_segments_ok p _ _) Hf). cbn [mbind res_bind]. destruct indices; [congruence | reflexivity].
    - rewrite Ht. apply split_join; [discriminate|]. constructor; [exact m_no_slash|].
      clear Hn Ht. induction Hf as [|s i ss ixs Hi _ IH]; constructor; [exact (segment_reads_no_slash _ _ Hi) | exact IH]. }
  split_and!.
  - intros indices. split.
    + unfold parse_path. destruct (split_on 47 (trim path)) as [|first segments] eqn:Hs; [discriminate|].
      destruct (bool_decide_reflect (first = lit "m")) as [->|]; [|discriminate]. intros Hp.
      apply bind_ok in Hp as (out & Ho & Hp). destruct out as [|i ixs]; [discriminate|]. injection Hp as <-.
      split; [discriminate|]. exists segments. rewrite <- Hs, join_split. split; [reflexivity | eapply parse_segments_ok, Ho].
    + intros (Hn & segments & Ht & Hf). eapply Haccept; eassumption.
  - intros indices Hn Hi. apply (Haccept _ _ ((fun i => show_dec i ++ [39]) <$> indices)); [exact Hn | |].
    + apply trim_graphic. clear Hn. unfold show_path.
      assert (Hd : forall segs, Forall (fun s => Forall (fun b => is_graphic b = true) s) segs ->
        Forall (fun b => is_graphic b = true) (join_on 47 segs)).
      { induction segs as [|s ss IH]; intros Hf; [constructor|]. apply Forall_cons_iff in Hf as [H1 H2].
        destruct ss as [|s' ss]; [exact H1|]. cbn [join_on]. apply Forall_app. split; [exact H1|]. constructor; [reflexivity | exact (IH H2)]. }
      apply Hd. constructor; [repeat constructor|]. apply Forall_fmap. eapply list.Forall_impl; [exact Hi|]. intros i Hb. cbn in *.
      apply Forall_app. split; [|repeat constructor]. eapply list.Forall_impl; [apply show_dec_digits; unfold is_u128, u128_max; lia|].
      intros b Hbb. cbn in Hbb. unfold is_graphic, within. lia.
    + clear Hn. induction Hi as [|i ixs Hb _ IH]; cbn; constructor; [|exact IH].
      exists (show_dec i). split; [reflexivity|]. split; [|lia]. apply parse_show_dec; unfold is_u128, u128_max; lia.
  - intros before indices segment after Hs Hf Hno. rewrite (parse_path_split _ _ Hs).
    assert (Hnone : strip_apostrophe segment = None).
    { destruct (strip_apostrophe segment) as [n|] eqn:E; [|reflexivity]. apply strip_apostrophe_some in E. destruct (Hno n E). }
    destruct (parse_segments_stops path before indices segment after Hf) as (e & He & ->).
    { intros i. unfold parse_segment. rewrite Hnone. discriminate. }
    unfold parse_segment in He. rewrite Hnone in He. cbn in He. injection He as <-. reflexivity.
  - apply hardened_total.
Qed.

Lemma hardened_paths_exact_witness :
  parse_path (lit " m/44'/501'/7'/0' ") = Ok [44; 501; 7; 0] /\
  parse_path (lit "m/44'/501'/0'/0") = Err (UnhardenedSolanaPath (lit "m/44'/501'/0'/0")).
Proof.
  split.
  - apply (proj1 (hardened_paths_exact (lit " m/44'/501'/7'/0' "))). split; [discriminate|].
    exists [lit "44'"; lit "501'"; lit "7'"; lit "0'"]. split; [vm_compute; reflexivity|].
    repeat constructor; [exists (lit "44") | exists (lit "501") | exists (lit "7") | exists (lit "0")]; vm_compute; auto.
  - apply (proj1 (proj2 (proj2 (hardened_paths_exact (lit "m/44'/501'/0'/0")))) [lit "44'"; lit "501'"; lit "0'"] [44; 501; 0] (lit "0") []).
    + vm_compute. reflexivity.
    + repeat constructor; [exists (lit "44") | exists (lit "501") | exists (lit "0")]; vm_compute; auto.
    + intros [|b [|c n]]; discriminate.
Defined.

(** Different texts, one account: a sign and leading zeros are read. *)
Example aliased_paths : parse_path (lit "m/+44'/0501'") = parse_path (lit "m/44'/501'").
Proof. reflexivity. Qed.

(** * SLIP-0010 *)

Section Slip10.
Context `{KeyHashes}.

(** The specification: node [indices] of the tree over [seed] has this key and
    chain code; child [i] is the hardened child [i']. *)
Inductive slip10_node (seed : list Z) : list Z -> list Z -> list Z -> Prop :=
  | node_master digest : hmac_sha512 CURVE_SEED seed = Some digest -> slip10_node seed [] (take 32 digest) (drop 32 digest)
  | node_child indices i key chain_code digest :
      slip10_node seed indices key chain_code ->
      hmac_sha512 chain_code (0 :: key ++ be_bytes 4 (i + 2 ^ 31)) = Some digest ->
      slip10_node seed (indices ++ [i]) (take 32 digest) (drop 32 digest).

Lemma hardening i : 0 <= i < 2 ^ 31 -> Z.lor i 0x80000000 = i + 2 ^ 31.
Proof.
  intros Hi. pose proof (Z.add_lor_land i 0x80000000) as Hadd. assert (Z.land i 0x80000000 = 0) as Hz; [|lia].
  apply Z.bits_inj'. intros n Hn. rewrite Z.land_spec, Z.bits_0.
  change 0x80000000 with (2 ^ 31). rewrite Z.pow2_bits_eqb by lia. destruct (Z.eqb_spec 31 n) as [<-|]; [|apply andb_false_r].
  rewrite Z.bits_above_log2; [reflexivity | lia|].
  destruct (Z.eq_dec i 0) as [->|]; [cbn; lia | apply Z.log2_lt_pow2; lia].
Qed.

Lemma slip10_node_fun seed indices key1 code1 key2 code2 :
  slip10_node seed indices key1 code1 -> slip10_node seed indices key2 code2 -> key1 = key2 /\ code1 = code2.
Proof.
  intros H1. revert key2 code2. induction H1 as [d Hd | ixs i k c d Hn IH Hd]; intros key2 code2 H2; inversion H2 as [d' Hd' | ixs' i' k' c' d' Hn' Hd' Hi]; subst.
  - rewrite Hd in Hd'. injection Hd' as ->. auto.
  - destruct ixs'; discriminate.
  - destruct ixs; discriminate.
  - apply app_inj_tail in Hi as [-> ->]. destruct (IH _ _ Hn') as [-> ->]. rewrite Hd in Hd'. injection Hd' as ->. auto.
Qed.

Lemma slip10_walk_nodes `{!KeyHashLaws} seed before key chain_code indices :
  slip10_node seed before key chain_code -> Forall (fun i => 0 <= i < 2 ^ 31) indices ->
  exists key' code', slip10_walk key chain_code indices = Ok key' /\ slip10_node seed (before ++ indices) key' code'.
Proof.
  intros Hn Hi. revert before key chain_code Hn. induction Hi as [|i ixs Hb _ IH]; intros before key code Hn; cbn [slip10_walk].
  - rewrite app_nil_r. eauto.
  - rewrite hardening by exact Hb. destruct (hmac_sha512_total code ([0] ++ key ++ be_bytes 4 (i + 2 ^ 31))) as (d & Hd & _).
    rewrite Hd. cbn [ok_or mbind res_bind halves fst snd].
    destruct (IH (before ++ [i]) (take 32 d) (drop 32 d)) as (k' & c' & Hw & Hn'); [econstructor; [exact Hn | exact Hd]|].
    exists k', c'. split; [exact Hw|]. rewrite <- app_assoc in Hn'. exact Hn'.
Qed.

Lemma segment_reads_range segment i : segment_reads segment i -> 0 <= i < 2 ^ 31.
Proof. intros (n & _ & Hn & Hi). apply parse_unsigned_bound in Hn; lia. Qed.

Lemma parse_path_range path indices : parse_path path = Ok indices -> Forall (fun i => 0 <= i < 2 ^ 31) indices.
Proof.
  unfold parse_path. destruct (split_on _ _) as [|first segments]; [discriminate|]. case_bool; [|discriminate]. intros Hp.
  apply bind_ok in Hp as (out & Ho & Hp). destruct (is_nil out); [discriminate|]. injection Hp as <-. apply parse_segments_ok in Ho.
  induction Ho as [|s i ss ixs Hs _ IH]; constructor; [exact (segment_reads_range _ _ Hs) | exact IH].
Qed.

Lemma slip10_node_key `{!KeyHashLaws} seed indices key chain_code :
  slip10_node seed indices key chain_code -> length key = 32%nat /\ length chain_code = 32%nat.
Proof.
  assert (Hd : forall k m d, hmac_sha512 k m = Some d -> length (take 32 d) = 32%nat /\ length (drop 32 d) = 32%nat).
  { intros k m d Hd. destruct (hmac_sha512_total k m) as (d' & Hd' & Hl). rewrite Hd in Hd'. injection Hd' as <-.
    rewrite length_take, length_drop, Hl. auto. }
  intros [? Hh | ? ? ? ? ? ? Hh]; eapply Hd, Hh.
Qed.
End Slip10.

(** The Solana walk is SLIP-0010.  A derivation answers a key exactly when the
    path parses, and then the key is the one the specification puts at that node
    of the tree over the seed, master key from the curve's domain string and each
    index [i] as the hardened child [i + 2^31]; that key is 32 bytes and the only
    one there.  A path that does not parse fails with the parser's error, and
    nothing else fails. *)
Theorem slip10_is_the_tree `{KeyHashLaws} seed path :
  (forall key, slip10_derive seed path = Ok key <->
     exists indices chain_code, parse_path path = Ok indices /\ slip10_node seed indices key chain_code) /\
  (forall indices, parse_path path = Ok indices ->
     exists key chain_code, slip10_derive seed path = Ok key /\ length key = 32%nat /\ slip10_node seed indices key chain_code /\
       forall key' code', slip10_node seed indices key' code' -> key' = key) /\
  (forall e, parse_path path = Err e -> slip10_derive seed path = Err e).
Proof.
  assert (Hrun : forall indices, parse_path path = Ok indices ->
    exists key chain_code, slip10_derive seed path = Ok key /\ slip10_node seed indices key chain_code).
  { intros indices Hp. unfold slip10_derive. rewrite Hp. cbn [mbind res_bind].
    destruct (hmac_sha512_total CURVE_SEED seed) as (d & Hd & _). rewrite Hd. cbn [ok_or mbind res_bind halves fst snd].
    destruct (slip10_walk_nodes seed [] (take 32 d) (drop 32 d) indices) as (k & c & Hw & Hn);
      [constructor; exact Hd | exact (parse_path_range _ _ Hp) | eauto]. }
  split_and!.
  - intros key. split.
    + intros Hk. unfold slip10_derive in Hk. pose proof Hk as Hk'. apply bind_ok in Hk' as (indices & Hp & _).
      destruct (Hrun indices Hp) as (k & c & Hk2 & Hn). unfold slip10_derive in Hk2. assert (k = key) as -> by congruence. eauto.
    + intros (indices & c & Hp & Hn). destruct (Hrun indices Hp) as (k & c' & Hk & Hn').
      destruct (slip10_node_fun _ _ _ _ _ _ Hn Hn') as [-> _]. exact Hk.
  - intros indices Hp. destruct (Hrun indices Hp) as (k & c & Hk & Hn). exists k, c.
    split; [exact Hk|]. split; [apply (slip10_node_key _ _ _ _ Hn)|]. split; [exact Hn|].
    intros k' c' Hn'. apply (slip10_node_fun _ _ _ _ _ _ Hn' Hn).
  - intros e He. unfold slip10_derive. rewrite He. reflexivity.
Qed.

(** * Addresses *)

Section Addresses.
Context `{CodecLaws, Bip39, Bip32, !Bip32Laws, KeyHashes, !KeyHashLaws, Ed25519Lib, !Ed25519Laws}.

Lemma evm_body_address hash : length hash = 32%nat -> bytes_ok hash -> evm_address (hex_string (drop 12 hash)) (hex_string (drop 12 hash)).
Proof.
  intros Hl Hb. split; [left; reflexivity|]. split; [rewrite hex_string_length, length_drop, Hl; reflexivity|].
  apply hex_string_forall; [|exact (Forall_drop _ _ _ Hb)].
  intros d Hd. apply digit_char_hexdigit. exact Hd.
Qed.

Lemma evm_address_from_public_ok public :
  exists r, evm_address_from_public public = Ok (lit "0x" ++ r) /\ evm_address (lit "0x" ++ r) r /\
    to_checksummed (hex_string (drop 12 (keccak256 (drop 1 public)))) = Ok (lit "0x" ++ r) /\
    ascii_lowercase r = hex_string (drop 12 (keccak256 (drop 1 public))).
Proof.
  set (body := hex_string (drop 12 (keccak256 (drop 1 public)))).
  assert (Hb : evm_address body body) by (apply evm_body_address; [apply keccak256_length | apply keccak256_ok]).
  destruct (to_checksummed_spec _ _ Hb) as (r & Hc & _ & Hr & Hlow). exists r. unfold evm_address_from_public. cbv zeta. fold body.
  rewrite Hc. split_and!; auto. rewrite Hlow. apply hex_string_lower, Forall_drop, keccak256_ok.
Qed.

Lemma public_array {E} (c : bool) key :
  copy_array (E := E) (if c then 33 else 65)%nat (encoded_point c (verifying_key_of key)) = Ok (encoded_point c (verifying_key_of key)).
Proof. unfold copy_array. rewrite encoded_point_length, Nat.eqb_refl. reflexivity. Qed.

Lemma sender_is_address s t : validate_sender s = Ok t -> btc_validate s = Ok t.
Proof.
  unfold validate_sender, btc_validate. intros Hv. apply bind_ok in Hv as (u & Hu & Hv). rewrite Hu. cbn [mbind res_bind].
  apply bind_ok in Hv as (kind & Hk & Hv). rewrite Hk. cbn [mbind res_bind]. case_match; congruence.
Qed.

Lemma evm_checksummed r : evm_address (lit "0x" ++ r) r -> (exists t body, evm_address t body /\ to_checksummed t = Ok (lit "0x" ++ r) /\
  ascii_lowercase r = ascii_lowercase body) -> is_checksum_valid (lit "0x" ++ r) = Ok true.
Proof.
  intros Hr (t & body & Hb & Hc & Hlow). unfold is_checksum_valid. rewrite (evm_validate_address _ _ Hr). cbn [mbind res_bind].
  rewrite (to_checksummed_case _ _ _ _ Hr Hb Hlow), Hc. cbn [mbind res_bind]. rewrite (evm_address_strip _ _ Hr). f_equal.
  apply bool_decide_eq_true. reflexivity.
Qed.

(** The address a key controls on a chain. *)
Definition controls (chain : Chain) (mnemonic path : str) (k : DerivedKey) : Prop :=
  exists seed, mnemonic_seed mnemonic = Ok seed /\
  match chain with
  | Solana => slip10_derive seed path = Ok (dk_secret k) /\ solana_decode (dk_address k) = Ok (verifying_key (dk_secret k))
  | _ =>
      exists key, bip32_derive seed path = Ok key /\ dk_secret k = secret_of key /\
      let public := verifying_key_of key in
      match chain with
      | Btc => encode_p2wpkh (ripemd160 (sha256 (encoded_point true public))) = Ok (dk_address k) /\ validate_sender (dk_address k) = Ok (dk_address k)
      | Evm => is_checksum_valid (dk_address k) = Ok true /\
          ascii_lowercase (dk_address k) = lit "0x" ++ hex_string (drop 12 (keccak256 (drop 1 (encoded_point false public)))) /\
          forall c, address_from_public_key (encoded_point c public) = Ok (dk_address k)
      | _ => tron_decode (dk_address k) = Ok (MAINNET_PREFIX :: drop 12 (keccak256 (drop 1 (encoded_point false public))))
      end
  end.

Definition derived (chain : Chain) (mnemonic path : str) (k : DerivedKey) : Prop :=
  dk_chain k = chain /\ length (dk_secret k) = 32%nat /\ controls chain mnemonic path k /\
  address_validate (fun _ => true) chain (dk_address k) = Ok (dk_address k).

Lemma btc_derived mnemonic path k : btc_derive mnemonic path = Ok k -> derived Btc mnemonic path k.
Proof.
  unfold btc_derive. intros Hk. apply bind_ok in Hk as (seed & Hs & Hk). apply bind_ok in Hk as (key & Hd & Hk).
  unfold compressed_public in Hk. rewrite (public_array true) in Hk. cbn [mbind res_bind] in Hk.
  unfold hash160, copy_array in Hk. rewrite ripemd160_length in Hk. cbn [Nat.eqb mbind res_bind] in Hk.
  apply bind_ok in Hk as (address & Ha & [= <-]). apply map_err_ok in Ha.
  assert (Hv : validate_sender address = Ok address) by (eapply p2wpkh_validates; [apply ripemd160_length | exact Ha]).
  split; [reflexivity|]. split; [apply secret_of_length|]. split; [|exact (sender_is_address _ _ Hv)].
  exists seed. split; [exact Hs|]. exists key. cbn. auto.
Qed.

Lemma evm_derived mnemonic path k : evm_derive mnemonic path = Ok k -> derived Evm mnemonic path k.
Proof.
  unfold evm_derive. intros Hk. apply bind_ok in Hk as (seed & Hs & Hk). apply bind_ok in Hk as (key & Hd & Hk).
  unfold uncompressed_public in Hk. rewrite (public_array false) in Hk. cbn [mbind res_bind] in Hk.
  destruct (evm_address_from_public_ok (encoded_point false (verifying_key_of key))) as (r & Ha & Hr & Hc & Hlow).
  rewrite Ha in Hk. cbn [mbind res_bind] in Hk. injection Hk as <-.
  split; [reflexivity|]. split; [apply secret_of_length|]. split; [|exact (evm_validate_address _ _ Hr)].
  exists seed. split; [exact Hs|]. exists key. split; [exact Hd|]. split; [reflexivity|]. cbn [dk_address]. split_and!.
  - apply evm_checksummed; [exact Hr|]. eexists _, _. split; [|split; [exact Hc|]].
    + apply evm_body_address; [apply keccak256_length | apply keccak256_ok].
    + rewrite Hlow. symmetry. apply hex_string_lower, Forall_drop, keccak256_ok.
  - rewrite <- Hlow. reflexivity.
  - intros c. unfold address_from_public_key. rewrite from_sec1_encoded. cbn [ok_or mbind res_bind].
    rewrite encoded_point_length, Nat.eqb_refl. exact Ha.
Qed.

Lemma tron_derived mnemonic path k : tron_derive mnemonic path = Ok k -> derived Tron mnemonic path k.
Proof.
  unfold tron_derive. intros Hk. apply bind_ok in Hk as (seed & Hs & Hk). apply bind_ok in Hk as (key & Hd & Hk).
  unfold uncompressed_public in Hk. rewrite (public_array false) in Hk. cbn [mbind res_bind] in Hk.
  unfold tron_address_from_public, copy_array in Hk. rewrite length_drop, keccak256_length in Hk. cbn [Nat.sub Nat.eqb mbind res_bind] in Hk.
  apply bind_ok in Hk as (address & Ha & [= <-]). apply map_err_ok in Ha.
  assert (Hb : bytes_ok (MAINNET_PREFIX :: drop 12 (keccak256 (drop 1 (encoded_point false (verifying_key_of key)))))).
  { constructor; [split; [discriminate | reflexivity] | apply Forall_drop, keccak256_ok]. }
  destruct (tron_encode_validates _ address Hb) as (Hdec & Hv & _); [cbn [length]; rewrite length_drop, keccak256_length; reflexivity | exact Ha |].
  split; [reflexivity|]. split; [apply secret_of_length|]. split; [|exact Hv].
  exists seed. split; [exact Hs|]. exists key. cbn. auto.
Qed.

Lemma solana_derived mnemonic path k : solana_derive mnemonic path = Ok k -> derived Solana mnemonic path k.
Proof.
  unfold solana_derive. intros Hk. apply bind_ok in Hk as (seed & Hs & Hk). apply bind_ok in Hk as (secret & Hd & [= <-]).
  destruct (solana_encode_validates (verifying_key secret) (verifying_key_ok _) (verifying_key_length _)) as (Hdec & Hv).
  split; [reflexivity|]. split; [|split; [|exact Hv]].
  - cbn [dk_secret]. unfold slip10_derive in Hd. apply bind_ok in Hd as (indices & Hp & Hd). apply bind_ok in Hd as (d & Hm & Hd).
    apply ok_or_ok in Hm.
    destruct (slip10_walk_nodes seed [] (take 32 d) (drop 32 d) indices (node_master _ _ Hm) (parse_path_range _ _ Hp)) as (k & c & Hw & Hn).
    cbn [halves fst snd] in Hd. rewrite Hw in Hd. injection Hd as <-. apply (slip10_node_key _ _ _ _ Hn).
  - exists seed. split; [exact Hs|]. split; [exact Hd | exact Hdec].
Qed.

Lemma bip32_total seed path : bip32_derive seed path <> Panic.
Proof.
  unfold bip32_derive. apply bind_no_panic; [apply ok_or_no_panic|]. intros m. apply bind_no_panic; [case_match; discriminate|].
  intros p. case_bool; [discriminate | apply ok_or_no_panic].
Qed.

Lemma derive_total compiled chain mnemonic path : derive compiled chain mnemonic path <> Panic.
Proof.
  assert (Hseed : mnemonic_seed mnemonic <> Panic).
  { unfold mnemonic_seed. apply bind_no_panic; [apply ok_or_no_panic|]. intros p. apply ok_or_no_panic. }
  unfold derive. destruct (compiled chain); [|discriminate].
  destruct chain; (apply bind_no_panic; [exact Hseed|]; intros seed; apply bind_no_panic; [|intros key]); try apply bip32_total; try discriminate.
  - unfold compressed_public. rewrite (public_array true). cbn [mbind res_bind].
    unfold hash160, copy_array. rewrite ripemd160_length. cbn [Nat.eqb mbind res_bind].
    apply bind_no_panic; [|discriminate]. apply map_err_no_panic. unfold encode_p2wpkh. apply map_err_no_panic, segwit_encode_total.
  - unfold uncompressed_public. rewrite (public_array false). cbn [mbind res_bind].
    destruct (evm_address_from_public_ok (encoded_point false (verifying_key_of key))) as (r & -> & _). discriminate.
  - unfold slip10_derive. apply bind_no_panic; [apply hardened_total|]. intros ixs. apply bind_no_panic; [apply ok_or_no_panic|]. intros d.
    generalize (halves d).1 (halves d).2. induction ixs as [|i ixs IH]; intros k c; cbn [slip10_walk]; [discriminate|].
    apply bind_no_panic; [apply ok_or_no_panic | intros d'; apply IH].
  - unfold uncompressed_public. rewrite (public_array false). cbn [mbind res_bind]. unfold tron_address_from_public, copy_array.
    rewrite length_drop, keccak256_length. cbn [Nat.sub Nat.eqb mbind res_bind].
    apply bind_no_panic; [|discriminate]. apply map_err_no_panic. unfold tron_encode. cbn. discriminate.
Qed.
End Addresses.

(** C12. Derivation gives the key at the path and the one address it controls.  A
    key derived for a chain is 32 bytes; its address is the chain's address of
    that key's own public key (the compressed key's hash for Bitcoin, the Keccak
    hash of the uncompressed one for EVM and Tron, the ed25519 key itself for
    Solana), and the chain's validator accepts it as it stands, as does the
    Bitcoin sender check; the EVM address carries a valid checksum and is what
    either encoding of the public key gives.  Derivation never panics, and a
    chain that is not compiled is refused. *)
Theorem derived_address_validates `{CodecLaws, Bip39, Bip32, !Bip32Laws, KeyHashes, !KeyHashLaws, Ed25519Lib, !Ed25519Laws}
    compiled chain mnemonic path :
  derive compiled chain mnemonic path <> Panic /\
  (compiled chain = false -> derive compiled chain mnemonic path = Err (KeyChainNotCompiled chain)) /\
  forall k, derive compiled chain mnemonic path = Ok k ->
    dk_chain k = chain /\ length (dk_secret k) = 32%nat /\ controls chain mnemonic path k /\
    address_validate compiled chain (dk_address k) = Ok (dk_address k).
Proof.
  split; [apply derive_total|]. unfold derive. split; [intros ->; reflexivity|].
  destruct (compiled chain) eqn:Hc; [|discriminate]. intros k Hk.
  assert (Hd : derived chain mnemonic path k)
    by (destruct chain; [apply btc_derived | apply evm_derived | apply solana_derived | apply tron_derived]; exact Hk).
  destruct Hd as (H1' & H2' & H3' & H4'). split_and!; auto.
  unfold address_validate in *. rewrite Hc. exact H4'.
Qed.

(** * Concrete crates *)

#[local] Instance toy_key_hashes : KeyHashes := {|
  hmac_sha512 k m := Some (fold_hash (k ++ m) ++ fold_hash (m ++ k));
  ripemd160 m := take 20 (fold_hash m)
|}.

#[local] Instance toy_key_hash_laws : KeyHashLaws.
Proof.
  split.
  - intros k m. eexists. split; [reflexivity|]. rewrite length_app. unfold fold_hash. rewrite !be_bytes_length. reflexivity.
  - intros m. unfold ripemd160, toy_key_hashes. rewrite length_take. unfold fold_hash. rewrite be_bytes_length. reflexivity.
  - intros m. unfold ripemd160, toy_key_hashes. apply Forall_take, be_bytes_ok.
Qed.

#[local] Instance toy_bip39 : Bip39 := {|
  Phrase := str;
  phrase_from_str s := if is_nil s then None else Some s;
  to_seed s := Some s;
  from_rng_with_count r n := if n =? 12 then Some r else None;
  to_phrase s := s
|}.

#[local] Instance toy_bip32 : Bip32 := {|
  XPriv := Z;
  DerivationPath := str;
  VerifyingKey := bool;
  root_from_seed s := Some (be_value s);
  path_from_str p := if starts_with p (lit "m/") then inr p else inl (lit "no m");
  path_len p := Z.of_nat (length (split_on 47 p)) - 1;
  derive_path k p := Some (be_value (fold_hash (be_bytes 32 k ++ p)));
  secret_of k := be_bytes 32 k;
  verifying_key_of k := Z.even k;
  encoded_point c k := (if c then 2 else 4) :: replicate (if c then 32 else 64)%nat (if k then 1 else 0);
  from_sec1_bytes b := match b with _ :: 1 :: _ => Some true | _ :: 0 :: _ => Some false | _ => None end
|}.

#[local] Instance toy_bip32_laws : Bip32Laws.
Proof.
  split.
  - intros [] []; reflexivity.
  - intros [] []; reflexivity.
  - intros k. apply be_bytes_length.
Qed.

Lemma slip10_is_the_tree_witness :
  exists key chain_code, slip10_derive (lit "seed") (lit "m/44'/501'") = Ok key /\ length key = 32%nat /\
    slip10_node (lit "seed") [44; 501] key chain_code.
Proof.
  destruct (slip10_is_the_tree (lit "seed") (lit "m/44'/501'")) as (_ & Hd & _).
  destruct (Hd [44; 501] eq_refl) as (key & code & H1 & H2 & H3 & _).
  exists key, code. auto.
Defined.

Lemma derived_address_validates_witness :
  Forall (fun cp =>
    let run := derive (H := base58_codecs) (H3 := toy_ed25519) (fun _ => true) cp.1 (lit " some phrase ") cp.2 in
    is_ok run = true /\
    exists k, run = Ok k /\ address_validate (H := base58_codecs) (fun _ => true) cp.1 (dk_address k) = Ok (dk_address k))
    [(Evm, lit "m/44'/60'/0'"); (Tron, lit "m/44'/195'/0'"); (Solana, lit "m/44'/501'")].
Proof.
  apply list.Forall_forall. intros [chain path] Hin. cbv zeta. cbn [fst snd].
  destruct (derived_address_validates (H := base58_codecs) (H0 := base58_codec_laws) (H6 := toy_ed25519) (H7 := toy_ed25519_laws)
    (fun _ => true) chain (lit " some phrase ") path) as (_ & _ & Hd).
  assert (Hok : is_ok (derive (H := base58_codecs) (H3 := toy_ed25519) (fun _ => true) chain (lit " some phrase ") path) = true).
  { repeat (apply elem_of_cons in Hin as [[= -> ->]|Hin]; [vm_compute; reflexivity|]). inversion Hin. }
  split; [exact Hok|]. destruct (derive _ _ _ _) as [k|e|]; [|discriminate..]. exists k. split; [reflexivity|]. apply (Hd k eq_refl).
Defined.
