(* ===== verification/Signer.v ===== *)
(** The module's stateless signing API ([crates/tinywallet-module/src/service/]:
    [mod.rs], [construction/mod.rs]; [src/tx/tron.rs]): payloads to sign,
    reassembly from signatures, the one-shot path that derives and signs inside
    one call, and the construction of EVM transactions with the facts a user
    approves.

    Shown: the one-shot path signs what the library's own signers sign; a
    constructed transaction is what its facts say, and its payload is that
    transaction's digest; the module's base-64 encoder is the standard one.
    Wiping the phrase from memory is not modelled. *)

From stdpp Require Import base list strings numbers.
From S2P Require Import Prelude Text Chain Codec Base58 Addr Rlp EvmTx BtcTx TronTx Json Wire X402Wire Eip712 SolWire NoPanic Keys.

(** * Failures *)

Inductive Failure := FInvalidInput (message : str) | FBuildFailed (message : str).
#[export] Instance Failure_eq_dec : EqDecision Failure.
Proof. solve_decision. Defined.

(** [BusError::MethodFailed]. *)
Record BusError := mkBusError { be_name : str; be_message : str }.

Definition INVALID_INPUT_ERROR : str := lit "ai.tinyhumans.tinywallet.Error.InvalidInput".
Definition BUILD_FAILED_ERROR : str := lit "ai.tinyhumans.tinywallet.Error.BuildFailed".

Definition into_bus_error (failure : Failure) : BusError :=
  match failure with
  | FInvalidInput message => mkBusError INVALID_INPUT_ERROR message
  | FBuildFailed message => mkBusError BUILD_FAILED_ERROR message
  end.

Definition failure_message (failure : Failure) : str :=
  match failure with FInvalidInput message | FBuildFailed message => message end.

Definition build_failed {A} (r : res tx_error A) : res Failure A := map_err (fun e => FBuildFailed (tx_error_text e)) r.

(** * Encodings *)

(** The bytes of a hex body: a digit pair, possibly after a sign, per byte. *)
Definition pair_byte (truncated not_hex : str) (body : str) (i : nat) : res Failure Z :=
  pair ← ok_or (str_get body i (i + 2)) (FInvalidInput truncated);
  map_err (fun _ => FInvalidInput not_hex) (parse_hex_u8 pair).

Definition pair_bytes (truncated not_hex body : str) (n : nat) : res Failure (list Z) :=
  collect (pair_byte truncated not_hex body) ((fun i => i * 2)%nat <$> seq 0 n).

Definition fixed_hex (n : nat) (value what : str) : res Failure (list Z) :=
  let body := without_prefix value (lit "0x") in
  if negb (length body =? n * 2)%nat
  then Err (FInvalidInput (what ++ lit " must be " ++ show_dec (Z.of_nat n) ++ lit " bytes, got "
              ++ show_dec (Z.of_nat (length body)) ++ lit " hex characters"))
  else pair_bytes (what ++ lit " is truncated") (what ++ lit " is not hex") body n.

Definition sdecode_hex (value : str) : res Failure (list Z) :=
  let body := trim (without_prefix value (lit "0x")) in
  if is_nil body then Ok []
  else if negb (length body mod 2 =? 0)%nat
  then Err (FInvalidInput (lit "call data has an odd number of hex characters"))
  else pair_bytes (lit "call data is not hex") (lit "call data is not hex") body (length body / 2).

Definition decimal_u128 (value field : str) : res Failure Z :=
  map_err (fun _ => FInvalidInput (field ++ lit " is not a base-10 integer that fits in 128 bits")) (parse_u128 (trim value)).

Definition BASE64_TABLE : str := lit "ABCDEFGHIJKLMNOPQRSTUVWXYZabcdefghijklmnopqrstuvwxyz0123456789+/".
Definition base64_char (v : Z) : Z := nth (Z.to_nat v) BASE64_TABLE 0.

(** One chunk of up to three bytes; [u32] arithmetic stays far below 2^32. *)
Definition base64_chunk (chunk : list Z) : str :=
  let b0 := nth 0 chunk 0 in
  let b1 := nth 1 chunk 0 in
  let b2 := nth 2 chunk 0 in
  let triple := Z.lor (Z.lor (Z.shiftl b0 16) (Z.shiftl b1 8)) b2 in
  [base64_char (Z.land (Z.shiftr triple 18) 63); base64_char (Z.land (Z.shiftr triple 12) 63);
   if (1 <? length chunk)%nat then base64_char (Z.land (Z.shiftr triple 6) 63) else 61;
   if (2 <? length chunk)%nat then base64_char (Z.land triple 63) else 61].

(** [bytes.chunks(3)]. *)
Fixpoint base64 (bytes : list Z) : str :=
  match bytes with
  | b0 :: b1 :: b2 :: rest => base64_chunk [b0; b1; b2] ++ base64 rest
  | [] => []
  | chunk => base64_chunk chunk
  end.

(** * Signatures *)

Definition secp256k1_rs (signature : Signature) : res Failure (list Z) :=
  match signature with
  | SigSecp256k1 rs_hex _ => fixed_hex 64 rs_hex (lit "signature")
  | SigEd25519 _ => Err (FInvalidInput (lit "expected a secp256k1 signature, got an ed25519 one"))
  end.

Definition recovery_of (signature : Signature) : Z :=
  match signature with SigSecp256k1 _ recovery_id => recovery_id | SigEd25519 _ => 0 end.

Definition single_secp256k1 (signatures : list Signature) : res Failure (list Z * Z) :=
  match signatures with
  | [only] => rs ← secp256k1_rs only; Ok (rs, recovery_of only)
  | _ => Err (FInvalidInput (lit "expected exactly one signature, got " ++ show_dec (Z.of_nat (length signatures))))
  end.

Definition single_ed25519 (signatures : list Signature) : res Failure (list Z) :=
  match signatures with
  | [SigEd25519 signature_hex] => fixed_hex 64 signature_hex (lit "signature")
  | _ => Err (FInvalidInput (lit "expected exactly one ed25519 signature"))
  end.

Definition compressed_public_key (key_hex : str) : res Failure (list Z) := fixed_hex 33 key_hex (lit "public key").

(** * Rebuilding a transaction from its wire fields *)

Definition btc_transfer (from to : str) (amount_sat fee_sat : Z) : Transfer := mkTransfer from to amount_sat fee_sat.
Definition btc_utxos (utxos : list WireUtxo) : list Utxo := (fun u => mkUtxo (wu_txid u) (wu_vout u) (wu_value u)) <$> utxos.

Definition evm_transaction (spec : TransactionSpec) : res Failure LegacyTransaction :=
  match spec with
  | SpecEvm to value_wei data_hex nonce gas_limit gas_price_wei chain_id =>
      gas_price ← decimal_u128 gas_price_wei (lit "gas_price_wei");
      value ← decimal_u128 value_wei (lit "value_wei");
      data ← sdecode_hex data_hex;
      Ok (mkTx nonce gas_price gas_limit (if is_nil (trim to) then None else Some to) value data chain_id)
  | _ => Err (FInvalidInput (lit "expected an EVM transaction"))
  end.

Definition solana_transfer (spec : TransactionSpec) : res Failure NativeTransfer :=
  match spec with
  | SpecSolana from to lamports recent_blockhash => Ok (mkNative from to lamports recent_blockhash)
  | _ => Err (FInvalidInput (lit "expected a Solana transaction"))
  end.

Definition secp256k1_payload (digest : list Z) : SigningPayload := mkPayloadHex (hex_string digest) Secp256k1Prehash.

(** [SecretKey::from_slice]'s public key, compressed. *)
Class SecpPublic := { secp_public : list Z -> list Z }.

Section Signer.
Context `{Codecs, BitcoinLib, Secp256k1, SecpPublic, Ed25519Lib, Bip39, Bip32, KeyHashes}.

(** * The split flow *)

(** What each chain signs. *)
Definition payloads_of (request : SigningRequest) : res Failure (list SigningPayload) :=
  match sr_transaction request with
  | SpecBtc from to amount_sat fee_sat utxos =>
      let transfer := btc_transfer from to amount_sat fee_sat in
      public ← compressed_public_key (key_hex (sr_public_key request));
      '(_, digests) ← build_failed (sighashes transfer (btc_utxos utxos) public);
      Ok (secp256k1_payload <$> (digests : list (list Z)))
  | SpecEvm _ _ _ _ _ _ _ as spec =>
      tx ← evm_transaction spec;
      digest ← build_failed (evm_digest tx);
      Ok [secp256k1_payload digest]
  | SpecSolana _ _ _ _ as spec =>
      tx ← solana_transfer spec;
      m ← build_failed (message tx);
      Ok [mkPayloadHex (hex_string m) SchemeEd25519]
  | SpecTron raw_data_hex expected_to expected_txid transfer =>
      _ ← map_err (fun e => FInvalidInput (tx_error_text e)) (verify_contract raw_data_hex expected_to expected_txid transfer None);
      digest ← build_failed (tron_digest raw_data_hex);
      Ok [secp256k1_payload digest]
  end.

Definition build_unsigned (request : SigningRequest) : res Failure UnsignedTransaction :=
  payloads ← payloads_of request;
  Ok (mkUnsigned payloads).

Definition attach_signature (request : AttachRequest) : res Failure SignedTransaction :=
  match ar_transaction request with
  | SpecBtc from to amount_sat fee_sat utxos =>
      let transfer := btc_transfer from to amount_sat fee_sat in
      public ← compressed_public_key (key_hex (ar_public_key request));
      rs ← collect secp256k1_rs (signatures request);
      raw ← build_failed (attach_signatures transfer (btc_utxos utxos) public rs);
      Ok (mkSigned raw None)
  | SpecEvm _ _ _ _ _ _ _ as spec =>
      '(rs, recovery) ← single_secp256k1 (signatures request);
      tx ← evm_transaction spec;
      signed ← build_failed (evm_attach_signature tx rs recovery);
      Ok (mkSigned (lit "0x" ++ hex_string signed) (Some (hash_of signed)))
  | SpecSolana _ _ _ _ as spec =>
      signature ← single_ed25519 (signatures request);
      tx ← solana_transfer spec;
      signed ← build_failed (sol_attach_signature tx signature);
      Ok (mkSigned (base64 signed) (Some (bs58_encode signature)))
  | SpecTron raw_data_hex expected_to expected_txid transfer =>
      _ ← map_err (fun e => FInvalidInput (tx_error_text e)) (verify_contract raw_data_hex expected_to expected_txid transfer None);
      '(rs, recovery) ← single_secp256k1 (signatures request);
      signature ← build_failed (tron_attach_signature rs recovery);
      Ok (mkSigned (signature_hex signature) (Some expected_txid))
  end.

(** * The confidential calls *)

Definition failure_kind (error : key_error) : str :=
  match error with KeyChainNotCompiled _ => lit "chain not compiled into this module" | _ => lit "unsupported" end.

(** Every chain's feature is on in the module. *)
Definition sderive (secret : SecretMaterial) : res Failure DerivedKey :=
  map_err (fun error => FInvalidInput
             (match error with
              | InvalidMnemonic => lit "recovery phrase is not valid BIP-39"
              | InvalidPath _ _ => lit "derivation path is malformed"
              | UnhardenedSolanaPath _ => lit "Solana derivation path must be fully hardened"
              | other => lit "key derivation failed: " ++ failure_kind other
              end))
    (Keys.derive (fun _ => true) (sm_chain secret) (mnemonic secret) (secret_path secret)).

Definition ed25519_key (secret : list Z) : res Failure (list Z) :=
  if (length secret =? 32)%nat then Ok secret else Err (FBuildFailed (lit "derived ed25519 key is not 32 bytes")).

Definition scalar (secret : list Z) : res Failure (list Z) :=
  if secret_valid secret then Ok secret else Err (FBuildFailed (lit "derived key is not a valid scalar")).

Definition public_key_hex (chain : Chain) (secret : list Z) : res Failure str :=
  if bool_decide (chain = Solana)
  then key ← ed25519_key secret; Ok (hex_string (verifying_key key))
  else key ← scalar secret; Ok (hex_string (secp_public key)).

Definition sign_payload (payload : SigningPayload) (secret : list Z) : res Failure Signature :=
  bytes ← sdecode_hex (bytes_hex payload);
  match Wire.scheme payload with
  | Secp256k1Prehash =>
      digest ← (if (length bytes =? 32)%nat then Ok bytes else Err (FBuildFailed (lit "secp256k1 payload is not a 32-byte digest")));
      key ← scalar secret;
      let '(recovery_id, compact) := sign_recoverable key digest in
      recovery ← (if (0 <=? recovery_id) && (recovery_id <=? 255) then Ok recovery_id else Err (FBuildFailed (lit "recovery id out of range")));
      Ok (SigSecp256k1 (hex_string compact) recovery)
  | SchemeEd25519 =>
      key ← ed25519_key secret;
      Ok (SigEd25519 (hex_string (ed25519_sign key bytes)))
  end.

Definition derive_account (secret : SecretMaterial) : res Failure DerivedAccount :=
  derived ← sderive secret;
  public ← public_key_hex (sm_chain secret) (dk_secret derived);
  Ok (mkDerived (dk_address derived) (mkPublicKey public)).

Definition sign_transaction (request : SignRequest) : res Failure SignedTransaction :=
  derived ← sderive (sg_secret request);
  if negb (bool_decide (sm_chain (sg_secret request) = spec_chain (sg_transaction request)))
  then Err (FInvalidInput (lit "derivation chain does not match the transaction's chain"))
  else
    public ← public_key_hex (sm_chain (sg_secret request)) (dk_secret derived);
    unsigned ← build_unsigned (mkSigningRequest (sg_transaction request) (mkPublicKey public));
    signed ← collect (fun payload => sign_payload payload (dk_secret derived)) (payloads unsigned);
    attach_signature (mkAttachRequest (sg_transaction request) (mkPublicKey public) signed).

Definition sign_message (request : SignMessageRequest) : res Failure Signature :=
  derived ← sderive (mm_secret request);
  sign_payload (mkPayloadHex (message_hex request) (mm_scheme request)) (dk_secret derived).

Definition export_key (secret : SecretMaterial) : res Failure ExportedKey :=
  derived ← sderive secret;
  Ok (mkExported (hex_string (dk_secret derived)) (dk_address derived)).

(** [address_rules]: the sender rule for Bitcoin senders. *)
Definition validate_address (chain : Chain) (address : str) (sender : bool) : res addr_error str :=
  if sender && bool_decide (chain = Btc) then validate_sender address else address_validate (fun _ => true) chain address.

(** [tinywallet::tx::tron::sign]. *)
Definition recovery_byte (id : Z) : res tx_error Z :=
  if (0 <=? id) && (id <=? 255) then Ok id else Err (Signing (lit "unexpected recovery id")).

Definition tron_sign (raw_data_hex : str) (secret_key : list Z) : res tx_error (list Z) :=
  _ ← err_if (negb (secret_valid secret_key)) (Signing (lit "not a valid secp256k1 secret key"));
  digest ← tron_digest raw_data_hex;
  let '(recovery_id, compact) := sign_recoverable secret_key digest in
  recovery ← recovery_byte recovery_id;
  tron_attach_signature compact recovery.
End Signer.

(** * Construction *)

(** The size of a request as JSON, which [serde_json::to_writer] would write. *)
Class RequestSize := { request_bytes : EvmConstructionRequest -> Z }.

Section Construction.
Context `{Codecs, BitcoinLib, Bip32, RequestSize}.

Definition invalid {A} (message : str) : res Failure A := Err (FInvalidInput message).

Definition validate_request (request : EvmConstructionRequest) : res Failure unit :=
  if MAX_CONSTRUCTION_BYTES <? request_bytes request then invalid (lit "construction request exceeds byte limit")
  else if (cr_chain_id request =? 0) || (cr_gas_limit request =? 0)
  then invalid (lit "chain id and gas limit must be greater than zero")
  else if (u64_max - 38) / 2 <? cr_chain_id request then invalid (lit "chain id overflows EIP-155 v")
  else Ok tt.

Definition construction_address (raw : str) : res Failure str :=
  map_err (fun _ => FInvalidInput (lit "EVM address is invalid")) (evm_validate raw).

(** [trim_start_matches('0')]. *)
Fixpoint trim_zeros (s : str) : str :=
  match s with b :: s' => if b =? 48 then trim_zeros s' else s | [] => [] end.

Definition canonical_token_amount (raw : str) : res Failure str :=
  let raw := trim raw in
  if is_nil raw || (78 <? length raw)%nat || negb (forallb is_ascii_digit raw)
  then invalid (lit "token amount must be a positive uint256 decimal")
  else
    let canonical := trim_zeros raw in
    if is_nil canonical then invalid (lit "transfer amount must be greater than zero") else Ok canonical.

(** Target, recipient, native value, call data, token contract, token amount. *)
Record Effects := mkEffects {
  ef_target : str;
  ef_recipient : str;
  ef_value : Z;
  ef_calldata : str;
  ef_token : option str;
  ef_token_amount : option str
}.

Definition intent_effects (i : EvmIntent) : res Failure Effects :=
  match i with
  | IntentNative to amount_wei =>
      to ← construction_address to;
      value ← decimal_u128 amount_wei (lit "amount_wei");
      if value =? 0 then invalid (lit "transfer amount must be greater than zero")
      else Ok (mkEffects to to value (lit "0x") None None)
  | IntentErc20 token to amount_raw =>
      token ← construction_address token;
      to ← construction_address to;
      amount ← canonical_token_amount amount_raw;
      calldata ← map_err (fun _ => FInvalidInput (lit "ERC-20 recipient or uint256 amount is invalid"))
                   (abi_encode_erc20_transfer addr_error_text to amount);
      Ok (mkEffects token to 0 calldata (Some token) (Some amount))
  | IntentCall to value_wei data_hex =>
      to ← construction_address to;
      value ← decimal_u128 value_wei (lit "value_wei");
      let body := without_prefix (trim data_hex) (lit "0x") in
      if (MAX_CALLDATA_BYTES * 2 <? length body)%nat || negb (length body mod 2 =? 0)%nat || negb (forallb is_ascii_hexdigit body)
      then invalid (lit "calldata must be bounded byte-aligned hex")
      else Ok (mkEffects to to value (lit "0x" ++ ascii_lowercase body) None None)
  end.

Definition construct (request : EvmConstructionRequest) : res Failure ConstructedEvmTransaction :=
  _ ← validate_request request;
  public ← compressed_public_key (key_hex (cr_public_key request));
  sender ← map_err (fun _ => FInvalidInput (lit "public key is not a valid compressed SEC1 point")) (address_from_public_key public);
  gas_price ← decimal_u128 (cr_gas_price_wei request) (lit "gas_price_wei");
  max_fee ← ok_or (checked_mul u128_max gas_price (cr_gas_limit request)) (FInvalidInput (lit "maximum gas cost overflows 128 bits"));
  e ← intent_effects (intent request);
  max_native ← ok_or (checked_add u128_max (ef_value e) max_fee) (FInvalidInput (lit "maximum native debit overflows 128 bits"));
  let transaction := SpecEvm (ef_target e) (show_dec (ef_value e)) (ef_calldata e) (cr_nonce request) (cr_gas_limit request)
                       (show_dec gas_price) (cr_chain_id request) in
  unsigned ← build_unsigned (mkSigningRequest transaction (mkPublicKey (hex_string public)));
  Ok (mkConstructed transaction unsigned
        (mkFacts sender (cr_chain_id request) (cr_nonce request) (cr_gas_limit request) (show_dec gas_price) (show_dec max_fee)
           (show_dec max_native) (show_dec (ef_value e)) (ef_recipient e) (ef_token e) (ef_token_amount e) (ef_calldata e))).
End Construction.

(** * Hex that reads back *)

Lemma pair_bytes_string truncated not_hex bs :
  bytes_ok bs -> pair_bytes truncated not_hex (hex_string bs) (length bs) = Ok bs.
Proof.
  intros Hok. unfold pair_bytes. apply collect_ok, Forall2_fmap_l, Forall2_same_length_lookup.
  split; [rewrite length_seq; reflexivity|]. intros i x b Hx Hb. apply lookup_seq in Hx as [-> _].
  change (pair_byte truncated not_hex (hex_string bs) (i * 2) = Ok b). rewrite (Nat.mul_comm i 2).
  unfold pair_byte. rewrite (str_get_hex_string _ _ _ Hok Hb).
  cbn [ok_or mbind res_bind]. rewrite parse_hex_byte; [reflexivity|]. eapply Forall_lookup_1; eauto.
Qed.

Lemma hex_string_text bs : bytes_ok bs -> hex_text (hex_string bs).
Proof. apply hex_string_forall. intros d Hd. apply digit_char_hexdigit. exact Hd. Qed.

Lemma no_prefix_hex bs : bytes_ok bs -> without_prefix (hex_string bs) (lit "0x") = hex_string bs.
Proof. intros Hok. apply hex_text_no_0x, hex_string_text, Hok. Qed.

Lemma fixed_hex_string bs what : bytes_ok bs -> fixed_hex (length bs) (hex_string bs) what = Ok bs.
Proof.
  intros Hok. unfold fixed_hex. rewrite no_prefix_hex by exact Hok. rewrite hex_string_length.
  replace (2 * length bs)%nat with (length bs * 2)%nat by lia. rewrite Nat.eqb_refl. apply pair_bytes_string. exact Hok.
Qed.

Lemma sdecode_hex_string bs : bytes_ok bs -> sdecode_hex (hex_string bs) = Ok bs.
Proof.
  intros Hok. unfold sdecode_hex. rewrite no_prefix_hex by exact Hok. rewrite trim_graphic by (apply hex_string_graphic; exact Hok).
  destruct bs as [|b bs]; [reflexivity|]. change (is_nil (hex_string (b :: bs))) with false. cbv iota.
  rewrite hex_string_length. replace (2 * length (b :: bs))%nat with (length (b :: bs) * 2)%nat by lia.
  rewrite Nat.Div0.mod_mul, Nat.div_mul by lia. cbn [Nat.eqb negb]. apply pair_bytes_string. exact Hok.
Qed.

Lemma collect_map {E A B} (f : A -> res E B) (g : A -> B) l :
  Forall (fun x => f x = Ok (g x)) l -> collect f l = Ok (g <$> l).
Proof. induction 1 as [|x l Hx _ IH]; cbn [collect]; [reflexivity|]. rewrite Hx. cbn [mbind res_bind]. rewrite IH. reflexivity. Qed.

Lemma collect_fmap {E A B C} (f : B -> res E C) (g : A -> B) l : collect f (g <$> l) = collect (fun x => f (g x)) l.
Proof. induction l as [|x l IH]; [reflexivity|]. rewrite fmap_cons. cbn [collect]. rewrite IH. reflexivity. Qed.

(** * One call and two *)

(** What the signing crates agree on: the [bitcoin] wrapper and the plain
    secp256k1 calls are one library, and the sizes of what they return. *)
Class SignerLaws `{BitcoinLib, Secp256k1, SecpPublic, Ed25519Lib} : Prop := {
  secret_agrees k : secret_key_valid k = secret_valid k;
  public_agrees k : secret_valid k = true -> public_key_of k = Some (secp_public k);
  sign_agrees k d : sign_compact k d = (sign_recoverable k d).2;
  secp_public_bytes k : length (secp_public k) = 33%nat /\ bytes_ok (secp_public k);
  sign_recoverable_bytes k d : length (sign_recoverable k d).2 = 64%nat /\ bytes_ok (sign_recoverable k d).2;
  recovery_range k d : 0 <= (sign_recoverable k d).1 <= 3;
  ed25519_sign_bytes k m : length (ed25519_sign k m) = 64%nat /\ bytes_ok (ed25519_sign k m);
  signature_hash_bytes t i s v d : p2wpkh_signature_hash t i s v = Ok d -> length d = 32%nat /\ bytes_ok d
}.

Section OneShot.
Context `{CodecLaws, BitcoinLib, Secp256k1, SecpPublic, Ed25519Lib, !SignerLaws, Bip39, Bip32, KeyHashes}.

(** The signature of a digest, as the wire carries it. *)
Definition wire_signature (key digest : list Z) : Signature :=
  SigSecp256k1 (hex_string (sign_recoverable key digest).2) (sign_recoverable key digest).1.

Lemma sign_digest_payload key digest :
  length digest = 32%nat -> bytes_ok digest ->
  sign_payload (secp256k1_payload digest) key =
  if secret_valid key then Ok (wire_signature key digest) else Err (FBuildFailed (lit "derived key is not a valid scalar")).
Proof.
  intros Hl Hb. unfold sign_payload, secp256k1_payload. cbn [bytes_hex Wire.scheme]. rewrite sdecode_hex_string by exact Hb.
  cbn [mbind res_bind]. rewrite Hl. cbn [Nat.eqb mbind res_bind]. unfold scalar. destruct (secret_valid key); [|reflexivity].
  cbn [mbind res_bind]. pose proof (recovery_range key digest) as Hr. unfold wire_signature.
  destruct (sign_recoverable key digest) as [rid compact]. cbn [fst snd] in *.
  replace ((0 <=? rid) && (rid <=? 255)) with true by lia. reflexivity.
Qed.

Lemma wire_signature_rs key digest : secp256k1_rs (wire_signature key digest) = Ok (sign_recoverable key digest).2.
Proof.
  destruct (sign_recoverable_bytes key digest) as [Hl Hb]. unfold secp256k1_rs, wire_signature. rewrite <- Hl. apply fixed_hex_string, Hb.
Qed.

Lemma single_wire_signature key digest :
  single_secp256k1 [wire_signature key digest] = Ok ((sign_recoverable key digest).2, (sign_recoverable key digest).1).
Proof. unfold single_secp256k1. rewrite wire_signature_rs. reflexivity. Qed.

Lemma compressed_public key : compressed_public_key (hex_string (secp_public key)) = Ok (secp_public key).
Proof. destruct (secp_public_bytes key) as [Hl Hb]. unfold compressed_public_key. rewrite <- Hl. apply fixed_hex_string, Hb. Qed.

Lemma sighash_digests t utxos pk sel ds : sighashes t utxos pk = Ok (sel, ds) -> Forall (fun d => length d = 32%nat /\ bytes_ok d) ds.
Proof.
  intros Hs. unfold sighashes in Hs. apply bind_ok in Hs as (? & _ & Hs). apply bind_ok in Hs as ([tx sel'] & Hb & Hs).
  apply bind_ok in Hs as (from & _ & Hs). apply bind_ok in Hs as (fs & _ & Hs). apply bind_ok in Hs as (ds' & Hds & Hs).
  injection Hs as <- <-. apply collect_ok in Hds. clear Hb. remember (imap pair (inputs sel')) as ps eqn:E. clear E.
  induction Hds as [|p d ps ds' Hp _ IH]; constructor; [|exact IH]. unfold input_sighash in Hp. apply map_err_ok in Hp.
  exact (signature_hash_bytes _ _ _ _ _ Hp).
Qed.

Lemma controls_from t utxos pk sel ds : sighashes t utxos pk = Ok (sel, ds) -> p2wpkh_address pk = trim (tr_from t).
Proof.
  unfold sighashes. intros Hs. apply bind_ok in Hs as (? & Hc & _). unfold check_controls_from in Hc.
  apply bind_ok in Hc as (? & _ & Hc). apply err_if_ok in Hc. apply negb_false_iff, bool_decide_eq_true in Hc. exact Hc.
Qed.

(** What the library's own signers make of a key and a transaction. *)
Definition library_signs (spec : TransactionSpec) (key : list Z) (signed : SignedTransaction) : Prop :=
  match spec with
  | SpecBtc from to amount_sat fee_sat utxos =>
      exists raw, btc_sign (btc_transfer from to amount_sat fee_sat) (btc_utxos utxos) key = Ok raw /\ signed = mkSigned raw None
  | SpecEvm _ _ _ _ _ _ _ =>
      exists tx bytes, evm_transaction spec = Ok tx /\ evm_sign tx key = Ok bytes /\
        signed = mkSigned (lit "0x" ++ hex_string bytes) (Some (hash_of bytes))
  | SpecSolana from to lamports recent_blockhash =>
      length key = 32%nat /\ exists m bytes, let tx := mkNative from to lamports recent_blockhash in
        message tx = Ok m /\ sol_attach_signature tx (ed25519_sign key m) = Ok bytes /\
        (solana_encode (verifying_key key) = trim from -> sol_sign tx key = Ok bytes) /\
        signed = mkSigned (base64 bytes) (Some (bs58_encode (ed25519_sign key m)))
  | SpecTron raw_data_hex expected_to expected_txid transfer =>
      verify_contract raw_data_hex expected_to expected_txid transfer None = Ok tt /\
      exists signature, tron_sign raw_data_hex key = Ok signature /\ signed = mkSigned (signature_hex signature) (Some expected_txid)
  end.

(** From payloads to the assembled transaction with one key. *)
Definition signed_with (spec : TransactionSpec) (key : list Z) : res Failure SignedTransaction :=
  public ← public_key_hex (spec_chain spec) key;
  unsigned ← build_unsigned (mkSigningRequest spec (mkPublicKey public));
  signed ← collect (fun payload => sign_payload payload key) (payloads unsigned);
  attach_signature (mkAttachRequest spec (mkPublicKey public) signed).

Lemma btc_signed_with from to amount fee utxos key signed :
  signed_with (SpecBtc from to amount fee utxos) key = Ok signed <-> library_signs (SpecBtc from to amount fee utxos) key signed.
Proof.
  cbn [library_signs]. setoid_rewrite btc_sign_steps. unfold signed_with. cbn [spec_chain].
  change (public_key_hex Btc key) with (key ← scalar key; Ok (hex_string (secp_public key))). unfold scalar. rewrite secret_agrees.
  destruct (secret_valid key) eqn:Hv; cbn [mbind res_bind]; [|split; [discriminate | intros (raw & ([=] & _) & _)]].
  rewrite public_agrees by exact Hv. unfold build_unsigned, payloads_of, attach_signature.
  cbn [sr_transaction sr_public_key ar_transaction ar_public_key key_hex signatures].
  rewrite compressed_public. cbn [mbind res_bind].
  destruct (sighashes _ _ _) as [[sel ds]|e|] eqn:Hs; cbn [build_failed map_err mbind res_bind payloads];
    [|split; [discriminate | intros (raw & (_ & pk' & sel & ds & [= <-] & _ & Hs' & _) & _); rewrite Hs in Hs'; discriminate]..].
  assert (Hsigs : collect (fun payload => sign_payload payload key) (secp256k1_payload <$> ds) = Ok (wire_signature key <$> ds)).
  { rewrite collect_fmap. apply collect_map. pose proof (sighash_digests _ _ _ _ _ Hs) as Hd.
    eapply list.Forall_impl; [exact Hd|]. intros d [Hl Hb]. cbn. rewrite sign_digest_payload, Hv by assumption. reflexivity. }
  rewrite Hsigs. cbn [mbind res_bind].
  assert (Hrs : collect secp256k1_rs (wire_signature key <$> ds) = Ok (sign_compact key <$> ds)).
  { rewrite collect_fmap. apply collect_map. apply Forall_forall. intros d _. rewrite wire_signature_rs, sign_agrees. reflexivity. }
  rewrite Hrs. cbn [mbind res_bind]. split.
  - intros Ha. apply bind_ok in Ha as (raw & Ha & [= <-]). apply map_err_ok in Ha. exists raw. split; [|reflexivity]. split; [reflexivity|].
    exists (secp_public key), sel, ds. split; [reflexivity|]. split; [exact (controls_from _ _ _ _ _ Hs)|]. auto.
  - intros (raw & (_ & pk' & sel' & ds' & [= <-] & _ & Hs' & Ha) & ->). rewrite Hs in Hs'. injection Hs' as <- <-. rewrite Ha. reflexivity.
Qed.

Lemma evm_signed_with to value data nonce gas price chain key signed :
  let spec := SpecEvm to value data nonce gas price chain in
  signed_with spec key = Ok signed <-> library_signs spec key signed.
Proof.
  cbv zeta. cbn [library_signs]. setoid_rewrite sign_is_digest_then_attach; [|intros k d; pose proof (recovery_range k d); lia].
  unfold signed_with. cbn [spec_chain].
  change (public_key_hex Evm key) with (key ← scalar key; Ok (hex_string (secp_public key))). unfold scalar.
  destruct (secret_valid key) eqn:Hv; cbn [mbind res_bind]; [|split; [discriminate | intros (? & ? & _ & ([=] & _) & _)]].
  unfold build_unsigned, payloads_of, attach_signature. cbn [sr_transaction ar_transaction signatures].
  destruct (evm_transaction _) as [tx|e|] eqn:Ht; cbn [mbind res_bind]; [|split; [discriminate | intros (? & ? & [=] & _)]..].
  destruct (evm_digest tx) as [digest|e|] eqn:Hd; cbn [build_failed map_err mbind res_bind payloads];
    [|split; [discriminate | intros (? & ? & [= <-] & (_ & d & Hd' & _) & _); rewrite Hd in Hd'; discriminate]..].
  assert (Hb : length digest = 32%nat /\ bytes_ok digest).
  { unfold evm_digest in Hd. apply bind_ok in Hd as (p & _ & [= <-]). split; [apply keccak256_length | apply keccak256_ok]. }
  cbn [collect]. rewrite sign_digest_payload, Hv by apply Hb. cbn [mbind res_bind]. rewrite single_wire_signature. cbn [mbind res_bind].
  split.
  - intros Ha. apply bind_ok in Ha as (bytes & Ha & [= <-]). apply map_err_ok in Ha. exists tx, bytes. eauto 6.
  - intros (tx' & bytes & [= <-] & (_ & d & Hd' & Ha) & ->). rewrite Hd in Hd'. injection Hd' as <-. rewrite Ha. reflexivity.
Qed.

Lemma message_bytes tx m : message tx = Ok m -> bytes_ok m.
Proof.
  intros Hm. apply message_ok in Hm as (from & to & bh & (Hf & Ht & Hb & _) & ->).
  apply solana_decode_ok in Hf as (_ & Hf & _). apply solana_decode_ok in Ht as (_ & Ht & _).
  apply bs58_decode_ok in Hf, Ht, Hb. unfold build_native_transfer_message, encode_message.
  repeat (apply Forall_app; split); try assumption; try (apply le_bytes_ok); try (apply bytes_ok_compute; reflexivity).
Qed.

Lemma solana_signed_with from to lamports blockhash key signed :
  let spec := SpecSolana from to lamports blockhash in
  signed_with spec key = Ok signed <-> library_signs spec key signed.
Proof.
  cbv zeta. cbn [library_signs]. unfold signed_with. cbn [spec_chain].
  change (public_key_hex Solana key) with (key ← ed25519_key key; Ok (hex_string (verifying_key key))). unfold ed25519_key.
  destruct (Nat.eqb_spec (length key) 32) as [Hk|Hk]; cbn [mbind res_bind]; [|split; [discriminate | intros [? _]; congruence]].
  unfold build_unsigned, payloads_of, attach_signature. cbn [sr_transaction ar_transaction signatures solana_transfer mbind res_bind].
  destruct (message _) as [m|e|] eqn:Hm; cbn [build_failed map_err mbind res_bind payloads];
    [|split; [discriminate | intros (_ & m' & b & [=] & _)]..].
  cbn [collect]. unfold sign_payload at 1. cbn [bytes_hex Wire.scheme]. rewrite sdecode_hex_string by exact (message_bytes _ _ Hm).
  cbn [mbind res_bind]. unfold ed25519_key. rewrite Hk. cbn [Nat.eqb mbind res_bind single_ed25519].
  destruct (ed25519_sign_bytes key m) as [Hl Hb].
  assert (Hfix : fixed_hex 64 (hex_string (ed25519_sign key m)) (lit "signature") = Ok (ed25519_sign key m))
    by (rewrite <- Hl; apply fixed_hex_string, Hb).
  rewrite Hfix. cbn [mbind res_bind]. split.
  - intros Ha. apply bind_ok in Ha as (bytes & Ha & [= <-]). apply map_err_ok in Ha. split; [reflexivity|]. exists m, bytes.
    split_and!; [reflexivity | exact Ha | | reflexivity]. intros Hc. unfold sol_sign. rewrite Hk. cbn [Nat.eqb negb sol_from].
    rewrite bool_decide_eq_true_2 by exact Hc. cbn [negb]. rewrite Hm. exact Ha.
  - intros (_ & m' & bytes & [= <-] & Ha & _ & ->). rewrite Ha. reflexivity.
Qed.

Lemma tron_signed_with raw_data to txid transfer key signed :
  let spec := SpecTron raw_data to txid transfer in
  signed_with spec key = Ok signed <-> library_signs spec key signed.
Proof.
  cbv zeta. cbn [library_signs]. unfold signed_with, tron_sign. cbn [spec_chain].
  change (public_key_hex Tron key) with (key ← scalar key; Ok (hex_string (secp_public key))). unfold scalar.
  destruct (secret_valid key) eqn:Hv; cbn [negb err_if mbind res_bind]; [|split; [discriminate | intros (_ & s & [=] & _)]].
  unfold build_unsigned, payloads_of, attach_signature. cbn [sr_transaction ar_transaction signatures].
  destruct (verify_contract _ _ _ _ _) as [[]|e|]; cbn [map_err mbind res_bind]; [|split; [discriminate | intros [[=] _]]..].
  destruct (tron_digest raw_data) as [digest|e|] eqn:Hd; cbn [build_failed map_err mbind res_bind payloads];
    [|split; [discriminate | intros (_ & s & [=] & _)]..].
  assert (Hb : length digest = 32%nat /\ bytes_ok digest).
  { unfold tron_digest in Hd. apply bind_ok in Hd as (p & _ & [= <-]). split; [apply sha256_length | apply sha256_ok]. }
  cbn [collect]. rewrite sign_digest_payload, Hv by apply Hb. cbn [mbind res_bind]. rewrite single_wire_signature. cbn [mbind res_bind].
  pose proof (recovery_range key digest) as Hr. destruct (sign_recoverable key digest) as [rid compact]. cbn [fst snd] in *.
  unfold recovery_byte. replace ((0 <=? rid) && (rid <=? 255)) with true by lia. cbn [mbind res_bind]. split.
  - intros Ha. apply bind_ok in Ha as (sg & Ha & [= <-]). apply map_err_ok in Ha. eauto.
  - intros (_ & sg & Ha & ->). rewrite Ha. reflexivity.
Qed.

Lemma signed_with_library spec key signed : signed_with spec key = Ok signed <-> library_signs spec key signed.
Proof.
  destruct spec; [apply btc_signed_with | apply evm_signed_with | apply solana_signed_with | apply tron_signed_with].
Qed.
End OneShot.


(** * Construction: facts and bytes *)

Section Facts.
Context `{CodecLaws, BitcoinLib, Bip32, RequestSize}.

(** What an intent asks for: whom the transaction calls, with what value and
    data, and what the user is told of it. *)
Definition intent_means (i : EvmIntent) (a : EvmApprovalFacts) (target : str) (value : Z) (data : list Z) : Prop :=
  match i with
  | IntentNative to amount =>
      evm_validate to = Ok target /\ af_recipient a = target /\ parse_u128 (trim amount) = Ok value /\ 0 < value /\ data = [] /\
      token_contract a = None /\ token_amount_raw a = None
  | IntentErc20 token to amount =>
      evm_validate token = Ok target /\ evm_validate to = Ok (af_recipient a) /\ value = 0 /\ token_contract a = Some target /\
      exists m bs v, token_amount_raw a = Some m /\ decimal_text m v /\ decimal_text amount v /\ 0 < v < 2 ^ 256 /\
        address_bytes (af_recipient a) bs /\ data = TRANSFER_SELECTOR ++ left_pad_address bs ++ be_bytes 32 v
  | IntentCall to value_wei data_hex =>
      evm_validate to = Ok target /\ af_recipient a = target /\ parse_u128 (trim value_wei) = Ok value /\
      hex_string data = ascii_lowercase (without_prefix (trim data_hex) (lit "0x")) /\
      token_contract a = None /\ token_amount_raw a = None
  end.

(** The call data the facts quote, read back. *)
Lemma quoted_calldata bs : bytes_ok bs -> sdecode_hex (lit "0x" ++ hex_string bs) = Ok bs.
Proof.
  intros Hok. transitivity (sdecode_hex (hex_string bs)); [|exact (sdecode_hex_string bs Hok)].
  unfold sdecode_hex. rewrite without_prefix_app, no_prefix_hex by exact Hok. reflexivity.
Qed.

Lemma quoted_decimal v field : is_u128 v -> decimal_u128 (show_dec v) field = Ok v.
Proof.
  intros Hv. unfold decimal_u128. rewrite trim_graphic.
  - unfold parse_u128. rewrite parse_show_dec; [reflexivity | exact Hv | apply Hv].
  - eapply list.Forall_impl; [apply show_dec_digits, Hv|]. intros b Hb. cbn in Hb. unfold is_graphic, within. lia.
Qed.

Lemma decimal_u128_ok s field v : decimal_u128 s field = Ok v -> parse_u128 (trim s) = Ok v /\ is_u128 v.
Proof.
  intros Hv. apply map_err_ok in Hv. split; [exact Hv|]. apply parse_unsigned_bound in Hv; unfold u128_max in *; unfold is_u128, u128_max; lia.
Qed.

Lemma trim_zeros_spec s :
  Forall (fun b => is_ascii_digit b = true) s ->
  Forall (fun b => is_ascii_digit b = true) (trim_zeros s) /\ decimal_value (trim_zeros s) = decimal_value s /\
  (trim_zeros s <> [] -> 0 < decimal_value (trim_zeros s)).
Proof.
  induction 1 as [|b s Hb Hs IH]; [cbn [trim_zeros]; split_and!; [constructor | reflexivity | congruence]|]. cbn [trim_zeros].
  destruct (Z.eqb_spec b 48) as [->|Hne].
  - destruct IH as (H1' & H2' & H3'). split_and!; [exact H1' | rewrite H2'; reflexivity | exact H3'].
  - split_and!; [constructor; assumption | reflexivity|]. intros _. unfold decimal_value. rewrite fmap_cons, digits_value_cons.
    unfold is_ascii_digit in Hb. bool_to_prop.
    assert (Hd : digits_ok 10 ((fun b => b - 48) <$> s)).
    { apply Forall_fmap. eapply list.Forall_impl; [exact Hs|]. intros c Hc. unfold is_ascii_digit in Hc. bool_to_prop. cbn. lia. }
    pose proof (digits_value_mono 10 (0 * 10 + (b - 48)) _ ltac:(lia) ltac:(lia) Hd). lia.
Qed.

Lemma digits_trim s : Forall (fun b => is_ascii_digit b = true) s -> trim s = s.
Proof. intros Hs. apply trim_graphic. eapply list.Forall_impl; [exact Hs|]. intros b Hb. apply hexdigit_graphic, digit_hexdigit, Hb. Qed.

Lemma canonical_amount_ok raw m :
  canonical_token_amount raw = Ok m -> exists v, decimal_text raw v /\ decimal_text m v /\ 0 < v.
Proof.
  unfold canonical_token_amount. intros Hm. destruct (is_nil (trim raw) || _ || _) eqn:E; [discriminate|].
  apply orb_false_elim in E as [E E3]. apply orb_false_elim in E as [E1 _]. apply is_nil_false in E1.
  apply negb_false_iff, digits_text in E3. destruct (trim_zeros_spec _ E3) as (Hd & Hv & Hp).
  destruct (is_nil (trim_zeros (trim raw))) eqn:E4; [discriminate|]. apply is_nil_false in E4. injection Hm as <-.
  exists (decimal_value (trim raw)). split; [split_and!; auto|]. split.
  - unfold decimal_text. rewrite (digits_trim _ Hd). auto.
  - rewrite <- Hv. apply Hp, E4.
Qed.

Lemma call_body_bytes body :
  negb (length body mod 2 =? 0)%nat = false -> forallb is_ascii_hexdigit body = true ->
  exists bs, bytes_ok bs /\ hex_string bs = ascii_lowercase body.
Proof.
  intros Hm Hh. apply negb_false_iff, Nat.eqb_eq in Hm.
  assert (Ht : hex_text body) by (apply Forall_forall; intros b Hb; rewrite forallb_forall in Hh; auto).
  destruct (hex_text_bytes body (length body / 2) Ht) as (bs & _ & Hok & Hhex & _).
  { pose proof (Nat.div_mod_eq (length body) 2). lia. }
  eauto.
Qed.

Lemma address_pad_bytes a bs : address_bytes a bs -> bytes_ok (left_pad_address bs).
Proof.
  intros (body & _ & _ & Hok & _). unfold left_pad_address. apply Forall_app. split; [apply bytes_ok_compute; reflexivity | exact Hok].
Qed.

(** The effects of an intent, and that its call data reads back. *)
Lemma intent_effects_mean i e a :
  intent_effects i = Ok e -> af_recipient a = ef_recipient e -> token_contract a = ef_token e -> token_amount_raw a = ef_token_amount e ->
  is_u128 (ef_value e) /\ (exists s, evm_validate s = Ok (ef_target e)) /\
  exists data, sdecode_hex (ef_calldata e) = Ok data /\ intent_means i a (ef_target e) (ef_value e) data.
Proof.
  intros He Hr Ht Hm. destruct i as [to amount | token to amount | to value data]; cbn [intent_effects] in He; cbn [intent_means].
  - apply bind_ok in He as (t & Hto & He). apply map_err_ok in Hto. apply bind_ok in He as (v & Hv & He).
    apply decimal_u128_ok in Hv as [Hv Hb]. destruct (Z.eqb_spec v 0); [discriminate|]. injection He as <-. cbn in *.
    split; [exact Hb|]. split; [eauto|]. exists []. split; [reflexivity|]. split_and!; auto. unfold is_u128 in Hb. lia.
  - apply bind_ok in He as (tk & Htk & He). apply map_err_ok in Htk. apply bind_ok in He as (t & Hto & He). apply map_err_ok in Hto.
    apply bind_ok in He as (m & Hc & He). apply bind_ok in He as (calldata & Hd & [= <-]). apply map_err_ok in Hd. cbn in *.
    split; [unfold is_u128, u128_max; lia|]. split; [eauto|].
    apply abi_encode_ok in Hd as (bs & w & Hbs & Hw & ->). apply u256_from_decimal_ok in Hw as (v & Hv & Hmax & ->).
    apply canonical_amount_ok in Hc as (v' & Hraw & Hm' & Hpos).
    assert (v' = v) as -> by (destruct Hv as (_ & _ & ->), Hm' as (_ & _ & ->); reflexivity).
    exists (TRANSFER_SELECTOR ++ left_pad_address bs ++ be_bytes 32 v). split.
    + apply quoted_calldata. apply Forall_app. split; [apply bytes_ok_compute; reflexivity|].
      apply Forall_app. split; [exact (address_pad_bytes _ _ Hbs) | apply be_bytes_ok].
    + rewrite Hr. split_and!; auto. exists m, bs, v. split_and!; auto.
  - apply bind_ok in He as (t & Hto & He). apply map_err_ok in Hto. apply bind_ok in He as (v & Hv & He).
    apply decimal_u128_ok in Hv as [Hv Hb]. destruct (_ || _ || _) eqn:E; [discriminate|]. injection He as <-. cbn in *.
    apply orb_false_elim in E as [E E3]. apply orb_false_elim in E as [_ E2]. apply negb_false_iff in E3.
    destruct (call_body_bytes _ E2 E3) as (bs & Hok & Hhex). split; [exact Hb|]. split; [eauto|]. exists bs.
    split; [rewrite <- Hhex; exact (quoted_calldata _ Hok) | split_and!; auto].
Qed.
End Facts.

(** C11. A constructed transaction is what its approval facts say.  When
    construction succeeds, the sender shown is the address of the caller's public
    key; the transaction is the one on the request's chain, nonce, gas and price,
    with the target, value and call data the intent asks for (a native transfer of
    a positive amount; the ABI call moving a positive amount of the token to the
    recipient; or the caller's own call data), and the facts quote exactly its
    fields, the fee at most gas times price and the native debit at most value plus
    that, both exact in 128 bits; the one payload to sign is that transaction's
    digest; and a signature with any recovery id can be attached to it. *)
Theorem constructed_as_approved `{CodecLaws, BitcoinLib, Bip32, RequestSize} request c :
  is_u64 (cr_nonce request) -> is_u64 (cr_gas_limit request) -> is_u64 (cr_chain_id request) ->
  construct request = Ok c ->
  let a := approval c in
  exists public target value data gas_price digest,
    let tx := mkTx (cr_nonce request) gas_price (cr_gas_limit request) (Some target) value data (cr_chain_id request) in
    compressed_public_key (key_hex (cr_public_key request)) = Ok public /\ address_from_public_key public = Ok (af_sender a) /\
    intent_means (intent request) a target value data /\ parse_u128 (trim (cr_gas_price_wei request)) = Ok gas_price /\
    evm_transaction (ce_transaction c) = Ok tx /\ spec_chain (ce_transaction c) = Evm /\
    evm_digest tx = Ok digest /\ payloads (ce_unsigned c) = [secp256k1_payload digest] /\
    af_chain_id a = cr_chain_id request /\ af_nonce a = cr_nonce request /\ af_gas_limit a = cr_gas_limit request /\
    af_gas_price_wei a = show_dec gas_price /\ native_value_wei a = show_dec value /\ sdecode_hex (calldata_hex a) = Ok data /\
    max_fee_wei a = show_dec (gas_price * cr_gas_limit request) /\
    max_native_debit_wei a = show_dec (value + gas_price * cr_gas_limit request) /\ value + gas_price * cr_gas_limit request <= u128_max /\
    0 < cr_chain_id request /\ 0 < cr_gas_limit request /\
    (forall rs rid, 0 <= rid <= 3 -> exists signed, evm_attach_signature tx rs rid = Ok signed).
Proof.
  intros Hnonce Hgas Hchain Hc. cbv zeta. unfold construct in Hc. apply bind_ok in Hc as ([] & Hvalid & Hc).
  unfold validate_request in Hvalid. destruct (MAX_CONSTRUCTION_BYTES <? _); [discriminate|].
  destruct ((cr_chain_id request =? 0) || (cr_gas_limit request =? 0)) eqn:Hzero; [discriminate|].
  destruct (Z.ltb_spec ((u64_max - 38) / 2) (cr_chain_id request)) as [|Hmax]; [discriminate|]. clear Hvalid.
  apply orb_false_elim in Hzero as [Hz1 Hz2]. apply Z.eqb_neq in Hz1, Hz2.
  apply bind_ok in Hc as (public & Hpub & Hc). apply bind_ok in Hc as (sender & Hsender & Hc). apply map_err_ok in Hsender.
  apply bind_ok in Hc as (price & Hprice & Hc). apply decimal_u128_ok in Hprice as [Hprice Hpb].
  apply bind_ok in Hc as (fee & Hfee & Hc). apply ok_or_ok, checked_mul_some in Hfee as [-> Hfee].
  apply bind_ok in Hc as (e & He & Hc). apply bind_ok in Hc as (native & Hn & Hc). apply ok_or_ok, checked_add_some in Hn as [-> Hn].
  apply bind_ok in Hc as (unsigned & Hu & [= <-]). cbn [approval ce_transaction ce_unsigned].
  set (a := mkFacts _ _ _ _ _ _ _ _ _ _ _ _).
  destruct (intent_effects_mean (intent request) e a He eq_refl eq_refl eq_refl) as (Hvb & (s & Htarget) & data & Hdata & Hmeans).
  assert (Ht : evm_validate (ef_target e) = Ok (ef_target e) /\ trim (ef_target e) = ef_target e /\ ef_target e <> []).
  { apply evm_validate_ok in Htarget as (_ & body & Hb). split; [exact (evm_validate_address _ _ Hb)|].
    split; [exact (evm_address_trim _ _ Hb)|]. apply is_nil_false, (evm_address_not_nil _ _ Hb). }
  destruct Ht as (Hvt & Htrim & Hne).
  assert (Htx : evm_transaction (SpecEvm (ef_target e) (show_dec (ef_value e)) (ef_calldata e) (cr_nonce request) (cr_gas_limit request)
      (show_dec price) (cr_chain_id request)) =
    Ok (mkTx (cr_nonce request) price (cr_gas_limit request) (Some (ef_target e)) (ef_value e) data (cr_chain_id request))).
  { unfold evm_transaction. rewrite !quoted_decimal by assumption. cbn [mbind res_bind]. rewrite Hdata. cbn [mbind res_bind].
    rewrite Htrim, (proj2 (is_nil_false _) Hne). reflexivity. }
  unfold build_unsigned, payloads_of in Hu. cbn [sr_transaction] in Hu. rewrite Htx in Hu. cbn [mbind res_bind] in Hu.
  apply bind_ok in Hu as (ps & Hps & [= <-]). apply bind_ok in Hps as (digest & Hdigest & [= <-]). apply map_err_ok in Hdigest.
  exists public, (ef_target e), (ef_value e), data, price, digest. unfold is_u64, u64_max in *.
  split_and!; try assumption; try reflexivity; try lia.
  intros rs rid Hr. destruct (to_bytes (mkTx (cr_nonce request) price (cr_gas_limit request) (Some (ef_target e)) (ef_value e) data (cr_chain_id request)))
    as [tob| |] eqn:Hto.
  2,3: unfold evm_digest, signing_payload, base_items in Hdigest; rewrite Hto in Hdigest; discriminate.
  eexists. apply evm_attach_signature_ok; [lia | cbn; lia|]. exists tob. eexists. split_and!; [lia | reflexivity | cbn; unfold u64_max | exact Hto | reflexivity].
  pose proof (Z.mul_div_le (2 ^ 64 - 1 - 38) 2 ltac:(lia)). lia.
Qed.

(** * Base 64 *)

(** The reader: four characters give three bytes, two or one. *)
Definition base64_digit (c : Z) : option Z := Z.of_nat <$> position (fun x => x =? c) BASE64_TABLE.

Fixpoint base64_read (fuel : nat) (s : str) : option (list Z) :=
  match fuel, s with
  | _, [] => Some []
  | S fuel, c0 :: c1 :: c2 :: c3 :: rest =>
      d0 ← base64_digit c0; d1 ← base64_digit c1;
      if c3 =? 61 then
        if negb (is_nil rest) then None
        else if c2 =? 61 then Some [d0 * 4 + d1 / 16]
        else d2 ← base64_digit c2; Some [d0 * 4 + d1 / 16; d1 mod 16 * 16 + d2 / 4]
      else
        d2 ← base64_digit c2; d3 ← base64_digit c3; more ← base64_read fuel rest;
        Some (d0 * 4 + d1 / 16 :: d1 mod 16 * 16 + d2 / 4 :: d2 mod 4 * 64 + d3 :: more)
  | _, _ => None
  end.

Lemma base64_char_digit v : 0 <= v < 64 -> base64_digit (base64_char v) = Some v /\ base64_char v <> 61.
Proof.
  intros Hv. assert (Hall : Forall (fun v => base64_digit (base64_char v) = Some v /\ base64_char v <> 61) (seqZ 0 64)).
  { apply Forall_forall. intros x Hx. apply list_elem_of_In, elem_of_seqZ in Hx. 
    assert (Hx' : x ∈ seqZ 0 64) by (apply elem_of_seqZ; lia). clear Hx. revert x Hx'. apply list.Forall_forall.
    repeat (constructor; [split; [reflexivity | discriminate]|]). constructor. }
  rewrite list.Forall_forall in Hall. apply Hall, elem_of_seqZ. lia.
Qed.

Lemma shift_or a b n : 0 <= n -> 0 <= b < 2 ^ n -> Z.lor (Z.shiftl a n) b = a * 2 ^ n + b.
Proof. intros Hn Hb. rewrite Z.lor_comm, lor_shiftl_add by assumption. lia. Qed.

Lemma triple_digits b0 b1 b2 :
  is_u8 b0 -> is_u8 b1 -> is_u8 b2 ->
  let triple := Z.lor (Z.lor (Z.shiftl b0 16) (Z.shiftl b1 8)) b2 in
  Z.land (Z.shiftr triple 18) 63 = b0 / 4 /\ Z.land (Z.shiftr triple 12) 63 = b0 mod 4 * 16 + b1 / 16 /\
  Z.land (Z.shiftr triple 6) 63 = b1 mod 16 * 4 + b2 / 64 /\ Z.land triple 63 = b2 mod 64.
Proof.
  intros H0' H1' H2'. cbv zeta. unfold is_u8 in *.
  assert (Ht : Z.lor (Z.lor (Z.shiftl b0 16) (Z.shiftl b1 8)) b2 = b0 * 65536 + b1 * 256 + b2).
  { rewrite <- Z.lor_assoc, (shift_or b1 b2 8) by lia. rewrite shift_or by lia. lia. }
  rewrite Ht. change 63 with (Z.ones 6). rewrite !Z.land_ones, !Z.shiftr_div_pow2 by lia.
  change (2 ^ 6) with 64. change (2 ^ 12) with 4096. change (2 ^ 18) with 262144.
  split_and!; Z.div_mod_to_equations; lia.
Qed.

Lemma base64_length_read bytes : bytes_ok bytes -> forall fuel, (length bytes <= fuel)%nat -> base64_read fuel (base64 bytes) = Some bytes.
Proof.
  intros Hok fuel. revert bytes Hok. induction fuel as [|fuel IH]; intros bytes Hok Hl.
  { destruct bytes; [reflexivity | cbn in Hl; lia]. }
  assert (Hstep : forall b0 b1 b2, is_u8 b0 -> is_u8 b1 -> is_u8 b2 ->
    0 <= b0 / 4 < 64 /\ 0 <= b0 mod 4 * 16 + b1 / 16 < 64 /\ 0 <= b1 mod 16 * 4 + b2 / 64 < 64 /\ 0 <= b2 mod 64 < 64)
    by (unfold is_u8; intros; split_and!; Z.div_mod_to_equations; lia).
  destruct bytes as [|b0 [|b1 [|b2 rest]]]; [reflexivity|..]; cbn [base64]; unfold base64_chunk; cbn [nth length Nat.ltb Nat.leb app].
  - apply Forall_cons_iff in Hok as [H0' _]. destruct (triple_digits b0 0 0 H0') as (-> & -> & _); [unfold is_u8; lia..|].
    destruct (Hstep b0 0 0 H0') as (Hd0 & Hd1 & _); [unfold is_u8; lia..|].
    cbn [base64_read]. rewrite (proj1 (base64_char_digit _ Hd0)), (proj1 (base64_char_digit _ Hd1)). cbn [mbind option_bind Z.eqb Pos.eqb is_nil negb].
    unfold is_u8 in H0'. do 2 f_equal. Z.div_mod_to_equations; lia.
  - apply Forall_cons_iff in Hok as [H0' Hok]. apply Forall_cons_iff in Hok as [H1' _].
    destruct (triple_digits b0 b1 0 H0' H1') as (-> & -> & -> & _); [unfold is_u8; lia|].
    destruct (Hstep b0 b1 0 H0' H1') as (Hd0 & Hd1 & Hd2 & _); [unfold is_u8; lia|].
    cbn [base64_read]. rewrite (proj1 (base64_char_digit _ Hd0)), (proj1 (base64_char_digit _ Hd1)).
    destruct (base64_char_digit _ Hd2) as [Hc2 Hn2]. rewrite Hc2. cbn [mbind option_bind Z.eqb Pos.eqb is_nil negb].
    rewrite (proj2 (Z.eqb_neq _ _) Hn2). cbn [mbind option_bind]. unfold is_u8 in *. do 2 f_equal; [|f_equal]; Z.div_mod_to_equations; lia.
  - apply Forall_cons_iff in Hok as [H0' Hok]. apply Forall_cons_iff in Hok as [H1' Hok]. apply Forall_cons_iff in Hok as [H2' Hok].
    destruct (triple_digits b0 b1 b2 H0' H1' H2') as (-> & -> & -> & ->).
    destruct (Hstep b0 b1 b2 H0' H1' H2') as (Hd0 & Hd1 & Hd2 & Hd3).
    cbn [base64_read]. rewrite (proj1 (base64_char_digit _ Hd0)), (proj1 (base64_char_digit _ Hd1)), (proj1 (base64_char_digit _ Hd2)).
    destruct (base64_char_digit _ Hd3) as [Hc3 Hn3]. rewrite Hc3, (proj2 (Z.eqb_neq _ _) Hn3). cbn [mbind option_bind].
    rewrite IH; [|exact Hok | cbn in Hl; lia]. cbn [mbind option_bind]. unfold is_u8 in *.
    do 2 f_equal; [|f_equal; [|f_equal]]; Z.div_mod_to_equations; lia.
Qed.

(** The module's hand-written base 64 is standard.  An independent reader gets
    every byte string back from its encoding, whatever its length, so no two byte
    strings share one; the encoding is four characters per three bytes begun. *)
Theorem base64_standard bytes :
  bytes_ok bytes ->
  base64_read (length bytes) (base64 bytes) = Some bytes /\
  length (base64 bytes) = (4 * ((length bytes + 2) / 3))%nat /\
  (forall bytes', bytes_ok bytes' -> base64 bytes' = base64 bytes -> bytes' = bytes).
Proof.
  intros Hok. split; [apply base64_length_read; auto|]. split.
  - clear Hok. remember (length bytes) as n eqn:Hn. revert bytes Hn. induction n as [n IH] using lt_wf_ind. intros bytes ->.
    destruct bytes as [|b0 [|b1 [|b2 rest]]]; [reflexivity..|]. cbn [base64]. rewrite length_app.
    rewrite (IH (length rest) ltac:(cbn; lia) rest eq_refl). cbn [length base64_chunk].
    replace (S (S (S (length rest))) + 2)%nat with (length rest + 2 + 1 * 3)%nat by lia. rewrite Nat.div_add by lia. lia.
  - intros bytes' Hok' He.
    pose proof (base64_length_read bytes Hok (length bytes + length bytes') ltac:(lia)) as H1'.
    pose proof (base64_length_read bytes' Hok' (length bytes + length bytes') ltac:(lia)) as H2'. rewrite He in H2'. congruence.
Qed.

Lemma base64_standard_witness : base64 (lit "foobar!") = lit "Zm9vYmFyIQ==" /\ base64_read 7 (base64 (lit "foobar!")) = Some (lit "foobar!").
Proof.
  split; [reflexivity|]. apply (base64_standard (lit "foobar!")). apply bytes_ok_compute. reflexivity.
Defined.

(** * Concrete crates *)

#[local] Instance toy_secp_public : SecpPublic := {| secp_public k := 2 :: fold_hash k |}.
#[local] Instance toy_signer_secp : Secp256k1 := {|
  secret_valid k := (length k =? 32)%nat;
  sign_recoverable k d := (1, fold_hash (k ++ d) ++ fold_hash (d ++ k))
|}.
#[local] Instance toy_signer_bitcoin : BitcoinLib := {|
  address_script a := Ok (0 :: a);
  parse_txid t := Ok t;
  public_key_valid pk := (length pk =? 33)%nat;
  p2wpkh_address pk := lit "bc1" ++ hex_string (take 20 pk);
  p2wpkh_signature_hash _ i _ v := Ok (be_bytes 32 (v + Z.of_nat i));
  normalized_der := Some;
  serialize_hex tx := hex_string (concat (map (fun i => concat (witness i)) (tx_input tx)));
  secret_key_valid k := secret_valid k;
  public_key_of k := Some (secp_public k);
  sign_compact k d := (sign_recoverable k d).2
|}.
#[local] Instance toy_signer_ed25519 : Ed25519Lib := {|
  verifying_key k := fold_hash k;
  ed25519_sign k m := fold_hash (k ++ m) ++ fold_hash (m ++ k)
|}.

Lemma toy_two_hashes a b : length (fold_hash a ++ fold_hash b) = 64%nat /\ bytes_ok (fold_hash a ++ fold_hash b).
Proof.
  unfold fold_hash. split; [rewrite length_app, !be_bytes_length; reflexivity | apply Forall_app; split; apply be_bytes_ok].
Qed.

#[local] Instance toy_signer_laws : SignerLaws.
Proof.
  split.
  - reflexivity.
  - reflexivity.
  - reflexivity.
  - intros k. unfold secp_public, toy_secp_public, fold_hash. cbn [length]. rewrite be_bytes_length. split; [reflexivity|].
    constructor; [split; [discriminate | reflexivity] | apply be_bytes_ok].
  - intros k d. apply toy_two_hashes.
  - intros k d. split; discriminate.
  - intros k m. apply toy_two_hashes.
  - intros t i s v d [= <-]. split; [apply be_bytes_length | apply be_bytes_ok].
Qed.

Definition demo_secret : SecretMaterial := mkSecret (lit "some phrase") (lit "m/44'/60'/0'/0/0") Evm.
Definition demo_spec : TransactionSpec :=
  SpecEvm (lit "0x52908400098527886E0F7030069857D2E4169EE7") (lit "1000") (lit "0x") 3 21000 (lit "5") 8453.


Definition demo_construction : EvmConstructionRequest :=
  mkConstruction (mkPublicKey (hex_string (2 :: replicate 32 1))) 8453 3 60000 (lit "5")
    (IntentErc20 (lit "0x833589fCD6eDb6E08f4c7C32D4f71b54bdA02913") (lit "0x52908400098527886E0F7030069857D2E4169EE7") (lit "01500000")).

#[local] Instance toy_request_size : RequestSize := {| request_bytes _ := 400 |}.

(** One and a half USDC on Base. *)
Lemma constructed_as_approved_witness :
  let run := construct (H := base58_codecs) (H1 := toy_bip32) demo_construction in
  is_ok run = true /\
  exists c target value data, run = Ok c /\ token_amount_raw (approval c) = Some (lit "1500000") /\
    intent_means (intent demo_construction) (approval c) target value data /\ sdecode_hex (calldata_hex (approval c)) = Ok data.
Proof.
  cbv zeta. split; [vm_compute; reflexivity|].
  destruct (construct (H := base58_codecs) (H1 := toy_bip32) demo_construction) as [c|e|] eqn:Hrun; [|vm_compute in Hrun; discriminate..].
  destruct (constructed_as_approved (H := base58_codecs) (H0 := base58_codec_laws) (H2 := toy_bip32) demo_construction c)
    as (public & target & value & data & price & digest & Hall);
    [split; vm_compute; discriminate | split; vm_compute; discriminate | split; vm_compute; discriminate | exact Hrun|].
  exists c, target, value, data. split; [reflexivity|]. split; [|split; [apply Hall | apply Hall]].
  vm_compute in Hrun. injection Hrun as <-. reflexivity.
Defined.

(** The module signs a Solana transfer from an account the key does not control;
    the library's signer refuses it. *)
Lemma solana_from_unchecked `{CodecLaws, BitcoinLib, Secp256k1, SecpPublic, Ed25519Lib, !SignerLaws} from to lamports blockhash key m :
  message (mkNative from to lamports blockhash) = Ok m -> length key = 32%nat ->
  solana_encode (verifying_key key) <> trim from ->
  is_ok (signed_with (SpecSolana from to lamports blockhash) key) = true /\
  sol_sign (mkNative from to lamports blockhash) key = Err (Signing (lit "secret key does not control the `from` address")).
Proof.
  intros Hm Hk Hne. split.
  - assert (Hs : exists b, sol_attach_signature (mkNative from to lamports blockhash) (ed25519_sign key m) = Ok b)
      by (unfold sol_attach_signature; rewrite Hm; cbn; eauto).
    destruct Hs as (b & Hb). rewrite (proj2 (solana_signed_with from to lamports blockhash key (mkSigned (base64 b) (Some (bs58_encode (ed25519_sign key m)))))); [reflexivity|].
    split; [exact Hk|]. exists m, b. split_and!; [exact Hm | exact Hb | congruence | reflexivity].
  - unfold sol_sign. rewrite Hk. cbn [Nat.eqb negb sol_from]. rewrite bool_decide_eq_false_2 by exact Hne. reflexivity.
Qed.
