(* ===== verification/PayHost.v ===== *)
(** What the x402 side of the wallet asks of its surroundings
    ([crates/tinywallet-x402/src/crypto/signer.rs], [crypto/mod.rs],
    [protocol/builder.rs], [ledger/global.rs], [ledger/reservation.rs];
    [crates/tinywallet-crypto/src/rpc/mod.rs]).

    The wallet that signs, the chain's node, the host's approval, the clock, the
    process-wide payment ledger and HTTP are requests; the programs of [Rail],
    [PayClient] and [PayTool] are built from them.  The ledger answers here as it
    does to any caller: what it guarantees is [LedgerSystem]'s.  The [http] and
    [reqwest] crates are the class [HttpLib]. *)

From stdpp Require Import base list strings numbers.
From S2P Require Import Prelude Program Text Chain Codec Json Wire Quotes X402Wire Eip712 Host.
From S2P Require Import LedgerTypes Ledger.

(** * Parameters *)

(** [HeaderMap], [HeaderValue], [Request] and [Response]. *)
Class HttpLib := {
  HeaderMap : Type;
  HeaderValue : Type;
  HttpRequest : Type;
  HttpResponse : Type;
  empty_headers : HeaderMap;
  header_get : HeaderMap -> str -> option HeaderValue;
  header_insert : HeaderMap -> str -> HeaderValue -> HeaderMap;
  (** [HeaderValue::to_str] and [from_str]. *)
  header_to_str : HeaderValue -> str + str;
  header_from_str : str -> str + HeaderValue;
  (** [None] for a streaming body. *)
  try_clone : HttpRequest -> option HttpRequest;
  request_insert : HttpRequest -> str -> HeaderValue -> HttpRequest;
  response_status : HttpResponse -> Z;
  response_headers : HttpResponse -> HeaderMap
}.

(** Header names compare without case. *)
Class HttpLaws `{HttpLib} : Prop := {
  header_insert_get m k k' v : eq_ignore_case k k' = true -> header_get (header_insert m k v) k' = Some v
}.

(** [chrono::DateTime::from_timestamp(seconds, 0)]. *)
Class ChronoSeconds := { from_timestamp : Z -> option Z }.

(** * Approval *)

(** The terms put to the host ([wire/host.rs]). *)
Record AuthorizeX402PaymentRequest := mkAuthorize {
  az_url : str;
  az_network : str;
  az_asset : str;
  az_recipient : str;
  az_amount_atomic : Z;
  az_owner : option QuoteOwner
}.

(** * Requests *)

Section Requests.
Context `{HttpLib}.

(** One constructor per method of a seam and per call on the process-wide
    ledger; an uninitialised ledger answers [None].  The module's count of
    payments in preparation is shared by its calls: entered (unless full), read
    and left under its lock, which answers [None] once poisoned. *)
Inductive ask :=
  | AccountOf (chain : PaymentChain)
  | SignPayment (chain : PaymentChain) (message : list Z) (scheme : SignScheme)
  | ChainRpc (network : NetworkId) (method : str) (params : Json)
  | UnixSecs
  | UtcNow
  | FreshNonce
  | FreshUuid
  | CurrentThread
  | Approve (terms : AuthorizeX402PaymentRequest)
  | ReadLedger
  | ReserveBudget (amount : Z)
  | ReleaseHold (id : Z)
  | CommitHold (id : Z) (record : PaymentRecord)
  | RecordPayment (record : PaymentRecord)
  | ObserveExpiry (generation : Z) (id : str) (issued_at last_valid_height observed_height observed_at : Z)
  | UpdateLimits (per_request daily monthly : option Z)
  | EnterPreparing
  | CountPreparing
  | LeavePreparing
  | Send (request : HttpRequest)
  | ReadBody (response : HttpResponse).

Definition said (q : ask) : Type :=
  match q with
  | AccountOf _ => str + PaymentAccount
  | SignPayment _ _ _ => str + list Z
  | ChainRpc _ _ _ => TransportError + Json
  | UnixSecs | UtcNow => Z
  | FreshNonce => list Z
  | FreshUuid => str
  | CurrentThread => option str
  | Approve _ => str + AuthorizationResult
  | ReadLedger => option PaymentLedger
  | ReserveBudget _ => option (str + (Z + BudgetRefusal))
  | ReleaseHold _ => option unit
  | CommitHold _ _ | RecordPayment _ => option (str + unit)
  | ObserveExpiry _ _ _ _ _ _ => option (str + bool)
  | UpdateLimits _ _ _ => option unit
  | EnterPreparing => option bool
  | CountPreparing => option Z
  | LeavePreparing => unit
  | Send _ => str + HttpResponse
  | ReadBody _ => str + str
  end.

(** What leaves a mark outside: a signature, an approval asked, the budget, and
    what is sent. *)
Definition marks (q : ask) : bool :=
  match q with
  | SignPayment _ _ _ | Approve _ | ReserveBudget _ | ReleaseHold _ | CommitHold _ _ | RecordPayment _ | Send _ => true
  | _ => false
  end.
End Requests.

Abbreviation pay := (program said X402Error).
Abbreviation deed := (event_of said).
Abbreviation Deed := (@Event ask said).
Abbreviation world := (host_of said).
Abbreviation deeds := (effects_of (ans := said) marks).
Abbreviation calmly := (quietly_of (ans := said) marks).

Section Calls.
Context `{HttpLib}.

(** [map_err(X402Error::Wallet)] on a seam's error. *)
Definition or_wallet {A} (r : str + A) : pay A := match r with inl e => Done (Err (Wallet e)) | inr a => Done (Ok a) end.

(** The clock and the source of nonces. *)
Definition unix_secs {E} : program said E Z := Ask UnixSecs mret.
Definition utc_now {E} : program said E Z := Ask UtcNow mret.
Definition fresh_nonce {E} : program said E (list Z) := Ask FreshNonce mret.
Definition fresh_uuid {E} : program said E str := Ask FreshUuid mret.

(** [signer.account] and [signer.sign]; [what] precedes the wallet's message. *)
Definition account_of (chain : PaymentChain) : pay PaymentAccount := Ask (AccountOf chain) or_wallet.
Definition sign_payment (chain : PaymentChain) (message : list Z) (scheme : SignScheme) (what : str) : pay (list Z) :=
  Ask (SignPayment chain message scheme) (fun r =>
    match r with inl e => Done (Err (Wallet (what ++ e))) | inr signature => mret signature end).

(** * The process-wide ledger *)

Definition NOT_INITIALISED : str := lit "x402 payment ledger not initialized".

(** [with_ledger] reads a snapshot; [with_ledger_mut] is one call of the ledger. *)
Definition with_ledger {A} (f : PaymentLedger -> A) : program said str A :=
  Ask ReadLedger (fun l => match l with Some l => Done (Ok (f l)) | None => Done (Err NOT_INITIALISED) end).

Definition initialised {A} (r : option A) : program said str A := lift (ok_or r NOT_INITIALISED).

(** A budget hold; [r_id] is [None] once the hold has become a record. *)
Record Reservation := mkReservation { r_id : option Z; r_amount : Z }.

Definition reserve (amount : Z) : program said str (Reservation + BudgetRefusal) :=
  Ask (ReserveBudget amount) (fun r =>
    held ← initialised r;
    match held with
    | inl e => Done (Err e)
    | inr (inl id) => mret (inl (mkReservation (Some id) amount))
    | inr (inr refusal) => mret (inr refusal)
    end).

(** [Drop for Reservation]: whatever comes of it. *)
Definition drop_reservation {E} (r : Reservation) : program said E unit :=
  match r_id r with Some id => Ask (ReleaseHold id) (fun _ => mret tt) | None => mret tt end.

(** [commit_durable] consumes the reservation: on failure it is dropped. *)
Definition commit_durable (r : Reservation) (record : PaymentRecord) : program said str unit :=
  match r_id r with
  | None => mret tt
  | Some id =>
      Ask (CommitHold id record) (fun committed =>
        match committed with
        | Some (inr _) => mret tt
        | Some (inl e) => _ ← drop_reservation r; Done (Err e)
        | None => _ ← drop_reservation r; Done (Err NOT_INITIALISED)
        end)
  end.

(** A reservation alive while [p] runs: dropped when [p] fails or unwinds. *)
Fixpoint holding {E A} (r : Reservation) (p : program said E A) : program said E A :=
  match p with
  | Done (Ok a) => Done (Ok a)
  | Done stopped => match r_id r with Some id => Ask (ReleaseHold id) (fun _ => Done stopped) | None => Done stopped end
  | Ask q k => Ask q (fun a => holding r (k a))
  end.

(** * Nodes *)

(** [Display] of networks and transport errors. *)
Definition NetworkId_text (n : NetworkId) : str :=
  match net_evm_chain_id n with
  | Some id => Chain_as_str (net_chain n) ++ lit ":" ++ show_dec id
  | None => Chain_as_str (net_chain n)
  end.

Definition TransportError_text (e : TransportError) : str :=
  match e with
  | Unreachable network message => lit "transport failure contacting " ++ NetworkId_text network ++ lit ": " ++ message
  | RpcError network message => NetworkId_text network ++ lit " returned an error: " ++ message
  end.

(** [rpc::decode]. *)
Definition rpc_decode {T} `{Deserialize T} (network : NetworkId) (method : str) (value : Json) : TransportError + T :=
  match from_value value with
  | inl e => inl (RpcError network (method ++ lit ": unexpected response shape: " ++ e))
  | inr t => inr t
  end.

(** A call whose failure, of the node or of its answer's shape, is told with
    [what]. *)
Definition node_call {T} `{Deserialize T} (network : NetworkId) (method : str) (params : Json) (what : str) : pay T :=
  Ask (ChainRpc network method params) (fun r =>
    match r with
    | inl e => Done (Err (Wallet (what ++ TransportError_text e)))
    | inr value =>
        match rpc_decode network method value with
        | inl e => Done (Err (Wallet (what ++ TransportError_text e)))
        | inr t => mret t
        end
    end).
End Calls.

(** * A concrete HTTP library *)

(** Headers are their entries, in insertion order; a value is its text. *)
Definition toy_http : HttpLib := {|
  HeaderMap := list (str * str);
  HeaderValue := str;
  HttpRequest := list (str * str);
  HttpResponse := Z * list (str * str);
  empty_headers := [];
  header_get m k := snd <$> find_first (fun '(k', _) => eq_ignore_case k' k) m;
  header_insert m k v := (k, v) :: List.filter (fun '(k', _) => negb (eq_ignore_case k' k)) m;
  header_to_str v := inr v;
  header_from_str s := inr s;
  try_clone r := Some r;
  request_insert r k v := (k, v) :: List.filter (fun '(k', _) => negb (eq_ignore_case k' k)) r;
  response_status r := r.1;
  response_headers r := r.2
|}.

Lemma toy_http_laws : HttpLaws (H := toy_http).
Proof. constructor. intros m k k' v Hk. cbn. rewrite Hk. reflexivity. Qed.
