(* ===== verification/HostPort.v ===== *)
(** The module's way to its host
    ([crates/tinywallet-module/src/service/host.rs], [web3.rs] and
    [native_wallet.rs]; [crates/tinywallet-bus/src/wire/host.rs] and
    [wallet.rs]): the callbacks it may make, the transport and the endpoints it
    gives the wallet engine, and the programs that make callbacks.

    A callback is a request; what the bus answers is an error's text or a
    [HostResponse].  The response is written to JSON and read back as the type
    the caller expects: serde's part is the class [HostSerde].  The engine's own
    quote stores and clock stay requests too, since calls of the module that
    overlap share them. *)

From stdpp Require Import base list strings numbers countable gmap.
From S2P Require Import Prelude Program Text Chain Codec Addr Json Wire Quotes Assets X402Wire Host NoPanic PayHost.

(** * The wire *)

Record NetworkRequest := mkNetworkRequest {
  nr_chain : Chain;
  nr_evm_chain_id : option Z;
  endpoint_ref : option str;
  endpoint_url : option str
}.

Inductive ChainTransportRequest :=
  | TransportJsonRpc (network : NetworkRequest) (method : str) (params : Json)
  | TransportRestGet (network : NetworkRequest) (path : str)
  | TransportRestPost (network : NetworkRequest) (path body content_type : str).

Inductive ChainTransportResult :=
  | TransportOk (body : Json)
  | TransportUnreachable (message : str)
  | TransportRpcError (message : str).

Inductive WalletBackendRequest :=
  | BackendRoutes
  | BackendSwap (body : Json)
  | BackendBridge (body : Json).

Record WalletBackendResponse := mkBackendResponse { data : Json }.

Record WalletAccountInfo := mkAccountFacts { wi_chain : Chain; wi_address : str; wi_derivation_path : str }.
Record WalletAccountsResponse := mkAccountsResponse { wr_configured : bool; wr_accounts : list WalletAccountInfo }.

Inductive Web3ExecutionIntent :=
  | Web3IntentEvm (network to : str) (data : option str) (value : str) (nonce gas_limit : Z) (gas_price_wei : str) (chain_id : Z)
  | Web3IntentSolana (tx_blob_hex : str).

Record AuthorizeWeb3ExecutionRequest := mkAuthorizeWeb3 {
  aw_quote_id : str;
  aw_operation : str;
  aw_transaction : Web3ExecutionIntent
}.

Inductive NativeWalletExecutionIntent :=
  | NativeIntentTransaction (transaction : TransactionSpec)
  | NativeIntentMessage (message_hex : str).

Record AuthorizeNativeWalletExecutionRequest := mkAuthorizeNative {
  an_quote_id : str;
  an_operation : str;
  an_quote : PreparedTransaction;
  an_intent : NativeWalletExecutionIntent
}.

Inductive HostResponse :=
  | HostAccountsResponse (r : WalletAccountsResponse)
  | HostAuthorization (r : AuthorizationResult)
  | HostChainTransport (r : ChainTransportResult)
  | HostBackend (r : WalletBackendResponse).

(** * Endpoints *)

Inductive RpcEndpointKey := KeyEvm (network : EvmNetwork) | KeyBtc | KeySolana | KeyTron.
#[export] Instance RpcEndpointKey_eq_dec : EqDecision RpcEndpointKey.
Proof. solve_decision. Defined.

Definition key_code (k : RpcEndpointKey) : nat :=
  match k with
  | KeyEvm EthereumMainnet => 0 | KeyEvm BaseMainnet => 1 | KeyEvm ArbitrumOne => 2
  | KeyEvm OptimismMainnet => 3 | KeyEvm PolygonMainnet => 4 | KeyEvm BscMainnet => 5
  | KeyBtc => 6 | KeySolana => 7 | KeyTron => 8
  end.
Definition key_of_code (n : nat) : RpcEndpointKey :=
  nth n [KeyEvm EthereumMainnet; KeyEvm BaseMainnet; KeyEvm ArbitrumOne; KeyEvm OptimismMainnet; KeyEvm PolygonMainnet;
         KeyEvm BscMainnet; KeyBtc; KeySolana; KeyTron] KeyTron.
#[export] Program Instance RpcEndpointKey_countable : Countable RpcEndpointKey := inj_countable' key_code key_of_code _.
Next Obligation. intros [[]| | |]; reflexivity. Qed.

Record HostEndpointReference := mkEndpointReference { er_key : RpcEndpointKey; er_reference : str }.

(** [Web3ConfigureRequest] and [NativeWalletConfigRequest] have the same fields. *)
Record Web3ConfigureRequest := mkWeb3Configure { wc_cluster : SolanaCluster; wc_overridden : list RpcEndpointKey }.
Record NativeWalletConfigRequest := mkNativeConfig { nc_cluster : SolanaCluster; nc_overridden : list RpcEndpointKey }.

(** [ConfiguredEndpoints::endpoint_key] and [key]. *)
Definition endpoint_key (chain : WalletChain) (network : option EvmNetwork) : RpcEndpointKey :=
  match chain with
  | WEvm => KeyEvm (default EthereumMainnet network)
  | WBtc => KeyBtc
  | WSolana => KeySolana
  | WTron => KeyTron
  end.

(** The trait [RpcEndpoints]. *)
Record RpcEndpoints := mkEndpoints {
  ep_url : WalletChain -> option EvmNetwork -> str;
  ep_source : WalletChain -> option EvmNetwork -> RpcSource;
  ep_ref : WalletChain -> option EvmNetwork -> option str;
  ep_cluster : SolanaCluster
}.

Definition builtin_url (cluster : SolanaCluster) (chain : WalletChain) (network : option EvmNetwork) : str :=
  match chain with
  | WEvm => default_rpc_url_for_evm (default EthereumMainnet network)
  | other => engine_default_rpc_url other cluster
  end.

Definition DefaultEndpoints : RpcEndpoints := {|
  ep_url := builtin_url ClusterMainnet;
  ep_source _ _ := SourceDefault;
  ep_ref _ _ := None;
  ep_cluster := ClusterMainnet
|}.

Record ConfiguredEndpoints := mkConfigured { cluster : SolanaCluster; references : gmap RpcEndpointKey str }.

Definition configured_ref (c : ConfiguredEndpoints) (chain : WalletChain) (network : option EvmNetwork) : option str :=
  references c !! endpoint_key chain network.
Definition configured_source (c : ConfiguredEndpoints) (chain : WalletChain) (network : option EvmNetwork) : RpcSource :=
  if bool_decide (is_Some (configured_ref c chain network)) then SourceEnvOverride else SourceDefault.

(** The swap service's endpoints: a URL is always a public one. *)
Definition web3_endpoints (c : ConfiguredEndpoints) : RpcEndpoints := {|
  ep_url := builtin_url (cluster c);
  ep_source := configured_source c;
  ep_ref := configured_ref c;
  ep_cluster := cluster c
|}.

(** The native wallet's: an override's reference stands for its URL. *)
Definition native_endpoints (c : ConfiguredEndpoints) : RpcEndpoints := {|
  ep_url chain network := default (builtin_url (cluster c) chain network) (configured_ref c chain network);
  ep_source := configured_source c;
  ep_ref := configured_ref c;
  ep_cluster := cluster c
|}.

(** [network_request]: where a request of the engine goes.  Every chain of this
    build is a wallet chain. *)
Definition wallet_chain_of (c : Chain) : WalletChain :=
  match c with Evm => WEvm | Btc => WBtc | Solana => WSolana | Tron => WTron end.

Definition evm_network_of_id (id : Z) : option EvmNetwork :=
  find_first (fun n => EvmNetwork_chain_id n =? id) EvmNetwork_ALL.

Definition network_request (network : NetworkId) (endpoints : option RpcEndpoints) : NetworkRequest :=
  let wallet_chain := wallet_chain_of (net_chain network) in
  let evm_network := net_evm_chain_id network ≫= evm_network_of_id in
  let endpoint_ref := endpoints ≫= fun e => ep_ref e wallet_chain evm_network in
  let endpoint_url :=
    match endpoint_ref with
    | None => Some (ep_url (default DefaultEndpoints endpoints) wallet_chain evm_network)
    | Some _ => None
    end in
  mkNetworkRequest (to_chain wallet_chain) (net_evm_chain_id network) endpoint_ref endpoint_url.

(** * Callbacks *)

Inductive callback :=
  | WalletBackend (r : WalletBackendRequest)
  | WalletAccounts
  | ChainTransport (r : ChainTransportRequest)
  | AuthorizeWeb3Execution (r : AuthorizeWeb3ExecutionRequest)
  | AuthorizeNativeWalletExecution (r : AuthorizeNativeWalletExecutionRequest)
  | AuthorizeX402Payment (r : AuthorizeX402PaymentRequest).

Definition member (c : callback) : str :=
  match c with
  | WalletBackend _ => lit "WalletBackend"
  | WalletAccounts => lit "WalletAccounts"
  | ChainTransport _ => lit "ChainTransport"
  | AuthorizeWeb3Execution _ => lit "AuthorizeWeb3Execution"
  | AuthorizeNativeWalletExecution _ => lit "AuthorizeNativeWalletExecution"
  | AuthorizeX402Payment _ => lit "AuthorizeX402Payment"
  end.

(** What each callback is to be answered with. *)
Definition Reply (c : callback) : Type :=
  match c with
  | WalletBackend _ => WalletBackendResponse
  | WalletAccounts => WalletAccountsResponse
  | ChainTransport _ => ChainTransportResult
  | _ => AuthorizationResult
  end.

(** The module's requests: a callback; the engine's quote stores, ids and clock;
    reading a stored quote; a random UUID. *)
Inductive call :=
  | Callback (c : callback)
  | Engine (q : request)
  | LookupQuote (id : str) (owner : option QuoteOwner)
  | LookupWeb3 (id : str) (owner : option QuoteOwner)
  | NewUuid.

Definition returned (q : call) : Type :=
  match q with
  | Callback _ => str + HostResponse
  | Engine q => answer q
  | LookupQuote _ _ => str + PreparedTransaction
  | LookupWeb3 _ _ => str + StoredQuote
  | NewUuid => str
  end.

(** [serde_json::to_value] and [from_value] of a reply, and [{:?}] of a response. *)
Class Recode (T : Type) := { to_json : T -> str + Json; of_json : Json -> str + T }.
Class HostSerde := {
  recode_backend :: Recode WalletBackendResponse;
  recode_accounts :: Recode WalletAccountsResponse;
  recode_transport :: Recode ChainTransportResult;
  recode_decision :: Recode AuthorizationResult;
  response_debug : HostResponse -> str
}.

(** A decision read back is the decision written. *)
Class HostSerdeLaws `{HostSerde} : Prop := {
  decision_recodes (d : AuthorizationResult) v d' : to_json d = inr v -> of_json v = inr d' -> d' = d
}.

Section Callbacks.
Context `{HostSerde}.

Abbreviation task := (program returned str).

Definition recoded {T} `{Recode T} (expected : str) (value : T) : res str T :=
  match to_json value with
  | inl e => Err (lit "encoding host callback response " ++ expected ++ lit ": " ++ e)
  | inr v =>
      match of_json v with
      | inl e => Err (lit "decoding host callback response " ++ expected ++ lit ": " ++ e)
      | inr t => Ok t
      end
  end.

(** [extract_response]. *)
Definition extract_response (c : callback) (response : HostResponse) : res str (Reply c) :=
  let wrong := lit "host callback " ++ member c ++ lit " returned the wrong response kind: " ++ response_debug response in
  match c as c return res str (Reply c) with
  | WalletBackend _ => match response with HostBackend v => recoded (member c) v | _ => Err wrong end
  | WalletAccounts => match response with HostAccountsResponse v => recoded (member c) v | _ => Err wrong end
  | ChainTransport _ => match response with HostChainTransport v => recoded (member c) v | _ => Err wrong end
  | AuthorizeWeb3Execution _ | AuthorizeNativeWalletExecution _ | AuthorizeX402Payment _ =>
      match response with HostAuthorization v => recoded (member c) v | _ => Err wrong end
  end.

(** [HostCallbacks::call]. *)
Definition host_call (c : callback) : task (Reply c) :=
  Ask (Callback c) (fun r =>
    match r with inl e => Done (Err e) | inr response => lift (extract_response c response) end).

(** A result as the seam hands it on: an error is its text. *)
Definition surfaced {A} (p : task A) : task (str + A) :=
  r ← attempt p;
  match r with Ok a => mret (inr a) | Err e => mret (inl e) | Panic => Done Panic end.

(** * Transport *)

(** [HostTransport::call]: a callback that fails did not reach the chain. *)
Definition transport_call {A} (network : NetworkId) (q : ChainTransportRequest) (read : ChainTransportResult -> TransportError + A)
  : task (TransportError + A) :=
  r ← surfaced (host_call (ChainTransport q));
  mret (match r with inl message => inl (Unreachable network message) | inr result => read result end).

Definition json_result (network : NetworkId) (result : ChainTransportResult) : TransportError + Json :=
  match result with
  | TransportOk body => inr body
  | TransportUnreachable message => inl (Unreachable network message)
  | TransportRpcError message => inl (RpcError network message)
  end.

Definition rest_result `{JsonPrinter} (network : NetworkId) (result : ChainTransportResult) : TransportError + str :=
  match result with
  | TransportOk (JStr body) => inr body
  | TransportOk body => inl (RpcError network (lit "REST provider returned a non-string body: " ++ json_text body))
  | TransportUnreachable message => inl (Unreachable network message)
  | TransportRpcError message => inl (RpcError network message)
  end.

Definition host_json_rpc (endpoints : option RpcEndpoints) (network : NetworkId) (method : str) (params : Json)
  : task (TransportError + Json) :=
  transport_call network (TransportJsonRpc (network_request network endpoints) method params) (json_result network).

Definition host_rest_get `{JsonPrinter} (endpoints : option RpcEndpoints) (network : NetworkId) (path : str)
  : task (TransportError + str) :=
  transport_call network (TransportRestGet (network_request network endpoints) path) (rest_result network).

Definition host_rest_post `{JsonPrinter} (endpoints : option RpcEndpoints) (network : NetworkId) (path body content_type : str)
  : task (TransportError + str) :=
  transport_call network (TransportRestPost (network_request network endpoints) path body content_type) (rest_result network).

(** * Accounts and the backend *)

Definition wallet_account (a : WalletAccountInfo) : WalletAccount :=
  mkWalletAccount (wallet_chain_of (wi_chain a)) (wi_address a) (wi_derivation_path a).

Definition host_status : task WalletStatus :=
  response ← host_call WalletAccounts;
  mret (mkWalletStatus (wr_configured response) (wr_configured response) false (wr_configured response) None None
          (wallet_account <$> wr_accounts response) None).

Definition backend (r : WalletBackendRequest) : task Json :=
  response ← host_call (WalletBackend r);
  mret (data response).

(** * Opening a service's endpoints *)

(** [ConfiguredEndpoints::new]: a reference per overridden key, drawn before the
    key is looked at. *)
Fixpoint draw_references (keys : list RpcEndpointKey) (known : gmap RpcEndpointKey str) : task (gmap RpcEndpointKey str) :=
  match keys with
  | [] => mret known
  | key :: rest =>
      Ask NewUuid (fun reference =>
        if bool_decide (is_Some (known !! key)) then Done (Err (lit "Web3 endpoint configuration contains a duplicate key"))
        else draw_references rest (<[key := reference]> known))
  end.

(** [references]: a map's entries, in its own order. *)
Definition advertised (references : gmap RpcEndpointKey str) : list HostEndpointReference :=
  (fun '(key, reference) => mkEndpointReference key reference) <$> map_to_list references.

(** [NativeWalletRuntime::new]: a duplicate draws nothing, and the references are
    told in the order asked. *)
Fixpoint draw_native (keys : list RpcEndpointKey) (known : gmap RpcEndpointKey str) (told : list HostEndpointReference)
  : task (gmap RpcEndpointKey str * list HostEndpointReference) :=
  match keys with
  | [] => mret (known, told)
  | key :: rest =>
      if bool_decide (is_Some (known !! key)) then Done (Err (lit "native wallet endpoint keys must be unique"))
      else Ask NewUuid (fun reference =>
             draw_native rest (<[key := reference]> known) (told ++ [mkEndpointReference key reference]))
  end.
End Callbacks.

(** * Where a request goes *)

(** The engine's own networks keep their endpoint key. *)
Lemma network_key chain network :
  endpoint_key (wallet_chain_of (net_chain (Host.network_id chain network)))
    (net_evm_chain_id (Host.network_id chain network) ≫= evm_network_of_id) = endpoint_key chain network /\
  (forall cl, builtin_url cl (wallet_chain_of (net_chain (Host.network_id chain network)))
    (net_evm_chain_id (Host.network_id chain network) ≫= evm_network_of_id) = builtin_url cl chain network).
Proof.
  destruct chain, network as [[]|]; split; reflexivity.
Qed.

(** ** Drawing references *)

(** What a configuration draws: a reference per key, in order, for keys that are
    all different and new. *)
Definition drawn (refs : list str) : list (event_of returned) := (fun r => @Event call returned NewUuid r) <$> refs.

Definition configured_as (keys : list RpcEndpointKey) (refs : list str) (known m : gmap RpcEndpointKey str) : Prop :=
  length refs = length keys /\ NoDup keys /\ (forall k, k ∈ keys -> known !! k = None) /\
  m = list_to_map (zip keys refs) ∪ known.

Definition clashes (keys : list RpcEndpointKey) (known : gmap RpcEndpointKey str) : Prop :=
  ~ NoDup keys \/ exists k, k ∈ keys /\ is_Some (known !! k).

Lemma configured_nil known : configured_as [] [] known known.
Proof. split_and!; [reflexivity | constructor | intros k Hk; inversion Hk | cbn; rewrite (left_id_L ∅ (∪)); reflexivity]. Qed.

Lemma configured_cons key ref keys refs known m :
  known !! key = None -> configured_as keys refs (<[key := ref]> known) m -> configured_as (key :: keys) (ref :: refs) known m.
Proof.
  intros Hk (Hl & Hn & Hfresh & ->).
  assert (Hni : key ∉ keys) by (intros Hin; apply Hfresh in Hin; rewrite lookup_insert_eq in Hin; discriminate).
  split_and!; [cbn; congruence | constructor; assumption | | ].
  - intros k [->|Hin]%elem_of_cons; [exact Hk|]. apply Hfresh, lookup_insert_None in Hin. apply Hin.
  - cbn. apply map_eq. intros k. rewrite !lookup_union. destruct (decide (k = key)) as [->|Hne].
    + rewrite !lookup_insert_eq, not_elem_of_list_to_map_1; [rewrite Hk; reflexivity|]. rewrite fst_zip by lia. exact Hni.
    + rewrite !lookup_insert_ne by congruence. reflexivity.
Qed.

Lemma clashes_cons key ref keys known : known !! key = None -> clashes keys (<[key := ref]> known) -> clashes (key :: keys) known.
Proof.
  intros Hk [Hn|(k & Hin & Hsome)]; [left; intros Hnd; apply NoDup_cons in Hnd as [_ Hnd]; exact (Hn Hnd)|].
  destruct (decide (k = key)) as [->|Hne].
  - left. intros Hnd. apply NoDup_cons in Hnd as [Hni _]. exact (Hni Hin).
  - right. exists k. split; [right; exact Hin|]. rewrite lookup_insert_ne in Hsome by congruence. exact Hsome.
Qed.

Lemma draw_references_runs keys : forall known evs r,
  runs (draw_references keys known) evs r ->
  match r with
  | Ok m => exists refs, evs = drawn refs /\ configured_as keys refs known m
  | Err _ => clashes keys known
  | Panic => False
  end.
Proof.
  induction keys as [|key keys IH]; intros known evs r; cbn [draw_references].
  - intros [-> ->]. exists []. split; [reflexivity | apply configured_nil].
  - intros (ref & evs' & -> & Hr). case_bool_decide as Hk; cbn in Hr.
    + destruct Hr as [-> ->]. right. exists key. split; [left | exact Hk].
    + apply IH in Hr. rewrite <- eq_None_not_Some in Hk. destruct r as [m|e|]; [| |exact Hr].
      * destruct Hr as (refs & -> & Hc). exists (ref :: refs). split; [reflexivity | exact (configured_cons _ _ _ _ _ _ Hk Hc)].
      * exact (clashes_cons _ _ _ _ Hk Hr).
Qed.

Lemma draw_native_runs keys : forall known told evs r,
  runs (draw_native keys known told) evs r ->
  match r with
  | Ok (m, told') => exists refs, evs = drawn refs /\ configured_as keys refs known m /\
                       told' = told ++ zip_with mkEndpointReference keys refs
  | Err _ => clashes keys known
  | Panic => False
  end.
Proof.
  induction keys as [|key keys IH]; intros known told evs r; cbn [draw_native].
  - intros [-> ->]. exists []. split_and!; [reflexivity | apply configured_nil | cbn; rewrite app_nil_r; reflexivity].
  - case_bool_decide as Hk.
    + intros [-> ->]. right. exists key. split; [left | exact Hk].
    + intros (ref & evs' & -> & Hr). apply IH in Hr. rewrite <- eq_None_not_Some in Hk. destruct r as [[m told']|e|]; [| |exact Hr].
      * destruct Hr as (refs & -> & Hc & ->). exists (ref :: refs).
        split_and!; [reflexivity | exact (configured_cons _ _ _ _ _ _ Hk Hc) | rewrite <- app_assoc; reflexivity].
      * exact (clashes_cons _ _ _ _ Hk Hr).
Qed.

(** ** Routing *)

(** Where a request on a network goes: to the reference of its own key, or to the
    public endpoint; never to both. *)
Definition routed (keys : list RpcEndpointKey) (refs : list str) (c : ConfiguredEndpoints) (chain : WalletChain)
    (network : option EvmNetwork) (q : NetworkRequest) : Prop :=
  (exists i key ref, keys !! i = Some key /\ refs !! i = Some ref /\ key = endpoint_key chain network /\
     endpoint_ref q = Some ref /\ endpoint_url q = None)
  \/ (endpoint_key chain network ∉ keys) /\ endpoint_ref q = None /\
     endpoint_url q = Some (builtin_url (cluster c) chain network).

Lemma zip_found (keys : list RpcEndpointKey) (refs : list str) k v :
  NoDup keys -> length refs = length keys ->
  (list_to_map (zip keys refs) : gmap RpcEndpointKey str) !! k = Some v ->
  exists i, keys !! i = Some k /\ refs !! i = Some v.
Proof.
  intros Hn Hl Hk. apply elem_of_list_to_map_2, list_elem_of_lookup in Hk as [i Hi]. rewrite lookup_zip_with in Hi.
  exists i. destruct (keys !! i), (refs !! i); cbn in Hi; try discriminate. injection Hi as -> ->. split; reflexivity.
Qed.

Lemma zip_missing (keys : list RpcEndpointKey) (refs : list str) k :
  length refs = length keys ->
  (list_to_map (zip keys refs) : gmap RpcEndpointKey str) !! k = None -> k ∉ keys.
Proof. intros Hl Hk. apply not_elem_of_list_to_map in Hk. rewrite fst_zip in Hk by lia. exact Hk. Qed.

Lemma configured_routed keys refs m cl chain network (endpoints : ConfiguredEndpoints -> RpcEndpoints) :
  configured_as keys refs ∅ m ->
  ep_ref (endpoints (mkConfigured cl m)) = configured_ref (mkConfigured cl m) ->
  (forall ch n, configured_ref (mkConfigured cl m) ch n = None -> ep_url (endpoints (mkConfigured cl m)) ch n = builtin_url cl ch n) ->
  routed keys refs (mkConfigured cl m) chain network
    (network_request (Host.network_id chain network) (Some (endpoints (mkConfigured cl m)))).
Proof.
  intros (Hl & Hn & _ & ->) Href Hurl. rewrite (right_id_L ∅ (∪)) in *.
  pose proof (network_key chain network) as [Hkey Hb]. unfold routed, network_request. cbn [mbind option_bind default from_option id].
  rewrite Href.
  set (ch := wallet_chain_of _) in *. set (n := net_evm_chain_id _ ≫= _) in *. cbn -[endpoint_key builtin_url].
  destruct (configured_ref _ ch n) as [v|] eqn:Hv.
  - left. unfold configured_ref in Hv. rewrite Hkey in Hv. apply zip_found in Hv as (i & Hi & Hr); [|assumption..].
    exists i, (endpoint_key chain network), v. split_and!; solve [assumption | reflexivity].
  - right. rewrite (Hurl _ _ Hv), Hb. unfold configured_ref in Hv. rewrite Hkey in Hv.
    split_and!; [exact (zip_missing _ _ _ Hl Hv) | reflexivity | reflexivity].
Qed.

(** What the engine needs of a native wallet's URL, which is its reference. *)
Lemma native_url cl m ch n :
  configured_ref (mkConfigured cl m) ch n = None -> ep_url (native_endpoints (mkConfigured cl m)) ch n = builtin_url cl ch n.
Proof. cbn. intros ->. reflexivity. Qed.
