(* ===== verification/Runtime.v ===== *)
(** The module's wallet runtime: the engine and the swap service run over the
    host ([crates/tinywallet-module/src/service/web3.rs], [native_wallet.rs] and
    the members of [mod.rs] that use them).

    [serve_seam] answers a request of the engine with the module's own code: its
    signer, which asks the host's approval and uses the call's one secret, its
    transport, accounts and endpoints.  A member of the bus interface runs an
    engine program under it ([interp]).  Shown: whatever host, nodes and stores
    answer, what is signed was approved in exactly those terms and for the quote
    that was looked up, and at most one thing is signed per call. *)

From stdpp Require Import base list strings numbers gmap.
From S2P Require Import Prelude Program Text Chain Codec Base58 Addr Proto Rlp EvmTx BtcTx TronTx Json Wire Quotes Assets X402Wire.
From S2P Require Import Eip712 SolWire Host NoPanic Engine Signing Transfer Service Queries Keys Signer PayHost HostPort.

Abbreviation task := (program returned str).
Abbreviation bus := (program returned BusError).
Abbreviation mevent := (event_of returned).
Abbreviation Mev := (@Event call returned).

(** * What a call carries *)

(** The [ACTIVE_SECRET] of a task: [None] outside a confirmed execution, empty
    once taken.  Its lock is never poisoned: what holds it cannot panic. *)
Abbreviation Slot := (option (option SecretMaterial)).

Record Web3ApprovalContext := mkWeb3Approval {
  wa_quote_id : str;
  wa_operation : str;
  solana_intent : option Web3ExecutionIntent
}.

(** A task's locals, and the endpoints of its service; an approval that is not
    there is [None]. *)
Record Scope := mkScope {
  sc_endpoints : RpcEndpoints;
  sc_owner : option QuoteOwner;
  sc_web3 : option Web3ApprovalContext;
  sc_native : option PreparedTransaction
}.

Definition take_secret (slot : Slot) : Slot * res str SecretMaterial :=
  match slot with
  | None => (slot, Err (lit "wallet secret is unavailable outside a confirmed execution"))
  | Some None => (slot, Err (lit "wallet secret was already consumed"))
  | Some (Some secret) => (Some None, Ok secret)
  end.

Definition clone_secret (slot : Slot) : res str SecretMaterial :=
  match slot with
  | None => Err (lit "wallet secret is unavailable outside a confidential payment")
  | Some None => Err (lit "wallet secret was already consumed")
  | Some (Some secret) => Ok secret
  end.

(** What x402 signing clones: the secret of the chain the challenge selected. *)
Definition clone_x402_secret (slot : option (option (list SecretMaterial))) (chain : Chain) : res str SecretMaterial :=
  match slot with
  | None => Err (lit "x402 wallet secrets are unavailable outside a confidential payment")
  | Some None => Err (lit "x402 wallet secrets were already consumed")
  | Some (Some secrets) =>
      ok_or (find_first (fun s => bool_decide (sm_chain s = chain)) secrets)
        (lit "x402 wallet secret does not match the selected payment chain")
  end.

Definition NOT_APPROVED : str := lit "wallet transaction was not approved".

(** * The signer *)

Section Signing.
Context `{Codecs, BitcoinLib, Secp256k1, SecpPublic, Ed25519Lib, Bip39, Bip32, KeyHashes, HostSerde}.

(** An approval asked: a refusal is an error. *)
Definition allowed (d : AuthorizationResult) : task unit :=
  if approved d then mret tt else Done (Err (default NOT_APPROVED (reason d))).

(** The host is shown the stored quote and exactly what is to be signed. *)
Definition approve_native (native : option PreparedTransaction) (intent : NativeWalletExecutionIntent) : task unit :=
  match native with
  | None => mret tt
  | Some quote =>
      d ← host_call (AuthorizeNativeWalletExecution (mkAuthorizeNative (pt_quote_id quote) (lit "transfer") quote intent));
      allowed d
  end.

Definition evm_intent (t : TransactionSpec) : option Web3ExecutionIntent :=
  match t with
  | SpecEvm to value_wei data_hex nonce gas_limit gas_price_wei chain_id =>
      Some (Web3IntentEvm (lit "eip155:" ++ show_dec chain_id) to (Some data_hex) value_wei nonce gas_limit gas_price_wei chain_id)
  | _ => None
  end.

Definition approve_web3 (scope : Scope) (chain : WalletChain) (t : TransactionSpec) : task unit :=
  if bool_decide (chain = WEvm) && negb (bool_decide (is_Some (sc_native scope))) then
    approval ← lift (ok_or (sc_web3 scope) (lit "EVM quote approval context is unavailable"));
    intent ← lift (ok_or (evm_intent t) (lit "EVM signer received a non-EVM transaction"));
    d ← host_call (AuthorizeWeb3Execution (mkAuthorizeWeb3 (wa_quote_id approval) (wa_operation approval) intent));
    allowed d
  else mret tt.

(** The call's secret is taken, even when it turns out to be for another chain. *)
Definition with_secret {A} (slot : Slot) (chain : WalletChain) (use : SecretMaterial -> res Failure A) : task (Slot * (str + A)) :=
  match take_secret slot with
  | (slot, Ok secret) =>
      if negb (bool_decide (sm_chain secret = to_chain chain))
      then mret (slot, inl (lit "wallet secret chain does not match the requested signing chain"))
      else match use secret with
           | Ok a => mret (slot, inr a)
           | Err e => mret (slot, inl (failure_message e))
           | Panic => Done Panic
           end
  | (slot, Err e) => mret (slot, inl e)
  | (_, Panic) => Done Panic
  end.

Definition module_derive_account (slot : Slot) : task (Slot * (str + DerivedAccount)) :=
  match clone_secret slot with
  | Ok secret =>
      match Signer.derive_account secret with
      | Ok a => mret (slot, inr a)
      | Err e => mret (slot, inl (failure_message e))
      | Panic => Done Panic
      end
  | Err e => mret (slot, inl e)
  | Panic => Done Panic
  end.

Definition module_sign_transaction (scope : Scope) (slot : Slot) (chain : WalletChain) (t : TransactionSpec)
  : task (Slot * (str + SignedTransaction)) :=
  decision ← surfaced (_ ← approve_native (sc_native scope) (NativeIntentTransaction t); approve_web3 scope chain t);
  match decision with
  | inl e => mret (slot, inl e)
  | inr _ => with_secret slot chain (fun secret => Signer.sign_transaction (mkSignRequest secret t))
  end.

Definition module_sign_message (scope : Scope) (slot : Slot) (chain : WalletChain) (message : list Z) (scheme : Scheme)
  : task (Slot * (str + Signature)) :=
  decision ← surfaced (approve_native (sc_native scope) (NativeIntentMessage (hex_string message)));
  match decision with
  | inl e => mret (slot, inl e)
  | inr _ => with_secret slot chain (fun secret => Signer.sign_message (mkSignMessage secret (hex_string message) scheme))
  end.
End Signing.

(** * The seams *)

Section Seams.
Context `{Codecs, BitcoinLib, Secp256k1, SecpPublic, Ed25519Lib, Bip39, Bip32, KeyHashes, HostSerde, JsonPrinter}.

(** A seam that leaves the secret alone. *)
Definition keeping {A} (slot : Slot) (p : task A) : task (Slot * A) :=
  a ← p; mret (slot, a).
(** One answered at once. *)
Definition at_once {A} (slot : Slot) (a : A) : task (Slot * A) := Done (Ok (slot, a)).

(** Each seam method, by the module's implementation; the quote stores and the
    clock are the engine's own. *)
Definition serve_seam (scope : Scope) (slot : Slot) (q : request) : task (Slot * answer q) :=
  match q as q return task (Slot * answer q) with
  | Status => keeping slot (surfaced host_status)
  | DeriveAccount _ => module_derive_account slot
  | SignTransaction chain t => module_sign_transaction scope slot chain t
  | SignMessage chain m scheme => module_sign_message scope slot chain m scheme
  | JsonRpc network method params => keeping slot (host_json_rpc (Some (sc_endpoints scope)) network method params)
  | RestGet network path => keeping slot (host_rest_get (Some (sc_endpoints scope)) network path)
  | RestPost network path body content_type =>
      keeping slot (host_rest_post (Some (sc_endpoints scope)) network path body content_type)
  | SolanaClusterOf => at_once slot (ep_cluster (sc_endpoints scope))
  | EndpointUrl chain network => at_once slot (ep_url (sc_endpoints scope) chain network)
  | EndpointSource chain network => at_once slot (ep_source (sc_endpoints scope) chain network)
  | CurrentOwner => at_once slot (sc_owner scope)
  | SwapTx body => keeping slot (surfaced (backend (BackendSwap body)))
  | BridgeTx body => keeping slot (surfaced (backend (BackendBridge body)))
  | own => Ask (Engine own) (fun a => at_once slot a)
  end.

(** An engine program run in a task. *)
Definition run_engine {A} (scope : Scope) (slot : Slot) (p : io A) : task A :=
  x ← interp (serve_seam scope) slot p;
  lift x.2.
End Seams.

(** * Bus errors *)

Definition failed (name : str) (message : str) : BusError := mkBusError (lit "ai.tinyhumans.tinywallet.Error." ++ name) message.
Definition host_unavailable : BusError :=
  failed (lit "HostUnavailable") (lit "wallet host callback interface is unavailable").
Definition host_call_failed : str -> BusError := failed (lit "HostCallFailed").
Definition invalid_input : str -> BusError := mkBusError INVALID_INPUT_ERROR.
Definition web3_operation_failed : str -> BusError := failed (lit "Web3OperationFailed").
Definition x402_operation_failed : str -> BusError := failed (lit "X402OperationFailed").
Definition native_wallet_operation_failed : str -> BusError := failed (lit "NativeWalletOperationFailed").

(** * The services *)

Record Web3Runtime := mkWeb3Runtime { w3_handle : str; w3_endpoints : RpcEndpoints }.
Record NativeWalletRuntime := mkNativeRuntime { nw_handle : str; nw_endpoints : RpcEndpoints }.

Definition require_web3_handle (r : Web3Runtime) (handle : str) : res str unit :=
  err_if (negb (bool_decide (handle = w3_handle r))) (lit "web3 service handle is unavailable").
Definition require_native_handle (r : NativeWalletRuntime) (handle : str) : res str unit :=
  err_if (negb (bool_decide (handle = nw_handle r))) (lit "native wallet service handle is unavailable").

(** A configured service, or the error of a member that needs one. *)
Definition active_web3 (active : option Web3Runtime) (handle : str) : bus Web3Runtime :=
  match active with
  | None => Done (Err host_unavailable)
  | Some r => _ ← lift (map_err web3_operation_failed (require_web3_handle r handle)); mret r
  end.
Definition active_native (active : option NativeWalletRuntime) (handle : str) : bus NativeWalletRuntime :=
  match active with
  | None => Done (Err host_unavailable)
  | Some r => _ ← lift (map_err native_wallet_operation_failed (require_native_handle r handle)); mret r
  end.

Record Web3QuoteRequest := mkWeb3QuoteRequest { wq_service : str; wq_owner : option QuoteOwner; wq_params : Json }.
Record Web3QuoteResponse := mkWeb3QuoteResponse {
  qr_quote_id : str;
  qr_kind : Web3QuoteKind;
  qr_expires_at_ms : Z;
  qr_signing_chain : WalletChain;
  qr_quote : Json
}.

(** [Web3ExecuteRequest] and [NativeWalletExecuteRequest] have the same fields. *)
Record ExecuteRequest := mkExecuteRequest {
  ex_service : str;
  ex_owner : option QuoteOwner;
  ex_quote_id : str;
  ex_confirmed : bool;
  ex_secret : SecretMaterial
}.

Record NativeWalletPrepareTransferRequest := mkNativePrepare {
  np_service : str;
  np_owner : option QuoteOwner;
  np_params : PrepareTransferParams
}.

Record NativeWalletTransactionRequest := mkNativeTransaction {
  nt_service : str;
  nt_chain : WalletChain;
  nt_evm_network : option EvmNetwork;
  nt_hash : str
}.

Definition quote_response (quote : Web3Quote) : Web3QuoteResponse :=
  mkWeb3QuoteResponse (wq_quote_id quote) (wq_kind quote) (wq_expires_at_ms quote) (wq_signing_chain quote) (wq_quote quote).

(** The operation-specific parameters, decoded by serde. *)
Class ParamSerde := {
  swap_params :: Deserialize SwapQuoteParams;
  bridge_params :: Deserialize BridgeQuoteParams;
  dapp_params :: Deserialize DappCallParams
}.

Section Members.
Context `{Codecs, Curve25519, Serde, Base64, SerdeReads}.
Context `{BitcoinLib, Secp256k1, SecpPublic, Ed25519Lib, Bip39, Bip32, KeyHashes, HostSerde, ParamSerde}.

(** ** Quotes *)

Definition web3_routes (active : option Web3Runtime) : bus Json :=
  match active with
  | None => Done (Err host_unavailable)
  | Some _ => with_err host_call_failed (backend BackendRoutes)
  end.

(** A quote operation runs with the request's owner and no secret. *)
Definition quoting (endpoints : RpcEndpoints) (owner : option QuoteOwner) : Scope := mkScope endpoints owner None None.

Definition web3_quote {P} `{Deserialize P} (flow : P -> io Web3Quote) (active : option Web3Runtime) (request : Web3QuoteRequest)
  : bus Web3QuoteResponse :=
  r ← active_web3 active (wq_service request);
  params ← lift (match from_value (wq_params request) with inl e => Err (invalid_input e) | inr p => Ok p end);
  quote ← with_err web3_operation_failed (run_engine (quoting (w3_endpoints r) (wq_owner request)) None (flow params));
  mret (quote_response quote).

Definition web3_swap_quote : option Web3Runtime -> Web3QuoteRequest -> bus Web3QuoteResponse := web3_quote quote_swap.
Definition web3_bridge_quote : option Web3Runtime -> Web3QuoteRequest -> bus Web3QuoteResponse := web3_quote quote_bridge.
Definition web3_dapp_quote : option Web3Runtime -> Web3QuoteRequest -> bus Web3QuoteResponse := web3_quote prepare_dapp_call.

Definition native_wallet_prepare_transfer (active : option NativeWalletRuntime) (request : NativeWalletPrepareTransferRequest)
  : bus PreparedTransaction :=
  r ← active_native active (np_service request);
  with_err native_wallet_operation_failed
    (run_engine (quoting (nw_endpoints r) (np_owner request)) None (prepare_transfer (np_params request))).

(** ** Executions *)

Definition operation_name (kind : Web3QuoteKind) : str :=
  match kind with Swap => lit "swap" | Bridge => lit "bridge" | DappCall => lit "dapp_call" end.

(** What is to be approved of a stored quote. *)
Definition approval_of (quote : StoredQuote) : Web3ApprovalContext :=
  mkWeb3Approval (sq_quote_id quote) (operation_name (sq_kind quote))
    (match sq_unsigned quote with UEvm _ _ _ _ => None | USolana blob => Some (Web3IntentSolana blob) end).

Definition execution_approval (id : str) (owner : option QuoteOwner) : task Web3ApprovalContext :=
  Ask (LookupWeb3 id owner) (fun found =>
    match found with
    | inl e => Done (Err e)
    | inr quote => mret (approval_of quote)
    end).

Definition AUTHORIZATION_DENIED : str -> BusError := failed (lit "AuthorizationDenied").

(** A Solana quote is approved before its execution, an EVM one by the signer. *)
Definition approve_solana (approval : Web3ApprovalContext) : bus unit :=
  match solana_intent approval with
  | Some (Web3IntentSolana _ as intent) =>
      d ← with_err host_call_failed
            (host_call (AuthorizeWeb3Execution (mkAuthorizeWeb3 (wa_quote_id approval) (wa_operation approval) intent)));
      if approved d then mret tt else Done (Err (AUTHORIZATION_DENIED (default NOT_APPROVED (reason d))))
  | _ => mret tt
  end.

Definition web3_execute (active : option Web3Runtime) (request : ExecuteRequest) : bus Web3ExecutionResult :=
  r ← active_web3 active (ex_service request);
  _ ← lift (err_if (negb (ex_confirmed request)) (invalid_input (lit "web3 execution requires confirmed: true")));
  approval ← with_err web3_operation_failed (execution_approval (ex_quote_id request) (ex_owner request));
  _ ← approve_solana approval;
  with_err web3_operation_failed
    (run_engine (mkScope (w3_endpoints r) (ex_owner request) (Some approval) None) (Some (Some (ex_secret request)))
       (execute_quote (mkExecuteQuote (ex_quote_id request) (ex_confirmed request)))).

Definition prepared_quote_for_owner (id : str) (owner : option QuoteOwner) : task PreparedTransaction :=
  Ask (LookupQuote id owner) (fun found => match found with inl e => Done (Err e) | inr quote => mret quote end).

Definition native_wallet_execute_prepared (active : option NativeWalletRuntime) (request : ExecuteRequest) : bus ExecutionResult :=
  r ← active_native active (ex_service request);
  _ ← lift (err_if (negb (ex_confirmed request)) (invalid_input (lit "native wallet execution requires confirmed: true")));
  quote ← with_err native_wallet_operation_failed (prepared_quote_for_owner (ex_quote_id request) (ex_owner request));
  with_err native_wallet_operation_failed
    (run_engine (mkScope (nw_endpoints r) (ex_owner request) None (Some quote)) (Some (Some (ex_secret request)))
       (execute_prepared (mkExecuteParams (ex_quote_id request) (ex_confirmed request)))).

(** ** Reads: no owner and no secret *)

Definition native_read {A} (active : option NativeWalletRuntime) (service : str) (p : io A) : bus A :=
  r ← active_native active service;
  with_err native_wallet_operation_failed (run_engine (quoting (nw_endpoints r) None) None p).

Definition native_wallet_network_defaults active service : bus (list WalletNetworkDefaults) := native_read active service network_defaults.
Definition native_wallet_supported_assets active service : bus (list SupportedAsset) := native_read active service supported_assets.
Definition native_wallet_chain_status active service : bus (list ChainStatus) := native_read active service chain_status.
Definition native_wallet_balances active service : bus (list BalanceInfo) := native_read active service balances.
Definition native_wallet_tx_status active request : bus TxStatusInfo :=
  native_read active (nt_service request) (tx_status (nt_chain request) (nt_evm_network request) (nt_hash request)).
Definition native_wallet_tx_receipt active request : bus TxReceiptInfo :=
  native_read active (nt_service request) (tx_receipt (nt_chain request) (nt_evm_network request) (nt_hash request)).
Definition native_wallet_lookup_tx active request : bus TxLookupInfo :=
  native_read active (nt_service request) (lookup_tx (nt_chain request) (nt_evm_network request) (nt_hash request)).
End Members.

(** * What a seam calls *)

(** The one call a seam makes, when it makes one. *)
Definition approval_call (scope : Scope) (chain : WalletChain) (intent : NativeWalletExecutionIntent) (t : option TransactionSpec)
  : option call :=
  match sc_native scope with
  | Some quote => Some (Callback (AuthorizeNativeWalletExecution (mkAuthorizeNative (pt_quote_id quote) (lit "transfer") quote intent)))
  | None =>
      if bool_decide (chain = WEvm) then
        approval ← sc_web3 scope;
        web3 ← t ≫= evm_intent;
        Some (Callback (AuthorizeWeb3Execution (mkAuthorizeWeb3 (wa_quote_id approval) (wa_operation approval) web3)))
      else None
  end.

Definition seam_call (scope : Scope) (q : request) : option call :=
  let to := fun network => network_request network (Some (sc_endpoints scope)) in
  match q with
  | Status => Some (Callback WalletAccounts)
  | SignTransaction chain t => approval_call scope chain (NativeIntentTransaction t) (Some t)
  | SignMessage chain m _ => approval_call scope chain (NativeIntentMessage (hex_string m)) None
  | JsonRpc network method params => Some (Callback (ChainTransport (TransportJsonRpc (to network) method params)))
  | RestGet network path => Some (Callback (ChainTransport (TransportRestGet (to network) path)))
  | RestPost network path body content_type =>
      Some (Callback (ChainTransport (TransportRestPost (to network) path body content_type)))
  | SwapTx body => Some (Callback (WalletBackend (BackendSwap body)))
  | BridgeTx body => Some (Callback (WalletBackend (BackendBridge body)))
  | DeriveAccount _ | SolanaClusterOf | EndpointUrl _ _ | EndpointSource _ _ | CurrentOwner => None
  | own => Some (Engine own)
  end.

(** The host said yes to [c]. *)
Definition granted (c : call) (evs : list mevent) : Prop :=
  exists d, approved d = true /\
    match c with
    | Callback cb => Mev (Callback cb) (inr (HostAuthorization d)) ∈ evs
    | _ => False
    end.

Section Facts.
Context `{Codecs, BitcoinLib, Secp256k1, SecpPublic, Ed25519Lib, Bip39, Bip32, KeyHashes, HostSerde, !HostSerdeLaws}.

(** One callback, and it passes only with the host's yes. *)
Definition approval_run (cb : callback) (evs : list mevent) (r : res str unit) : Prop :=
  (exists a, evs = [Mev (Callback cb) a]) /\ r <> Panic /\ (r = Ok tt -> granted (Callback cb) evs).

Lemma decision_run cb a evs r :
  (match a with
   | inl e => evs = [] /\ r = Err e
   | inr (HostAuthorization v) =>
       match recoded (member cb) v with
       | Ok d => runs (allowed d) evs r
       | Err e => evs = [] /\ r = Err e
       | Panic => evs = [] /\ r = Panic
       end
   | inr _ => evs = [] /\ exists e, r = Err e
   end) -> approval_run cb (Mev (Callback cb) a :: evs) r.
Proof.
  unfold approval_run, recoded. destruct a as [e|[v|v|v|v]]; try (intros [-> [e ->]]; split_and!; [eauto | discriminate..]);
    [intros [-> ->]; split_and!; [eauto | discriminate..]|].
  destruct (to_json v) as [e|j] eqn:Hj; [intros [-> ->]; split_and!; [eauto | discriminate..]|].
  destruct (of_json j) as [e|d] eqn:Hd; [intros [-> ->]; split_and!; [eauto | discriminate..]|].
  apply (decision_recodes v j d Hj) in Hd as ->. unfold allowed.
  destruct (approved v) eqn:Ha; intros [-> ->]; split_and!; try discriminate; eauto.
  intros _. exists v. split; [exact Ha | left].
Qed.

Ltac decision :=
  intros (a & evs' & -> & Hr); apply decision_run; destruct a as [e|[v|v|v|v]]; cbn in Hr; auto;
  try (destruct Hr as [-> ->]; eauto); destruct (recoded _ v); exact Hr.

Lemma web3_approval_runs rq evs r :
  runs (d ← host_call (AuthorizeWeb3Execution rq); allowed d) evs r -> approval_run (AuthorizeWeb3Execution rq) evs r.
Proof. decision. Qed.

Lemma native_approval_runs rq evs r :
  runs (d ← host_call (AuthorizeNativeWalletExecution rq); allowed d) evs r -> approval_run (AuthorizeNativeWalletExecution rq) evs r.
Proof. decision. Qed.

(** Inspecting an unpanicked part. *)
Lemma surfaced_runs {A} (p : task A) evs x : runs (surfaced p) evs x -> 
  exists r, runs p evs r /\ x = match r with Ok a => Ok (inr a) | Err e => Ok (inl e) | Panic => Panic end.
Proof.
  unfold surfaced. revert evs. induction p as [[a|e|]|q k IH]; intros evs; cbn.
  1-3: intros [-> ->]; eauto.
  intros (a & evs' & -> & Hr). destruct (IH a evs' Hr) as (r & Hr' & ->). eauto 6.
Qed.

Lemma approvals_run scope chain t evs r :
  runs (_ ← approve_native (sc_native scope) (NativeIntentTransaction t); approve_web3 scope chain t) evs r ->
  r <> Panic /\
  match approval_call scope chain (NativeIntentTransaction t) (Some t) with
  | Some c => (evs = [] \/ exists a, evs = [Mev c a]) /\ (r = Ok tt -> granted c evs)
  | None => evs = [] /\ (r = Ok tt -> chain <> WEvm)
  end.
Proof.
  unfold approval_call, approve_web3. destruct (sc_native scope) as [quote|]; cbn [approve_native].
  - intros Hr. apply runs_bind in Hr as [([] & e1 & e2 & -> & Hr1 & Hr2) | [(e & He & ->) | [Hp ->]]].
    + apply native_approval_runs in Hr1 as ((a & ->) & _ & Hg).
      rewrite (bool_decide_eq_true_2 (is_Some (Some quote))) in Hr2 by eauto. rewrite andb_false_r in Hr2. destruct Hr2 as [-> ->].
      rewrite app_nil_r. split; [discriminate|]. split; [eauto|]. intros _. apply Hg. reflexivity.
    + apply native_approval_runs in He as ((a & ->) & _ & Hg). split; [discriminate|].
      split; [eauto | discriminate].
    + apply native_approval_runs in Hp as (_ & Hn & _). congruence.
  - cbn [mbind io_bind io_then mret io_ret]. rewrite (bool_decide_eq_false_2 (is_Some (@None PreparedTransaction))) by apply is_Some_None.
    destruct (bool_decide_reflect (chain = WEvm)) as [Hc|Hc]; cbn [andb negb].
    2:{ intros [-> ->]. split; [discriminate|]. auto. }
    destruct (sc_web3 scope) as [approval|]; cbn [ok_or lift mbind io_bind io_then option_bind].
    2:{ intros [-> ->]. split; [discriminate|]. split; [reflexivity | discriminate]. }
    destruct (evm_intent t) as [web3|]; cbn [ok_or lift mbind io_bind io_then option_bind].
    2:{ intros [-> ->]. split; [discriminate|]. split; [reflexivity | discriminate]. }
    intros Hr. apply web3_approval_runs in Hr as ((a & ->) & Hn & Hg). split; [exact Hn|]. eauto.
Qed.

(** At most the call [oc]. *)
Definition at_most (oc : option call) (evs : list mevent) : Prop :=
  evs = [] \/ exists c a, oc = Some c /\ evs = [Mev c a].

Lemma with_secret_runs {A} slot chain (use : SecretMaterial -> res Failure A) evs x :
  runs (with_secret slot chain use) evs x ->
  evs = [] /\ forall slot' a, x = Ok (slot', inr a) ->
    exists secret, slot = Some (Some secret) /\ slot' = Some None /\ sm_chain secret = to_chain chain /\ use secret = Ok a.
Proof.
  unfold with_secret. destruct slot as [[secret|]|]; cbn [take_secret].
  2,3: intros [-> ->]; split; [reflexivity | discriminate].
  destruct (bool_decide_reflect (sm_chain secret = to_chain chain)) as [Hc|Hc]; cbn [negb];
    [|intros [-> ->]; split; [reflexivity | discriminate]].
  destruct (use secret) as [a|e|] eqn:Hu; intros [-> ->]; (split; [reflexivity|]); [|discriminate..].
  intros slot' a' [= <- <-]. exists secret. auto.
Qed.

Lemma sign_transaction_runs scope slot chain t evs x :
  runs (module_sign_transaction scope slot chain t) evs x ->
  at_most (seam_call scope (SignTransaction chain t)) evs /\
  forall slot' signed, x = Ok (slot', inr signed) ->
    (exists secret, slot = Some (Some secret) /\ slot' = Some None /\ sm_chain secret = to_chain chain /\
       Signer.sign_transaction (mkSignRequest secret t) = Ok signed) /\
    match seam_call scope (SignTransaction chain t) with Some c => granted c evs | None => chain <> WEvm end.
Proof.
  unfold module_sign_transaction, at_most. cbn [seam_call]. intros Hr.
  apply runs_bind in Hr as [(d & e1 & e2 & -> & Hd & Hs) | [(e & He & ->) | [Hp ->]]].
  - apply surfaced_runs in Hd as (r & Hr & Hx). apply approvals_run in Hr as [Hn Ha].
    assert (Hmost : e1 = [] \/ exists c a, approval_call scope chain (NativeIntentTransaction t) (Some t) = Some c /\ e1 = [Mev c a]).
    { destruct (approval_call _ _ _ _); [|left; apply Ha]. destruct Ha as [[-> | [a ->]] _]; eauto. }
    destruct r as [[]|e|]; [| |discriminate Hx]; injection Hx as ->.
    + apply with_secret_runs in Hs as [-> Hu]. rewrite app_nil_r. split; [exact Hmost|]. intros slot' signed Hok.
      split; [exact (Hu _ _ Hok)|]. destruct (approval_call _ _ _ _); apply Ha; reflexivity.
    + destruct Hs as [-> ->]. rewrite app_nil_r. split; [exact Hmost | discriminate].
  - apply surfaced_runs in He as (r & _ & Hx). destruct r; discriminate.
  - apply surfaced_runs in Hp as (r & Hr & Hx). apply approvals_run in Hr as [Hn _]. destruct r; [discriminate Hx..|contradiction].
Qed.

Lemma sign_message_runs scope slot chain m scheme evs x :
  runs (module_sign_message scope slot chain m scheme) evs x ->
  at_most (seam_call scope (SignMessage chain m scheme)) evs /\
  forall slot' s, x = Ok (slot', inr s) ->
    (exists secret, slot = Some (Some secret) /\ slot' = Some None /\ sm_chain secret = to_chain chain /\
       Signer.sign_message (mkSignMessage secret (hex_string m) scheme) = Ok s) /\
    match seam_call scope (SignMessage chain m scheme) with Some c => granted c evs | None => True end.
Proof.
  unfold module_sign_message, at_most. cbn [seam_call]. unfold approval_call.
  assert (Hnone : (if bool_decide (chain = WEvm) then
             approval ← sc_web3 scope; web3 ← @None TransactionSpec ≫= evm_intent;
             Some (Callback (AuthorizeWeb3Execution (mkAuthorizeWeb3 (wa_quote_id approval) (wa_operation approval) web3)))
           else None) = None) by (destruct (bool_decide _), (sc_web3 scope); reflexivity).
  rewrite Hnone. clear Hnone. destruct (sc_native scope) as [quote|]; cbn [approve_native]; intros Hr.
  - apply runs_bind in Hr as [(d & e1 & e2 & -> & Hd & Hs) | [(e & He & ->) | [Hp ->]]].
    + apply surfaced_runs in Hd as (r & Hr & Hx). apply native_approval_runs in Hr as ((a & ->) & Hn & Hg).
      destruct r as [[]|e|]; [| |contradiction]; injection Hx as ->.
      * apply with_secret_runs in Hs as [-> Hu]. rewrite app_nil_r. split; [eauto|]. intros slot' s Hok.
        split; [exact (Hu _ _ Hok) | apply Hg; reflexivity].
      * destruct Hs as [-> ->]. rewrite app_nil_r. split; [eauto | discriminate].
    + apply surfaced_runs in He as (r & _ & Hx). destruct r; discriminate.
    + apply surfaced_runs in Hp as (r & Hr & Hx). apply native_approval_runs in Hr as (_ & Hn & _).
      destruct r; [discriminate Hx..|contradiction].
  - cbn [surfaced attempt mbind io_bind io_then mret io_ret] in Hr. apply with_secret_runs in Hr as [-> Hu].
    split; [left; reflexivity|]. intros slot' s Hok. split; [exact (Hu _ _ Hok) | exact I].
Qed.

Lemma recoded_no_panic {T} `{Recode T} expected (v : T) : recoded expected v <> Panic.
Proof. unfold recoded. destruct (to_json v); [discriminate|]. destruct (of_json _); discriminate. Qed.

Lemma host_call_runs c evs r : runs (host_call c) evs r -> (exists a, evs = [Mev (Callback c) a]) /\ r <> Panic.
Proof.
  intros (a & evs' & -> & Hr). destruct a as [e|response]; destruct Hr as [-> ->]; (split; [eauto|]); [discriminate|].
  destruct c, response; cbn [extract_response]; try discriminate; apply recoded_no_panic.
Qed.

(** A seam that makes one callback and keeps the secret. *)
Definition plain (oc : option call) {A} (slot : Slot) (evs : list mevent) (x : res str (Slot * A)) : Prop :=
  at_most oc evs /\ exists a, x = Ok (slot, a).

Lemma keeping_runs {A} slot oc (p : task A) evs x :
  (forall evs r, runs p evs r -> at_most oc evs /\ is_ok r = true) -> runs (keeping slot p) evs x -> plain oc slot evs x.
Proof.
  intros Hp Hr. apply runs_bind in Hr as [(a & e1 & e2 & -> & Ha & [-> ->]) | [(e & He & ->) | [He ->]]].
  - rewrite app_nil_r. split; [apply (Hp _ _ Ha) | eauto].
  - apply Hp in He as [_ [=]].
  - apply Hp in He as [_ [=]].
Qed.

Lemma surfaced_one {A} c (p : task A) evs r :
  (forall evs r, runs p evs r -> (exists a, evs = [Mev (Callback c) a]) /\ r <> Panic) -> runs (surfaced p) evs r ->
  at_most (Some (Callback c)) evs /\ is_ok r = true.
Proof.
  intros Hp Hr. apply surfaced_runs in Hr as (r' & Hr & ->). apply Hp in Hr as ((a & ->) & Hn).
  split; [right; eauto | destruct r'; [reflexivity.. | contradiction]].
Qed.

Lemma one_then_pure {A B} c (f : A -> B) (p : task A) evs r :
  (forall evs r, runs p evs r -> (exists a, evs = [Mev (Callback c) a]) /\ r <> Panic) ->
  runs (x ← p; mret (f x)) evs r -> (exists a, evs = [Mev (Callback c) a]) /\ r <> Panic.
Proof.
  intros Hp Hr. apply runs_bind in Hr as [(a & e1 & e2 & -> & Ha & [-> ->]) | [(e & He & ->) | [He ->]]].
  - rewrite app_nil_r. split; [apply (Hp _ _ Ha) | discriminate].
  - split; [apply (Hp _ _ He) | discriminate].
  - apply Hp in He as [_ He]. contradiction.
Qed.

Lemma transport_runs {A} network q (read : ChainTransportResult -> TransportError + A) evs r :
  runs (transport_call network q read) evs r -> at_most (Some (Callback (ChainTransport q))) evs /\ is_ok r = true.
Proof.
  unfold transport_call. intros Hr. apply runs_bind in Hr as [(a & e1 & e2 & -> & Ha & [-> ->]) | [(e & He & ->) | [He ->]]].
  - rewrite app_nil_r. apply surfaced_one with (c := ChainTransport q) in Ha; [|exact (host_call_runs (ChainTransport q))]. split; [apply Ha | reflexivity].
  - apply surfaced_one with (c := ChainTransport q) in He as [_ [=]]; exact (host_call_runs (ChainTransport q)).
  - apply surfaced_one with (c := ChainTransport q) in He as [_ [=]]; exact (host_call_runs (ChainTransport q)).
Qed.

Lemma own_runs slot own evs (x : res str (Slot * answer own)) :
  runs (Ask (Engine own) (fun a => at_once slot a)) evs x -> plain (Some (Engine own)) slot evs x.
Proof. intros (a & e & -> & -> & ->). split; [right; eauto | eauto]. Qed.

(** Every seam but the signer's. *)
Lemma plain_seam `{JsonPrinter} scope slot q evs x :
  is_signature q = false -> (forall c, q <> DeriveAccount c) ->
  runs (serve_seam scope slot q) evs x -> plain (seam_call scope q) slot evs x.
Proof.
  intros Hs Hd Hr.
  destruct q; try discriminate Hs; cbn [serve_seam seam_call] in *;
    try (exact (own_runs _ _ _ _ Hr));
    try (destruct Hr as [-> ->]; split; [left; reflexivity | eauto]; fail).
  - eapply keeping_runs; [|exact Hr]. intros e r He. apply surfaced_one with (c := WalletAccounts) in He; [exact He|].
    intros e' r'. apply one_then_pure, (host_call_runs (WalletAccounts)).
  - destruct (Hd chain). reflexivity.
  - eapply keeping_runs; [|exact Hr]. intros e r He. exact (transport_runs _ _ _ _ _ He).
  - eapply keeping_runs; [|exact Hr]. intros e r He. exact (transport_runs _ _ _ _ _ He).
  - eapply keeping_runs; [|exact Hr]. intros e r He. exact (transport_runs _ _ _ _ _ He).
  - eapply keeping_runs; [|exact Hr]. intros e r He. apply surfaced_one with (c := WalletBackend (BackendSwap body)) in He; [exact He|].
    intros e' r'. apply one_then_pure, (host_call_runs (WalletBackend (BackendSwap body))).
  - eapply keeping_runs; [|exact Hr]. intros e r He. apply surfaced_one with (c := WalletBackend (BackendBridge body)) in He; [exact He|].
    intros e' r'. apply one_then_pure, (host_call_runs (WalletBackend (BackendBridge body))).
Qed.

Lemma derive_runs slot evs x : runs (module_derive_account slot) evs x ->
  evs = [] /\ (is_ok x = true -> exists a, x = Ok (slot, a)).
Proof.
  unfold module_derive_account. destruct (clone_secret slot) as [secret|e|]; [destruct (Signer.derive_account secret)| |];
    intros [-> ->]; split; try reflexivity; try discriminate; eauto.
Qed.

Lemma seam_calls `{JsonPrinter} scope slot q evs x : runs (serve_seam scope slot q) evs x -> at_most (seam_call scope q) evs.
Proof.
  intros Hr. destruct (is_signature q) eqn:Hs.
  - destruct q; try discriminate; cbn [serve_seam] in Hr; [apply sign_transaction_runs in Hr | apply sign_message_runs in Hr]; apply Hr.
  - destruct q; try (eapply plain_seam; [reflexivity | discriminate | exact Hr]); [|discriminate Hs..].
    apply derive_runs in Hr as [-> _]. left. reflexivity.
Qed.

(** ** The secret *)

(** A slot is used up or left alone. *)
Definition spent_from (slot slot' : Slot) : Prop := slot' = slot \/ slot' = Some None.

Lemma with_secret_slot {A} slot chain (use : SecretMaterial -> res Failure A) evs slot' a :
  runs (with_secret slot chain use) evs (Ok (slot', a)) -> spent_from slot slot'.
Proof.
  unfold with_secret, spent_from. destruct slot as [[secret|]|]; cbn [take_secret].
  2,3: intros [_ [= -> _]]; auto.
  destruct (negb _); [intros [_ [= -> _]]; auto|]. destruct (use secret); intros [_ [=]]; auto.
Qed.

Lemma decided_slot {A} slot slot' (p : task unit) (next : task (Slot * (str + A))) evs a :
  (forall evs a, runs next evs (Ok (slot', a)) -> spent_from slot slot') ->
  runs (d ← surfaced p; match d with inl e => mret (slot, inl e) | inr _ => next end) evs (Ok (slot', a)) -> spent_from slot slot'.
Proof.
  intros Hn Hr. apply runs_bind in Hr as [([e|[]] & e1 & e2 & _ & _ & Hs) | [(e & _ & [=]) | [_ [=]]]]; [|exact (Hn _ _ Hs)].
  destruct Hs as [_ [= -> _]]. left. reflexivity.
Qed.

Lemma seam_slot `{JsonPrinter} scope slot q evs slot' a :
  runs (serve_seam scope slot q) evs (Ok (slot', a)) -> spent_from slot slot'.
Proof.
  intros Hr. destruct (is_signature q) eqn:Hs.
  - destruct q; try discriminate; cbn [serve_seam] in Hr; (eapply decided_slot; [|exact Hr]); intros; eapply with_secret_slot; eassumption.
  - destruct q; try (apply plain_seam in Hr as (_ & a' & [= -> _]); [left; reflexivity | reflexivity | discriminate]); [|discriminate Hs..].
    apply derive_runs in Hr as [_ Hd]. destruct (Hd eq_refl) as (x & [= -> _]). left. reflexivity.
Qed.

Lemma serves_slot `{JsonPrinter} scope slot inner outer slot' :
  serves (serve_seam scope) slot inner outer slot' -> spent_from slot slot'.
Proof.
  revert slot outer. induction inner as [|[q a] inner IH]; intros slot outer; cbn; [intros [_ ->]; left; reflexivity|].
  intros (s1 & now & later & _ & Hr & Hs). apply seam_slot in Hr as [-> | ->]; apply IH in Hs as [-> | ->]; unfold spent_from; auto.
Qed.

(** ** What is signed *)

(** The signer's successful answer, made with [secret] by the module's library. *)
Definition signed_by (secret : SecretMaterial) (e : event) : Prop :=
  (exists c t signed, e = Ev (SignTransaction c t) (inr signed) /\ sm_chain secret = to_chain c /\
     Signer.sign_transaction (mkSignRequest secret t) = Ok signed) \/
  (exists c m scheme s, e = Ev (SignMessage c m scheme) (inr s) /\ sm_chain secret = to_chain c /\
     Signer.sign_message (mkSignMessage secret (hex_string m) scheme) = Ok s).

(** What the host was asked before [q] was signed, it granted. *)
Definition sign_granted (scope : Scope) (q : request) (evs : list mevent) : Prop :=
  match seam_call scope q with
  | Some c => granted c evs
  | None => match q with SignTransaction c _ => c <> WEvm | _ => True end
  end.

Definition answered (e : event) : Prop := is_Some (signed_raw e) \/ is_Some (message_signature e).

Lemma granted_sub c evs evs' : evs ⊆ evs' -> granted c evs -> granted c evs'.
Proof. intros Hsub (d & Hd & Hin). exists d. split; [exact Hd|]. destruct c; try contradiction. apply Hsub, Hin. Qed.

Lemma serves_signed `{JsonPrinter} scope secret inner outer slot' e :
  serves (serve_seam scope) (Some (Some secret)) inner outer slot' -> e ∈ inner -> answered e ->
  signed_by secret e /\ sign_granted scope (ev_request e) outer.
Proof.
  intros Hs Hin Ha. apply list_elem_of_split in Hin as (l1 & l2 & ->).
  apply serves_app in Hs as (s1 & o1 & o2 & -> & H1' & H2').
  apply serves_slot in H1'. destruct e as [q a]. destruct H2' as (s2 & now & later & -> & Hr & _).
  assert (Hsub : now ⊆ o1 ++ now ++ later) by (intros x Hx; rewrite !elem_of_app; auto).
  assert (Hsec : forall secret', s1 = Some (Some secret') -> secret' = secret) by (intros secret' ->; destruct H1' as [[= ->]|[=]]; reflexivity).
  destruct Ha as [[x Hx]|[x Hx]]; destruct q; try discriminate Hx; destruct a as [e|a]; try discriminate Hx; cbn [serve_seam] in Hr.
  - apply sign_transaction_runs in Hr as [_ Hr]. destruct (Hr _ _ eq_refl) as ((secret' & E & _ & Hc & Hsig) & Hg).
    apply Hsec in E as ->. split; [left; eauto 7|]. unfold sign_granted. cbn [ev_request].
    destruct (seam_call _ _); [eapply granted_sub; eassumption | exact Hg].
  - apply sign_message_runs in Hr as [_ Hr]. destruct (Hr _ _ eq_refl) as ((secret' & E & _ & Hc & Hsig) & Hg).
    apply Hsec in E as ->. split; [right; eauto 8|]. unfold sign_granted. cbn [ev_request].
    destruct (seam_call _ _); [eapply granted_sub; eassumption | exact I].
Qed.

(** ** What is broadcast *)

(** Two of the engine's transport requests broadcast. *)
Definition broadcasting (t : ChainTransportRequest) : bool :=
  match t with
  | TransportJsonRpc _ method _ => bool_decide (method = lit "eth_sendRawTransaction") || bool_decide (method = lit "sendTransaction")
  | TransportRestPost _ path _ _ => bool_decide (path = lit "tx") || bool_decide (path = lit "wallet/broadcasttransaction")
  | TransportRestGet _ _ => false
  end.

(** The inner request that the callback [t] serves. *)
Definition carried (scope : Scope) (t : ChainTransportRequest) (q : request) : Prop :=
  seam_call scope q = Some (Callback (ChainTransport t)).

Lemma approval_not_transport scope chain i t c : approval_call scope chain i t = Some (Callback (ChainTransport c)) -> False.
Proof.
  unfold approval_call. destruct (sc_native scope); [discriminate|]. destruct (bool_decide _); [|discriminate].
  destruct (sc_web3 scope), (t ≫= evm_intent); discriminate.
Qed.

Lemma carried_broadcast scope t q : carried scope t q -> is_broadcast q = broadcasting t.
Proof.
  unfold carried. destruct q; cbn [seam_call]; intros E; try discriminate;
    try (destruct (approval_not_transport _ _ _ _ _ E)); injection E as <-; reflexivity.
Qed.

Lemma seam_one `{JsonPrinter} scope slot q now x : runs (serve_seam scope slot q) now x -> (length now <= 1)%nat.
Proof. intros Hr. apply seam_calls in Hr as [-> | (c & a & _ & ->)]; cbn; lia. Qed.

#[local] Instance answer_inhabited q : Inhabited (answer q).
Proof.
  destruct q; cbn; first
    [ exact (populate (inl [])) | exact (populate (inl (Unreachable (mkNetwork Evm None) []))) | exact (populate ClusterMainnet)
    | exact (populate []) | exact (populate SourceDefault) | exact (populate None) | exact (populate 0) | exact (populate tt) ].
Defined.

(** A run of an engine program in a task, up to a broadcast made through the
    host: a run of the program up to the broadcast that it serves. *)
Lemma engine_broadcast `{JsonPrinter} {A} scope slot (p : io A) before t a after x :
  runs (run_engine scope slot p) (before ++ Mev (Callback (ChainTransport t)) a :: after) x -> broadcasting t = true ->
  exists l1 b l2 r s1, runs p (l1 ++ b :: l2) r /\ serves (serve_seam scope) slot l1 before s1 /\ carried scope t (ev_request b).
Proof.
  intros Hr Ht. set (e := Mev _ a) in *.
  assert (Hi : exists y, runs (interp (serve_seam scope) slot p) (before ++ e :: after) y).
  { apply runs_bind in Hr as [([s r] & e1 & e2 & -> & Hi & [-> _]) | [(y & Hy & _) | [Hy _]]]; [rewrite app_nil_r|..]; eauto. }
  destruct Hi as [y Hi]. apply (interp_runs (serve_seam scope) p slot) in Hi as (inner & rest & r & s' & served & last & Hp & Hs & Heq & Hend); [|exact _].
  assert (Hlast : e ∉ last).
  { destruct Hend as [(_ & -> & _) | (_ & q & z & Hq & Hz)]; [apply not_elem_of_nil|]. intros Hin.
    pose proof (seam_calls _ _ _ _ _ Hq) as [-> | (c & a' & Hc & ->)]; [inversion Hin|].
    apply list_elem_of_singleton in Hin. injection Hin as <- _. destruct q; try discriminate Hc;
      try (destruct (approval_not_transport _ _ _ _ _ Hc));
      apply plain_seam in Hq as (_ & w & ->); try discriminate; reflexivity. }
  symmetry in Heq. assert (Hserved : exists after', served = before ++ e :: after').
  { apply app_eq_inv in Heq as [(k & -> & Hk) | (k & -> & Hk)].
    - destruct k as [|x' k]; [destruct Hlast; cbn in Hk; rewrite <- Hk; left|]. injection Hk as <- _. eauto.
    - destruct Hlast. rewrite Hk. apply elem_of_app. right. left. }
  destruct Hserved as [after' ->].
  apply serves_split in Hs as (l1 & q & qa & l2 & s1 & s2 & -> & Hb & Hq & _); [|intros; eapply seam_one; eassumption].
  exists l1, (Ev q qa), (l2 ++ rest), r, s1. rewrite <- app_assoc in Hp. split; [exact Hp|]. split; [exact Hb|].
  apply seam_calls in Hq as [[=] | (c & a' & Hc & Hone)].
  apply (f_equal (fmap ev_request)) in Hone. injection Hone as <-. exact Hc.
Qed.
End Facts.

(** * From the store to the broadcast *)

(** In an execution, a broadcast comes right after the one signature, and that
    after the quote was taken. *)
Lemma shape_broadcast {A} good sent (done : A -> Prop) tr mid r (l1 l2 R : list event) (b T : event) :
  shape good sent done tr mid r -> effects (l1 ++ b :: l2) = T :: mid ++ R -> is_broadcast (ev_request b) = true ->
  is_broadcast (ev_request T) = false -> Forall (fun e => is_broadcast (ev_request e) = false) R ->
  exists s, effects l1 = [T; s] /\ is_signature (ev_request s) = true /\ good tr (ev_request s) /\ sent s b.
Proof.
  intros Hs He Hb HT HR.
  assert (Hl : is_loud (ans := answer) effectful b = true) by (unfold is_loud, effectful; rewrite Hb, orb_true_r; reflexivity).
  assert (Hcons : effects (l1 ++ b :: l2) = effects l1 ++ b :: effects l2)
    by (rewrite effects_app; f_equal; cbn; rewrite Hl; reflexivity).
  rewrite Hcons in He. clear Hcons.
  assert (HnR : forall pre k, R = pre ++ b :: k -> False).
  { intros pre k ->. apply Forall_app in HR as [_ HR]. apply Forall_cons_iff in HR as [HR _]. congruence. }
  destruct (effects l1) as [|x1 [|x2 e1]]; cbn [app] in He.
  - injection He as -> _. congruence.
  - injection He as -> He. destruct Hs as [[-> _] | [(s & -> & Hsig & _) | (s & b' & -> & Hsig & _)]]; cbn [app] in He.
    + destruct (HnR [] (effects l2)). symmetry. exact He.
    + injection He as -> _. destruct (ev_request s); discriminate.
    + injection He as -> _. destruct (ev_request s); discriminate.
  - injection He as -> He. destruct Hs as [[-> _] | [(s & -> & Hsig & _) | (s & b' & -> & Hsig & _ & Hg & Hsent & _)]]; cbn [app] in He.
    + destruct (HnR (x2 :: e1) (effects l2)). symmetry. exact He.
    + injection He as -> He. destruct (HnR e1 (effects l2)). symmetry. exact He.
    + injection He as -> He. destruct e1 as [|x3 e1]; cbn [app] in He.
      * injection He as -> _. exists s. auto.
      * injection He as _ He. destruct (HnR e1 (effects l2)). symmetry. exact He.
Qed.

Section Executions.
Context `{CodecLaws, Curve25519, Serde, Base64, SerdeReads}.
Context `{BitcoinLib, Secp256k1, SecpPublic, Ed25519Lib, Bip39, Bip32, KeyHashes, HostSerde, !HostSerdeLaws, ParamSerde}.

Lemma carries_answered quote s b : carries_signed quote s b -> answered s.
Proof.
  unfold carries_signed, answered. destruct (pt_chain quote).
  - intros (raw & Hr & _). rewrite Hr. eauto.
  - intros (raw & Hr & _). rewrite Hr. eauto.
  - intros (wire & options & _ & Hk). destruct (pt_kind quote).
    + destruct Hk as (raw & Hr & _). rewrite Hr. eauto.
    + destruct Hk as (m & text & sig & _ & Hm & _). rewrite Hm. eauto.
  - intros (raw & raw_tx & to & txid & transfer & Hr & _). rewrite Hr. eauto.
Qed.

Lemma effects_in e (l : list event) : e ∈ effects l -> e ∈ l.
Proof. unfold effects_of. rewrite !list_elem_of_In. intros Hin. apply filter_In in Hin. apply Hin. Qed.

(** The quote a store gave, if this is it giving one. *)
Definition given (e : event) : option (option QuoteOwner * PreparedTransferQuote) :=
  match ev_request e as q return answer q -> _ with
  | TakeQuote _ caller => fun r => match r with inr taken => Some (caller, taken) | inl _ => None end
  | _ => fun _ => None
  end (ev_answer e).

(** An execution asks for its owner, then takes the quote. *)
Lemma execute_prepared_starts params evs r caller taken e :
  runs (execute_prepared params) evs r -> Ev (TakeQuote (ep_quote_id params) caller) (inr taken) :: e = effects evs ->
  exists tail, evs = Ev CurrentOwner caller :: Ev (TakeQuote (ep_quote_id params) caller) (inr taken) :: tail.
Proof.
  unfold execute_prepared. destruct (ep_confirmed params); [|intros [-> _]; discriminate].
  intros (c & evs' & -> & a & tail & -> & _) He.
  change (effects (Ev CurrentOwner c :: Ev (TakeQuote (ep_quote_id params) c) a :: tail))
    with (Ev (TakeQuote (ep_quote_id params) c) a :: effects tail) in He.
  assert (Hg : given (Ev (TakeQuote (ep_quote_id params) c) a) = Some (caller, taken)) by exact (eq_sym (f_equal (fun l => match l with x :: _ => given x | [] => None end) He)).
  destruct a as [x|a]; [discriminate|]. injection Hg as -> ->. eauto.
Qed.
(** The engine's own requests pass through. *)
Lemma serves_engine `{JsonPrinter} scope slot inner outer slot' q a :
  (forall slot, serve_seam scope slot q = Ask (Engine q) (fun a => at_once slot a)) ->
  serves (serve_seam scope) slot inner outer slot' -> Ev q a ∈ inner -> Mev (Engine q) a ∈ outer.
Proof.
  intros Hq Hs Hin. apply (serves_event _ _ _ _ _ _ _ Hs) in Hin as (s1 & s2 & before & now & after & -> & Hr).
  rewrite Hq in Hr. destruct Hr as (a' & e' & -> & -> & [= _ ->]). rewrite !elem_of_app. right. left. left.
Qed.

Lemma serves_owner `{JsonPrinter} scope slot inner outer slot' caller :
  serves (serve_seam scope) slot inner outer slot' -> Ev CurrentOwner caller ∈ inner -> caller = sc_owner scope.
Proof.
  intros Hs Hin. apply (serves_event _ _ _ _ _ _ _ Hs) in Hin as (s1 & s2 & before & now & after & _ & Hr).
  destruct Hr as [_ [= _ ->]]. reflexivity.
Qed.

Lemma broadcast_effect l1 (b : event) l2 : is_broadcast (ev_request b) = true -> b ∈ effects (l1 ++ b :: l2).
Proof.
  intros Hb. unfold effects_of. apply list_elem_of_In, filter_In. split; [apply in_or_app; right; left; reflexivity|].
  unfold is_loud, effectful. rewrite Hb. apply orb_true_iff. left. apply orb_true_r.
Qed.

Lemma prepared_broadcast params l1 b l2 r :
  runs (execute_prepared params) (l1 ++ b :: l2) r -> is_broadcast (ev_request b) = true ->
  exists caller taken s,
    Ev CurrentOwner caller ∈ l1 /\ Ev (TakeQuote (ep_quote_id params) caller) (inr taken) ∈ l1 /\ s ∈ l1 /\
    effects l1 = [Ev (TakeQuote (ep_quote_id params) caller) (inr taken); s] /\ is_signature (ev_request s) = true /\
    authorizes (l1 ++ b :: l2) (transaction taken) (ev_request s) /\ carries_signed (transaction taken) s b.
Proof.
  intros Hr Hb. pose proof (runs_wp _ [] _ _ _ (execute_prepared_runs params) Hr) as Hp. cbn [app] in Hp.
  pose proof (broadcast_effect l1 b l2 Hb) as Hbe.
  destruct Hp as [(He & _) | (_ & caller & _ & [(e & He & _) | (taken & mid & Hx & He & _)])].
  - rewrite He in Hbe. inversion Hbe.
  - rewrite He in Hbe. apply list_elem_of_singleton in Hbe as ->. discriminate.
  - destruct (shape_broadcast _ _ _ _ _ _ _ _ _ _ _ Hx He Hb) as (s & Hl1 & Hsig & Hg & Hsent);
      [reflexivity | destruct r; repeat constructor|].
    exists caller, taken, s. destruct (execute_prepared_starts _ _ _ _ _ _ Hr (eq_sym He)) as [tail Ht].
    assert (Hs1 : s ∈ l1) by (apply effects_in; rewrite Hl1; right; left).
    assert (Ht1 : Ev (TakeQuote (ep_quote_id params) caller) (inr taken) ∈ l1) by (apply effects_in; rewrite Hl1; left).
    split_and!; auto. destruct l1 as [|x l1]; [inversion Hs1|]. injection Ht as -> _. left.
Qed.

(** ** Native transfers *)

(** What the host is shown of a signature request. *)
Definition shown (q : request) : option NativeWalletExecutionIntent :=
  match q with
  | SignTransaction _ t => Some (NativeIntentTransaction t)
  | SignMessage _ m _ => Some (NativeIntentMessage (hex_string m))
  | _ => None
  end.

Definition no_broadcast (evs : list mevent) : Prop :=
  forall t a, Mev (Callback (ChainTransport t)) a ∈ evs -> broadcasting t = false.

(** A part of a run that served an execution up to its broadcast made none. *)
Lemma served_no_broadcast `{JsonPrinter} scope slot inner outer slot' T s :
  serves (serve_seam scope) slot inner outer slot' -> effects inner = [T; s] ->
  is_broadcast (ev_request T) = false -> is_signature (ev_request s) = true -> no_broadcast outer.
Proof.
  intros Hs He HT Hsig t a Hin. destruct (broadcasting t) eqn:Ht; [|reflexivity]. exfalso.
  apply (serves_outer _ _ _ _ _ _ Hs) in Hin as (q & qa & s1 & s2 & now & Hq & Hr & Hnow).
  apply seam_calls in Hr as [-> | (c & a' & Hc & ->)]; [inversion Hnow|].
  apply list_elem_of_singleton in Hnow. apply (f_equal ev_request) in Hnow. cbn in Hnow. subst c.
  apply carried_broadcast in Hc. rewrite Ht in Hc.
  assert (Hin : Ev q qa ∈ effects inner).
  { unfold effects_of. apply list_elem_of_In, filter_In. split; [apply list_elem_of_In, Hq|].
    unfold is_loud, effectful. cbn [ev_request]. rewrite Hc. apply orb_true_iff. left. apply orb_true_r. }
  rewrite He in Hin. apply elem_of_cons in Hin as [<- | Hin]; [cbn in HT; congruence|].
  apply list_elem_of_singleton in Hin as <-. cbn in Hsig. destruct q; discriminate.
Qed.

(** The stores give by an id the quote they showed by it, its lifetime possibly
    renewed; [Quotes] shows that they do. *)
Definition native_store_agrees (request : ExecuteRequest) (evs : list mevent) : Prop :=
  forall quote taken,
    Mev (LookupQuote (ex_quote_id request) (ex_owner request)) (inr quote) ∈ evs ->
    Mev (Engine (TakeQuote (ex_quote_id request) (ex_owner request))) (inr taken) ∈ evs ->
    exists e, transaction taken = set_expires quote e.

Lemma renewed_transaction q q' : same_quote q q' -> exists e, transaction q' = set_expires (transaction q) e.
Proof.
  induction 1 as [|q' e _ [e' IH]]; [exists (pt_expires_at_ms (transaction q)); destruct (transaction q); reflexivity|].
  exists e. cbn. rewrite IH. reflexivity.
Qed.

(** What precedes the broadcast of a native execution: the quote read for the
    caller, and the host's yes to exactly what was signed with the call's secret,
    which is that quote's transfer; and no broadcast. *)
Definition native_precedes (rt : NativeWalletRuntime) (request : ExecuteRequest) (t : ChainTransportRequest) (before : list mevent) : Prop :=
  exists quote inner s b intent,
    Mev (LookupQuote (ex_quote_id request) (ex_owner request)) (inr quote) ∈ before /\
    authorizes inner quote (ev_request s) /\ shown (ev_request s) = Some intent /\
    granted (Callback (AuthorizeNativeWalletExecution (mkAuthorizeNative (pt_quote_id quote) (lit "transfer") quote intent))) before /\
    signed_by (ex_secret request) s /\ carries_signed quote s b /\
    carried (mkScope (nw_endpoints rt) (ex_owner request) None (Some quote)) t (ev_request b) /\ no_broadcast before.

Lemma shown_call scope quote q : sc_native scope = Some quote -> is_signature q = true ->
  exists intent, shown q = Some intent /\
    seam_call scope q = Some (Callback (AuthorizeNativeWalletExecution (mkAuthorizeNative (pt_quote_id quote) (lit "transfer") quote intent))).
Proof. intros Hq Hs. destruct q; try discriminate Hs; cbn; unfold approval_call; rewrite Hq; eauto. Qed.

Lemma no_broadcast_app a b : no_broadcast a -> no_broadcast b -> no_broadcast (a ++ b).
Proof. intros Ha Hb t x [Hin|Hin]%elem_of_app; [eapply Ha | eapply Hb]; exact Hin. Qed.

Lemma native_execution_runs active request before t a after r :
  native_store_agrees request before ->
  runs (native_wallet_execute_prepared active request) (before ++ Mev (Callback (ChainTransport t)) a :: after) r ->
  broadcasting t = true ->
  exists rt, active = Some rt /\ ex_service request = nw_handle rt /\ ex_confirmed request = true /\ native_precedes rt request t before.
Proof.
  intros Hagree Hr Ht. set (e := Mev _ a) in *.
  unfold native_wallet_execute_prepared in Hr.
  destruct active as [rt|]; [|destruct Hr as [Hr _]; destruct before; discriminate Hr]. exists rt.
  unfold active_native, require_native_handle in Hr.
  destruct (bool_decide_reflect (ex_service request = nw_handle rt)) as [Hh|Hh];
    [|destruct Hr as [Hr _]; destruct before; discriminate Hr].
  cbn [negb err_if map_err lift mbind io_bind io_then mret io_ret] in Hr.
  destruct (ex_confirmed request) eqn:Hc; [|destruct Hr as [Hr _]; destruct before; discriminate Hr].
  cbn [negb err_if lift mbind io_bind io_then] in Hr. split; [reflexivity|]. split; [exact Hh|]. split; [reflexivity|].
  destruct Hr as (found & evs' & Heq & Hr). set (look := Mev (LookupQuote _ _) found) in Heq.
  destruct before as [|x before]; [discriminate (f_equal (fun l => match l with y :: _ => Some (ev_request y) | [] => None end) Heq)|].
  injection Heq as -> Heq. destruct found as [err|quote]; [destruct Hr as [-> _]; destruct before; discriminate Heq|].
  cbn [with_err mbind io_bind io_then map_err mret io_ret] in Hr. rewrite <- Heq in Hr. clear Heq evs'.
  apply runs_with_err in Hr as (r' & Hr & _).
  apply engine_broadcast in Hr as (l1 & b & l2 & r0 & s1 & Hp & Hs & Hcar); [|exact Ht].
  pose proof (carried_broadcast _ _ _ Hcar) as Hb. rewrite Ht in Hb.
  apply prepared_broadcast in Hp as (caller & taken & s & Hown & Htk & Hsin & Heff & Hsig & Hauth & Hsent); [|exact Hb].
  cbn [ep_quote_id] in Htk, Heff.
  pose proof (serves_owner _ _ _ _ _ _ Hs Hown) as Hcaller. cbn [sc_owner] in Hcaller. subst caller.
  assert (Htaken : Mev (Engine (TakeQuote (ex_quote_id request) (ex_owner request))) (inr taken) ∈ before)
    by (eapply serves_engine; [reflexivity | exact Hs | exact Htk]).
  destruct (serves_signed _ _ _ _ _ _ Hs Hsin (carries_answered _ _ _ Hsent)) as [Hsec Hgr].
  destruct (shown_call (mkScope (nw_endpoints rt) (ex_owner request) None (Some quote)) quote (ev_request s) eq_refl Hsig)
    as (intent & Hshown & Hcall). unfold sign_granted in Hgr. rewrite Hcall in Hgr.
  destruct (Hagree quote taken) as [x Hx]; [left | right; exact Htaken|].
  rewrite Hx in Hauth, Hsent. exists quote, (l1 ++ b :: l2), s, b, intent.
  split_and!; auto; [left | eapply granted_sub; [|exact Hgr]; intros y Hy; right; exact Hy|].
  intros t' a' [Hin|Hin]%elem_of_cons; [discriminate (f_equal ev_request Hin)|].
  exact (served_no_broadcast _ _ _ _ _ _ _ Hs Heff eq_refl Hsig t' a' Hin).
Qed.

(** ** Swaps, bridges and dapp calls *)

Definition given_web3 (e : event) : option (option QuoteOwner * StoredQuote) :=
  match ev_request e as q return answer q -> _ with
  | TakeWeb3 _ caller => fun r => match r with inr taken => Some (caller, taken) | inl _ => None end
  | _ => fun _ => None
  end (ev_answer e).

Lemma execute_quote_starts params evs r caller taken e :
  runs (execute_quote params) evs r -> Ev (TakeWeb3 (eq_quote_id params) caller) (inr taken) :: e = effects evs ->
  exists tail, evs = Ev CurrentOwner caller :: Ev (TakeWeb3 (eq_quote_id params) caller) (inr taken) :: tail.
Proof.
  unfold execute_quote. destruct (eq_confirmed params); [|intros [-> _]; discriminate].
  intros (c & evs' & -> & a & tail & -> & _) He.
  change (effects (Ev CurrentOwner c :: Ev (TakeWeb3 (eq_quote_id params) c) a :: tail))
    with (Ev (TakeWeb3 (eq_quote_id params) c) a :: effects tail) in He.
  assert (Hg : given_web3 (Ev (TakeWeb3 (eq_quote_id params) c) a) = Some (caller, taken))
    by exact (eq_sym (f_equal (fun l => match l with x :: _ => given_web3 x | [] => None end) He)).
  destruct a as [x|a]; [discriminate|]. injection Hg as -> ->. eauto.
Qed.

Lemma quote_broadcast params l1 b l2 r :
  runs (execute_quote params) (l1 ++ b :: l2) r -> is_broadcast (ev_request b) = true ->
  exists caller taken s k,
    Ev CurrentOwner caller ∈ l1 /\ Ev (TakeWeb3 (eq_quote_id params) caller) (inr taken) ∈ l1 /\ s ∈ l1 /\
    effects l1 = [Ev (TakeWeb3 (eq_quote_id params) caller) (inr taken); s] /\ is_signature (ev_request s) = true /\
    unsigned_asks (sq_unsigned taken) k (l1 ++ b :: l2) (ev_request s) /\ unsigned_sent (sq_unsigned taken) k s b.
Proof.
  intros Hr Hb. pose proof (runs_wp _ [] _ _ _ (execute_quote_runs params) Hr) as Hp. cbn [app] in Hp.
  pose proof (broadcast_effect l1 b l2 Hb) as Hbe.
  destruct Hp as (_ & [(He & _) | (_ & caller & _ & [(e & He & _) | (taken & k & mid & Hx & He)])]).
  - rewrite He in Hbe. inversion Hbe.
  - rewrite He in Hbe. apply list_elem_of_singleton in Hbe as ->. discriminate.
  - destruct (shape_broadcast _ _ _ _ _ _ _ _ _ _ _ Hx He Hb) as (s & Hl1 & Hsig & Hg & Hsent);
      [reflexivity | destruct r; repeat constructor|].
    exists caller, taken, s, k. destruct (execute_quote_starts _ _ _ _ _ _ Hr (eq_sym He)) as [tail Ht].
    assert (Hs1 : s ∈ l1) by (apply effects_in; rewrite Hl1; right; left).
    assert (Ht1 : Ev (TakeWeb3 (eq_quote_id params) caller) (inr taken) ∈ l1) by (apply effects_in; rewrite Hl1; left).
    split_and!; auto. destruct l1 as [|x l1]; [inversion Hs1|]. injection Ht as -> _. left.
Qed.

Definition web3_store_agrees (request : ExecuteRequest) (evs : list mevent) : Prop :=
  forall quote taken,
    Mev (LookupWeb3 (ex_quote_id request) (ex_owner request)) (inr quote) ∈ evs ->
    Mev (Engine (TakeWeb3 (ex_quote_id request) (ex_owner request))) (inr taken) ∈ evs -> same_quote quote taken.

Lemma renewed_unsigned (q q' : StoredQuote) : same_quote q q' -> sq_unsigned q' = sq_unsigned q.
Proof. induction 1 as [|q' e _ IH]; [reflexivity | exact IH]. Qed.

(** The facts approved of a stored quote: an EVM transaction's when it is signed,
    a Solana one's whole. *)
Definition web3_intent (quote : StoredQuote) (q : request) : option Web3ExecutionIntent :=
  match sq_unsigned quote, q with
  | UEvm _ _ _ _, SignTransaction _ t => evm_intent t
  | USolana blob, _ => Some (Web3IntentSolana blob)
  | _, _ => None
  end.

Definition web3_precedes (rt : Web3Runtime) (request : ExecuteRequest) (t : ChainTransportRequest) (before : list mevent) : Prop :=
  exists quote k inner s b intent approval,
    Mev (LookupWeb3 (ex_quote_id request) (ex_owner request)) (inr quote) ∈ before /\
    unsigned_asks (sq_unsigned quote) k inner (ev_request s) /\ web3_intent quote (ev_request s) = Some intent /\
    granted (Callback (AuthorizeWeb3Execution (mkAuthorizeWeb3 (sq_quote_id quote) (operation_name (sq_kind quote)) intent))) before /\
    signed_by (ex_secret request) s /\ unsigned_sent (sq_unsigned quote) k s b /\
    carried (mkScope (w3_endpoints rt) (ex_owner request) (Some approval) None) t (ev_request b) /\ no_broadcast before.

Lemma unsigned_answered u k s b : unsigned_sent u k s b -> answered s.
Proof.
  unfold answered. destruct u; cbn [unsigned_sent].
  - intros (raw & Hr & _). rewrite Hr. eauto.
  - intros (wire & layout & i & text & sig & wire' & options & _ & _ & _ & Hm & _). rewrite Hm. eauto.
Qed.

(** Approving a Solana quote. *)
Lemma approve_solana_runs approval evs r :
  runs (approve_solana approval) evs r ->
  match solana_intent approval with
  | Some (Web3IntentSolana blob) =>
      let c := Callback (AuthorizeWeb3Execution (mkAuthorizeWeb3 (wa_quote_id approval) (wa_operation approval) (Web3IntentSolana blob))) in
      (exists a, evs = [Mev c a]) /\ (r = Ok tt -> granted c evs)
  | _ => evs = []
  end.
Proof.
  unfold approve_solana. destruct (solana_intent approval) as [[|blob]|]; [intros [-> _]; reflexivity | | intros [-> _]; reflexivity].
  cbv zeta. intros Hr. apply runs_bind in Hr as [(d & e1 & e2 & -> & Hd & Hs) | [(e & He & ->) | [Hp ->]]].
  - apply runs_with_err in Hd as (r' & Hr' & Hd). destruct r' as [d'|e|]; [injection Hd as <- | discriminate Hd..].
    assert (Hall : runs (d ← host_call (AuthorizeWeb3Execution (mkAuthorizeWeb3 (wa_quote_id approval) (wa_operation approval) (Web3IntentSolana blob))); allowed d)
      e1 (if approved d then Ok tt else Err (default NOT_APPROVED (reason d)))).
    { destruct Hr' as (a & e' & -> & Hr'). exists a, e'. split; [reflexivity|]. destruct a as [e|response]; [destruct Hr' as [_ [=]]|].
      destruct Hr' as [-> Hx]. cbn [mbind io_bind]. unfold lift. rewrite <- Hx. unfold allowed, io_bind. cbn [io_then].
      destruct (approved d); cbn; auto. }
    apply web3_approval_runs in Hall as ((a & ->) & _ & Hg).
    destruct (approved d); destruct Hs as [-> ->]; (split; [eauto|]); [intros _; apply Hg; reflexivity | discriminate].
  - apply runs_with_err in He as (r' & Hr' & _). apply (host_call_runs (AuthorizeWeb3Execution _)) in Hr' as [(a & ->) _]. split; [eauto | discriminate].
  - apply runs_with_err in Hp as (r' & Hr' & _). apply (host_call_runs (AuthorizeWeb3Execution _)) in Hr' as [(a & ->) _]. split; [eauto | discriminate].
Qed.

(** What an execution does before the engine runs: the quote is read, and for a
    Solana quote the host's yes to its blob obtained. *)
Lemma web3_execute_opens active request before t a after r :
  runs (web3_execute active request) (before ++ Mev (Callback (ChainTransport t)) a :: after) r ->
  exists rt quote pre before' r',
    active = Some rt /\ ex_service request = w3_handle rt /\ ex_confirmed request = true /\
    before = Mev (LookupWeb3 (ex_quote_id request) (ex_owner request)) (inr quote) :: pre ++ before' /\
    (forall blob, sq_unsigned quote = USolana blob ->
       granted (Callback (AuthorizeWeb3Execution (mkAuthorizeWeb3 (sq_quote_id quote) (operation_name (sq_kind quote)) (Web3IntentSolana blob)))) pre) /\
    no_broadcast pre /\
    runs (run_engine (mkScope (w3_endpoints rt) (ex_owner request) (Some (approval_of quote)) None) (Some (Some (ex_secret request)))
       (execute_quote (mkExecuteQuote (ex_quote_id request) true))) (before' ++ Mev (Callback (ChainTransport t)) a :: after) r'.
Proof.
  intros Hr. set (e := Mev _ a) in *.
  unfold web3_execute in Hr.
  destruct active as [rt|]; [|destruct Hr as [Hr _]; destruct before; discriminate Hr].
  unfold active_web3, require_web3_handle in Hr.
  destruct (bool_decide_reflect (ex_service request = w3_handle rt)) as [Hh|Hh];
    [|destruct Hr as [Hr _]; destruct before; discriminate Hr].
  cbn [negb err_if map_err lift mbind io_bind io_then mret io_ret] in Hr.
  destruct (ex_confirmed request) eqn:Hc; [|destruct Hr as [Hr _]; destruct before; discriminate Hr].
  cbn [negb err_if lift mbind io_bind io_then] in Hr.
  destruct Hr as (found & evs' & Heq & Hr). set (look := Mev (LookupWeb3 _ _) found) in Heq.
  destruct before as [|x before]; [discriminate (f_equal (fun l => match l with y :: _ => Some (ev_request y) | [] => None end) Heq)|].
  injection Heq as -> Heq. destruct found as [err|quote]; [destruct Hr as [-> _]; destruct before; discriminate Heq|].
  cbn [with_err mbind io_bind io_then map_err mret io_ret] in Hr. rewrite <- Heq in Hr. clear Heq evs'.
  exists rt, quote.
  apply runs_bind in Hr as [([] & e1 & e2 & Heq & Ha & Hr) | [(err & He & _) | [He _]]].
  2,3: apply approve_solana_runs in He; unfold approval_of in He; cbn [solana_intent] in He;
    destruct (sq_unsigned quote); [destruct before; discriminate He|]; destruct He as [[a' He] _];
    destruct before as [|y before]; [discriminate (f_equal (fun l => match l with y :: _ => Some (ev_request y) | [] => None end) He)
      | injection He as _ He; destruct before; discriminate He].
  apply runs_with_err in Hr as (r' & Hr & _). apply approve_solana_runs in Ha. unfold approval_of in Ha. cbn [solana_intent] in Ha.
  destruct (sq_unsigned quote) as [n to d v|blob].
  - subst e1. cbn [app] in Heq. subst e2. exists [], before, r'. split_and!; auto; [discriminate | intros t' a' Hin; inversion Hin].
  - destruct Ha as [[a' ->] Hg]. specialize (Hg eq_refl). symmetry in Heq. apply split_after in Heq as (before' & -> & ->).
    2:{ intros Hin. apply list_elem_of_singleton in Hin. discriminate (f_equal ev_request Hin). }
    exists [Mev _ a'], before', r'. split_and!; auto; [intros blob' [= <-]; exact Hg|]. intros t' a'' Hin. apply list_elem_of_singleton in Hin. discriminate (f_equal ev_request Hin).
Qed.

Lemma web3_execution_runs active request before t a after r :
  web3_store_agrees request before ->
  runs (web3_execute active request) (before ++ Mev (Callback (ChainTransport t)) a :: after) r -> broadcasting t = true ->
  exists rt, active = Some rt /\ ex_service request = w3_handle rt /\ ex_confirmed request = true /\ web3_precedes rt request t before.
Proof.
  intros Hagree Hr Ht. apply web3_execute_opens in Hr as (rt & quote & pre & before' & r' & -> & Hh & Hc & -> & Hsol & Hnb & Hrun).
  exists rt. split; [reflexivity|]. split; [exact Hh|]. split; [exact Hc|]. set (look := Mev (LookupWeb3 _ _) _) in *.
  apply engine_broadcast in Hrun as (l1 & b & l2 & r0 & s1 & Hp & Hs & Hcar); [|exact Ht].
  pose proof (carried_broadcast _ _ _ Hcar) as Hb. rewrite Ht in Hb.
  apply quote_broadcast in Hp as (caller & taken & s & k & Hown & Htk & Hsin & Heff & Hsig & Hasks & Hsent); [|exact Hb].
  cbn [eq_quote_id] in Htk, Heff.
  pose proof (serves_owner _ _ _ _ _ _ Hs Hown) as Hcaller. cbn [sc_owner] in Hcaller. subst caller.
  assert (Htaken : Mev (Engine (TakeWeb3 (ex_quote_id request) (ex_owner request))) (inr taken) ∈ before')
    by (eapply serves_engine; [reflexivity | exact Hs | exact Htk]).
  destruct (serves_signed _ _ _ _ _ _ Hs Hsin (unsigned_answered _ _ _ _ Hsent)) as [Hsec Hgr].
  assert (Hun : sq_unsigned taken = sq_unsigned quote).
  { apply renewed_unsigned, Hagree; [left | right; apply elem_of_app; right; exact Htaken]. }
  rewrite Hun in Hasks, Hsent.
  assert (Hint : exists intent, web3_intent quote (ev_request s) = Some intent /\
    granted (Callback (AuthorizeWeb3Execution (mkAuthorizeWeb3 (sq_quote_id quote) (operation_name (sq_kind quote)) intent))) (look :: pre ++ before')).
  { unfold web3_intent. destruct (sq_unsigned quote) as [net to d v|blob] eqn:Hu.
    - destruct Hasks as (d' & _ & target & value & nonce & gas & price & _ & _ & Hq). rewrite Hq in *.
      eexists. split; [reflexivity|]. cbn in Hgr. eapply granted_sub; [|exact Hgr].
      intros y Hy. right. apply elem_of_app. right. exact Hy.
    - eexists. split; [reflexivity|]. eapply granted_sub; [|apply Hsol; reflexivity].
      intros y Hy. right. apply elem_of_app. left. exact Hy. }
  destruct Hint as (intent & Hint & Hgranted).
  exists quote, k, (l1 ++ b :: l2), s, b, intent, (approval_of quote).
  split_and!; auto; [left|].
  intros t' a' [Hin|[Hin|Hin]%elem_of_app]%elem_of_cons; [discriminate (f_equal ev_request Hin) | exact (Hnb t' a' Hin)|].
  exact (served_no_broadcast _ _ _ _ _ _ _ Hs Heff eq_refl Hsig t' a' Hin).
Qed.
End Executions.

(** * A concrete host *)

Definition toy_host_serde : HostSerde := {|
  recode_backend := {| to_json r := inr (data r); of_json v := inr (mkBackendResponse v) |};
  recode_accounts := {|
    to_json r := inr (JArr ((fun a => JArr [JStr (wi_address a); JStr (wi_derivation_path a)]) <$> wr_accounts r));
    of_json v := match v with
                 | JArr [JArr [JStr a; JStr p]] => inr (mkAccountsResponse true [mkAccountFacts Evm a p])
                 | _ => inl (lit "unexpected accounts")
                 end |};
  recode_transport := {|
    to_json r := match r with TransportOk body => inr (JArr [body]) | TransportUnreachable m | TransportRpcError m => inl m end;
    of_json v := match v with JArr [body] => inr (TransportOk body) | _ => inl (lit "unexpected result") end |};
  recode_decision := {|
    to_json d := inr (match reason d with None => JBool (approved d) | Some r => JArr [JBool (approved d); JStr r] end);
    of_json v := match v with
                 | JBool b => inr (mkDecision b None)
                 | JArr [JBool b; JStr r] => inr (mkDecision b (Some r))
                 | _ => inl (lit "unexpected decision")
                 end |};
  response_debug _ := lit "response"
|}.

Lemma toy_host_serde_laws : HostSerdeLaws (H := toy_host_serde).
Proof. split. intros [b [r|]] v d' [= <-] [= <-]; reflexivity. Qed.

Definition demo_web3_quote : StoredQuote :=
  mkQuote (lit "w3_1") DappCall (UEvm EthereumMainnet (lit "0x2222222222222222222222222222222222222222") (Some (lit "0xa9059cbb")) (lit "0"))
    JNull None 301000.

(** A host with one Ethereum account and a node, which grants what is asked. *)
Definition demo_answers (q : call) : returned q :=
  match q with
  | Callback WalletAccounts =>
      inr (HostAccountsResponse (mkAccountsResponse true [mkAccountFacts Evm (wa_address demo_account) (derivation_path demo_account)]))
  | Callback (ChainTransport (TransportJsonRpc _ method _)) =>
      inr (HostChainTransport (TransportOk (JStr (if bool_decide (method = lit "eth_chainId") then lit "0x1"
                                                  else if bool_decide (method = lit "eth_sendRawTransaction") then lit "0xhash" else lit "0x5208"))))
  | Callback (ChainTransport _) | Callback (WalletBackend _) => inl (lit "no such provider")
  | Callback _ => inr (HostAuthorization (mkDecision true None))
  | Engine (TakeWeb3 id caller) => inr demo_web3_quote
  | Engine q => demo_host [] q
  | LookupQuote _ _ => inr demo_quote
  | LookupWeb3 _ _ => inr demo_web3_quote
  | NewUuid => lit "uuid"
  end.

Definition demo_execution (id : str) : ExecuteRequest := mkExecuteRequest (lit "service") None id true demo_secret.

#[local] Existing Instances base58_codecs base58_codec_laws toy_curve toy_serde toy_base64 toy_signer_bitcoin toy_signer_secp
  toy_secp_public toy_signer_ed25519 toy_bip39 toy_bip32 toy_key_hashes toy_host_serde toy_host_serde_laws.

Definition demo_native : option NativeWalletRuntime := Some (mkNativeRuntime (lit "service") DefaultEndpoints).
Definition demo_web3 : option Web3Runtime := Some (mkWeb3Runtime (lit "service") DefaultEndpoints).

Lemma demo_agrees request A (p : bus A) before e after :
  (exec (fun _ => demo_answers) [] p).1 = before ++ e :: after ->
  native_store_agrees request before /\ web3_store_agrees request before.
Proof.
  intros Heq. assert (Hin : forall x, x ∈ before -> ev_answer x = demo_answers (ev_request x)).
  { intros x Hx. destruct (exec_answers demo_answers p [] x) as [Hn|Hg]; [rewrite Heq; apply elem_of_app; auto | inversion Hn | exact Hg]. }
  split; intros quote taken Hq%Hin Ht%Hin; cbn in Hq, Ht; injection Hq as ->; injection Ht as ->.
  - exists (pt_expires_at_ms demo_quote). reflexivity.
  - constructor.
Qed.

(** * Properties *)




