(* ===== verification/Intent.v ===== *)
(** Comparing an intent with its quote
    ([crates/tinywallet-bus/src/intent/mod.rs]): what a host is given to check the
    module's approval requests against the quotes it was shown.

    Shown: what a match means for each chain and kind; and, composed with the
    engine ([Transfer], [Service]) and the module ([Runtime]), which of the
    module's own requests match their quote.  Two do not: a TRC-20 transfer,
    whose request names the token's contract where the comparison expects the
    recipient, and every EVM swap-service request, whose network is spelled
    differently. *)

From stdpp Require Import base list strings numbers.
From S2P Require Import Prelude Program Text Chain Codec Base58 Addr Proto TronTx EvmTx BtcTx Json Wire Quotes Assets.
From S2P Require Import X402Wire Eip712 SolWire Host NoPanic Engine Signing Transfer Service Queries Keys Signer PayHost HostPort Runtime.

(** * Comparisons *)

Definition valid_hex (value : str) : bool :=
  negb (is_nil value) && (length value mod 2 =? 0)%nat && forallb is_ascii_hexdigit value.

(** The digits carried into 32 bytes, the loop of [u256_from_decimal]; then hex. *)
Definition decimal_u256_word (decimal : str) : option str :=
  if is_nil decimal || negb (forallb is_ascii_digit decimal) then None
  else match decimal_loop (replicate 32 0) decimal with Ok bytes => Some (hex_string bytes) | _ => None end.

(** [strip_prefix("0x").or_else(|| strip_prefix("0X"))]. *)
Definition strip_0x (s : str) : option str :=
  match strip_prefix s (lit "0x") with Some body => Some body | None => strip_prefix s (lit "0X") end.

Definition evm_transfer_data_matches (data recipient amount : str) : bool :=
  match strip_0x recipient with
  | None => false
  | Some address =>
      if negb (length address =? 40)%nat || negb (forallb is_ascii_hexdigit address) then false
      else match decimal_u256_word amount with
           | None => false
           | Some amount_word =>
               let expected := lit "a9059cbb" ++ pad_left_zeros 64 (ascii_lowercase address) ++ amount_word in
               eq_ignore_case (default data (strip_0x data)) expected
           end
  end.

(** [quote.amount_raw.parse::<u64>().ok() == Some(n)]. *)
Definition amount_is (quote : PreparedTransaction) (n : Z) : bool :=
  match parse_u64 (pt_amount_raw quote) with Ok a => a =? n | _ => false end.

Definition native_intent_matches_quote (quote : PreparedTransaction) (intent : NativeWalletExecutionIntent) : bool :=
  match intent with
  | NativeIntentTransaction (SpecBtc from to amount_sat _ _) =>
      bool_decide (pt_chain quote = WBtc) && bool_decide (pt_kind quote = NativeTransferKind)
      && bool_decide (from = from_address quote) && bool_decide (to = to_address quote) && amount_is quote amount_sat
  | NativeIntentTransaction (SpecEvm to value_wei data_hex _ _ _ chain_id) =>
      let network := EvmNetwork_or_mainnet (pt_evm_network quote) in
      if negb (bool_decide (pt_chain quote = WEvm)) || negb (EvmNetwork_chain_id network =? chain_id) then false
      else match pt_kind quote with
           | NativeTransferKind =>
               bool_decide (to = to_address quote) && bool_decide (value_wei = pt_amount_raw quote) && is_nil data_hex
           | TokenTransferKind =>
               match token_address quote with
               | None => false
               | Some contract =>
                   eq_ignore_case to contract && bool_decide (value_wei = lit "0")
                   && evm_transfer_data_matches data_hex (to_address quote) (pt_amount_raw quote)
               end
           end
  | NativeIntentTransaction (SpecSolana from to lamports _) =>
      bool_decide (pt_chain quote = WSolana) && bool_decide (pt_kind quote = NativeTransferKind)
      && bool_decide (from = from_address quote) && bool_decide (to = to_address quote) && amount_is quote lamports
  | NativeIntentTransaction (SpecTron _ expected_to _ transfer) =>
      if negb (bool_decide (pt_chain quote = WTron)) || negb (bool_decide (expected_to = to_address quote)) then false
      else match pt_kind quote, transfer with
           | NativeTransferKind, Native amount_sun => amount_is quote amount_sun
           | TokenTransferKind, Trc20 parameter_hex => valid_hex parameter_hex
           | _, _ => false
           end
  | NativeIntentMessage message_hex =>
      bool_decide (pt_chain quote = WSolana) && bool_decide (pt_kind quote = TokenTransferKind) && valid_hex message_hex
  end.

(** [decimal_json]. *)
Definition decimal_json (value : option Json) : option str :=
  match value with
  | Some (JStr s) => Some s
  | Some (JNum n) => Some (number_text n)
  | _ => None
  end.

Definition known_evm_chain (network : str) (chain_id : Z) : bool :=
  existsb (fun known => bool_decide (EvmNetwork_as_str known = network) && (EvmNetwork_chain_id known =? chain_id)) EvmNetwork_ALL.

Definition operation_matches (kind : Web3QuoteKind) (operation : str) : bool := bool_decide (operation = operation_name kind).

#[export] Instance Web3QuoteKind_eq_dec : EqDecision Web3QuoteKind.
Proof. solve_decision. Defined.

(** [v.get(key).and_then(Value::as_str)]. *)
Definition str_member (key : string) (v : Json) : option str := jget (lit key) v ≫= as_str.

(** [Option::is_some_and(|expected| expected == v)] on a string member. *)
Definition member_is (key : string) (v : Json) (test : str -> bool) : bool :=
  match str_member key v with Some s => test s | None => false end.

Definition web3_approval_matches_request (quote : Web3QuoteResponse) (request : AuthorizeWeb3ExecutionRequest) : bool :=
  if negb (bool_decide (qr_quote_id quote = aw_quote_id request)) || negb (operation_matches (qr_kind quote) (aw_operation request)) then false
  else
    match aw_transaction request, qr_signing_chain quote with
    | Web3IntentEvm network to data value _ _ _ chain_id, WEvm =>
        let other_network := match str_member "network" (qr_quote quote) with
                             | Some expected => negb (bool_decide (expected = network))
                             | None => false
                             end in
        if other_network || negb (known_evm_chain network chain_id) then false
        else match qr_kind quote with
             | DappCall =>
                 member_is "contractAddress" (qr_quote quote) (fun expected => eq_ignore_case expected to)
                 && member_is "calldata" (qr_quote quote) (fun expected => bool_decide (data = Some expected))
                 && member_is "valueRaw" (qr_quote quote) (fun expected => bool_decide (expected = value))
             | Swap | Bridge =>
                 match jget (lit "tx") (qr_quote quote) with
                 | Some transaction =>
                     member_is "to" transaction (fun expected => eq_ignore_case expected to)
                     && bool_decide (str_member "data" transaction = data)
                     && bool_decide (decimal_json (jget (lit "value") transaction) = Some value)
                 | None => false
                 end
             end
    | Web3IntentSolana tx_blob_hex, WSolana =>
        (bool_decide (qr_kind quote = Swap) || bool_decide (qr_kind quote = Bridge))
        && bool_decide ((jget (lit "tx") (qr_quote quote) ≫= str_member "data") = Some tx_blob_hex)
    | _, _ => false
    end.

(** * Text facts *)

Lemma decimal_u256_word_shown v : is_u128 v -> decimal_u256_word (show_dec v) = Some (hex_string (be_bytes 32 v)).
Proof.
  intros Hv. destruct (show_dec_decimal_text v Hv) as (Hn & Hd & Hval).
  rewrite trim_graphic in Hn, Hd, Hval.
  2-4: eapply list.Forall_impl; [apply show_dec_digits, Hv|]; intros b Hb; cbv beta in Hb; unfold is_graphic, within; lia.
  unfold decimal_u256_word. rewrite (proj2 (is_nil_false _) Hn), (proj1 (digits_text _) Hd). cbn [orb negb].
  rewrite decimal_loop_spec; [|bytes_closed | reflexivity | exact Hd]. cbv zeta.
  change (be_value (replicate 32 0)) with 0. change (digits_value 10 0 _) with (decimal_value (show_dec v)). rewrite <- Hval.
  rewrite (proj2 (Z.ltb_lt _ _)); [reflexivity|]. unfold is_u128, u128_max in Hv. lia.
Qed.

Lemma valid_hex_string bs : bytes_ok bs -> bs <> [] -> valid_hex (hex_string bs) = true.
Proof.
  intros Hok Hne. unfold valid_hex. rewrite hex_string_length. apply andb_true_iff. split; [apply andb_true_iff; split|].
  - destruct bs; [congruence | reflexivity].
  - apply Nat.eqb_eq. rewrite Nat.mul_comm. apply Nat.Div0.mod_mul.
  - apply forallb_forall. intros c Hc. apply list_elem_of_In in Hc.
    pose proof (hex_string_forall (fun b => is_ascii_hexdigit b = true) bs) as H. cbv beta in H.
    apply (proj1 (list.Forall_forall _ _) (H ltac:(intros d Hd; apply digit_char_hexdigit; lia) Hok) c Hc).
Qed.

Lemma strip_0x_app body : strip_0x (lit "0x" ++ body) = Some body.
Proof. unfold strip_0x. rewrite strip_prefix_app. reflexivity. Qed.

(** A hex text carries no prefix of either case. *)
Lemma strip_0x_hex s : hex_text s -> strip_0x s = None.
Proof.
  intros Hs. unfold strip_0x.
  assert (Hp : forall x t, s <> [48; x] ++ t \/ is_ascii_hexdigit x = true).
  { intros x t. destruct (is_ascii_hexdigit x) eqn:Ex; [auto|]. left. intros ->.
    apply Forall_app in Hs as [Hs _]. apply Forall_cons_iff in Hs as [_ Hs]. apply Forall_cons_iff in Hs as [Hs _]. congruence. }
  destruct (strip_prefix s (lit "0x")) as [t|] eqn:E.
  - apply strip_prefix_some in E. destruct (Hp 120 t) as [H|H]; [contradiction | discriminate].
  - destruct (strip_prefix s (lit "0X")) as [t|] eqn:E'; [|reflexivity].
    apply strip_prefix_some in E'. destruct (Hp 88 t) as [H|H]; [contradiction | discriminate].
Qed.

Lemma hex_text_forallb s : hex_text s -> forallb is_ascii_hexdigit s = true.
Proof. intros H. apply forallb_forall. intros c Hc. apply list_elem_of_In in Hc. exact (proj1 (list.Forall_forall _ _) H c Hc). Qed.

(** The call data an ERC-20 transfer is signed with, as the comparison expects
    it: of a recipient written with its prefix. *)
Lemma transfer_data_matches to recipient amount :
  graphic to -> address_bytes to recipient -> is_u128 amount ->
  evm_transfer_data_matches (lit "0x" ++ hex_string (TRANSFER_SELECTOR ++ left_pad_address recipient ++ be_bytes 32 amount)) to
    (show_dec amount) = starts_with to (lit "0x").
Proof.
  intros Hg (body & (Hf & Hl & Hh) & Hrl & Hrok & Hrs) Ha. rewrite (trim_graphic to Hg) in Hf. unfold evm_transfer_data_matches.
  destruct Hf as [-> | ->].
  - rewrite strip_0x_hex by exact Hh. destruct (starts_with body (lit "0x")) eqn:E; [|reflexivity].
    apply starts_with_spec in E as (t & ->). pose proof (strip_0x_app t) as Hs. rewrite strip_0x_hex in Hs by exact Hh. discriminate.
  - rewrite strip_0x_app, starts_with_app, Hl, (hex_text_forallb _ Hh), (decimal_u256_word_shown _ Ha), strip_0x_app.
    change (negb (EVM_ADDRESS_HEX_LEN =? 40)%nat || negb true) with false. cbv iota zeta. cbn [default].
    rewrite <- Hrs, !hex_string_app. unfold eq_ignore_case. apply bool_decide_eq_true. f_equal.
    change (hex_string TRANSFER_SELECTOR) with (lit "a9059cbb"). unfold left_pad_address, pad_left_zeros.
    rewrite hex_string_app, hex_string_length, Hrl. reflexivity.
Qed.

Lemma token_contracts_graphic chain network cluster :
  let plain a := match ad_contract_address a with Some c => forallb is_graphic c | None => true end in
  Forall (fun a => plain a = true) (match network with Some net => evm_asset_catalog net | None => asset_catalog chain cluster end) /\
  Forall (fun a => plain a = true) (engine_catalog chain network cluster).
Proof. destruct chain, cluster; try destruct network as [[]|]; split; repeat constructor. Qed.

Lemma transferred_contract_graphic `{Codecs} chain network symbol cluster a token :
  transfer_asset chain network symbol cluster = Ok a -> ad_contract_address a = Some token -> graphic token.
Proof.
  intros E Ht. destruct (token_contracts_graphic chain network cluster) as [H1 H2].
  pose proof (transfer_asset_all _ _ _ _ _ _ H1 H2 E) as Hg. cbv beta in Hg. rewrite Ht in Hg.
  apply list.Forall_forall. intros c Hc. apply list_elem_of_In in Hc. exact (proj1 (forallb_forall _ _) Hg c Hc).
Qed.

(** * The module's native requests *)

Section Native.
Context `{CodecLaws, Curve25519, Serde, Base64}.

Lemma amount_is_parsed quote a : parse_u64 (pt_amount_raw quote) = Ok a -> amount_is quote a = true.
Proof. intros E. unfold amount_is. rewrite E. apply Z.eqb_refl. Qed.

Lemma evm_request_matches t id c amount q intent :
  pt_chain t = WEvm -> graphic (to_address t) -> is_u128 amount -> pt_amount_raw t = show_dec amount -> pt_evm_network t = Some id ->
  pt_kind t = (if c is Some _ then TokenTransferKind else NativeTransferKind) -> token_address t = c ->
  match c with Some token => graphic token | None => True end ->
  evm_authorizes t q -> shown q = Some intent ->
  native_intent_matches_quote t intent = match c with Some _ => starts_with (to_address t) (lit "0x") | None => true end.
Proof.
  intros Hc Hg Hu Ha Hn Hk Ht Hp Hq Hs. apply (evm_quoted_pays id t c amount q Hg Hu Ha Hn Hk Ht) in Hq. destruct c as [token|].
  - destruct Hq as (recipient & nonce & gas & price & Hr & ->). injection Hs as <-.
    cbn -[lit]. rewrite Hc, Hn, Hk, Ht, Ha. cbn [EvmNetwork_or_mainnet default]. rewrite Z.eqb_refl, bool_decide_eq_true_2 by reflexivity.
    cbn [negb orb]. rewrite (trim_graphic token Hp), eq_ignore_case_refl, bool_decide_eq_true_2 by reflexivity. cbn [andb].
    apply transfer_data_matches; assumption.
  - destruct Hq as (nonce & gas & price & ->). injection Hs as <-.
    cbn -[lit]. rewrite Hc, Hn, Hk, Ha. cbn [EvmNetwork_or_mainnet default]. rewrite Z.eqb_refl, !bool_decide_eq_true_2 by reflexivity. reflexivity.
Qed.

(** The answer of the comparison to the module's own request for a quote. *)
Definition request_matches (t : PreparedTransaction) : bool :=
  match pt_chain t, token_address t with
  | WEvm, Some _ => starts_with (to_address t) (lit "0x")
  | WTron, Some token => bool_decide (token = to_address t)
  | _, _ => true
  end.

End Native.

(** * The module's web3 requests *)

(** The response a host was given for a stored quote. *)
Definition answers_for (w : Web3QuoteResponse) (quote : StoredQuote) : Prop :=
  qr_quote_id w = sq_quote_id quote /\ qr_kind w = sq_kind quote /\
  qr_signing_chain w = signing_chain_of (sq_unsigned quote) /\ qr_quote w = sq_summary quote.

Lemma eip155_not_known chain_id : known_evm_chain (lit "eip155:" ++ show_dec chain_id) chain_id = false.
Proof.
  unfold known_evm_chain. cbn [existsb EvmNetwork_ALL]. rewrite !bool_decide_eq_false_2 by discriminate. reflexivity.
Qed.

Section Web3.
Context `{CodecLaws, Curve25519, Serde, Base64}.

(** Of a swap, bridge or dapp call, the comparison accepts the Solana requests
    and refuses every EVM one.  Take a stored quote, the response the host was
    given for it and a signature request the engine makes for it: when the quote
    is a Solana blob, read from the backend's answer, the approval the host is
    asked for matches the response; when it is an EVM transaction the approval
    never matches, whatever the quote, because the module names the network
    "eip155:<id>" where the comparison knows the networks by name. *)
Theorem web3_requests_match quote w k tr q intent :
  answers_for w quote -> unsigned_asks (sq_unsigned quote) k tr q -> web3_intent quote q = Some intent ->
  let asked := mkAuthorizeWeb3 (sq_quote_id quote) (operation_name (sq_kind quote)) intent in
  match sq_unsigned quote with
  | UEvm _ _ _ _ => web3_approval_matches_request w asked = false
  | USolana blob =>
      unsigned_from_response (sq_summary quote) FamilySolana = Ok (USolana blob) -> sq_kind quote <> DappCall ->
      web3_approval_matches_request w asked = true
  end.
Proof.
  intros (Hid & Hk & Hc & Hq) Hu Hi. cbv zeta. unfold web3_intent in Hi. destruct (sq_unsigned quote) as [net to data value|blob].
  - destruct Hu as (data' & _ & target & v & nonce & gas & price & _ & _ & ->). cbn [evm_intent] in Hi.
    apply (inj Some) in Hi as <-.
    unfold web3_approval_matches_request. cbn [aw_transaction aw_quote_id aw_operation signing_chain_of] in *. rewrite Hc.
    rewrite eip155_not_known. cbn [negb]. rewrite orb_true_r. case_match; reflexivity.
  - intros Hresp Hkind. assert (intent = Web3IntentSolana blob) as -> by (destruct q; congruence). clear Hi Hu.
    unfold unsigned_from_response in Hresp. apply bind_ok in Hresp as (tx & Htx & Hresp). apply bind_ok in Hresp as (b & Hb & [= ->]).
    apply ok_or_ok in Htx, Hb. unfold web3_approval_matches_request, operation_matches. cbn [aw_transaction aw_quote_id aw_operation signing_chain_of] in *.
    rewrite Hid, Hk, Hc, Hq, Htx, !(bool_decide_eq_true_2 (_ = _) eq_refl). cbn [negb orb option_bind mbind].
    unfold str_member. rewrite Hb. rewrite !(bool_decide_eq_true_2 (_ = _) eq_refl), andb_true_r.
    destruct (sq_kind quote); [rewrite bool_decide_eq_true_2 by reflexivity; reflexivity | | congruence].
    rewrite (bool_decide_eq_true_2 (Bridge = Bridge)) by reflexivity. apply orb_true_r.
Qed.
End Web3.

(** * What a match fixes *)

Lemma decimal_u256_word_ok a w : decimal_u256_word a = Some w ->
  let v := decimal_value a in 0 <= v < 2 ^ 256 /\ w = hex_string (be_bytes 32 v).
Proof.
  unfold decimal_u256_word. destruct (is_nil a); [discriminate|]. destruct (forallb is_ascii_digit a) eqn:Hd; [|discriminate].
  cbn [orb negb]. apply digits_text in Hd. rewrite decimal_loop_spec; [|bytes_closed | reflexivity | exact Hd]. cbv zeta.
  change (be_value (replicate 32 0)) with 0. change (digits_value 10 0 _) with (decimal_value a).
  destruct (Z.ltb_spec (decimal_value a) (2 ^ 256)); [|discriminate]. intros [= <-].
  split; [split; [apply decimal_nonneg, Hd | assumption] | reflexivity].
Qed.

Lemma ascii_lowercase_app a b : ascii_lowercase (a ++ b) = ascii_lowercase a ++ ascii_lowercase b.
Proof. apply fmap_app. Qed.

Lemma strip_0x_lower s body : strip_0x s = Some body -> ascii_lowercase s = lit "0x" ++ ascii_lowercase body.
Proof.
  unfold strip_0x. destruct (strip_prefix s (lit "0x")) as [t|] eqn:E.
  - intros [= <-]. apply strip_prefix_some in E as ->. apply ascii_lowercase_app.
  - intros E'. apply strip_prefix_some in E' as ->. apply ascii_lowercase_app.
Qed.

(** What the comparison takes for the call data of a transfer. *)
Lemma data_matches_reads data to amount : evm_transfer_data_matches data to amount = true ->
  exists body, ascii_lowercase to = lit "0x" ++ ascii_lowercase body /\ length body = 40%nat /\
    let v := decimal_value amount in 0 <= v < 2 ^ 256 /\
    ascii_lowercase (default data (strip_0x data)) =
      lit "a9059cbb" ++ (replicate 24 48 ++ ascii_lowercase body) ++ hex_string (be_bytes 32 v).
Proof.
  unfold evm_transfer_data_matches. destruct (strip_0x to) as [body|] eqn:Eb; [|discriminate].
  destruct (Nat.eqb_spec (length body) 40) as [Hl|]; [|discriminate]. destruct (forallb is_ascii_hexdigit body); [|discriminate].
  cbn [negb orb]. destruct (decimal_u256_word amount) as [w|] eqn:Ew; [|discriminate].
  apply decimal_u256_word_ok in Ew as [Hv ->]. unfold eq_ignore_case. intros E. apply bool_decide_eq_true in E.
  exists body. split; [exact (strip_0x_lower _ _ Eb)|]. split; [exact Hl|]. split; [exact Hv|]. rewrite E.
  rewrite !ascii_lowercase_app, hex_string_lower by apply be_bytes_ok. unfold pad_left_zeros.
  rewrite ascii_lowercase_app, ascii_lowercase_idem. unfold ascii_lowercase at 3. rewrite length_fmap, Hl. reflexivity.
Qed.

Lemma data_match_fixes data to1 a1 to2 a2 :
  evm_transfer_data_matches data to1 a1 = true -> evm_transfer_data_matches data to2 a2 = true ->
  eq_ignore_case to1 to2 = true /\ decimal_value a1 = decimal_value a2.
Proof.
  intros (b1 & H1 & L1 & V1 & D1)%data_matches_reads (b2 & H2 & L2 & V2 & D2)%data_matches_reads.
  rewrite D1 in D2. apply app_inv_head in D2. apply app_inj_1 in D2 as [Hb Hw];
    [|rewrite !length_app; unfold ascii_lowercase; rewrite !length_fmap; congruence].
  apply app_inv_head in Hb. split.
  - unfold eq_ignore_case. apply bool_decide_eq_true. rewrite H1, H2, Hb. reflexivity.
  - apply hex_string_inj in Hw; [|apply be_bytes_ok..]. apply (f_equal be_value) in Hw.
    rewrite !be_value_bytes in Hw by (change (256 ^ Z.of_nat 32) with (2 ^ 256); assumption). exact Hw.
Qed.

(** The two quotes are for the same transfer, as far as the intent says: chain,
    kind, recipient and amount; not its fee, nor, for what is compared as hex
    only, more than that. *)
Definition same_transfer_as (intent : NativeWalletExecutionIntent) (q1 q2 : PreparedTransaction) : Prop :=
  pt_chain q1 = pt_chain q2 /\ pt_kind q1 = pt_kind q2 /\
  match intent with
  | NativeIntentTransaction (SpecBtc from to amount _ _) | NativeIntentTransaction (SpecSolana from to amount _) =>
      from_address q1 = from_address q2 /\ to_address q1 = to_address q2 /\
      parse_u64 (pt_amount_raw q1) = Ok amount /\ parse_u64 (pt_amount_raw q2) = Ok amount
  | NativeIntentTransaction (SpecEvm _ _ _ _ _ _ _) =>
      EvmNetwork_chain_id (EvmNetwork_or_mainnet (pt_evm_network q1)) = EvmNetwork_chain_id (EvmNetwork_or_mainnet (pt_evm_network q2)) /\
      eq_ignore_case (to_address q1) (to_address q2) = true /\
      decimal_value (pt_amount_raw q1) = decimal_value (pt_amount_raw q2) /\
      (pt_kind q1 = TokenTransferKind ->
         exists c1 c2, token_address q1 = Some c1 /\ token_address q2 = Some c2 /\ eq_ignore_case c1 c2 = true)
  | NativeIntentTransaction (SpecTron _ _ _ transfer) =>
      to_address q1 = to_address q2 /\
      match transfer with
      | Native amount => parse_u64 (pt_amount_raw q1) = Ok amount /\ parse_u64 (pt_amount_raw q2) = Ok amount
      | Trc20 _ => True
      end
  | NativeIntentMessage _ => True
  end.

Lemma amount_is_ok q n : amount_is q n = true -> parse_u64 (pt_amount_raw q) = Ok n.
Proof. unfold amount_is. destruct (parse_u64 _) as [a|e|]; [|discriminate..]. intros E%Z.eqb_eq. congruence. Qed.

Lemma eq_ignore_case_join a b c : eq_ignore_case a b = true -> eq_ignore_case a c = true -> eq_ignore_case b c = true.
Proof. unfold eq_ignore_case. rewrite !bool_decide_eq_true. congruence. Qed.

(** The empty call data is no ERC-20 transfer. *)
Lemma no_data_no_transfer to amount : evm_transfer_data_matches [] to amount = false.
Proof.
  destruct (evm_transfer_data_matches [] to amount) eqn:E; [|reflexivity]. exfalso.
  apply data_matches_reads in E as (body & _ & _ & _ & E). discriminate E.
Qed.

Lemma is_nil_true {A} (l : list A) : is_nil l = true -> l = [].
Proof. destruct l; [reflexivity | discriminate]. Qed.

Ltac split_bools := repeat match goal with
  | H : _ && _ = true |- _ => apply andb_true_iff in H as [? H]
  | H : bool_decide _ = true |- _ => apply bool_decide_eq_true in H
  | H : amount_is _ _ = true |- _ => apply amount_is_ok in H
  | H : (if ?b then false else _) = true |- _ => destruct b eqn:?; [discriminate|]
  | H : negb _ || negb _ = false |- _ => apply orb_false_elim in H as [?%negb_false_iff ?%negb_false_iff]
  | H : (_ =? _) = true |- _ => apply Z.eqb_eq in H
  | H : is_nil _ = true |- _ => apply is_nil_true in H
  end.

(** C31. A match fixes the transfer.  If one intent matches two quotes, they are
    for the same chain and kind of transfer; a Bitcoin or native Solana or Tron
    intent fixes the recipient and the amount, and on Bitcoin and Solana the sender
    too; an Ethereum intent fixes the network, the recipient and, for an ERC-20
    token, the contract, up to the case of their letters, and the amount.  A
    host that holds a quote and checks the intent before it answers cannot
    approve another payment on those chains. *)
Theorem match_fixes_transfer q1 q2 intent :
  native_intent_matches_quote q1 intent = true -> native_intent_matches_quote q2 intent = true -> same_transfer_as intent q1 q2.
Proof.
  unfold same_transfer_as, native_intent_matches_quote. destruct intent as [t|m]; [destruct t as [from to sat fee u|to v d n g p id|from to l bh|raw to txid tr]|]; cbv zeta; intros H1 H2.
  - split_bools. split_and!; congruence.
  - split_bools. assert (Hn : EvmNetwork_chain_id (EvmNetwork_or_mainnet (pt_evm_network q1)) = EvmNetwork_chain_id (EvmNetwork_or_mainnet (pt_evm_network q2))) by congruence.
    split; [congruence|].
    destruct (pt_kind q1), (pt_kind q2), (token_address q1) as [c1|], (token_address q2) as [c2|]; try discriminate; split_bools; subst;
      try (rewrite no_data_no_transfer in *; discriminate);
      try (split_and!; try congruence; unfold eq_ignore_case; apply bool_decide_eq_true; congruence).
    assert (Hd : eq_ignore_case (to_address q1) (to_address q2) = true /\ decimal_value (pt_amount_raw q1) = decimal_value (pt_amount_raw q2))
      by (eapply data_match_fixes; eassumption).
    destruct Hd as [Hto Ham]. split; [reflexivity|]. split; [exact Hn|]. split; [exact Hto|]. split; [exact Ham|]. intros _.
    exists c1, c2. split_and!; auto. eapply eq_ignore_case_join; eassumption.
  - split_bools. split_and!; congruence.
  - split_bools. split; [congruence|]. destruct (pt_kind q1), (pt_kind q2), tr; try discriminate; split_bools; split_and!; exact I || congruence.
  - split_bools. split_and!; exact I || congruence.
Qed.

(** * Examples *)

(** USDC on Ethereum, to a recipient given without "0x". *)
Definition bare_to : str := lit "2222222222222222222222222222222222222222".
Definition bare_params : PrepareTransferParams := mkPrepareParams WEvm bare_to (lit "5") (Some (lit "USDC")) None.
Definition usdc : str := lit "0xA0b86991c6218b36c1d19D4a2e9Eb0cE3606eB48".
Definition usdc_asset : WalletAssetDefinition :=
  mkAssetDefinition WEvm (Some EthereumMainnet) (lit "USDC") (lit "USD Coin") false 6 (Some usdc).
Definition bare_quote : PreparedTransaction :=
  mkPrepared (lit "q_1") TokenTransferKind WEvm (Some EthereumMainnet) (wa_address demo_account) bare_to (lit "USDC") (lit "5")
    (lit "0.000005") None None None (Some usdc) (lit "630000000000000") AwaitingConfirmation 1000 301000 [].
Definition bare_transaction : TransactionSpec :=
  SpecEvm usdc (lit "0") (lit "0x" ++ hex_string (TRANSFER_SELECTOR ++ left_pad_address (replicate 20 34) ++ be_bytes 32 5))
    0 65000 (lit "1") 1.


(** A dapp call quoted with exactly its own summary. *)
Definition dapp_to : str := lit "0x2222222222222222222222222222222222222222".
Definition dapp_quote : StoredQuote :=
  mkQuote (lit "w3_1") DappCall (UEvm EthereumMainnet dapp_to (Some (lit "0xa9059cbb")) (lit "0"))
    (jobj [(lit "type", JStr (lit "dapp_call")); (lit "network", JStr (lit "ethereum_mainnet"));
           (lit "contractAddress", JStr dapp_to); (lit "calldata", JStr (lit "0xa9059cbb")); (lit "valueRaw", JStr (lit "0"))]) None 301000.
Definition dapp_response : Web3QuoteResponse := mkWeb3QuoteResponse (lit "w3_1") DappCall 301000 WEvm (sq_summary dapp_quote).

(** Refused as the module asks it, accepted with the network's name. *)
Lemma web3_requests_match_witness :
  let asks network := mkAuthorizeWeb3 (lit "w3_1") (lit "dapp_call")
                        (Web3IntentEvm network dapp_to (Some (lit "0xa9059cbb")) (lit "0") 0 21000 (lit "1") 1) in
  web3_approval_matches_request dapp_response (asks (lit "eip155:1")) = false /\
  web3_approval_matches_request dapp_response (asks (EvmNetwork_as_str EthereumMainnet)) = true.
Proof.
  cbv zeta. split; [|vm_compute; reflexivity].
  refine (web3_requests_match (H := base58_codecs) dapp_quote dapp_response [] []
    (SignTransaction WEvm (SpecEvm dapp_to (lit "0") (lit "0xa9059cbb") 0 21000 (lit "1") 1)) _ _ _ _).
  - split_and!; reflexivity.
  - exists (Some (lit "0xa9059cbb")). split; [split; [vm_compute; reflexivity | eauto]|].
    exists dapp_to, 0, 0, 21000, (lit "1"). split_and!; vm_compute; reflexivity.
  - vm_compute. reflexivity.
Defined.

(** One intent and two quotes, the second in other letters and with zeros before
    its amount. *)
Lemma match_fixes_transfer_witness :
  let quote to amount := mkPrepared (lit "q_1") TokenTransferKind WEvm None [] to (lit "USDC") amount [] None None None (Some usdc)
                           [] AwaitingConfirmation 0 0 [] in
  let to1 := lit "0x2222222222222222222222222222222222222bbb" in
  let to2 := lit "0X2222222222222222222222222222222222222BBB" in
  let data := lit "0x" ++ hex_string (TRANSFER_SELECTOR ++ left_pad_address (replicate 18 34 ++ [43; 187]) ++ be_bytes 32 5) in
  let intent := NativeIntentTransaction (SpecEvm usdc (lit "0") data 0 65000 (lit "1") 1) in
  native_intent_matches_quote (quote to1 (lit "5")) intent = true /\
  same_transfer_as intent (quote to1 (lit "5")) (quote to2 (lit "005")).
Proof.
  cbv zeta. split; [vm_compute; reflexivity|].
  apply match_fixes_transfer; vm_compute; reflexivity.
Defined.
