(* ===== verification/Client.v ===== *)
(** The library's chain client ([src/client/mod.rs], [evm.rs], [btc.rs],
    [solana.rs], [tron.rs], [status.rs]).

    Each operation is a program over the transport's requests ([Host]), ending in
    the client's own error.  Keys are the caller's; what is signed is the library's
    transaction of [EvmTx], [BtcTx], [SolWire] and [TronTx].

    Shown: a sending operation broadcasts at most once, last, and exactly the
    transaction the library signs with the caller's key for the recipient and
    amount given, after its checks; a reading one changes nothing, and asks
    nothing for an address its chain refuses; a status is only what a node's
    answer bears out.  Typed decoding and printing of JSON are serde's. *)

From stdpp Require Import base list strings numbers.
From S2P Require Import Prelude Program Text Chain Codec Base58 Addr Proto TronTx EvmTx BtcTx Json Wire Quotes Assets.
From S2P Require Import X402Wire Eip712 SolWire Host NoPanic Engine Signing Transfer Queries Keys Signer.

Inductive client_error :=
  | EAddress (e : addr_error)
  | ETransport (e : TransportError)
  | ETx (e : tx_error)
  | EChainIdMismatch (network : NetworkId) (expected reported : Z)
  | EMalformed (network : NetworkId) (operation : str) (detail : str).

(** Programs of the client. *)
Abbreviation query := (program answer client_error).

Record Stats := mkStats { funded_txo_sum : Z; spent_txo_sum : Z }.
Record AddressInfo := mkAddressInfo { chain_stats : Stats; mempool_stats : Stats }.
Record BalanceResult := mkBalanceResult { br_value : Z }.

(** serde's readers of the client's types, its printer, and [Debug] of a text. *)
Class NodeSerde := {
  cs_address : Deserialize AddressInfo;
  cs_utxos : Deserialize (list EsploraUtxo);
  cs_balance : Deserialize BalanceResult;
  cs_json : Deserialize Json;
  cs_printer : JsonPrinter;
  debug_text : str -> str
}.
#[export] Existing Instances cs_address cs_utxos cs_balance cs_json cs_printer.

(** * Transport *)

Definition client_network_id (network : Network) : NetworkId :=
  match Network_chain_id network with
  | Some chain_id => mkNetwork Evm (Some chain_id)
  | None => mkNetwork (Network_chain network) None
  end.

Definition sent {A} (r : TransportError + A) : query A :=
  match r with inl e => Done (Err (ETransport e)) | inr a => Done (Ok a) end.

Definition client_json_rpc (id : NetworkId) (method : str) (params : Json) : query Json := Ask (JsonRpc id method params) sent.
Definition client_rest_get (id : NetworkId) (path : str) : query str := Ask (RestGet id path) sent.
Definition client_rest_post (id : NetworkId) (path body content_type : str) : query str := Ask (RestPost id path body content_type) sent.

(** [crate::rpc::decode]. *)
Definition decode {T} `{Deserialize T} (network : NetworkId) (method : str) (value : Json) : TransportError + T :=
  match from_value value with
  | inl e => inl (RpcError network (method ++ lit ": unexpected response shape: " ++ e))
  | inr t => inr t
  end.

(** [serde_json::from_str(&body).map_err(..)]. *)
Definition body_read {T} `{Deserialize T} (id : NetworkId) (operation expected body : str) : query T :=
  match from_str body with
  | inl e => Done (Err (EMalformed id operation (expected ++ lit ": " ++ e)))
  | inr t => Done (Ok t)
  end.

(** [v["key"] = value]. *)
Definition jset {E} (key : str) (value v : Json) : res E Json :=
  match v with
  | JObj fields => Ok (JObj (jput key value fields))
  | JNull => Ok (JObj [(key, value)])
  | _ => Panic
  end.

Section Client.
Context `{Codecs, Secp256k1, BitcoinLib, Ed25519Lib, NodeSerde}.

Definition parse_hex_u128 (network : NetworkId) (operation raw : str) : res client_error Z :=
  map_err (fun e => EMalformed network operation (lit "expected a hex quantity, got " ++ debug_text raw ++ lit ": " ++ parse_int_error_text e))
    (parse_unsigned 16 u128_max (without_prefix raw (lit "0x"))).

(** [raw.as_str().ok_or_else(..)]. *)
Definition text_of (id : NetworkId) (operation expected : str) (raw : Json) : res client_error str :=
  ok_or (as_str raw) (EMalformed id operation (expected ++ lit ", got " ++ json_text raw)).

(** * Ethereum *)

Definition hex_field (id : NetworkId) (method : str) (params : Json) : query Z :=
  raw ← client_json_rpc id method params;
  lift (hex ← text_of id method (lit "expected a hex string") raw; parse_hex_u128 id method hex).

Definition evm_balance (network : CryptoEvmNetwork) (address : str) : query Z :=
  let id := client_network_id (NetEvm network) in
  raw ← client_json_rpc id (lit "eth_getBalance") (JArr [JStr address; JStr (lit "latest")]);
  lift (hex ← text_of id (lit "eth_getBalance") (lit "expected a hex string") raw; parse_hex_u128 id (lit "eth_getBalance") hex).

(** The call whose gas is estimated. *)
Definition gas_request (from to : str) (value : Z) (data : list Z) : res client_error Json :=
  let estimate := jobj [(lit "from", JStr from); (lit "to", JStr to); (lit "value", JStr (u128_to_hex value))] in
  if is_nil data then Ok estimate else jset (lit "data") (JStr (lit "0x" ++ hex_string data)) estimate.

Definition evm_send (network : CryptoEvmNetwork) (from to : str) (value : Z) (data secret_key : list Z) : query str :=
  let id := client_network_id (NetEvm network) in
  reported ← hex_field id (lit "eth_chainId") (JArr []);
  let expected := crypto_chain_id network in
  _ ← lift (err_if (negb (reported =? expected)) (EChainIdMismatch id expected reported));
  nonce ← hex_field id (lit "eth_getTransactionCount") (JArr [JStr from; JStr (lit "pending")]);
  gas_price ← hex_field id (lit "eth_gasPrice") (JArr []);
  estimate ← lift (gas_request from to value data);
  gas_limit ← hex_field id (lit "eth_estimateGas") (JArr [estimate]);
  signed ← lift (map_err ETx (evm_sign (mkTx nonce gas_price gas_limit (Some to) value data expected) secret_key));
  raw ← client_json_rpc id (lit "eth_sendRawTransaction") (JArr [JStr (lit "0x" ++ hex_string signed)]);
  lift (text_of id (lit "eth_sendRawTransaction") (lit "expected a transaction hash") raw).

(** * Bitcoin *)

Definition net (s : Stats) : Z := Z.max 0 (funded_txo_sum s - spent_txo_sum s).

Definition btc_balance (address : str) : query Z :=
  let id := client_network_id NetBtc in
  body ← client_rest_get id (lit "address/" ++ address);
  info ← body_read id (lit "address") (lit "not an Esplora address response") body;
  mret (net (chain_stats info) + net (mempool_stats info)).

(** [listed.into_iter().map(..)]. *)
Definition listed_utxos (listed : list EsploraUtxo) : list Utxo := signer_utxo <$> listed.

Definition utxos (address : str) : query (list Utxo) :=
  let id := client_network_id NetBtc in
  body ← client_rest_get id (lit "address/" ++ address ++ lit "/utxo");
  listed ← body_read (T := list EsploraUtxo) id (lit "address/utxo") (lit "not an Esplora UTXO list") body;
  mret (listed_utxos listed).

Definition btc_send (from to : str) (amount fee : Z) (secret_key : list Z) : query str :=
  let id := client_network_id NetBtc in
  available ← utxos from;
  raw_hex ← lift (map_err ETx (btc_sign (mkTransfer from to amount fee) available secret_key));
  txid ← client_rest_post id (lit "tx") raw_hex (lit "text/plain");
  mret (trim txid).

(** * Solana *)

Definition sol_balance (address : str) : query Z :=
  let id := client_network_id (NetSolana ClusterMainnet) in
  raw ← client_json_rpc id (lit "getBalance") (JArr [JStr address]);
  parsed ← sent (decode id (lit "getBalance") raw);
  mret (br_value parsed).

(** The alphabet is [Signer.BASE64_TABLE]'s. *)
Definition base64_quad (chunk : list Z) : str :=
  let triple := Z.lor (Z.lor (Z.shiftl (nth 0 chunk 0) 16) (Z.shiftl (default 0 (chunk !! 1%nat)) 8)) (default 0 (chunk !! 2%nat)) in
  let digit shift := nth (Z.to_nat (Z.land (Z.shiftr triple shift) 63)) BASE64_TABLE 0 in
  [digit 18; digit 12; (if (1 <? length chunk)%nat then digit 6 else 61); (if (2 <? length chunk)%nat then digit 0 else 61)].

(** [chunks(n)], in [fuel] chunks. *)
Fixpoint chunks {A} (fuel n : nat) (l : list A) : list (list A) :=
  match fuel, l with
  | _, [] | O, _ => []
  | S fuel, _ => take n l :: chunks fuel n (drop n l)
  end.

Definition base64_encode (bytes : list Z) : str := chunks (length bytes) 3 bytes ≫= base64_quad.

Definition sol_send (cluster : SolanaCluster) (from to : str) (lamports : Z) (secret_key : list Z) : query str :=
  let id := client_network_id (NetSolana cluster) in
  raw ← client_json_rpc id (lit "getLatestBlockhash") (JArr [jobj [(lit "commitment", JStr (lit "finalized"))]]);
  blockhash ← lift (ok_or ((jget (lit "value") raw ≫= jget (lit "blockhash")) ≫= as_str)
                      (EMalformed id (lit "getLatestBlockhash") (lit "no value.blockhash in " ++ json_text raw)));
  signed ← lift (map_err ETx (sol_sign (mkNative from to lamports blockhash) secret_key));
  raw ← client_json_rpc id (lit "sendTransaction")
          (JArr [JStr (base64_encode signed); jobj [(lit "encoding", JStr (lit "base64"))]]);
  lift (text_of id (lit "sendTransaction") (lit "expected a signature") raw).

(** * Tron *)

Definition tron_hex (address : str) : res client_error str := map_err EAddress (to_hex address).

Definition tron_balance (address : str) : query Z :=
  let id := client_network_id NetTron in
  hex ← lift (tron_hex address);
  raw ← client_rest_post id (lit "wallet/getaccount") (json_text (jobj [(lit "address", JStr hex); (lit "visible", JBool false)]))
          (lit "application/json");
  parsed ← body_read (T := Json) id (lit "wallet/getaccount") (lit "not JSON") raw;
  mret (default 0 (jget (lit "balance") parsed ≫= as_u64)).

Definition field_of (id : NetworkId) (operation key : str) (v : Json) : res client_error str :=
  ok_or (jget key v ≫= as_str) (EMalformed id operation (lit "no " ++ key ++ lit " in " ++ json_text v)).

Definition tron_send (from to : str) (amount : Z) (secret_key : list Z) : query str :=
  let id := client_network_id NetTron in
  owner_hex ← lift (tron_hex from);
  to_hex ← lift (tron_hex to);
  body ← client_rest_post id (lit "wallet/createtransaction")
           (json_text (jobj [(lit "owner_address", JStr owner_hex); (lit "to_address", JStr to_hex);
                             (lit "amount", JNum (JPos amount)); (lit "visible", JBool false)])) (lit "application/json");
  built ← body_read (T := Json) id (lit "wallet/createtransaction") (lit "not JSON") body;
  raw_data_hex ← lift (field_of id (lit "wallet/createtransaction") (lit "raw_data_hex") built);
  txid ← lift (field_of id (lit "wallet/createtransaction") (lit "txID") built);
  _ ← lift (map_err ETx (verify_transfer raw_data_hex to txid (Native amount)));
  signature ← lift (map_err ETx (tron_sign raw_data_hex secret_key));
  signed ← lift (jset (lit "signature") (JArr [JStr (signature_hex signature)]) built);
  body ← client_rest_post id (lit "wallet/broadcasttransaction") (json_text signed) (lit "application/json");
  result ← body_read (T := Json) id (lit "wallet/broadcasttransaction") (lit "not JSON") body;
  if bool_decide (jget (lit "result") result ≫= as_bool = Some true) then mret txid
  else Done (Err (ETransport (RpcError id (lit "broadcast rejected: " ++ json_text result)))).

(** * The public operations *)

Definition valid (r : res addr_error str) : query str := lift (map_err EAddress r).

Definition balance (network : Network) (address : str) : query Z :=
  address ← valid (address_validate (fun _ => true) (Network_chain network) address);
  match network with
  | NetBtc => btc_balance address
  | NetEvm evm => evm_balance evm address
  | NetSolana _ => sol_balance address
  | NetTron => tron_balance address
  end.

Definition send_evm (network : CryptoEvmNetwork) (from to : str) (value : Z) (data secret_key : list Z) : query str :=
  from ← valid (evm_validate from);
  to ← valid (evm_validate to);
  evm_send network from to value data secret_key.

Definition send_solana (cluster : SolanaCluster) (from to : str) (lamports : Z) (secret_key : list Z) : query str :=
  from ← valid (solana_validate from);
  to ← valid (solana_validate to);
  sol_send cluster from to lamports secret_key.

Definition btc_utxos (address : str) : query (list Utxo) :=
  address ← valid (btc_validate address);
  utxos address.

Definition send_btc (from to : str) (amount fee : Z) (secret_key : list Z) : query str :=
  from ← valid (validate_sender from);
  to ← valid (btc_validate to);
  btc_send from to amount fee secret_key.

Definition send_tron (from to : str) (amount : Z) (secret_key : list Z) : query str :=
  from ← valid (tron_validate from);
  to ← valid (tron_validate to);
  tron_send from to amount secret_key.

(** * Status ([status.rs]) *)

Inductive TxState := Pending | Confirmed | Failed.

Record TxStatus := mkTxStatus { ts_state : TxState; ts_confirmations : option Z; ts_block : option Z }.

Definition PENDING : TxStatus := mkTxStatus Pending None None.

(** [b.trim_start_matches("0x")]. *)
Fixpoint trim_0x (s : str) : str := match s with 48 :: 120 :: rest => trim_0x rest | _ => s end.

Definition evm_state (receipt : Json) : TxStatus :=
  if is_null receipt then PENDING
  else
    mkTxStatus (if bool_decide (jget (lit "status") receipt ≫= as_str = Some (lit "0x0")) then Failed else Confirmed) None
      (b ← jget (lit "blockNumber") receipt ≫= as_str;
       match parse_unsigned 16 u64_max (trim_0x b) with Ok n => Some n | _ => None end).

(** [v.get(0)]. *)
Definition jfirst (v : Json) : option Json := match v with JArr l => head l | _ => None end.

(** [is_some_and(|e| !e.is_null())]. *)
Definition present (v : option Json) : bool := match v with Some e => negb (is_null e) | None => false end.

Definition solana_state (raw : Json) : TxStatus :=
  match jget (lit "value") raw ≫= jfirst with
  | Some entry =>
      if is_null entry then PENDING
      else mkTxStatus (if present (jget (lit "err") entry) then Failed else Confirmed)
             (jget (lit "confirmations") entry ≫= as_u64) (jget (lit "slot") entry ≫= as_u64)
  | None => PENDING
  end.

Definition btc_state (parsed : Json) : TxStatus :=
  if bool_decide (jget (lit "confirmed") parsed ≫= as_bool = Some true)
  then mkTxStatus Confirmed None (jget (lit "block_height") parsed ≫= as_u64)
  else PENDING.

Definition tron_state (parsed : Json) : TxStatus :=
  match jget (lit "blockNumber") parsed ≫= as_u64 with
  | None => PENDING
  | Some block =>
      mkTxStatus (match jget (lit "receipt") parsed ≫= jget (lit "result") with
                  | Some result => if bool_decide (as_str result = Some (lit "SUCCESS")) then Confirmed else Failed
                  | None => Confirmed
                  end) None (Some block)
  end.

Definition tx_status (network : Network) (tx_hash : str) : query TxStatus :=
  let id := client_network_id network in
  let hash := trim tx_hash in
  match network with
  | NetEvm _ => receipt ← client_json_rpc id (lit "eth_getTransactionReceipt") (JArr [JStr hash]); mret (evm_state receipt)
  | NetSolana _ => raw ← client_json_rpc id (lit "getSignatureStatuses") (JArr [JArr [JStr hash]]); mret (solana_state raw)
  | NetBtc =>
      body ← client_rest_get id (lit "tx/" ++ hash ++ lit "/status");
      parsed ← body_read id (lit "tx/status") (lit "not JSON") body;
      mret (btc_state parsed)
  | NetTron =>
      body ← client_rest_post id (lit "wallet/gettransactioninfobyid") (json_text (jobj [(lit "value", JStr hash)])) (lit "application/json");
      parsed ← body_read id (lit "wallet/gettransactioninfobyid") (lit "not JSON") body;
      mret (tron_state parsed)
  end.
End Client.

(** * Steps *)

Section Steps.
Context `{Codecs, Secp256k1, BitcoinLib, Ed25519Lib, NodeSerde}.

(** The node answered [method] with a hex quantity. *)
Definition reported (tr : list event) (id : NetworkId) (method : str) (params : Json) (v : Z) : Prop :=
  exists h, Ev (JsonRpc id method params) (inr (JStr h)) ∈ tr /\ parse_unsigned 16 u128_max (without_prefix h (lit "0x")) = Ok v.

Lemma quiet_sent {A} (r : TransportError + A) : quietly (sent r) (fun _ a => r = inr a).
Proof. intros past. destruct r; cbn; split_and!; auto. Qed.

Lemma quiet_request {A} q (k : answer q -> TransportError + A) :
  effectful q = false -> quietly (Ask q (fun r => sent (k r))) (fun tr a => exists r, Ev q r ∈ tr /\ k r = inr a).
Proof.
  intros Hq. apply quietly_ask; [exact Hq|]. intros r. eapply quietly_mono; [apply quiet_sent|]. intros tr a Ha Hin. eauto.
Qed.

Lemma quiet_client_rpc id m p : effectful (JsonRpc id m p) = false ->
  quietly (client_json_rpc id m p) (fun tr v => Ev (JsonRpc id m p) (inr v) ∈ tr).
Proof.
  intros Hq. eapply quietly_mono; [apply (quiet_request (JsonRpc id m p) (fun r => r)), Hq|]. intros tr v (r & Hin & ->). exact Hin.
Qed.

Lemma quiet_client_get id path : quietly (client_rest_get id path) (fun tr b => Ev (RestGet id path) (inr b) ∈ tr).
Proof.
  eapply quietly_mono; [apply (quiet_request (RestGet id path) (fun r => r)); reflexivity|]. intros tr v (r & Hin & ->). exact Hin.
Qed.

Lemma quiet_client_post id path body ct : effectful (RestPost id path body ct) = false ->
  quietly (client_rest_post id path body ct) (fun tr b => Ev (RestPost id path body ct) (inr b) ∈ tr).
Proof.
  intros Hq. eapply quietly_mono; [apply (quiet_request (RestPost id path body ct) (fun r => r)), Hq|]. intros tr v (r & Hin & ->). exact Hin.
Qed.

Lemma quiet_body {T} `{Deserialize T} id op expected body :
  quietly (body_read (T := T) id op expected body) (fun _ t => from_str body = inr t).
Proof. intros past. unfold body_read. destruct (from_str body); cbn; split_and!; auto. Qed.

Lemma text_of_ok id op expected raw h : text_of id op expected raw = Ok h <-> raw = JStr h.
Proof. unfold text_of. destruct raw; cbn; split; congruence. Qed.

Lemma quiet_hex_field id m p : effectful (JsonRpc id m p) = false ->
  quietly (hex_field id m p) (fun tr v => reported tr id m p v).
Proof.
  intros Hq. unfold hex_field. eapply quietly_bind; [apply quiet_client_rpc, Hq|]. intros raw tr0 Hin.
  eapply quietly_mono; [apply quietly_lift|].
  - apply bind_no_panic; [apply ok_or_no_panic|]. intros h. unfold parse_hex_u128. apply map_err_no_panic, parse_unsigned_no_panic.
  - intros tr v Hv Hp. apply bind_ok in Hv as (h & Hh & Hv). apply text_of_ok in Hh as ->. apply map_err_ok in Hv.
    exists h. split; [exact (elem_of_prefix _ _ _ Hin Hp) | exact Hv].
Qed.


(** * Sending *)

(** A run either made no broadcast and gave no value, or ended in its only
    broadcast, which [checked] describes; a value was [accepted]. *)
Definition submitted (checked : list event -> request -> Prop) (accepted : event -> str -> Prop) (tr : list event)
    (r : res client_error str) : Prop :=
  (effects tr = [] /\ is_ok r = false) \/
  exists pre b, tr = pre ++ [b] /\ effects pre = [] /\ is_broadcast (ev_request b) = true /\ checked pre (ev_request b) /\
    forall x, r = Ok x -> accepted b x.

Definition evm_checked (network : CryptoEvmNetwork) (from to : str) (value : Z) (data secret_key : list Z) (pre : list event) (q : request) : Prop :=
  let id := client_network_id (NetEvm network) in
  exists from' to' nonce gas_price gas_limit estimate signed,
    evm_validate from = Ok from' /\ evm_validate to = Ok to' /\
    reported pre id (lit "eth_chainId") (JArr []) (crypto_chain_id network) /\
    reported pre id (lit "eth_getTransactionCount") (JArr [JStr from'; JStr (lit "pending")]) nonce /\
    reported pre id (lit "eth_gasPrice") (JArr []) gas_price /\
    reported pre id (lit "eth_estimateGas") (JArr [estimate]) gas_limit /\ gas_request from' to' value data = Ok estimate /\
    evm_sign (mkTx nonce gas_price gas_limit (Some to') value data (crypto_chain_id network)) secret_key = Ok signed /\
    q = JsonRpc id (lit "eth_sendRawTransaction") (JArr [JStr (lit "0x" ++ hex_string signed)]).

Definition btc_checked (from to : str) (amount fee : Z) (secret_key : list Z) (pre : list event) (q : request) : Prop :=
  exists from' to' body listed raw,
    validate_sender from = Ok from' /\ btc_validate to = Ok to' /\
    Ev (RestGet (client_network_id NetBtc) (lit "address/" ++ from' ++ lit "/utxo")) (inr body) ∈ pre /\ from_str body = inr listed /\
    btc_sign (mkTransfer from' to' amount fee) (listed_utxos listed) secret_key = Ok raw /\
    q = RestPost (client_network_id NetBtc) (lit "tx") raw (lit "text/plain").

Definition sol_checked (cluster : SolanaCluster) (from to : str) (amount : Z) (secret_key : list Z) (pre : list event) (q : request) : Prop :=
  let id := client_network_id (NetSolana cluster) in
  exists from' to' answer value blockhash signed,
    solana_validate from = Ok from' /\ solana_validate to = Ok to' /\
    Ev (JsonRpc id (lit "getLatestBlockhash") (JArr [jobj [(lit "commitment", JStr (lit "finalized"))]])) (inr answer) ∈ pre /\
    jget (lit "value") answer = Some value /\ jget (lit "blockhash") value = Some (JStr blockhash) /\
    sol_sign (mkNative from' to' amount blockhash) secret_key = Ok signed /\
    q = JsonRpc id (lit "sendTransaction") (JArr [JStr (base64_encode signed); jobj [(lit "encoding", JStr (lit "base64"))]]).

Definition tron_checked (from to : str) (amount : Z) (secret_key : list Z) (pre : list event) (q : request) : Prop :=
  exists from' to' owner_hex recipient_hex body fields raw_data_hex txid signature,
    tron_validate from = Ok from' /\ tron_validate to = Ok to' /\ to_hex from' = Ok owner_hex /\ to_hex to' = Ok recipient_hex /\
    Ev (RestPost (client_network_id NetTron) (lit "wallet/createtransaction")
          (json_text (jobj [(lit "owner_address", JStr owner_hex); (lit "to_address", JStr recipient_hex);
                            (lit "amount", JNum (JPos amount)); (lit "visible", JBool false)])) (lit "application/json")) (inr body) ∈ pre /\
    from_str body = inr (JObj fields) /\
    jget (lit "raw_data_hex") (JObj fields) = Some (JStr raw_data_hex) /\ jget (lit "txID") (JObj fields) = Some (JStr txid) /\
    verify_transfer raw_data_hex to' txid (Native amount) = Ok tt /\ tron_sign raw_data_hex secret_key = Ok signature /\
    q = RestPost (client_network_id NetTron) (lit "wallet/broadcasttransaction")
          (json_text (JObj (jput (lit "signature") (JArr [JStr (signature_hex signature)]) fields))) (lit "application/json").

(** The node's word for each: a transaction's hash, or that it took it. *)
Definition rpc_accepted (b : event) (x : str) : Prop := exists id m p, b = Ev (JsonRpc id m p) (inr (JStr x)).
Definition btc_accepted (b : event) (x : str) : Prop := exists id p body ct t, b = Ev (RestPost id p body ct) (inr t) /\ x = trim t.
Definition tron_accepted (b : event) (x : str) : Prop :=
  exists id p v ct text result, b = Ev (RestPost id p (json_text v) ct) (inr text) /\ jget (lit "txID") v = Some (JStr x) /\
    from_str text = inr result /\ jget (lit "result") result = Some (JBool true).

Lemma submitted_early checked accepted tr (e : client_error) : effects tr = [] -> submitted checked accepted tr (Err e).
Proof. intros He. left. auto. Qed.

Lemma submitted_last checked accepted pre q (a : answer q) r :
  effects pre = [] -> is_broadcast q = true -> checked pre q -> (forall x, r = Ok x -> accepted (Ev q a) x) ->
  submitted checked accepted (pre ++ [Ev q a]) r.
Proof. intros He Hb Hc Ha. right. exists pre, (Ev q a). auto. Qed.

(** A quiet step, an error of which ends the run. *)
Lemma submit_quietly {A} (p : query A) (f : A -> query str) Post past checked accepted :
  quietly p Post -> effects past = [] ->
  (forall tr a, past `prefix_of` tr -> effects tr = [] -> Post tr a -> wp (f a) tr (submitted checked accepted)) ->
  wp (p ≫= f) past (submitted checked accepted).
Proof.
  intros Hp He Hf. eapply wp_quietly; [exact Hp | intros; apply submitted_early; congruence|].
  intros tr a Hpre Heff Ha. apply Hf; [exact Hpre | congruence | exact Ha].
Qed.

(** A check. *)
Lemma submit_lift {A} (r : res client_error A) (f : A -> query str) past checked accepted :
  effects past = [] -> (forall a, r = Ok a -> wp (f a) past (submitted checked accepted)) ->
  wp (lift r ≫= f) past (submitted checked accepted).
Proof.
  intros He Hf. destruct r as [a|e|]; [apply Hf; reflexivity | apply submitted_early, He | left; auto].
Qed.

Lemma reported_mono tr tr' id m p v : tr `prefix_of` tr' -> reported tr id m p v -> reported tr' id m p v.
Proof. intros Hp (h & Hin & Hv). exists h. split; [exact (elem_of_prefix _ _ _ Hin Hp) | exact Hv]. Qed.

Ltac client_step lem x H :=
  eapply submit_quietly; [apply lem; reflexivity | eassumption |]; let tr := fresh "tr" in let Hp := fresh "Hp" in let He := fresh "He" in
  intros tr x Hp He H; cbv beta in H.
Ltac client_check x H := apply submit_lift; [eassumption|]; intros x H.

Lemma send_evm_submits network from to value data secret_key :
  wp (send_evm network from to value data secret_key) [] (submitted (evm_checked network from to value data secret_key) rpc_accepted).
Proof.
  unfold send_evm, valid. assert (Heff : effects [] = []) by reflexivity.
  client_check from' Hfrom. client_check to' Hto. apply map_err_ok in Hfrom, Hto. unfold evm_send.
  client_step quiet_hex_field chain Hrep. client_check u Hid. apply err_if_ok, negb_false_iff, Z.eqb_eq in Hid. subst chain.
  client_step quiet_hex_field n Hnonce. client_step quiet_hex_field price Hprice.
  client_check estimate Hest. client_step quiet_hex_field gas Hgas. client_check signed Hsigned. apply map_err_ok in Hsigned.
  assert (Hc : evm_checked network from to value data secret_key tr2 (JsonRpc (client_network_id (NetEvm network)) (lit "eth_sendRawTransaction")
                 (JArr [JStr (lit "0x" ++ hex_string signed)]))).
  { exists from', to', n, price, gas, estimate, signed. split_and!; auto; try (eapply reported_mono; [|eassumption]).
    all: repeat (first [eassumption | etransitivity; [eassumption|]]). }
  intros [e|v]; cbn [sent mbind io_bind io_then wp lift].
  - apply submitted_last; [assumption | reflexivity | exact Hc | discriminate].
  - apply submitted_last; [assumption | reflexivity | exact Hc |]. intros x Hx. apply text_of_ok in Hx as ->. unfold rpc_accepted. eauto.
Qed.

(** What the last request of a sending operation leaves. *)
Ltac client_last Hc := apply submitted_last; [assumption | reflexivity | exact Hc | try discriminate].

Lemma quiet_utxos address :
  quietly (utxos address) (fun tr us => exists body listed,
    Ev (RestGet (client_network_id NetBtc) (lit "address/" ++ address ++ lit "/utxo")) (inr body) ∈ tr /\
    from_str body = inr listed /\ us = listed_utxos listed).
Proof.
  unfold utxos. eapply quietly_bind; [apply quiet_client_get|]. intros body tr0 Hb.
  eapply quietly_bind; [apply quiet_body|]. intros l tr1 Hl. eapply quietly_mono; [apply quietly_ret|].
  intros tr x Hx _ Hp. exists body, l. split_and!; [exact (elem_of_prefix _ _ _ Hb Hp) | exact Hl | exact Hx].
Qed.

Lemma send_btc_submits from to amount fee secret_key :
  wp (send_btc from to amount fee secret_key) [] (submitted (btc_checked from to amount fee secret_key) btc_accepted).
Proof.
  unfold send_btc, valid. assert (Heff : effects [] = []) by reflexivity.
  client_check from' Hfrom. client_check to' Hto. apply map_err_ok in Hfrom, Hto. unfold btc_send.
  eapply submit_quietly; [apply quiet_utxos | eassumption |].
  intros tr available _ He (body & l & Hb & Hl & ->). client_check raw_hex Hraw. apply map_err_ok in Hraw.
  assert (Hc : btc_checked from to amount fee secret_key tr (RestPost (client_network_id NetBtc) (lit "tx") raw_hex (lit "text/plain"))).
  { exists from', to', body, l, raw_hex. auto 10. }
  intros [e|v]; cbn [sent mbind io_bind io_then wp mret io_ret]; client_last Hc.
  intros x [= <-]. unfold btc_accepted. eauto 10.
Qed.

Lemma send_solana_submits cluster from to amount secret_key :
  wp (send_solana cluster from to amount secret_key) [] (submitted (sol_checked cluster from to amount secret_key) rpc_accepted).
Proof.
  unfold send_solana, valid. assert (Heff : effects [] = []) by reflexivity.
  client_check from' Hfrom. client_check to' Hto. apply map_err_ok in Hfrom, Hto. unfold sol_send.
  client_step quiet_client_rpc said Hsaid. client_check bh Hbh. apply ok_or_ok in Hbh.
  client_check signed Hsigned. apply map_err_ok in Hsigned.
  destruct (jget (lit "value") said) as [value|] eqn:Hv; [|discriminate]. cbn [mbind option_bind] in Hbh.
  destruct (jget (lit "blockhash") value) as [[| | |h| |]|] eqn:Hh; try discriminate. injection Hbh as ->.
  assert (Hc : sol_checked cluster from to amount secret_key tr (JsonRpc (client_network_id (NetSolana cluster)) (lit "sendTransaction")
                 (JArr [JStr (base64_encode signed); jobj [(lit "encoding", JStr (lit "base64"))]]))).
  { exists from', to', said, value, bh, signed. auto 10. }
  intros [e|v]; cbn [sent mbind io_bind io_then wp lift]; client_last Hc.
  intros x Hx. apply text_of_ok in Hx as ->. unfold rpc_accepted. eauto.
Qed.

Lemma field_of_ok id op key v x : field_of id op key v = Ok x <-> jget key v = Some (JStr x).
Proof.
  unfold field_of. rewrite ok_or_ok. destruct (jget key v) as [[]|]; cbn; split; congruence.
Qed.

Lemma send_tron_submits from to amount secret_key :
  wp (send_tron from to amount secret_key) [] (submitted (tron_checked from to amount secret_key) tron_accepted).
Proof.
  unfold send_tron, valid. assert (Heff : effects [] = []) by reflexivity.
  client_check from' Hfrom. client_check to' Hto. apply map_err_ok in Hfrom, Hto. unfold tron_send, tron_hex.
  client_check owner Howner. client_check to_h Hto_h.
  client_step quiet_client_post body Hbody. client_step quiet_body built Hbuilt.
  client_check raw_hex Hraw. apply field_of_ok in Hraw. client_check txn Hid. apply field_of_ok in Hid.
  client_check u Hv. apply map_err_ok in Hv. destruct u. client_check signature Hsig. apply map_err_ok in Hsig.
  client_check signed Hsigned. destruct built as [| | | | |fields]; try discriminate. injection Hsigned as <-.
  assert (Hc : tron_checked from to amount secret_key tr0 (RestPost (client_network_id NetTron) (lit "wallet/broadcasttransaction")
      (json_text (JObj (jput (lit "signature") (JArr [JStr (signature_hex signature)]) fields))) (lit "application/json"))).
  { apply map_err_ok in Howner, Hto_h. exists from', to', owner, to_h, body, fields, raw_hex, txn, signature. split_and!; auto.
    exact (elem_of_prefix _ _ _ Hbody Hp0). }
  intros [e|text]; cbn [sent mbind io_bind io_then wp]; [client_last Hc|].
  unfold body_read. destruct (from_str text) as [e|result] eqn:Hr; cbn [mbind io_bind io_then wp]; [client_last Hc|].
  case_bool_decide as Hok; cbn [wp mret io_ret]; client_last Hc. intros x [= <-].
  eexists _, _, _, _, text, result. split; [reflexivity|]. split; [rewrite jget_jput; exact Hid|]. split; [exact Hr|].
  destruct (jget (lit "result") result) as [[|[]| | | |]|]; try discriminate. reflexivity.
Qed.
End Steps.

(** * Reading *)

Section Reads.
Context `{CodecLaws, Secp256k1, BitcoinLib, Ed25519Lib, NodeSerde}.

(** What a native balance rests on: the node's answer for the validated address. *)
Definition balance_read (network : Network) (address : str) (tr : list event) (v : Z) : Prop :=
  exists valid_address, address_validate (fun _ => true) (Network_chain network) address = Ok valid_address /\
  let id := client_network_id network in
  match network with
  | NetEvm _ => reported tr id (lit "eth_getBalance") (JArr [JStr valid_address; JStr (lit "latest")]) v
  | NetBtc =>
      exists body info, Ev (RestGet id (lit "address/" ++ valid_address)) (inr body) ∈ tr /\ from_str body = inr info /\
        v = net (chain_stats info) + net (mempool_stats info) /\ 0 <= v
  | NetSolana _ =>
      exists answer parsed, Ev (JsonRpc id (lit "getBalance") (JArr [JStr valid_address])) (inr answer) ∈ tr /\
        from_value answer = inr parsed /\ v = br_value parsed
  | NetTron =>
      exists hex body parsed, to_hex valid_address = Ok hex /\
        Ev (RestPost id (lit "wallet/getaccount") (json_text (jobj [(lit "address", JStr hex); (lit "visible", JBool false)]))
              (lit "application/json")) (inr body) ∈ tr /\ from_str body = inr parsed /\
        v = default 0 (jget (lit "balance") parsed ≫= as_u64)
  end.

(** What a status rests on: what the node said of the transaction. *)
Definition status_read (network : Network) (tx_hash : str) (tr : list event) (st : TxStatus) : Prop :=
  let id := client_network_id network in
  let hash := trim tx_hash in
  match network with
  | NetEvm _ => exists receipt, Ev (JsonRpc id (lit "eth_getTransactionReceipt") (JArr [JStr hash])) (inr receipt) ∈ tr /\
      match ts_state st with
      | Pending => receipt = JNull /\ ts_block st = None
      | Failed => jget (lit "status") receipt = Some (JStr (lit "0x0"))
      | Confirmed => receipt <> JNull /\ jget (lit "status") receipt <> Some (JStr (lit "0x0"))
      end
  | NetSolana _ => exists answer, Ev (JsonRpc id (lit "getSignatureStatuses") (JArr [JArr [JStr hash]])) (inr answer) ∈ tr /\
      let entry := jget (lit "value") answer ≫= jfirst in
      match ts_state st with
      | Pending => (entry = None \/ entry = Some JNull) /\ ts_block st = None
      | Failed => exists e err, entry = Some e /\ jget (lit "err") e = Some err /\ err <> JNull
      | Confirmed => exists e, entry = Some e /\ e <> JNull /\ (jget (lit "err") e = None \/ jget (lit "err") e = Some JNull)
      end
  | NetBtc => exists body parsed, Ev (RestGet id (lit "tx/" ++ hash ++ lit "/status")) (inr body) ∈ tr /\ from_str body = inr parsed /\
      match ts_state st with
      | Pending => jget (lit "confirmed") parsed <> Some (JBool true) /\ ts_block st = None
      | Failed => False
      | Confirmed => jget (lit "confirmed") parsed = Some (JBool true)
      end
  | NetTron => exists body parsed,
      Ev (RestPost id (lit "wallet/gettransactioninfobyid") (json_text (jobj [(lit "value", JStr hash)])) (lit "application/json")) (inr body) ∈ tr /\
      from_str body = inr parsed /\
      let result := jget (lit "receipt") parsed ≫= jget (lit "result") in
      match ts_state st with
      | Pending => jget (lit "blockNumber") parsed ≫= as_u64 = None /\ ts_block st = None
      | Failed => is_Some (ts_block st) /\ is_Some result /\ result <> Some (JStr (lit "SUCCESS"))
      | Confirmed => is_Some (ts_block st) /\ (result = None \/ result = Some (JStr (lit "SUCCESS")))
      end
  end.

Lemma quiet_valid r : r <> Panic -> quietly (valid r) (fun _ x => r = Ok x).
Proof.
  intros Hr. unfold valid. eapply quietly_mono; [apply quietly_lift, map_err_no_panic, Hr|]. intros tr x Hx. apply map_err_ok in Hx. exact Hx.
Qed.

Lemma as_str_some v s : v ≫= as_str = Some s <-> v = Some (JStr s).
Proof. destruct v as [[]|]; cbn; split; congruence. Qed.
Lemma as_bool_some v b : v ≫= as_bool = Some b <-> v = Some (JBool b).
Proof. destruct v as [[]|]; cbn; split; congruence. Qed.
Lemma is_null_true v : is_null v = true <-> v = JNull.
Proof. destruct v; cbn; split; congruence. Qed.

Lemma is_null_false v : is_null v = false -> v <> JNull.
Proof. intros Hn ->. discriminate Hn. Qed.

Lemma quiet_balance network address : quietly (balance network address) (balance_read network address).
Proof.
  unfold balance. eapply quietly_bind; [apply quiet_valid, address_validate_no_panic|]. intros a tr0 Ha.
  eapply quietly_mono with (P := fun tr v => balance_read network address tr v); [|auto].
  unfold balance_read. destruct network as [|evm|cluster|].
  - unfold btc_balance. eapply quietly_bind; [apply quiet_client_get|]. intros body tr1 Hb.
    eapply quietly_bind; [apply quiet_body|]. intros info tr2 Hi. eapply quietly_mono; [apply quietly_ret|].
    intros tr v -> H1' H2'. exists a. split; [exact Ha|]. exists body, info. split_and!; try reflexivity.
    + exact (elem_of_prefix _ _ _ Hb H2').
    + exact Hi.
    + unfold net. lia.
  - eapply quietly_mono; [apply (quiet_hex_field _ (lit "eth_getBalance")); reflexivity|]. intros tr v Hv. exists a. auto.
  - unfold sol_balance. eapply quietly_bind; [apply quiet_client_rpc; reflexivity|]. intros ans tr1 Hans.
    eapply quietly_bind; [apply quiet_sent|]. intros parsed tr2 Hp. eapply quietly_mono; [apply quietly_ret|].
    intros tr v -> H1' H2'. exists a. split; [exact Ha|]. exists ans, parsed. split_and!; try reflexivity.
    + exact (elem_of_prefix _ _ _ Hans H2').
    + unfold decode in Hp. destruct (from_value ans); congruence.
  - unfold tron_balance, tron_hex. eapply quietly_bind; [apply quietly_lift, map_err_no_panic, tron_to_hex_no_panic|]. intros hex tr1 Hh.
    apply map_err_ok in Hh. eapply quietly_bind; [apply quiet_client_post; reflexivity|]. intros body tr2 Hb.
    eapply quietly_bind; [apply quiet_body|]. intros parsed tr3 Hp. eapply quietly_mono; [apply quietly_ret|].
    intros tr v -> H1' H2' H3'. exists a. split; [exact Ha|]. exists hex, body, parsed. split_and!; auto. exact (elem_of_prefix _ _ _ Hb H2').
Qed.

Lemma quiet_tx_status network hash : quietly (tx_status network hash) (status_read network hash).
Proof.
  unfold tx_status, status_read. destruct network as [|evm|cluster|].
  - eapply quietly_bind; [apply quiet_client_get|]. intros body tr1 Hb.
    eapply quietly_bind; [apply quiet_body|]. intros parsed tr2 Hp. eapply quietly_mono; [apply quietly_ret|].
    intros tr st -> H1' H2'. exists body, parsed. split; [exact (elem_of_prefix _ _ _ Hb H2')|]. split; [exact Hp|].
    unfold btc_state. case_bool_decide as Hc; rewrite as_bool_some in Hc; cbn; auto.
  - eapply quietly_bind; [apply quiet_client_rpc; reflexivity|]. intros receipt tr1 Hr. eapply quietly_mono; [apply quietly_ret|].
    intros tr st -> H1'. exists receipt. split; [exact (elem_of_prefix _ _ _ Hr H1')|]. unfold evm_state.
    destruct (is_null receipt) eqn:Hn; [apply is_null_true in Hn as ->; cbn; auto|]. cbn [ts_state].
    case_bool_decide as Hc; rewrite as_str_some in Hc; [exact Hc|]. split; [apply is_null_false, Hn | exact Hc].
  - eapply quietly_bind; [apply quiet_client_rpc; reflexivity|]. intros ans tr1 Hr. eapply quietly_mono; [apply quietly_ret|].
    intros tr st -> H1'. exists ans. split; [exact (elem_of_prefix _ _ _ Hr H1')|]. unfold solana_state. cbv zeta.
    destruct (jget (lit "value") ans ≫= jfirst) as [e|]; [|cbn; auto].
    destruct (is_null e) eqn:Hn; [apply is_null_true in Hn as ->; cbn; auto|]. cbn [ts_state].
    unfold present. destruct (jget (lit "err") e) as [err|] eqn:He; [destruct (is_null err) eqn:Hne|].
    + apply is_null_true in Hne as ->. cbn. exists e. split_and!; auto using is_null_false.
    + cbn. exists e, err. split_and!; auto using is_null_false.
    + exists e. split_and!; auto using is_null_false.
  - eapply quietly_bind; [apply quiet_client_post; reflexivity|]. intros body tr1 Hb.
    eapply quietly_bind; [apply quiet_body|]. intros parsed tr2 Hp. eapply quietly_mono; [apply quietly_ret|].
    intros tr st -> H1' H2'. exists body, parsed. split; [exact (elem_of_prefix _ _ _ Hb H2')|]. split; [exact Hp|].
    unfold tron_state. cbv zeta. destruct (jget (lit "blockNumber") parsed ≫= as_u64) as [block|]; [|cbn; auto]. cbn [ts_state ts_block].
    destruct (jget (lit "receipt") parsed ≫= jget (lit "result")) as [result|]; [|cbn; eauto].
    case_bool_decide as Hc.
    + destruct result; try discriminate. injection Hc as ->. cbn; eauto.
    + cbn. split_and!; eauto. intros [= ->]. exact (Hc eq_refl).
Qed.
End Reads.

(** * Base64 *)

Lemma base64_quad_chunk chunk : base64_quad chunk = base64_chunk chunk.
Proof.
  unfold base64_quad, base64_chunk, base64_char. cbv zeta. destruct chunk as [|a [|b [|c l]]]; reflexivity.
Qed.

Lemma chunks_base64 fuel bytes : (length bytes <= fuel)%nat -> chunks fuel 3 bytes ≫= base64_quad = base64 bytes.
Proof.
  revert bytes. induction fuel as [|fuel IH]; intros bytes Hl.
  - destruct bytes; [reflexivity | cbn in Hl; lia].
  - destruct bytes as [|a [|b [|c rest]]]; [reflexivity | | |]; cbn [chunks take drop base64].
    1,2: destruct fuel; cbn [chunks]; rewrite bind_cons, base64_quad_chunk; apply app_nil_r.
    rewrite drop_0, take_0, bind_cons, base64_quad_chunk, (IH rest) by (cbn in Hl; lia). reflexivity.
Qed.

(** The client's encoder is the signer's. *)
Lemma base64_encode_signer bytes : base64_encode bytes = base64 bytes.
Proof. apply chunks_base64. reflexivity. Qed.

(** * A node that redirects a Tron transfer *)

Definition node_took_it : Json := jobj [(lit "result", JBool true)].

(** A node that answers a request for a Tron transaction with [built], and takes
    whatever is broadcast. *)
Definition hostile (built : Json) `{NodeSerde} : host := fun past q =>
  match q with
  | RestPost _ path _ _ =>
      inr (json_text (if bool_decide (path = lit "wallet/createtransaction") then built else node_took_it))
  | q' => demo_host past q'
  end.

(** The answer: a transaction that pays [attacker] and carries the recipient in
    a field of its own. *)
Definition redirected (owner to_bytes attacker : list Z) (amount : Z) : list Z :=
  honest_raw (write_bytes 10 to_bytes) owner attacker (Native amount) [] [].
Definition redirection `{Codecs} (raw : list Z) : Json :=
  jobj [(lit "raw_data_hex", JStr (hex_lower raw)); (lit "txID", JStr (hex_lower (sha256 raw)))].

(** * Properties *)


(** A quiet operation's run over a host. *)
Lemma quiet_run {A} (p : query A) Post (h : host) : quietly p Post ->
  let '(tr, r) := exec h [] p in effects tr = [] /\ r <> Panic /\ forall a, r = Ok a -> Post tr a.
Proof.
  intros Hp. pose proof (wp_exec p h [] _ (Hp [])) as Hr. destruct (exec h [] p) as [tr [a|e|]]; destruct Hr as (_ & He & Hr);
    [| |contradiction]; (split; [exact He|]; split; [discriminate|]; intros b [= <-]; exact Hr).
Qed.


(** A Tron node can redirect the client's transfer.  For every recipient and
    amount, every other address [attacker] and every key that can sign: a node
    that answers [send_tron] with a transaction paying [attacker], in which the
    recipient's bytes stand in a field of no meaning, gets it signed with the
    caller's key and broadcast, and the caller is told of success.  The comparison
    made before signing looks for the recipient's and the amount's bytes anywhere
    in the transaction; the engine's structural one would refuse it. *)
Theorem tron_client_redirected `{CodecLaws, Secp256k1, BitcoinLib, Ed25519Lib, NodeSerde} from to from' to' owner to_bytes attacker amount key signature :
  let raw := redirected owner to_bytes attacker amount in
  from_str (json_text (redirection raw)) = inr (redirection raw) -> from_str (json_text node_took_it) = inr node_took_it ->
  bytes_ok raw -> is_u64 (Z.of_nat (length (honest_contract owner attacker (Native amount) []))) -> is_u64 amount ->
  tron_validate from = Ok from' -> tron_validate to = Ok to' -> is_ok (to_hex from') = true -> tron_decode to' = Ok to_bytes ->
  attacker <> to_bytes -> tron_sign (hex_lower raw) key = Ok signature ->
  let '(tr, r) := exec (hostile (redirection raw)) [] (send_tron from to amount key) in
  describes raw attacker (Native amount) None /\ r = Ok (hex_lower (sha256 raw)) /\
  exists pre id ct a, tr = pre ++ [Ev (RestPost id (lit "wallet/broadcasttransaction")
    (json_text (jobj [(lit "raw_data_hex", JStr (hex_lower raw)); (lit "txID", JStr (hex_lower (sha256 raw)));
                      (lit "signature", JArr [JStr (signature_hex signature)])])) ct) a].
Proof.
  intros raw Hjson Htook Hok Hl Ha Hfrom Hto Hown Hdec Hne Hsign.
  destruct (decoy_transaction owner to' to_bytes attacker amount None Hok Hl Ha Hdec Hne) as [Hv _]. fold (redirected owner to_bytes attacker amount) in Hv. fold raw in Hv.
  assert (Hh : exists h, to_hex to' = Ok h) by (unfold to_hex; rewrite Hdec; eexists; reflexivity). destruct Hh as (h & Hh).
  destruct (to_hex from') as [o|e|] eqn:Ho; try discriminate.
  unfold send_tron, valid. rewrite Hfrom, Hto. cbn [map_err lift mbind io_bind io_then]. unfold tron_send, tron_hex. rewrite Ho, Hh.
  cbn [map_err lift mbind io_bind io_then client_rest_post sent exec hostile]. rewrite (bool_decide_eq_true_2 (lit "wallet/createtransaction" = _)) by reflexivity.
  unfold body_read. rewrite Hjson. cbn [sent mbind io_bind io_then]. unfold field_of.
  change (jget (lit "raw_data_hex") (redirection raw)) with (Some (JStr (hex_lower raw))).
  change (jget (lit "txID") (redirection raw)) with (Some (JStr (hex_lower (sha256 raw)))).
  cbn [mbind option_bind as_str ok_or lift io_bind io_then]. rewrite Hv, Hsign. cbn [map_err lift mbind io_bind io_then].
  set (signed := jobj [(lit "raw_data_hex", JStr (hex_lower raw)); (lit "txID", JStr (hex_lower (sha256 raw)));
                       (lit "signature", JArr [JStr (signature_hex signature)])]).
  change (jset (lit "signature") _ (redirection raw)) with (Ok (E := client_error) signed).
  cbn [lift mbind io_bind io_then client_rest_post exec hostile]. rewrite (bool_decide_eq_false_2 (lit "wallet/broadcasttransaction" = _)) by discriminate.
  cbn [sent io_then exec]. rewrite Htook. cbn [mbind io_bind io_then].
  change (jget (lit "result") node_took_it) with (Some (JBool true)).
  split.
  - destruct (tron_decode_facts _ _ Hdec) as (Htb & Htl & _).
    assert (Hm : message_repr [mkField 10 (Bytes to_bytes)] (write_bytes 10 to_bytes))
      by (apply write_bytes_repr; [small_number | rewrite Htl; vm_compute; split; congruence]).
    eapply honest_describes; eauto; constructor.
  - split; [reflexivity|]. eexists [_], _, _, _. reflexivity.
Qed.

(** A printer and reader for the two answers of the demonstration. *)
Definition demo_node_serde : NodeSerde := {|
  cs_address := {| from_value _ := inl []; from_str _ := inl [] |};
  cs_utxos := {| from_value _ := inl []; from_str _ := inl [] |};
  cs_balance := {| from_value _ := inl []; from_str _ := inl [] |};
  cs_json := {| from_value v := inr v;
                from_str s := inr (match decode_hex s with Ok (b :: raw) => redirection (b :: raw) | _ => node_took_it end) |};
  cs_printer := {| json_text v := match jget (lit "raw_data_hex") v with Some (JStr s) => s | _ => [] end |};
  debug_text s := s
|}.

Lemma tron_client_redirected_witness :
  let raw := redirected example_owner example_to example_attacker 5 in
  let run := exec (hostile (H := demo_node_serde) (redirection raw)) []
               (send_tron (H0 := toy_secp) (H3 := demo_node_serde) (hex_string example_owner) (hex_string example_to) 5 (replicate 32 7)) in
  describes raw example_attacker (Native 5) None /\ run.2 = Ok (hex_lower (sha256 raw)).
Proof.
  cbv zeta.
  pose proof (tron_client_redirected (H1 := toy_secp) (H2 := toy_bitcoin) (H3 := toy_ed25519) (H4 := demo_node_serde)
    (hex_string example_owner) (hex_string example_to) (hex_string example_owner) (hex_string example_to)
    example_owner example_to example_attacker 5 (replicate 32 7)
    (match tron_sign (H1 := toy_secp) (hex_lower (redirected example_owner example_to example_attacker 5)) (replicate 32 7) with Ok s => s | _ => [] end)) as Hr.
  cbv zeta in Hr. destruct (exec _ _ _) as [tr r]. cbn [snd].
  destruct Hr as (Hd & Hok & _); [..|exact (conj Hd Hok)].
  all: first [bytes_closed | range_closed | discriminate | vm_compute; reflexivity].
Defined.

(** A transfer over the demonstration node, and one meant for another network. *)
Example client_sends_demo :
  let send network := exec (demo_host) [] (send_evm (H0 := toy_secp) (H3 := demo_node_serde) network
    (lit "0x1111111111111111111111111111111111111111") (lit "0x2222222222222222222222222222222222222222") 5 [] (replicate 32 7)) in
  (send CEthereum).2 = Ok (lit "0xhash") /\ length (effects (send CEthereum).1) = 1%nat /\
  (send CBase).2 = Err (EChainIdMismatch (mkNetwork Evm (Some 8453)) 8453 1) /\ effects (send CBase).1 = [].
Proof. vm_compute. auto. Qed.

