(* ===== verification/Rail.v ===== *)
(** The crypto rail: building and signing the on-chain payment a 402 asks for
    ([crates/tinywallet-x402/src/crypto/solana_payment.rs],
    [crypto/evm_payment.rs], [crypto/payments.rs], [protocol/builder.rs]).

    A [PaymentBuilder] is the interface the payment client is written against;
    [crypto_payments] is the one that signs.  Shown: whatever the wallet and the
    node answer, building asks for at most one signature and does nothing else
    that leaves a mark; and a payment built is, in the bytes signed, the payment
    required. *)

From stdpp Require Import base list strings numbers gmap.
From S2P Require Import Prelude Program Text Chain Codec Base58 Addr EvmTx Json Wire X402Wire Eip712 SolWire Host NoPanic.
From S2P Require Import LedgerTypes Ledger PayHost.

(** * The builder interface *)

(** [PaymentBuild]: the payload, and what the ledger keeps of the rail. *)
Record PaymentBuild := mkBuild {
  bd_payload : PaymentPayload;
  bd_valid_until : option Z;
  bd_last_valid_height : option Z
}.

Record PaymentBuilder `{HttpLib} := mkBuilder {
  build : PaymentRequired -> PaymentRequirements -> PaymentChain -> pay PaymentPayload;
  build_with_metadata : PaymentRequired -> PaymentRequirements -> PaymentChain -> pay PaymentBuild;
  finalized_solana_block_height : pay (option Z)
}.

(** The deadline an EVM proof states; [parse::<i64>()] of unsigned digits. *)
Definition authorization_deadline `{ChronoSeconds} (p : PaymentPayload) : option Z :=
  match payload p with
  | EvmProof _ authorization =>
      match parse_i64 (valid_before authorization) with Ok seconds => from_timestamp seconds | _ => None end
  | SolanaProof _ => None
  end.

(** The trait's provided methods. *)
Definition default_build_with_metadata `{HttpLib, ChronoSeconds}
    (build : PaymentRequired -> PaymentRequirements -> PaymentChain -> pay PaymentPayload) challenge requirement chain
  : pay PaymentBuild :=
  payload ← build challenge requirement chain;
  mret (mkBuild payload (authorization_deadline payload) None).

Definition default_finalized_height `{HttpLib} : pay (option Z) := mret None.

(** * Solana instructions *)

Definition DEFAULT_COMPUTE_UNITS : Z := 50000.
Definition DEFAULT_COMPUTE_UNIT_PRICE : Z := 1000.
Definition USDC_DECIMALS : Z := 6.

Definition build_set_compute_unit_limit (program_idx units : Z) : CompiledInstruction :=
  mkInstruction program_idx [] (2 :: le_bytes 4 units).

Definition build_set_compute_unit_price (program_idx micro_lamports : Z) : CompiledInstruction :=
  mkInstruction program_idx [] (3 :: le_bytes 8 micro_lamports).

Definition build_transfer_checked (token_program_idx src_idx mint_idx dst_idx authority_idx amount decimals : Z)
  : CompiledInstruction :=
  mkInstruction token_program_idx [src_idx; mint_idx; dst_idx; authority_idx] ((12 :: le_bytes 8 amount) ++ [decimals]).

Definition build_memo (program_idx : Z) (memo_data : list Z) : CompiledInstruction := mkInstruction program_idx [] memo_data.

(** What the node answers. *)
Record LatestBlockhash := mkLatest { lb_blockhash : str; lb_last_valid_block_height : Z }.

(** Typed answers of the rail's nodes. *)
Class RailReads := { rail_blockhash :: Deserialize LatestBlockhash; rail_height :: Deserialize Z }.

Section Rail.
Context `{Codecs, Curve25519, Base64, HttpLib, ChronoSeconds, RailReads}.

Definition finalized : Json := JArr [jobj [(lit "commitment", JStr (lit "finalized"))]].

Definition fetch_recent_blockhash : pay (list Z * Z) :=
  result ← node_call (mkNetwork Solana None) (lit "getLatestBlockhash") finalized (lit "fetch blockhash: ");
  blockhash ← lift (b58_to_32 (lb_blockhash result));
  mret (blockhash, lb_last_valid_block_height result).

(** The first 16 bytes of a fresh nonce, in hex. *)
Definition memo_nonce (fresh : list Z) : list Z := hex_encode (take 16 fresh).
Definition random_memo_nonce : pay (list Z) := fresh ← fresh_nonce; mret (memo_nonce fresh).

Definition build_solana_payment (our_pubkey : list Z) (challenge : PaymentRequired) (req : PaymentRequirements)
  : pay (PaymentPayload * Z) :=
  amount ← lift (map_err (fun e => Protocol (lit "invalid amount '" ++ amount req ++ lit "': " ++ parse_int_error_text e))
                   (parse_u64 (amount req)));
  fee_payer ← lift (ok_or (fee_payer_pubkey req) (Protocol (lit "no fee_payer in payment requirements")));
  fee_payer_bytes ← lift (b58_to_32 fee_payer);
  pay_to_bytes ← lift (b58_to_32 (pay_to req));
  mint_bytes ← lift (b58_to_32 (asset req));
  token_program ← lift (b58_to_32 SPL_TOKEN_PROGRAM);
  compute_budget ← lift (b58_to_32 COMPUTE_BUDGET_PROGRAM);
  memo_program ← lift (b58_to_32 SPL_MEMO_PROGRAM);
  src_ata ← lift (derive_ata our_pubkey mint_bytes token_program);
  dst_ata ← lift (derive_ata pay_to_bytes mint_bytes token_program);
  memo_data ← match memo_value req with Some m => mret m | None => random_memo_nonce end;
  let account_keys := [fee_payer_bytes; our_pubkey; src_ata; dst_ata; mint_bytes; token_program; compute_budget; memo_program] in
  let header := [2; 0; 4] in
  let instructions := [build_set_compute_unit_limit 6 DEFAULT_COMPUTE_UNITS;
                       build_set_compute_unit_price 6 DEFAULT_COMPUTE_UNIT_PRICE;
                       build_transfer_checked 5 2 4 3 1 amount USDC_DECIMALS;
                       build_memo 7 memo_data] in
  '(blockhash, last_valid_block_height) ← fetch_recent_blockhash;
  let message := encode_legacy_message header account_keys blockhash instructions in
  signature ← sign_payment PaySolana message Ed25519 (lit "sign payment: ");
  if negb (length signature =? 64)%nat
  then Done (Err (Wallet (lit "the wallet module returned a malformed signature")))
  else
    let wire := x402_encode_shortvec 2 ++ replicate 64 0 ++ signature ++ message in
    mret (mkPayload X402_VERSION (Some (resource challenge)) req (SolanaProof (b64_encode wire)) [],
          last_valid_block_height).

(** * EVM *)

(** [build_evm_payment] over the wallet's answers: the pure steps are [Eip712]'s. *)
Definition evm_payment_program (challenge : PaymentRequired) (req : PaymentRequirements) : pay PaymentPayload :=
  account ← account_of PayEvm;
  now ← unix_secs;
  fresh ← fresh_nonce;
  authorization ← lift (evm_payment_authorization addr_error_text (pa_address account) req now fresh);
  signature ← sign_payment PayEvm (digest authorization) Secp256k1Digest (lit "sign EIP-3009: ");
  lift (sig_bytes ← eip712_signature signature;
        evm_payment_payload authorization sig_bytes (pa_address account) challenge req).

(** * [CryptoPayments] *)

Definition build_with_rail_metadata (challenge : PaymentRequired) (requirement : PaymentRequirements) (chain : PaymentChain)
  : pay PaymentBuild :=
  '(payload, solana_last_valid_block_height) ←
    match chain with
    | PaySolana =>
        account ← account_of PaySolana;
        pubkey ← lift (match pa_pubkey account with Some key => Ok key | None => b58_to_32 (pa_address account) end);
        '(payload, last_valid_height) ← build_solana_payment pubkey challenge requirement;
        mret (payload, Some last_valid_height)
    | PayEvm =>
        payload ← evm_payment_program challenge requirement;
        mret (payload, None)
    end;
  mret (mkBuild payload (authorization_deadline payload) solana_last_valid_block_height).

Definition crypto_payments : PaymentBuilder := {|
  build challenge requirement chain := built ← build_with_rail_metadata challenge requirement chain; mret (bd_payload built);
  build_with_metadata := build_with_rail_metadata;
  finalized_solana_block_height :=
    height ← node_call (T := Z) (mkNetwork Solana None) (lit "getBlockHeight") finalized (lit "fetch finalized block height: ");
    mret (Some height)
|}.
End Rail.

(** * Signing once *)

Definition is_signing `{HttpLib} (e : deed) : Prop :=
  match ev_request e with SignPayment _ _ _ => True | _ => False end.

Section Once.
Context `{HttpLib}.

(** Every run either fails before leaving any mark, or leaves exactly one, a
    signature [s]; a value satisfies [Post] of it. *)
Definition once {A} (p : pay A) (Post : list deed -> A -> deed -> Prop) : Prop :=
  forall past, wp p past (fun tr r => past `prefix_of` tr /\
    ((deeds tr = deeds past /\ exists e, r = Err e) \/
     exists s, is_signing s /\ deeds tr = deeds past ++ [s] /\
       match r with Ok a => Post tr a s | Err _ => True | Panic => False end)).

Lemma once_mono {A} (p : pay A) (P R : list deed -> A -> deed -> Prop) :
  once p P -> (forall tr a s, P tr a s -> R tr a s) -> once p R.
Proof.
  intros Hp HPR past. eapply wp_mono; [apply Hp|]. intros tr r (H1 & [H2|(s & H2 & H3 & H4)]); split; auto.
  right. exists s. split_and!; auto. destruct r; auto.
Qed.

(** Quiet steps first. *)
Lemma once_after {A B} (p : pay A) (f : A -> pay B) P R :
  calmly p P -> (forall a tr0, P tr0 a -> once (f a) (fun tr b s => tr0 `prefix_of` tr -> R tr b s)) -> once (p ≫= f) R.
Proof.
  intros Hp Hf past. apply wp_bind. eapply wp_mono; [apply Hp|]. intros tr [a|e|] (Hpre & He & Hr); [|eauto 6 | destruct Hr].
  eapply wp_mono; [apply (Hf a tr Hr)|]. intros tr' r (Hpre' & Hor). split; [etransitivity; eassumption|].
  rewrite He in Hor. destruct Hor as [Hq|(s & Hs & Hd & Hr')]; [left; exact Hq|]. right. exists s.
  split_and!; auto. destruct r; auto.
Qed.

Lemma once_lift {A B} (r : res X402Error A) (f : A -> pay B) R :
  r <> Panic -> (forall a, r = Ok a -> once (f a) R) -> once (lift r ≫= f) R.
Proof.
  intros Hr Hf. eapply once_after; [apply quietly_lift, Hr|]. intros a tr0 Ha. eapply once_mono; [apply Hf, Ha | auto].
Qed.

(** Quiet steps last. *)
Lemma once_then {A B} (p : pay A) (f : A -> pay B) P R :
  once p P -> (forall a s tr0, P tr0 a s -> calmly (f a) (fun tr b => tr0 `prefix_of` tr -> R tr b s)) -> once (p ≫= f) R.
Proof.
  intros Hp Hf past. apply wp_bind. eapply wp_mono; [apply Hp|].
  intros tr r (Hpre & [(Hd & e & ->)|(s & Hs & Hd & Hr)]); [eauto 6|].
  destruct r as [a|e|]; [|split; [exact Hpre|]; right; exists s; auto | destruct Hr].
  eapply wp_mono; [apply (Hf a s tr Hr)|]. intros tr' r (Hpre' & He & Hr').
  split; [etransitivity; eassumption|]. right. exists s. rewrite He. split_and!; auto. destruct r; auto.
Qed.

Lemma once_sign chain m scheme what :
  once (sign_payment chain m scheme what) (fun tr sg s => s = Deed (SignPayment chain m scheme) (inr sg)).
Proof.
  intros past r. set (s := Deed (SignPayment chain m scheme) r).
  assert (Hd : deeds (past ++ [s]) = deeds past ++ [s]) by (apply effects_loud; reflexivity).
  cbn in r. destruct r as [e|sg]; (split; [apply prefix_snoc|]; right; exists s; split_and!; [exact I | exact Hd | reflexivity || exact I]).
Qed.

(** One quiet request. *)
Lemma calm_ask {A} q (k : said q -> pay A) R :
  marks q = false -> (forall r, calmly (k r) (fun tr a => Deed q r ∈ tr -> R tr a)) -> calmly (Ask q k) R.
Proof. apply quietly_ask. Qed.

Lemma calm_get {E} q : marks q = false -> calmly (Ask q mret : program said E (said q)) (fun tr a => Deed q a ∈ tr).
Proof. intros Hq. apply quietly_ask; [exact Hq|]. intros r. eapply quietly_mono; [apply quietly_ret|]. intros tr a ->. auto. Qed.

Lemma calm_account chain : calmly (account_of chain) (fun tr a => Deed (AccountOf chain) (inr a) ∈ tr).
Proof.
  apply quietly_ask; [reflexivity|]. intros r. cbn in r. destruct r as [e|a]; [apply quietly_err|].
  eapply quietly_mono; [apply quietly_ret|]. intros tr x ->. auto.
Qed.

(** What a node said, decoded. *)
Definition node_said {T} `{Deserialize T} (tr : list deed) (network : NetworkId) (method : str) (params : Json) (x : T) : Prop :=
  exists v, Deed (ChainRpc network method params) (inr v) ∈ tr /\ from_value v = inr x.

Lemma calm_node {T} `{Deserialize T} network method params what :
  calmly (node_call network method params what) (fun tr x => node_said tr network method params x).
Proof.
  apply quietly_ask; [reflexivity|]. intros r. cbn in r. destruct r as [e|v]; [apply quietly_err|]. unfold rpc_decode.
  destruct (from_value v) as [e|x] eqn:Hv; [apply quietly_err|].
  eapply quietly_mono; [apply quietly_ret|]. intros tr y -> Hin. exists v. auto.
Qed.

Lemma node_said_mono {T} `{Deserialize T} tr tr' n m p (x : T) :
  tr `prefix_of` tr' -> node_said tr n m p x -> node_said tr' n m p x.
Proof. intros Hp (v & Hv & Hx). exists v. split; [exact (elem_of_prefix _ _ _ Hv Hp) | exact Hx]. Qed.
End Once.

(** * What a payment pays *)

Section Pays.
Context `{CodecLaws, Curve25519, Base64, HttpLib, ChronoSeconds, RailReads}.

(** The message moves the required amount of the required token between the
    payer's and the payee's token accounts, on the payer's authority and at the
    facilitator's expense; nothing else is in it but the compute budget and the
    memo.  Read back by [SolWire.read_message]. *)
Definition solana_message_pays (payer : list Z) (req : PaymentRequirements) (memo bh m : list Z) : Prop :=
  exists v facilitator fee to mint src dst token budget memos,
    parse_u64 (amount req) = Ok v /\ fee_payer_pubkey req = Some facilitator /\ b58_to_32 facilitator = Ok fee /\
    b58_to_32 (pay_to req) = Ok to /\ b58_to_32 (asset req) = Ok mint /\ b58_to_32 SPL_TOKEN_PROGRAM = Ok token /\
    b58_to_32 COMPUTE_BUDGET_PROGRAM = Ok budget /\ b58_to_32 SPL_MEMO_PROGRAM = Ok memos /\
    derive_ata payer mint token = Ok src /\ derive_ata to mint token = Ok dst /\
    (length payer = 32%nat -> Z.of_nat (length memo) <= u16_max ->
     read_message m = Some (mkMessage [2; 0; 4] [fee; payer; src; dst; mint; token; budget; memos] bh
       [mkInstruction 6 [] (2 :: le_bytes 4 50000); mkInstruction 6 [] (3 :: le_bytes 8 1000);
        mkInstruction 5 [2; 4; 3; 1] (12 :: le_bytes 8 v ++ [6]); mkInstruction 7 [] memo])).

(** The payer is the wallet's account: its key, or its address decoded. *)
Definition payer_key (acct : PaymentAccount) (key : list Z) : Prop :=
  match pa_pubkey acct with Some k => key = k | None => b58_to_32 (pa_address acct) = Ok key end.

Definition solana_pays (tr : list deed) (req : PaymentRequirements) (b : PaymentBuild) (s : deed) : Prop :=
  exists acct payer memo bh latest m sg,
    Deed (AccountOf PaySolana) (inr acct) ∈ tr /\ payer_key acct payer /\
    match memo_value req with
    | Some text => memo = text
    | None => exists fresh, Deed FreshNonce fresh ∈ tr /\ memo = memo_nonce fresh
    end /\
    node_said tr (mkNetwork Solana None) (lit "getLatestBlockhash") finalized latest /\
    b58_to_32 (lb_blockhash latest) = Ok bh /\ solana_message_pays payer req memo bh m /\
    s = Deed (SignPayment PaySolana m Ed25519) (inr sg) /\ length sg = 64%nat /\
    payload (bd_payload b) = SolanaProof (b64_encode ([2] ++ replicate 64 0 ++ sg ++ m)) /\
    bd_last_valid_height b = Some (lb_last_valid_block_height latest) /\ bd_valid_until b = None.

Definition evm_pays (tr : list deed) (req : PaymentRequirements) (b : PaymentBuild) (s : deed) : Prop :=
  exists acct now fresh a sg,
    Deed (AccountOf PayEvm) (inr acct) ∈ tr /\ Deed UnixSecs now ∈ tr /\ Deed FreshNonce fresh ∈ tr /\
    s = Deed (SignPayment PayEvm (digest_of a) Secp256k1Digest) (inr sg) /\ length sg = 65%nat /\
    asked req (pa_address acct) a /\ e_nonce a = fresh /\ e_after a = u256_from_u64 0 /\
    bd_last_valid_height b = None /\
    (is_u64 now -> is_u64 (max_timeout_seconds req) ->
     states (bd_payload b) (lit "0x" ++ hex_encode (take 64 sg ++ [nth 64 sg 0 + 27])) a /\
     be_value (e_before a) = valid_until req now /\
     bd_valid_until b = (if valid_until req now <=? i64_max then from_timestamp (valid_until req now) else None)).

(** What [crypto_payments] promises of a payment it built. *)
Definition crypto_pays (tr : list deed) (challenge : PaymentRequired) (req : PaymentRequirements) (chain : PaymentChain)
    (b : PaymentBuild) (s : deed) : Prop :=
  accepted (bd_payload b) = req /\ pp_resource (bd_payload b) = Some (resource challenge) /\
  match chain with PaySolana => solana_pays tr req b s | PayEvm => evm_pays tr req b s end.
End Pays.

Section RailFacts.
Context `{CodecLaws, Curve25519, Base64, HttpLib, ChronoSeconds, RailReads}.

Lemma b58_to_32_no_panic s : b58_to_32 s <> Panic.
Proof. unfold b58_to_32. no_panic. Qed.

Lemma b58_to_32_length s b : b58_to_32 s = Ok b -> length b = 32%nat.
Proof. intros E. apply b58_to_32_ok in E. tauto. Qed.

Lemma derive_ata_no_panic o m t : derive_ata o m t <> Panic.
Proof. unfold derive_ata. apply bind_no_panic; [apply b58_to_32_no_panic|]. intros. no_panic. Qed.

Lemma derive_ata_length o m t a : derive_ata o m t = Ok a -> length a = 32%nat.
Proof.
  unfold derive_ata. intros E. apply bind_ok in E as (p & _ & E). apply ok_or_ok, find_first_position in E as (i & Hi & _).
  apply list_lookup_fmap_Some in Hi as (b & -> & _). apply sha256_length.
Qed.

#[local] Hint Resolve b58_to_32_no_panic derive_ata_no_panic b58_to_32_length derive_ata_length : no_panic.

(** The message the client encodes reads back. *)
Lemma payment_message_reads fee payer src dst mint token budget memos bh v memo :
  length fee = 32%nat -> length payer = 32%nat -> length src = 32%nat -> length dst = 32%nat -> length mint = 32%nat ->
  length token = 32%nat -> length budget = 32%nat -> length memos = 32%nat -> length bh = 32%nat ->
  Z.of_nat (length memo) <= u16_max ->
  read_message (encode_legacy_message [2; 0; 4] [fee; payer; src; dst; mint; token; budget; memos] bh
    [build_set_compute_unit_limit 6 DEFAULT_COMPUTE_UNITS; build_set_compute_unit_price 6 DEFAULT_COMPUTE_UNIT_PRICE;
     build_transfer_checked 5 2 4 3 1 v USDC_DECIMALS; build_memo 7 memo]) =
  Some (mkMessage [2; 0; 4] [fee; payer; src; dst; mint; token; budget; memos] bh
    [mkInstruction 6 [] (2 :: le_bytes 4 50000); mkInstruction 6 [] (3 :: le_bytes 8 1000);
     mkInstruction 5 [2; 4; 3; 1] (12 :: le_bytes 8 v ++ [6]); mkInstruction 7 [] memo]).
Proof.
  intros. match goal with |- _ = Some ?m => set (msg := m) end.
  change (encode_legacy_message _ _ _ _) with
    (encode_legacy_message (m_header msg) (m_keys msg) (m_blockhash msg) (m_instructions msg)).
  rewrite encode_legacy_message_put. apply read_put_message; [exact x402_count_ok|].
  unfold message_fits, instruction_fits, msg. cbn [m_header m_keys m_blockhash m_instructions ins_accounts ins_data].
  split_and!; try assumption; try reflexivity; try (vm_compute; congruence).
  - repeat constructor; assumption.
  - repeat constructor; cbn [ins_accounts ins_data length]; try rewrite length_app; try rewrite !le_bytes_length;
      try assumption; vm_compute; congruence.
Qed.

(** One pure step of a building program. *)
Ltac pure_step := apply once_lift; [solve [auto with no_panic | no_panic]|].

Lemma solana_payment_once payer challenge req :
  once (build_solana_payment payer challenge req) (fun tr '(p, height) s =>
    accepted p = req /\ pp_resource p = Some (resource challenge) /\
    exists memo bh latest m sg,
      match memo_value req with Some text => memo = text | None => exists fresh, Deed FreshNonce fresh ∈ tr /\ memo = memo_nonce fresh end /\
      node_said tr (mkNetwork Solana None) (lit "getLatestBlockhash") finalized latest /\
      b58_to_32 (lb_blockhash latest) = Ok bh /\ height = lb_last_valid_block_height latest /\
      solana_message_pays payer req memo bh m /\
      s = Deed (SignPayment PaySolana m Ed25519) (inr sg) /\ length sg = 64%nat /\
      payload p = SolanaProof (b64_encode ([2] ++ replicate 64 0 ++ sg ++ m))).
Proof.
  unfold build_solana_payment. pure_step. intros v Hv. apply map_err_ok in Hv.
  pure_step. intros fp Hfp. apply ok_or_ok in Hfp.
  pure_step. intros fee Hfee. pure_step. intros to Hto. pure_step. intros mint Hmint.
  pure_step. intros token Htoken. pure_step. intros budget Hbudget. pure_step. intros memos Hmemos.
  pure_step. intros src Hsrc. pure_step. intros dst Hdst. cbv zeta.
  eapply (once_after _ _ (fun tr memo => match memo_value req with
      | Some text => memo = text | None => exists fresh, Deed FreshNonce fresh ∈ tr /\ memo = memo_nonce fresh end)).
  { destruct (memo_value req) as [t|]; [apply quietly_ret|]. unfold random_memo_nonce.
    eapply quietly_bind; [apply (calm_get FreshNonce); reflexivity|]. intros fresh tr0 Hf.
    eapply quietly_mono; [apply quietly_ret|]. intros tr m -> Hp. exists fresh. split; [exact (elem_of_prefix _ _ _ Hf Hp) | reflexivity]. }
  intros memo tr0 Hmemo.
  eapply (once_after _ _ (fun tr '(bh, height) => exists latest,
    node_said tr (mkNetwork Solana None) (lit "getLatestBlockhash") finalized latest /\
    b58_to_32 (lb_blockhash latest) = Ok bh /\ height = lb_last_valid_block_height latest)).
  { unfold fetch_recent_blockhash. eapply quietly_bind; [apply calm_node|]. intros latest tr1 Hl.
    eapply quietly_bind; [apply quietly_lift, b58_to_32_no_panic|]. intros bh tr2 Hbh.
    eapply quietly_mono; [apply quietly_ret|]. intros tr x -> Hp2 Hp1. exists latest.
    split; [|auto]. eapply node_said_mono; [|exact Hl]. exact Hp1. }
  intros [bh height] tr1 (latest & Hl & Hbh & ->).
  eapply once_then; [apply once_sign|]. intros sg s tr2 ->.
  destruct (Nat.eqb_spec (length sg) 64) as [Hsg|]; cbn [negb]; [|apply quietly_err].
  eapply quietly_mono; [apply quietly_ret|]. intros tr x -> Hp2 Hp1 Hp0.
  cbn [accepted pp_resource payload]. split_and!; [reflexivity..|].
  exists memo, bh, latest. eexists _, sg. split_and!.
  - destruct (memo_value req); [exact Hmemo|]. destruct Hmemo as (fresh & Hf & ->). exists fresh.
    split; [exact (elem_of_prefix _ _ _ Hf Hp0) | reflexivity].
  - exact (node_said_mono _ _ _ _ _ _ Hp1 Hl).
  - exact Hbh.
  - reflexivity.
  - exists v, fp, fee, to, mint, src, dst, token, budget, memos. split_and!; try assumption.
    intros Hpayer Hlen. apply payment_message_reads; eauto with no_panic.
  - reflexivity.
  - exact Hsg.
  - reflexivity.
Qed.

Lemma evm_address_bytes_no_panic display s : evm_address_bytes display s <> Panic.
Proof.
  unfold evm_address_bytes. apply bind_no_panic; [no_panic|]. intros v.
  pose proof (hex_decode_total (without_prefix v (lit "0x"))). case_match; [case_match|..]; congruence.
Qed.
#[local] Hint Resolve evm_address_bytes_no_panic : no_panic.

Lemma evm_authorization_no_panic display payer req now fresh : evm_payment_authorization display payer req now fresh <> Panic.
Proof. unfold evm_payment_authorization. no_panic. Qed.

Lemma deadline_of_shown secs : is_u64 secs ->
  (match parse_i64 (show_dec secs) with Ok s => from_timestamp s | _ => None end)
  = (if secs <=? i64_max then from_timestamp secs else None).
Proof.
  intros Hs. rewrite parse_i64_unsigned by (intros r E; pose proof (show_dec_digits secs (is_u64_u128 _ Hs)) as Hd;
    rewrite E in Hd; inversion Hd; lia).
  destruct (Z.leb_spec secs i64_max) as [Hle|Hgt]; [rewrite parse_show_dec by auto using is_u64_u128; reflexivity|].
  destruct (parse_unsigned 10 i64_max (show_dec secs)) as [v|e|] eqn:E; [|reflexivity..].
  pose proof (parse_unsigned_bound 10 i64_max _ _ ltac:(lia) ltac:(unfold i64_max; lia) E) as Hb. apply (parse_unsigned_mono _ _ u64_max) in E; [|unfold i64_max, u64_max; lia].
  rewrite parse_show_dec in E by (unfold is_u64 in *; auto using is_u64_u128; lia). injection E as <-. lia.
Qed.

Lemma evm_payment_once challenge req :
  once (evm_payment_program challenge req) (fun tr p s =>
    accepted p = req /\ pp_resource p = Some (resource challenge) /\
    evm_pays tr req (mkBuild p (authorization_deadline p) None) s).
Proof.
  unfold evm_payment_program.
  eapply once_after; [apply calm_account|]. intros acct tr0 Hacct.
  eapply once_after; [apply (calm_get UnixSecs); reflexivity|]. intros now tr1 Hnow.
  eapply once_after; [apply (calm_get FreshNonce); reflexivity|]. intros fresh tr2 Hfresh.
  apply once_lift; [apply evm_authorization_no_panic|]. intros e He.
  apply evm_payment_authorization_ok in He as (a & Hask & Ha & Hb & Hn & ->). cbn [digest].
  eapply once_then; [apply once_sign|]. intros sg s tr3 ->.
  eapply quietly_mono; [apply quietly_lift|].
  { unfold eip712_signature, evm_payment_payload. no_panic. }
  intros tr p Hp Hp3 Hp2 Hp1 Hp0.
  apply bind_ok in Hp as (b & Hsg & Hp). apply eip712_signature_ok in Hsg as (Hl & Hv & ->).
  unfold evm_payment_payload in Hp. apply bind_ok in Hp as (c & _ & [= <-]).
  cbn [accepted pp_resource payload nonce valid_after_secs valid_before_secs]. split_and!; [reflexivity..|].
  exists acct, now, fresh, a, sg. cbn [bd_last_valid_height bd_payload bd_valid_until]. split_and!; auto.
  1: exact (elem_of_prefix _ _ _ Hacct Hp0).
  1: exact (elem_of_prefix _ _ _ Hnow Hp1).
  1: exact (elem_of_prefix _ _ _ Hfresh Hp2).
  intros Hnow64 Hmax. assert (Hu : is_u64 (valid_until req now)).
  { unfold is_u64, valid_until, u64_max in *. lia. }
  split_and!.
  - eexists. split; [reflexivity|]. cbn [accepted auth_from auth_to auth_value valid_after valid_before auth_nonce].
    rewrite Ha, Hb, Hn. split_and!; auto. apply u256_from_u64_decimal, Hu.
  - rewrite Hb. unfold u256_from_u64. rewrite be_value_zeros. apply be_value_bytes, u64_be, Hu.
  - unfold authorization_deadline. cbn [payload valid_before]. apply deadline_of_shown, Hu.
Qed.

Lemma solana_pays_mono tr tr' req b s : tr `prefix_of` tr' -> solana_pays tr req b s -> solana_pays tr' req b s.
Proof.
  intros Hp (acct & payer & memo & bh & latest & m & sg & Ha & Hk & Hmemo & Hl & Hrest).
  exists acct, payer, memo, bh, latest, m, sg. split; [exact (elem_of_prefix _ _ _ Ha Hp)|]. split; [exact Hk|].
  split; [|split; [exact (node_said_mono _ _ _ _ _ _ Hp Hl) | exact Hrest]].
  destruct (memo_value req); [exact Hmemo|]. destruct Hmemo as (fresh & Hf & ->). exists fresh.
  split; [exact (elem_of_prefix _ _ _ Hf Hp) | reflexivity].
Qed.

Lemma evm_pays_mono tr tr' req b s : tr `prefix_of` tr' -> evm_pays tr req b s -> evm_pays tr' req b s.
Proof.
  intros Hp (acct & now & fresh & a & sg & H1' & H2' & H3' & Hrest). exists acct, now, fresh, a, sg.
  split_and!; [exact (elem_of_prefix _ _ _ H1' Hp) | exact (elem_of_prefix _ _ _ H2' Hp) | exact (elem_of_prefix _ _ _ H3' Hp) | apply Hrest..].
Qed.

Lemma crypto_pays_mono tr tr' c req chain b s :
  tr `prefix_of` tr' -> crypto_pays tr c req chain b s -> crypto_pays tr' c req chain b s.
Proof.
  intros Hp (Ha & Hr & Hs). split; [exact Ha|]. split; [exact Hr|].
  destruct chain; [exact (solana_pays_mono _ _ _ _ _ Hp Hs) | exact (evm_pays_mono _ _ _ _ _ Hp Hs)].
Qed.

Lemma rail_metadata_once challenge req chain :
  once (build_with_rail_metadata challenge req chain) (fun tr b s => crypto_pays tr challenge req chain b s).
Proof.
  unfold build_with_rail_metadata.
  eapply (once_then _ _ (fun tr ph s => crypto_pays tr challenge req chain (mkBuild ph.1 (authorization_deadline ph.1) ph.2) s)).
  2:{ intros [p h] s tr0 Hp. eapply quietly_mono; [apply quietly_ret|]. intros tr x -> Hp0. exact (crypto_pays_mono _ _ _ _ _ _ _ Hp0 Hp). }
  destruct chain.
  - eapply once_after; [apply calm_account|]. intros acct tr0 Hacct.
    eapply (once_after _ _ (fun _ k => payer_key acct k)).
    { unfold payer_key. destruct (pa_pubkey acct) as [k|].
      - eapply quietly_mono; [apply quietly_lift; discriminate|]. intros tr x [= ->]. reflexivity.
      - eapply quietly_mono; [apply quietly_lift, b58_to_32_no_panic|]. intros tr x Hx. exact Hx. }
    intros payer tr1 Hpayer. eapply once_then; [apply solana_payment_once|]. intros [p h] s tr2 Hp.
    eapply quietly_mono; [apply quietly_ret|]. intros tr x -> Hp2 Hp1 Hp0. cbn [fst snd].
    destruct Hp as (Hacc & Hres & memo & bh & latest & m & sg & Hmemo & Hl & Hbh & -> & Hm & -> & Hsg & Hpl).
    split_and!; [exact Hacc | exact Hres|]. exists acct, payer, memo, bh, latest, m, sg.
    cbn [bd_payload bd_last_valid_height bd_valid_until]. split_and!; auto.
    + exact (elem_of_prefix _ _ _ Hacct Hp0).
    + destruct (memo_value req); [exact Hmemo|]. destruct Hmemo as (fresh & Hf & ->). exists fresh.
      split; [exact (elem_of_prefix _ _ _ Hf Hp2) | reflexivity].
    + exact (node_said_mono _ _ _ _ _ _ Hp2 Hl).
    + unfold authorization_deadline. rewrite Hpl. reflexivity.
  - eapply once_then; [apply evm_payment_once|]. intros p s tr0 (Hacc & Hres & Hp).
    eapply quietly_mono; [apply quietly_ret|]. intros tr x -> Hp0. cbn [fst snd].
    split_and!; [exact Hacc | exact Hres | exact (evm_pays_mono _ _ _ _ _ Hp0 Hp)].
Qed.
End RailFacts.

(** * The interface's contract *)

(** What the payment client relies on of a builder: it signs at most once and
    leaves no other mark, and [pays] tells what it built. *)
Class BuilderLaws `{HttpLib} (b : PaymentBuilder)
    (pays : list deed -> PaymentRequired -> PaymentRequirements -> PaymentChain -> PaymentBuild -> deed -> Prop) : Prop := {
  pays_mono tr tr' c req chain bd s : tr `prefix_of` tr' -> pays tr c req chain bd s -> pays tr' c req chain bd s;
  metadata_once c req chain : once (build_with_metadata b c req chain) (fun tr bd s => pays tr c req chain bd s);
  build_once c req chain :
    once (build b c req chain) (fun tr p s => exists bd, bd_payload bd = p /\ pays tr c req chain bd s);
  height_calm : calmly (finalized_solana_block_height b) (fun _ _ => True)
}.

#[export] Instance crypto_payments_laws `{CodecLaws, Curve25519, Base64, HttpLib, ChronoSeconds, RailReads} :
  BuilderLaws crypto_payments crypto_pays.
Proof.
  constructor.
  - intros. eapply crypto_pays_mono; eassumption.
  - apply rail_metadata_once.
  - intros c req chain. eapply once_then; [apply rail_metadata_once|]. intros bd s tr0 Hp.
    eapply quietly_mono; [apply quietly_ret|]. intros tr p -> Hp0. exists bd.
    split; [reflexivity | exact (crypto_pays_mono _ _ _ _ _ _ _ Hp0 Hp)].
  - eapply quietly_bind; [apply (calm_node (T := Z))|]. intros h tr0 _. eapply quietly_mono; [apply quietly_ret | auto].
Qed.

(** C18. The crypto rail builds the payment required, and nothing else.  Whatever
    the wallet and the node answer, building leaves at most one mark, one
    signature asked of the wallet, and does not panic; a payment built accepts
    the very requirement given and proves it with that signature.  On Solana the
    bytes signed, read back by the wire format's reader, are exactly the compute
    budget, one token transfer of the required amount and mint from the wallet's
    own token account to the payee's, on the wallet's authority and at the
    named facilitator's expense, and the memo asked for or a fresh one; the
    transaction sent is those bytes with the signature in the second slot and the
    facilitator's left empty, and its expiry is the node's.  On EVM the digest
    signed is that of the authorization the payload states, for the required
    amount, token, payee and chain, expiring after the server's timeout. *)
Theorem crypto_payment_faithful `{CodecLaws, Curve25519, Base64, HttpLib, ChronoSeconds, RailReads} challenge req chain
    (w : world) past :
  let '(tr, r) := exec w past (build_with_metadata crypto_payments challenge req chain) in
  past `prefix_of` tr /\
  ((deeds tr = deeds past /\ exists e, r = Err e) \/
   exists s, is_signing s /\ deeds tr = deeds past ++ [s] /\
     match r with
     | Ok b => accepted (bd_payload b) = req /\ pp_resource (bd_payload b) = Some (resource challenge) /\
         match chain with PaySolana => solana_pays tr req b s | PayEvm => evm_pays tr req b s end
     | Err _ => True
     | Panic => False
     end).
Proof.
  pose proof (wp_exec _ w past _ (rail_metadata_once challenge req chain past)) as Hrun.
  cbn [build_with_metadata crypto_payments]. destruct (exec w past _) as [tr r]. exact Hrun.
Qed.

(** * A concrete wallet and node *)

Definition toy_seconds : ChronoSeconds := {| from_timestamp s := Some (s * 1000000) |}.

Definition toy_rail_reads : RailReads := {|
  rail_blockhash := {| from_value _ := inr (mkLatest (replicate 32 49) 777); from_str _ := inl [] |};
  rail_height := {| from_value _ := inr 500; from_str _ := inl [] |}
|}.

(** A wallet that signs everything, and a node that answers. *)
Definition toy_world : host_of (said (H := toy_http)) := fun past q =>
  match q with
  | AccountOf PayEvm => inr (mkAccount (lit "0x1111111111111111111111111111111111111111") None)
  | AccountOf PaySolana => inr (mkAccount [] (Some (replicate 32 7)))
  | SignPayment PayEvm _ _ => inr (replicate 64 9 ++ [1])
  | SignPayment PaySolana _ _ => inr (replicate 64 9)
  | ChainRpc _ _ _ => inr JNull
  | UnixSecs => 1000
  | UtcNow => 1000000000
  | FreshNonce => replicate 32 5
  | FreshUuid => lit "uuid"
  | CurrentThread => None
  | Approve _ => inr (mkDecision true None)
  | ReadLedger => Some (mkLedger 0 [] ∅ 0 SpendingBudget_default (lit "session") (lit "owner") ∅ ∅)
  | ReserveBudget _ => Some (inr (inl 1))
  | ReleaseHold _ => Some tt
  | CommitHold _ _ | RecordPayment _ => Some (inr tt)
  | ObserveExpiry _ _ _ _ _ _ => Some (inr true)
  | UpdateLimits _ _ _ => Some tt
  | EnterPreparing => Some true
  | CountPreparing => Some 1
  | LeavePreparing => tt
  | Send _ => inr (200, [])
  | ReadBody _ => inr []
  end.

Definition demo_solana_req : PaymentRequirements :=
  mkReq (lit "exact") SOLANA_MAINNET_CAIP2 (lit "1500000") USDC_MINT_MAINNET SPL_TOKEN_PROGRAM 60
    (Some (mkExtra (Some SPL_MEMO_PROGRAM) None None None)).

Definition demo_challenge : PaymentRequired := mkChallenge 2 None (mkResource (lit "https://x.example") None None) [demo_solana_req] [].

(** One and a half USDC on Solana: one signature, of the transfer. *)
Lemma crypto_payment_faithful_witness :
  let run := exec toy_world []
    (build_with_metadata (crypto_payments (H := base58_codecs) (H0 := toy_curve) (H1 := hex_base64) (H2 := toy_http)
       (H3 := toy_seconds) (H4 := toy_rail_reads)) demo_challenge demo_solana_req PaySolana) in
  is_ok run.2 = true /\
  exists s b, run.2 = Ok b /\ effects_of (ans := said (H := toy_http)) marks run.1 = [s] /\
    solana_pays (H := base58_codecs) (H1 := toy_curve) (H2 := hex_base64) (H3 := toy_http) (H5 := toy_rail_reads) run.1 demo_solana_req b s.
Proof.
  cbv zeta. split; [vm_compute; reflexivity|].
  pose proof (crypto_payment_faithful (H := base58_codecs) (H0 := base58_codec_laws) (H1 := toy_curve) (H2 := hex_base64)
    (H3 := toy_http) (H4 := toy_seconds) (H5 := toy_rail_reads) demo_challenge demo_solana_req PaySolana toy_world []) as Hrun.
  assert (Hok : is_ok (exec toy_world [] (build_with_metadata (crypto_payments (H := base58_codecs) (H0 := toy_curve)
    (H1 := hex_base64) (H2 := toy_http) (H3 := toy_seconds) (H4 := toy_rail_reads)) demo_challenge demo_solana_req PaySolana)).2 = true)
    by (vm_compute; reflexivity).
  destruct (exec toy_world [] _) as [tr r]. cbn [snd fst] in *. destruct Hrun as (_ & [(_ & e & ->)|(s & _ & Hd & Hr)]); [discriminate|].
  destruct r as [b|e|]; [|discriminate..]. exists s, b. destruct Hr as (_ & _ & Hp). auto.
Defined.
