(* ===== verification/PayClient.v ===== *)
(** The x402 client: reading a 402 challenge, reserving its budget, having it
    approved and paid, and retrying
    ([crates/tinywallet-x402/src/protocol/client.rs], [headers.rs]).

    Shown, for every builder that keeps the interface's contract: a payment is
    signed only for the requirement selected from the challenge, after exactly
    its amount was held in the ledger and the approvals asked satisfied the caller; a
    proof is handed back together with that hold; and every failure releases
    the hold, once. *)

From stdpp Require Import base list strings numbers.
From S2P Require Import Prelude Program Text Chain Codec Base58 Json Quotes X402Wire Eip712 SolWire Host NoPanic.
From S2P Require Import LedgerTypes Ledger PayHost Rail.

Definition HEADER_PAYMENT_REQUIRED : str := lit "PAYMENT-REQUIRED".
Definition HEADER_PAYMENT_REQUIRED_V1 : str := lit "X-PAYMENT-REQUIRED".
Definition HEADER_PAYMENT_SIGNATURE : str := lit "PAYMENT-SIGNATURE".
Definition HEADER_PAYMENT_RESPONSE : str := lit "PAYMENT-RESPONSE".

Record SettlementResponse := mkSettlement {
  success : bool;
  transaction : str;
  st_network : str;
  st_payer : option str;
  error_reason : option str;
  st_amount : option str;
  st_extensions : list (str * Json)
}.

(** serde's reading of the challenge and receipt, and its writing of the proof. *)
Class ClientSerde := {
  read_challenge :: Deserialize PaymentRequired;
  read_receipt :: Deserialize SettlementResponse;
  write_payment : PaymentPayload -> str + str
}.

(** [Option::or_else]. *)
Definition or_else {A} (a b : option A) : option A := match a with Some x => Some x | None => b end.

Section Headers.
Context `{Base64, HttpLib, ClientSerde}.

(** The challenge a header value carries. *)
Definition challenge_of (raw : HeaderValue) : res X402Error PaymentRequired :=
  match header_to_str raw with
  | inl e => Err (Protocol (lit "PAYMENT-REQUIRED header not valid UTF-8: " ++ e))
  | inr b64_str =>
      match b64_decode (trim b64_str) with
      | inl e => Err (Protocol (lit "PAYMENT-REQUIRED base64 decode: " ++ e))
      | inr json_bytes =>
          match from_str json_bytes with
          | inl e => Err (Protocol (lit "PAYMENT-REQUIRED JSON parse: " ++ e))
          | inr challenge => Ok challenge
          end
      end
  end.

Definition parse_402_headers (headers : HeaderMap) : res X402Error PaymentRequired :=
  raw ← ok_or (or_else (header_get headers HEADER_PAYMENT_REQUIRED) (header_get headers HEADER_PAYMENT_REQUIRED_V1)) NoPaymentHeader;
  challenge_of raw.

Definition parse_settlement_response (b64_str : str) : res str SettlementResponse :=
  match b64_decode (trim b64_str) with
  | inl e => Err (lit "PAYMENT-RESPONSE base64 decode: " ++ e)
  | inr json_bytes =>
      match from_str json_bytes with
      | inl e => Err (lit "PAYMENT-RESPONSE JSON parse: " ++ e)
      | inr receipt => Ok receipt
      end
  end.

Definition encode_payment (payment : PaymentPayload) : res X402Error str :=
  match write_payment payment with
  | inl e => Err (Protocol (lit "serialize payment: " ++ e))
  | inr json => Ok (b64_encode json)
  end.
End Headers.

(** [X402PaymentResult]. *)
Record X402PaymentResult := mkPaid {
  header_value : str;
  amount_atomic : Z;
  pr_asset : str;
  pr_recipient : str;
  pr_network : str;
  pr_url : str;
  pr_authorization_valid_until : option Z;
  pr_solana_last_valid_block_height : option Z;
  reservation : Reservation
}.

Section Client.
Context `{Base64, HttpLib, ClientSerde}.

Definition parse_amount (requirement : PaymentRequirements) : res X402Error Z :=
  map_err (fun e => Protocol (lit "invalid amount '" ++ amount requirement ++ lit "': " ++ parse_int_error_text e))
    (parse_u64 (amount requirement)).

Definition handle_402 (headers : HeaderMap) : res X402Error (PaymentRequired * nat * PaymentChain) :=
  challenge ← parse_402_headers headers;
  '(idx, chain) ← select_requirement challenge;
  Ok (challenge, idx, chain).

(** [challenge.accepts[idx]]. *)
Definition accepts_at (challenge : PaymentRequired) (idx : nat) : res X402Error PaymentRequirements :=
  match accepts challenge !! idx with Some r => Ok r | None => Panic end.

Definition send_request (request : HttpRequest) : pay HttpResponse :=
  Ask (Send request) (fun r => match r with inl e => Done (Err (Transport e)) | inr response => mret response end).

Definition try_paid_request (builder : PaymentBuilder) (request : HttpRequest) (max_amount : option Z) : pay HttpResponse :=
  let replay := try_clone request in
  response ← send_request request;
  if negb (response_status response =? 402) then mret response
  else
    match replay with
    | None => Done (Err NonReplayableBody)
    | Some retry_req =>
        challenge ← lift (parse_402_headers (response_headers response));
        '(index, chain) ← lift (select_requirement challenge);
        requirement ← lift (accepts_at challenge index);
        amount ← lift (parse_amount requirement);
        _ ← lift (match max_amount with
                  | Some cap => err_if (cap <? amount) (AmountExceedsCap amount cap)
                  | None => Ok tt
                  end);
        payment ← build builder challenge requirement chain;
        encoded ← lift (encode_payment payment);
        proof ← lift (match header_from_str encoded with
                      | inl e => Err (Protocol (lit "payment proof is not a valid header: " ++ e))
                      | inr v => Ok v
                      end);
        send_request (request_insert retry_req HEADER_PAYMENT_SIGNATURE proof)
    end.

Definition pay_challenge_header (builder : PaymentBuilder) (challenge : PaymentRequired) (requirement : PaymentRequirements)
  : pay str :=
  _ ← lift (ensure_payable requirement);
  let chain := if starts_with (network requirement) (lit "eip155:") then PayEvm else PaySolana in
  payment ← build builder challenge requirement chain;
  lift (encode_payment payment).

(** What a pending Solana payment's expiry is observed from. *)
Definition expiry_candidate (record : PaymentRecord) : option (str * Z * Z) :=
  match p_authorization_expired_at record with
  | None => (fun h => (p_id record, p_timestamp record, h)) <$> p_solana_last_valid_block_height record
  | Some _ => None
  end.

(** The loop under the ledger's lock; what an observation answers is ignored. *)
Fixpoint observe_all (generation observed_height observed_at : Z) (candidates : list (str * Z * Z)) : program said str unit :=
  match candidates with
  | [] => mret tt
  | (id, issued_at, last_valid_height) :: rest =>
      Ask (ObserveExpiry generation id issued_at last_valid_height observed_height observed_at) (fun r =>
        _ ← initialised r; observe_all generation observed_height observed_at rest)
  end.

Definition refresh_solana_authorizations (builder : PaymentBuilder) : pay unit :=
  '(generation, candidates) ←
    with_err Wallet (with_ledger (fun l => (generation l, omap expiry_candidate (pending_payments l))));
  match candidates with
  | [] => mret tt
  | _ =>
      observed ← attempt (finalized_solana_block_height builder);
      match observed with
      | Ok (Some observed_height) =>
          observed_at ← utc_now;
          with_err Wallet (observe_all generation observed_height observed_at candidates)
      | _ => mret tt
      end
  end.

(** The error a refusal of the budget becomes. *)
Definition refused (r : BudgetRefusal) : X402Error :=
  match r with
  | PerRequest requested cap => AmountExceedsCap requested cap
  | Daily current cap => BudgetExceeded (lit "daily") current cap
  | Monthly current cap => BudgetExceeded (lit "monthly") current cap
  end.

Definition handle_402_and_pay_authorized (builder : PaymentBuilder) (response_headers : HeaderMap) (request_url : str)
    (authorize : str -> PaymentRequirements -> PaymentChain -> Z -> program said str unit) : pay X402PaymentResult :=
  '(challenge, idx, chain) ← lift (handle_402 response_headers);
  requirement ← lift (accepts_at challenge idx);
  amount ← lift (parse_amount requirement);
  _ ← refresh_solana_authorizations builder;
  held ← with_err Wallet (reserve amount);
  match held with
  | inr refusal => Done (Err (refused refusal))
  | inl reservation =>
      holding reservation (
        _ ← with_err Wallet (authorize (res_url (resource challenge)) requirement chain amount);
        payment ← build_with_metadata builder challenge requirement chain;
        header_value ← lift (encode_payment (bd_payload payment));
        mret (mkPaid header_value amount (asset requirement) (pay_to requirement) (network requirement) request_url
                (bd_valid_until payment) (bd_last_valid_height payment) reservation))
  end.

Definition handle_402_and_pay (builder : PaymentBuilder) (response_headers : HeaderMap) (request_url : str)
  : pay X402PaymentResult :=
  handle_402_and_pay_authorized builder response_headers request_url (fun _ _ _ _ => mret tt).
End Client.

(** * What a run of the client does *)

Lemma select_requirement_picks c i chain :
  select_requirement c = Ok (i, chain) -> exists r, accepts c !! i = Some r /\ pays_on chain r = true.
Proof.
  unfold select_requirement. rewrite select_from_result. unfold select_result. cbn [Nat.add].
  destruct (position (pays_on PaySolana) (accepts c)) as [j|] eqn:Es.
  - intros [= <- <-]. apply position_spec in Es as (r & Hr & Hp & _). eauto.
  - destruct (position (pays_on PayEvm) (accepts c)) as [j|] eqn:Ee.
    + intros [= <- <-]. apply position_spec in Ee as (r & Hr & Hp & _). eauto.
    + destruct (find_first is_exact _) as [r|]; [destruct (ensure_payable r)|]; discriminate.
Qed.

Lemma select_requirement_no_panic c : select_requirement c <> Panic.
Proof.
  unfold select_requirement. rewrite select_from_result. unfold select_result. cbn [Nat.add].
  repeat case_match; discriminate.
Qed.

Lemma wp_holding `{HttpLib} {E A} r (p : program said E A) past R :
  wp (holding r p) past R <->
  wp p past (fun tr res =>
    match res with
    | Ok a => R tr (Ok a)
    | stopped => match r_id r with
                 | Some id => forall a, R (tr ++ [Deed (ReleaseHold id) a]) stopped
                 | None => R tr stopped
                 end
    end).
Proof.
  revert past. induction p as [[a|e|]|q k IH]; intros past; cbn [holding wp]; try (destruct (r_id r); reflexivity).
  split; intros Hr x; apply IH, Hr.
Qed.

(** An approval asked for exactly these terms, and one that was given. *)
Definition approval_of `{HttpLib} (req : PaymentRequirements) (amount : Z) (e : deed) : Prop :=
  exists terms a, e = Deed (Approve terms) a /\ az_network terms = network req /\ az_asset terms = asset req /\
    az_recipient terms = pay_to req /\ az_amount_atomic terms = amount.

(** An authorizer asks for approval of the terms it is given, and allows them
    only when [given] says the approvals suffice. *)
Definition authorizer `{HttpLib} (authorize : str -> PaymentRequirements -> PaymentChain -> Z -> program said str unit)
    (given : list deed -> Prop) : Prop :=
  forall url req chain amount past, wp (authorize url req chain amount) past (fun tr r =>
    past `prefix_of` tr /\ exists asks, deeds tr = deeds past ++ asks /\ Forall (approval_of req amount) asks /\
    match r with Ok _ => given asks | Err _ => True | Panic => False end).

(** The tool's authorizer asks nothing. *)
Lemma no_authorizer `{HttpLib} : authorizer (fun _ _ _ _ => mret tt) (fun asks => asks = []).
Proof.
  intros url req chain amount past. cbn. split; [reflexivity|]. exists []. rewrite app_nil_r. split_and!; constructor.
Qed.

Section ClientRuns.
Context `{Base64, HttpLib, ClientSerde} (builder : PaymentBuilder)
  (pays : list deed -> PaymentRequired -> PaymentRequirements -> PaymentChain -> PaymentBuild -> deed -> Prop)
  `{!BuilderLaws builder pays} (given : list deed -> Prop).

(** The option chosen from the challenge in [headers]. *)
Definition chosen (headers : HeaderMap) (challenge : PaymentRequired) (chain : PaymentChain) (req : PaymentRequirements) : Prop :=
  parse_402_headers headers = Ok challenge /\
  exists i, select_requirement challenge = Ok (i, chain) /\ accepts challenge !! i = Some req.

(** What is done for a payment: hold its amount, ask, sign. *)
Definition paid (headers : HeaderMap) (tr done : list deed) (p : X402PaymentResult) : Prop :=
  exists challenge chain req id asks s bd,
    chosen headers challenge chain req /\ parse_u64 (amount req) = Ok (amount_atomic p) /\
    done = Deed (ReserveBudget (amount_atomic p)) (Some (inr (inl id))) :: asks ++ [s] /\
    Forall (approval_of req (amount_atomic p)) asks /\ given asks /\ is_signing s /\
    pays tr challenge req chain bd s /\ encode_payment (bd_payload bd) = Ok (header_value p) /\
    reservation p = mkReservation (Some id) (amount_atomic p) /\
    pr_asset p = asset req /\ pr_recipient p = pay_to req /\ pr_network p = network req /\
    pr_authorization_valid_until p = bd_valid_until bd /\ pr_solana_last_valid_block_height p = bd_last_valid_height bd.

(** What a failed attempt leaves: nothing, a refused hold, or a hold that was
    released, with at most one signature between, and that only if approved. *)
Definition unpaid (headers : HeaderMap) (done : list deed) (e : X402Error) : Prop :=
  done = [] \/
  exists challenge chain req v, chosen headers challenge chain req /\ parse_u64 (amount req) = Ok v /\
    ((exists r, done = [Deed (ReserveBudget v) r] /\
       match r with
       | None => e = Wallet NOT_INITIALISED
       | Some (inl m) => e = Wallet m
       | Some (inr (inr refusal)) => e = refused refusal
       | Some (inr (inl _)) => False
       end) \/
     exists id asks signs a,
       done = Deed (ReserveBudget v) (Some (inr (inl id))) :: asks ++ signs ++ [Deed (ReleaseHold id) a] /\
       Forall (approval_of req v) asks /\
       (signs = [] \/ exists s, signs = [s] /\ is_signing s /\ given asks)).

Lemma parse_402_no_panic headers : parse_402_headers headers <> Panic.
Proof.
  unfold parse_402_headers. apply bind_no_panic; [destruct (or_else _ _); discriminate|].
  intros raw. unfold challenge_of. repeat case_match; discriminate.
Qed.

Lemma parse_amount_no_panic req : parse_amount req <> Panic.
Proof. unfold parse_amount. no_panic. Qed.

Lemma encode_payment_no_panic p : encode_payment p <> Panic.
Proof. unfold encode_payment. destruct (write_payment p); discriminate. Qed.

Lemma handle_402_ok headers challenge idx chain :
  handle_402 headers = Ok (challenge, idx, chain) -> exists req, accepts_at challenge idx = Ok req /\ chosen headers challenge chain req.
Proof.
  unfold handle_402. intros E. apply bind_ok in E as (c & Hc & E). apply bind_ok in E as ([i ch] & Hs & [= -> -> ->]).
  destruct (select_requirement_picks _ _ _ Hs) as (r & Hr & _). exists r. unfold accepts_at. rewrite Hr.
  split; [reflexivity|]. split; [exact Hc|]. exists idx. auto.
Qed.

Lemma handle_402_no_panic headers : handle_402 headers <> Panic.
Proof.
  unfold handle_402. apply bind_no_panic; [apply parse_402_no_panic|]. intros c.
  apply bind_no_panic; [apply select_requirement_no_panic|]. intros [i ch]. discriminate.
Qed.

(** Reading the ledger and observing expiry leave no mark. *)
Lemma calm_with_ledger {A} (f : PaymentLedger -> A) : calmly (with_ledger f) (fun _ _ => True).
Proof.
  apply quietly_ask; [reflexivity|]. intros r. cbn in r. destruct r as [l|]; [|apply quietly_err].
  eapply quietly_mono; [apply quietly_ret | auto].
Qed.

Lemma calm_observe_all g h t cs : calmly (observe_all g h t cs) (fun _ _ => True).
Proof.
  induction cs as [|[[id at_] lv] cs IH]; cbn [observe_all]; [eapply quietly_mono; [apply quietly_ret | auto]|].
  apply quietly_ask; [reflexivity|]. intros r. cbn in r.
  eapply quietly_bind; [apply quietly_lift; destruct r; discriminate|]. intros x tr0 _.
  eapply quietly_mono; [exact IH | auto].
Qed.

Lemma calm_refresh : calmly (refresh_solana_authorizations builder) (fun _ _ => True).
Proof.
  unfold refresh_solana_authorizations. eapply quietly_bind; [apply quietly_with_err, calm_with_ledger|].
  intros [g cs] tr0 _. destruct cs as [|c cs]; [eapply quietly_mono; [apply quietly_ret | auto]|].
  intros past. apply wp_bind. eapply wp_mono; [exact (answers_attempt _ _ (height_calm (b := builder)) past)|].
  intros tr r (Hp & He & r' & -> & Hr). destruct r' as [[h|]|e|]; [|cbn; auto..|destruct Hr].
  assert (Hc : calmly (now ← utc_now; with_err Wallet (observe_all g h now (c :: cs)) : pay unit) (fun _ _ => True)).
  { eapply quietly_bind; [apply (calm_get UtcNow); reflexivity|]. intros now tr1 _.
    eapply quietly_mono; [apply quietly_with_err, calm_observe_all | auto]. }
  eapply wp_mono; [apply Hc|]. intros tr' r (Hp' & He' & Hr'). split_and!; [etransitivity; eassumption | congruence | destruct r; auto].
Qed.

(** The part between the hold and the proof. *)
Lemma pay_held_runs headers challenge chain req v id authorize url past :
  authorizer authorize given -> chosen headers challenge chain req -> parse_u64 (amount req) = Ok v ->
  let hold := Deed (ReserveBudget v) (Some (inr (inl id))) in
  wp (holding (mkReservation (Some id) v) (
        _ ← with_err Wallet (authorize (res_url (resource challenge)) req chain v);
        payment ← build_with_metadata builder challenge req chain;
        header_value ← lift (encode_payment (bd_payload payment));
        mret (mkPaid header_value v (asset req) (pay_to req) (network req) url
                (bd_valid_until payment) (bd_last_valid_height payment) (mkReservation (Some id) v)))) (past ++ [hold])
    (fun tr r => past `prefix_of` tr /\ exists done, deeds tr = deeds past ++ done /\
       match r with Ok p => paid headers tr done p | Err e => unpaid headers done e | Panic => False end).
Proof.
  intros Hauth Hch Hv hold. apply wp_holding. cbn [r_id].
  assert (Hrel : forall tr asks signs e, past ++ [hold] `prefix_of` tr -> deeds tr = deeds past ++ hold :: asks ++ signs ->
    Forall (approval_of req v) asks -> (signs = [] \/ exists s, signs = [s] /\ is_signing s /\ given asks) ->
    forall a, past `prefix_of` tr ++ [Deed (ReleaseHold id) a] /\
      exists done, deeds (tr ++ [Deed (ReleaseHold id) a]) = deeds past ++ done /\ unpaid headers done e).
  { intros tr asks signs e Hp Hd Hap Hsg a. split.
    - etransitivity; [|apply prefix_snoc]. etransitivity; [apply prefix_snoc | exact Hp].
    - exists (hold :: asks ++ signs ++ [Deed (ReleaseHold id) a]). rewrite effects_loud, Hd by reflexivity.
      split; [rewrite <- !app_assoc; cbn; rewrite <- ?app_assoc; reflexivity|]. right.
      exists challenge, chain, req, v. split; [exact Hch|]. split; [exact Hv|]. right. exists id, asks, signs, a. auto. }
  assert (Hd0 : deeds (past ++ [hold]) = deeds past ++ [hold]) by (apply effects_loud; reflexivity).
  apply wp_bind, wp_with_err. eapply wp_mono; [apply Hauth|].
  intros tr0 r (Hp0 & asks & Hd1 & Hap & Hr). rewrite Hd0, <- app_assoc in Hd1. cbn [app] in Hd1.
  destruct r as [u|e|]; cbn [map_err]; [| |destruct Hr].
  2: { apply (Hrel tr0 asks []); [exact Hp0 | rewrite app_nil_r; exact Hd1 | exact Hap | left; reflexivity]. }
  apply wp_bind. eapply wp_mono; [apply metadata_once|].
  intros tr1 r (Hp1 & [(Hd2 & e & ->)|(s & Hs & Hd2 & Hb)]).
  { apply (Hrel tr1 asks []); [etransitivity; eassumption | rewrite app_nil_r; congruence | exact Hap | left; reflexivity]. }
  rewrite Hd1, <- app_assoc in Hd2. cbn [app] in Hd2.
  destruct r as [bd|e|]; [| |destruct Hb].
  2: { apply (Hrel tr1 asks [s]); [etransitivity; eassumption | exact Hd2 | exact Hap | right; exists s; auto]. }
  pose proof (encode_payment_no_panic (bd_payload bd)) as Hnp.
  destruct (encode_payment (bd_payload bd)) as [hv|e|] eqn:He; [| |congruence]; cbn.
  2: { apply (Hrel tr1 asks [s]); [etransitivity; eassumption | exact Hd2 | exact Hap | right; exists s; auto]. }
  split.
  - etransitivity; [apply prefix_snoc|]. etransitivity; eassumption.
  - exists (hold :: asks ++ [s]). split; [exact Hd2|]. exists challenge, chain, req, id, asks, s, bd. cbn.
    split_and!; auto.
Qed.

Lemma client_runs headers url authorize past :
  authorizer authorize given ->
  wp (handle_402_and_pay_authorized builder headers url authorize) past (fun tr r =>
    past `prefix_of` tr /\ exists done, deeds tr = deeds past ++ done /\
    match r with Ok p => paid headers tr done p | Err e => unpaid headers done e | Panic => False end).
Proof.
  intros Hauth. unfold handle_402_and_pay_authorized.
  assert (Hstop : forall past' e, past `prefix_of` past' -> deeds past' = deeds past ->
    past `prefix_of` past' /\ exists done, deeds past' = deeds past ++ done /\ unpaid headers done e).
  { intros past' e Hp Hd. split; [exact Hp|]. exists []. rewrite app_nil_r. split; [exact Hd | left; reflexivity]. }
  pose proof (handle_402_no_panic headers) as Hnp.
  destruct (handle_402 headers) as [[[challenge idx] chain]|e|] eqn:Hh; [|apply Hstop; reflexivity | congruence].
  apply handle_402_ok in Hh as (req & Hreq & Hch). cbn [lift mbind io_bind io_then]. rewrite Hreq. cbn [io_then].
  pose proof (parse_amount_no_panic req) as Hnp'. unfold parse_amount in *.
  destruct (parse_u64 (amount req)) as [v|e|] eqn:Hv; cbn [map_err io_then] in *; [|apply Hstop; reflexivity | congruence].
  eapply wp_quietly; [apply calm_refresh | intros tr e Hp He; apply Hstop; [exact Hp | exact He]|]. intros tr0 _ Hp0 He0 _.
  apply wp_bind, wp_with_err. intros r. cbn in r.
  assert (Hheld : forall e, match r with
       | None => e = Wallet NOT_INITIALISED
       | Some (inl m) => e = Wallet m
       | Some (inr (inr refusal)) => e = refused refusal
       | Some (inr (inl _)) => False
       end ->
    past `prefix_of` tr0 ++ [Deed (ReserveBudget v) r] /\
    exists done, deeds (tr0 ++ [Deed (ReserveBudget v) r]) = deeds past ++ done /\ unpaid headers done e).
  { intros e He. split; [etransitivity; [exact Hp0 | apply prefix_snoc]|]. exists [Deed (ReserveBudget v) r].
    rewrite effects_loud by reflexivity. split; [rewrite He0; reflexivity|]. right. exists challenge, chain, req, v.
    split; [exact Hch|]. split; [exact Hv|]. left. exists r. auto. }
  destruct r as [[m|[id|refusal]]|]; cbn; [apply Hheld; reflexivity | | apply Hheld; reflexivity | apply Hheld; reflexivity].
  eapply wp_mono; [apply (pay_held_runs headers challenge chain req v id authorize url tr0 Hauth Hch Hv)|].
  intros tr r (Hp & done & Hd & Hr). split; [etransitivity; eassumption|]. exists done. rewrite Hd, He0. auto.
Qed.

(** * The transparent client *)

(** The answer to what was sent last. *)
Definition answered (a : str + HttpResponse) : res X402Error HttpResponse :=
  match a with inl e => Err (Transport e) | inr response => Ok response end.

(** A signature for the option chosen from a 402, no dearer than the cap, and
    then the same request once more with the proof. *)
Definition retried (request : HttpRequest) (max_amount : option Z) (response : HttpResponse) (tr rest : list deed)
    (r : res X402Error HttpResponse) : Prop :=
  exists challenge chain req v retry s,
    chosen (response_headers response) challenge chain req /\ parse_u64 (amount req) = Ok v /\
    (forall cap, max_amount = Some cap -> v <= cap) /\ try_clone request = Some retry /\ is_signing s /\
    ((rest = [s] /\ is_ok r = false) \/
     exists bd header proof a, pays tr challenge req chain bd s /\ encode_payment (bd_payload bd) = Ok header /\
       header_from_str header = inr proof /\
       rest = [s; Deed (Send (request_insert retry HEADER_PAYMENT_SIGNATURE proof)) a] /\ r = answered a).

Definition requested (request : HttpRequest) (max_amount : option Z) (tr done : list deed) (r : res X402Error HttpResponse) : Prop :=
  exists a rest, done = Deed (Send request) a :: rest /\
    match a with
    | inl e => rest = [] /\ r = Err (Transport e)
    | inr response =>
        if response_status response =? 402
        then (rest = [] /\ is_ok r = false /\ (try_clone request = None -> r = Err NonReplayableBody)) \/
             retried request max_amount response tr rest r
        else rest = [] /\ r = Ok response
    end.

Lemma try_paid_runs request max_amount past :
  wp (try_paid_request builder request max_amount) past (fun tr r =>
    past `prefix_of` tr /\ r <> Panic /\ exists done, deeds tr = deeds past ++ done /\ requested request max_amount tr done r).
Proof.
  unfold try_paid_request, send_request. intros r0. cbn in r0.
  set (first := Deed (Send request) r0).
  assert (Hd0 : deeds (past ++ [first]) = deeds past ++ [first]) by (apply effects_loud; reflexivity).
  assert (Hp0 : past `prefix_of` past ++ [first]) by apply prefix_snoc.
  destruct r0 as [e|response]; cbn [wp mbind io_bind io_then mret io_ret].
  { split_and!; [exact Hp0 | discriminate|]. exists [first]. split; [exact Hd0|]. exists (inl e), []. auto. }
  destruct (response_status response =? 402) eqn:Hs; cbn [negb]; cbn zeta.
  2: { cbn [wp mret io_ret]. split_and!; [exact Hp0 | discriminate|]. exists [first]. split; [exact Hd0|]. exists (inr response), []. rewrite Hs. auto. }
  (* what stops the attempt before a signature *)
  assert (Hstop : forall r, is_ok r = false -> r <> Panic -> (try_clone request = None -> r = Err NonReplayableBody) ->
    past `prefix_of` past ++ [first] /\ r <> Panic /\
    exists done, deeds (past ++ [first]) = deeds past ++ done /\ requested request max_amount (past ++ [first]) done r).
  { intros r Hr Hnp Hn. split_and!; [exact Hp0 | exact Hnp|]. exists [first]. split; [exact Hd0|].
    exists (inr response), []. rewrite Hs. auto 6. }
  destruct (try_clone request) as [retry|] eqn:Hclone; [|apply Hstop; auto; congruence].
  pose proof (parse_402_no_panic (response_headers response)) as Hnp.
  destruct (parse_402_headers (response_headers response)) as [challenge|e|] eqn:Hh; [|apply Hstop; auto; congruence | congruence].
  clear Hnp. pose proof (select_requirement_no_panic challenge) as Hnp. cbn [lift mbind io_bind io_then].
  destruct (select_requirement challenge) as [[index chain]|e|] eqn:Hsel; cbn [io_then]; [|apply Hstop; auto; congruence | congruence].
  clear Hnp. destruct (select_requirement_picks _ _ _ Hsel) as (req & Hreq & _). unfold accepts_at. rewrite Hreq. cbn [io_then].
  pose proof (parse_amount_no_panic req) as Hnp. unfold parse_amount in *.
  destruct (parse_u64 (amount req)) as [v|e|] eqn:Hv; cbn [map_err io_then] in *; [|apply Hstop; auto; congruence | congruence].
  clear Hnp. assert (Hcap : match max_amount with Some cap => err_if (cap <? v) (AmountExceedsCap v cap) | None => Ok tt end = Ok tt ->
    forall cap, max_amount = Some cap -> v <= cap).
  { intros Hok cap ->. unfold err_if in Hok. destruct (Z.ltb_spec cap v); [discriminate | lia]. }
  destruct (match max_amount with Some cap => _ | None => _ end) as [[]|e|] eqn:Hc; cbn [io_then];
    [|apply Hstop; auto; congruence | unfold err_if in Hc; repeat case_match; discriminate].
  specialize (Hcap eq_refl). apply wp_bind. eapply wp_mono; [apply build_once|].
  intros tr r (Hp & [(Hd & e & ->)|(s & Hsg & Hd & Hb)]).
  { split_and!; [etransitivity; eassumption | discriminate|]. exists [first]. split; [congruence|].
    exists (inr response), []. rewrite Hs. split; [reflexivity|]. left. split_and!; auto; congruence. }
  assert (Hch : chosen (response_headers response) challenge chain req) by (split; [exact Hh | exists index; auto]).
  rewrite Hd0, <- app_assoc in Hd. cbn [app] in Hd.
  assert (Hsigned : forall r, is_ok r = false -> r <> Panic -> past `prefix_of` tr /\ r <> Panic /\
    exists done, deeds tr = deeds past ++ done /\ requested request max_amount tr done r).
  { intros r' Hr' Hnp'. split_and!; [etransitivity; eassumption | exact Hnp'|]. exists [first; s]. split; [exact Hd|].
    exists (inr response), [s]. rewrite Hs. split; [reflexivity|]. right. exists challenge, chain, req, v, retry, s. split_and!; auto. }
  destruct r as [p|e|]; [|apply Hsigned; auto; congruence | destruct Hb].
  destruct Hb as (bd & <- & Hb). pose proof (encode_payment_no_panic (bd_payload bd)) as Hnp.
  destruct (encode_payment (bd_payload bd)) as [hv|e|] eqn:He; [|apply Hsigned; auto; congruence | congruence].
  cbn [lift mbind io_bind io_then]. destruct (header_from_str hv) as [e|proof] eqn:Hf; cbn [io_then]; [apply Hsigned; auto; congruence|].
  intros r1. cbn in r1. set (second := Deed (Send (request_insert retry HEADER_PAYMENT_SIGNATURE proof)) r1).
  assert (Hd2 : deeds (tr ++ [second]) = deeds past ++ [first; s; second]).
  { rewrite effects_loud by reflexivity. rewrite Hd, <- app_assoc. reflexivity. }
  assert (Hp2 : past `prefix_of` tr ++ [second]) by (do 2 (etransitivity; [eassumption|]); apply prefix_snoc).
  assert (Hend : forall r, r = answered r1 -> past `prefix_of` tr ++ [second] /\ r <> Panic /\
    exists done, deeds (tr ++ [second]) = deeds past ++ done /\ requested request max_amount (tr ++ [second]) done r).
  { intros r' ->. split_and!; [exact Hp2 | unfold answered; destruct r1; discriminate|]. exists [first; s; second].
    split; [exact Hd2|]. exists (inr response), [s; second]. rewrite Hs. split; [reflexivity|]. right.
    exists challenge, chain, req, v, retry, s. split_and!; auto. right. exists bd, hv, proof, r1. split_and!; auto.
    eapply pays_mono; [apply prefix_snoc | exact Hb]. }
  destruct r1; apply Hend; reflexivity.
Qed.
End ClientRuns.

(** C17. A payment is reserved before it is approved, and approved before it is
    signed.  For every builder that keeps the interface's contract and every
    authorizer that asks what it is given, whatever the ledger, wallet and host
    answer: a payment handed back was chosen from the challenge by the selection
    rule; exactly its amount was held first, every approval asked was of its
    exact terms and together they satisfied the authorizer ([given]), then one signature was made, and the header is the
    proof built with it; the hold comes back alive with it.  Every failure
    instead leaves nothing, or a hold that was refused (and says which limit), or
    a hold released exactly once, with no signature unless all was approved. *)
Theorem payment_reserved_then_signed `{Base64, HttpLib, ClientSerde} builder pays `{!BuilderLaws builder pays} given headers url
    authorize (w : world) past :
  authorizer authorize given ->
  let '(tr, r) := exec w past (handle_402_and_pay_authorized builder headers url authorize) in
  past `prefix_of` tr /\ exists done, deeds tr = deeds past ++ done /\
  match r with Ok p => paid pays given headers tr done p | Err e => unpaid given headers done e | Panic => False end.
Proof.
  intros Hauth. pose proof (wp_exec _ w past _ (client_runs builder pays given headers url authorize past Hauth)) as Hrun.
  destruct (exec w past _) as [tr r]. exact Hrun.
Qed.

(** C21. The transparent client.  It sends the request once; only a 402 is paid,
    only for a request that can be sent again, and only for the option the
    selection rule picks, when its amount is within the caller's cap; then it
    signs once and sends the same request once more with the proof, and answers
    what came back.  It never panics. *)
Theorem paid_request_capped `{Base64, HttpLib, ClientSerde} builder pays `{!BuilderLaws builder pays} request max_amount
    (w : world) past :
  let '(tr, r) := exec w past (try_paid_request builder request max_amount) in
  past `prefix_of` tr /\ r <> Panic /\ exists done, deeds tr = deeds past ++ done /\ requested pays request max_amount tr done r.
Proof.
  pose proof (wp_exec _ w past _ (try_paid_runs builder pays request max_amount past)) as Hrun.
  destruct (exec w past _) as [tr r]. exact Hrun.
Qed.

(** * A concrete server *)

Definition toy_client_serde : ClientSerde := {|
  read_challenge := {| from_value _ := inl []; from_str _ := inr demo_challenge |};
  read_receipt := {| from_value _ := inl []; from_str _ := inr (mkSettlement true (lit "tx") SOLANA_MAINNET_CAIP2 None None None []) |};
  write_payment p := inr match payload p with SolanaProof t => t | EvmProof s _ => s end
|}.

Definition demo_headers : HeaderMap (HttpLib := toy_http) := [(HEADER_PAYMENT_REQUIRED, lit "00")].

(** A server that asks for payment once. *)
Definition demo_server : host_of (said (H := toy_http)) := fun past q =>
  match q with
  | Send _ => if existsb (fun e => match ev_request e with Send _ => true | _ => false end) past
              then inr (200, [(HEADER_PAYMENT_RESPONSE, lit "00")]) else inr (402, demo_headers)
  | q => toy_world past q
  end.

Definition demo_rail : PaymentBuilder (H := toy_http) :=
  crypto_payments (H := base58_codecs) (H0 := toy_curve) (H1 := hex_base64) (H2 := toy_http) (H3 := toy_seconds) (H4 := toy_rail_reads).

Definition demo_pays := crypto_pays (H := base58_codecs) (H1 := toy_curve) (H2 := hex_base64) (H3 := toy_http) (H4 := toy_seconds)
  (H5 := toy_rail_reads).

Lemma demo_rail_laws : BuilderLaws demo_rail demo_pays.
Proof.
  exact (crypto_payments_laws (H := base58_codecs) (H0 := base58_codec_laws) (H1 := toy_curve) (H2 := hex_base64) (H3 := toy_http)
    (H4 := toy_seconds) (H5 := toy_rail_reads)).
Qed.

(** A challenge paid: hold, signature. *)
Lemma payment_reserved_then_signed_witness :
  let run := exec toy_world [] (handle_402_and_pay (H := hex_base64) (H0 := toy_http) (H1 := toy_client_serde) demo_rail demo_headers
                                 (lit "https://x.example")) in
  length (effects_of (ans := said (H := toy_http)) marks run.1) = 2%nat /\ is_ok run.2 = true /\
  exists done, effects_of marks run.1 = effects_of marks [] ++ done /\
    match run.2 with
    | Ok p => paid (H := hex_base64) (H1 := toy_client_serde) demo_pays (fun asks => asks = []) demo_headers run.1 done p
    | Err e => unpaid (H := hex_base64) (H1 := toy_client_serde) (fun asks => asks = []) demo_headers done e
    | Panic => False
    end.
Proof.
  cbv zeta. split; [vm_compute; reflexivity|]. split; [vm_compute; reflexivity|].
  pose proof (payment_reserved_then_signed (H := hex_base64) (H0 := toy_http) (H1 := toy_client_serde) demo_rail demo_pays
    (BuilderLaws0 := demo_rail_laws) (fun asks => asks = []) demo_headers (lit "https://x.example") (fun _ _ _ _ => mret tt) toy_world [] no_authorizer) as Hrun.
  unfold handle_402_and_pay. destruct (exec toy_world [] _) as [tr r]. apply Hrun.
Defined.

(** A request paid with the proof: two sends and a signature. *)
Lemma paid_request_capped_witness :
  let run := exec demo_server [] (try_paid_request (H := hex_base64) (H0 := toy_http) (H1 := toy_client_serde) demo_rail [] (Some 2000000)) in
  length (effects_of (ans := said (H := toy_http)) marks run.1) = 3%nat /\ is_ok run.2 = true /\
  exists done, effects_of marks run.1 = effects_of marks [] ++ done /\
    requested (H := hex_base64) (H1 := toy_client_serde) demo_pays [] (Some 2000000) run.1 done run.2.
Proof.
  cbv zeta. split; [vm_compute; reflexivity|]. split; [vm_compute; reflexivity|].
  pose proof (paid_request_capped (H := hex_base64) (H0 := toy_http) (H1 := toy_client_serde) demo_rail demo_pays
    (BuilderLaws0 := demo_rail_laws) [] (Some 2000000) demo_server []) as Hrun.
  destruct (exec demo_server [] _) as [tr r]. apply Hrun.
Defined.
