(* ===== verification/PayService.v ===== *)
(** The module's x402 service: preparing, recording, summing and limiting
    payments behind an issued handle
    ([crates/tinywallet-module/src/service/x402.rs],
    [crates/tinywallet-bus/src/wire/host.rs]).

    Shown: a proof is returned to the host only after the host approved its exact
    terms and its amount went from a hold to a durable pending record; a receipt
    settles a payment only if it says so, and nothing else changes one; and the
    admission rule keeps pending payments within capacity however preparations
    interleave.  Wiping secrets from memory is not modelled. *)

From stdpp Require Import base list strings numbers gmap.
From S2P Require Import Prelude Program Text Chain Codec Base58 Addr Json Wire Quotes X402Wire Eip712 SolWire Host NoPanic.
From S2P Require Import LedgerTypes Ledger Store LedgerOps PayHost Rail PayClient.

(** * The wire *)

Record X402ConfigResponse := mkConfig {
  workspace_dir : str;
  cfg_session_id : str;
  cfg_per_request_max : Z;
  cfg_daily_max : Z;
  cfg_monthly_max : Z
}.

Record X402PreparePaymentRequest := mkPreparePayment {
  pp_service : str;
  pp_url : str;
  payment_required : str;
  pp_owner : option QuoteOwner;
  pp_secret : SecretMaterial;
  additional_secrets : list SecretMaterial
}.

Record X402PreparePaymentResponse := mkPrepareResponse {
  payment_id : str;
  payment_header : str;
  rs_amount_atomic : Z;
  rs_asset : str;
  rs_recipient : str;
  rs_network : str
}.

Record X402RecordPaymentRequest := mkRecordPayment {
  rp_service : str;
  rp_payment_id : str;
  response_status_code : Z;
  settlement_response : option str
}.

Record X402SpendingSummary := mkSpending {
  sp_session_total : Z;
  sp_daily_total : Z;
  sp_monthly_total : Z;
  sp_reserved : Z;
  sp_per_request_max : Z;
  sp_daily_max : Z;
  sp_monthly_max : Z
}.

Record X402DetailedSpendingSummary := mkDetailed {
  dt_session_total : Z;
  dt_daily_total : Z;
  dt_monthly_total : Z;
  dt_session_count : Z;
  dt_daily_count : Z;
  dt_monthly_count : Z;
  dt_reserved : Z;
  dt_per_request_max : Z;
  dt_daily_max : Z;
  dt_monthly_max : Z
}.

Inductive X402PaymentStatus := XPending | XSettled | XFailed | XDenied.

Record X402PaymentRecord := mkWireRecord {
  wr_id : str;
  wr_url : str;
  wr_asset : str;
  wr_amount_atomic : Z;
  wr_amount_display : str;
  wr_recipient : str;
  wr_network : str;
  wr_tx_signature : option str;
  wr_status : X402PaymentStatus;
  wr_timestamp : str;
  wr_valid_until : option str;
  wr_last_valid_height : option Z;
  wr_expired_at : option str;
  wr_observed_height : option Z;
  wr_session_id : str;
  wr_thread_id : option str
}.

(** [to_rfc3339_opts(AutoSi, true)]. *)
Class ChronoText := { to_rfc3339 : Z -> str }.

(** * The runtime *)

Definition MAX_PENDING : Z := 64.
Definition CAPACITY_REACHED : str := lit "x402 pending-payment capacity reached".
Definition ADMISSION_UNAVAILABLE : str := lit "x402 pending-payment admission is unavailable".

(** [X402Runtime]: its configuration and the handle it issued. *)
Record X402Runtime := mkRuntime { config : X402ConfigResponse; handle : str }.

(** The shared count, as the lock's holder changes it. *)
Definition begin_count (preparing : Z) : option Z := if MAX_PENDING <=? preparing then None else Some (preparing + 1).
Definition end_count (preparing : Z) : Z := sat_sub preparing 1.

Section Runtime.
Context `{Chrono, Base64, HttpLib, ClientSerde, ChronoText}.

Abbreviation call := (program said str).

Definition require_handle (r : X402Runtime) (h : str) : res str unit :=
  err_if (negb (bool_decide (h = handle r))) (lit "x402 service handle is unavailable").

(** The request's secrets, at most one per chain. *)
Fixpoint has_duplicate (secrets : list SecretMaterial) (prior : list Chain) : bool :=
  match secrets with
  | [] => false
  | s :: rest => bool_decide (sm_chain s ∈ prior) || has_duplicate rest (sm_chain s :: prior)
  end.

Definition take_request_secrets (request : X402PreparePaymentRequest) : res str (list SecretMaterial) :=
  let secrets := pp_secret request :: additional_secrets request in
  if has_duplicate secrets [] then Err (lit "x402 request contains duplicate secrets for one chain") else Ok secrets.

(** [begin_pending]: what enters is left again whatever follows. *)
Definition begin_pending : call unit :=
  Ask EnterPreparing (fun r =>
    match r with
    | None => Done (Err ADMISSION_UNAVAILABLE)
    | Some false => Done (Err CAPACITY_REACHED)
    | Some true => mret tt
    end).

(** [Drop for PendingAdmission], on every way out. *)
Fixpoint admitted {A} (p : call A) : call A :=
  match p with
  | Done r => Ask LeavePreparing (fun _ => Done r)
  | Ask q k => Ask q (fun a => admitted (k a))
  end.

Definition ensure_capacity : call unit :=
  Ask CountPreparing (fun r =>
    preparing ← lift (ok_or r ADMISSION_UNAVAILABLE);
    now ← utc_now;
    pending ← with_ledger (fun l => usable_pending_count l now);
    lift (err_if (MAX_PENDING <? sat_add usize_max (Z.of_nat pending) preparing) CAPACITY_REACHED)).

(** The approval callback given to the client. *)
Definition host_approval (owner : option QuoteOwner) (url : str) (requirement : PaymentRequirements) (chain : PaymentChain)
    (amount : Z) : call unit :=
  Ask (Approve (mkAuthorize url (network requirement) (asset requirement) (pay_to requirement) amount owner)) (fun r =>
    match r with
    | inl e => Done (Err e)
    | inr d => if approved d then mret tt else Done (Err (default (lit "x402 payment was not approved") (reason d)))
    end).

Definition pending_record (r : X402Runtime) (owner : option QuoteOwner) (payment_id : str) (proof : X402PaymentResult) (now : Z)
  : PaymentRecord :=
  mkRecord payment_id (pr_url proof) (pr_asset proof) (amount_atomic proof) (format_usdc (amount_atomic proof))
    (pr_recipient proof) (pr_network proof) None Pending now (pr_authorization_valid_until proof)
    (pr_solana_last_valid_block_height proof) None None (cfg_session_id (config r)) (thread_id <$> owner).

Definition NOT_RECORDED : str := lit "x402 payment budget could not be durably recorded".

Definition prepare (builder : PaymentBuilder) (r : X402Runtime) (request : X402PreparePaymentRequest)
  : call X402PreparePaymentResponse :=
  _ ← lift (require_handle r (pp_service request));
  _ ← lift (take_request_secrets request);
  header ← lift (match header_from_str (payment_required request) with
                 | inl e => Err (lit "invalid payment challenge header: " ++ e)
                 | inr v => Ok v
                 end);
  let headers := header_insert empty_headers (lit "payment-required") header in
  _ ← begin_pending;
  admitted (
    _ ← with_err X402Error_text (refresh_solana_authorizations builder);
    _ ← ensure_capacity;
    proof ← with_err X402Error_text
              (handle_402_and_pay_authorized builder headers (pp_url request) (host_approval (pp_owner request)));
    id ← (uuid ← fresh_uuid; mret (lit "x402_" ++ uuid));
    now ← utc_now;
    _ ← with_err (fun _ => NOT_RECORDED) (commit_durable (reservation proof) (pending_record r (pp_owner request) id proof now));
    mret (mkPrepareResponse id (header_value proof) (amount_atomic proof) (pr_asset proof) (pr_recipient proof) (pr_network proof))).

(** [with_ledger_mut(..)??]. *)
Definition recorded (record : PaymentRecord) : call unit :=
  Ask (RecordPayment record) (fun r =>
    match r with None => Done (Err NOT_INITIALISED) | Some (inl e) => Done (Err e) | Some (inr _) => mret tt end).

(** The record a receipt turns a pending one into. *)
Definition settle (id : str) (pending : PaymentRecord) (tx_signature : option str) (status : PaymentStatus) (now : Z) : PaymentRecord :=
  mkRecord id (p_url pending) (p_asset pending) (p_amount_atomic pending) (p_amount_display pending) (p_recipient pending)
    (p_network pending) tx_signature status now (p_authorization_valid_until pending) (p_solana_last_valid_block_height pending)
    (p_authorization_expired_at pending) (p_authorization_expiry_observed_height pending) (p_session_id pending) (p_thread_id pending).

(** What the host's report of a receipt says. *)
Definition receipt_of (response : option str) : option SettlementResponse :=
  match response with
  | Some value => match parse_settlement_response value with Ok receipt => Some receipt | _ => None end
  | None => None
  end.
Definition outcome_of (receipt : option SettlementResponse) : PaymentStatus :=
  match receipt with Some r => if success r then Settled else Pending | None => Pending end.
Definition signature_of (receipt : option SettlementResponse) : option str :=
  match receipt with
  | Some r => if success r && negb (is_nil (transaction r)) then Some (transaction r) else None
  | None => None
  end.

Definition record_outcome (r : X402Runtime) (request : X402RecordPaymentRequest) : call unit :=
  _ ← lift (require_handle r (rp_service request));
  found ← with_ledger (fun l => payment l (rp_payment_id request));
  pending ← lift (ok_or found (lit "x402 payment handle was missing"));
  if bool_decide (p_status pending = Settled) then mret tt
  else
    let legacy_expired := bool_decide (p_status pending = Failed) && bool_decide (is_Some (p_authorization_valid_until pending)) in
    if negb (bool_decide (p_status pending = Pending)) && negb legacy_expired
    then Done (Err (lit "x402 payment handle was missing or expired"))
    else
      let receipt := receipt_of (settlement_response request) in
      let status := outcome_of receipt in
      if bool_decide (status = p_status pending) then mret tt
      else
        now ← utc_now;
        recorded (settle (rp_payment_id request) pending (signature_of receipt) status now).

(** * Reading and limiting *)

Definition spending (l : PaymentLedger) (now : Z) : X402SpendingSummary :=
  let summary := summary_at l now in
  mkSpending (session_total_atomic summary) (daily_total_atomic summary) (monthly_total_atomic summary) (outstanding_atomic l)
    (per_request_max_atomic (budget l)) (daily_max_atomic (budget l)) (monthly_max_atomic (budget l)).

Definition runtime_summary (r : X402Runtime) (service : str) : call X402SpendingSummary :=
  _ ← lift (require_handle r service);
  now ← utc_now;
  with_ledger (fun l => spending l now).

Definition payment_record_to_wire (record : PaymentRecord) : X402PaymentRecord :=
  let status := match p_status record with Pending => XPending | Settled => XSettled | Failed => XFailed | Denied => XDenied end in
  mkWireRecord (p_id record) (p_url record) (p_asset record) (p_amount_atomic record) (p_amount_display record)
    (p_recipient record) (p_network record) (p_tx_signature record) status (to_rfc3339 (p_timestamp record))
    (to_rfc3339 <$> p_authorization_valid_until record) (p_solana_last_valid_block_height record)
    (to_rfc3339 <$> p_authorization_expired_at record) (p_authorization_expiry_observed_height record) (p_session_id record)
    (p_thread_id record).

Definition list_payments (r : X402Runtime) (service : str) (limit : Z) : call (list X402PaymentRecord) :=
  _ ← lift (require_handle r service);
  with_ledger (fun l => payment_record_to_wire <$> recent_payments l (Z.to_nat (Z.min limit 500))).

(** The closure [update_budget] runs under the ledger's lock. *)
Definition updated_limits (l : PaymentLedger) (per_request daily monthly : option Z) : PaymentLedger :=
  let b := budget l in
  update_budget l (mkBudget (default (per_request_max_atomic b) per_request) (default (daily_max_atomic b) daily)
                     (default (monthly_max_atomic b) monthly)).

Definition runtime_update_budget (r : X402Runtime) (service : str) (per_request daily monthly : option Z) : call X402SpendingSummary :=
  _ ← lift (require_handle r service);
  _ ← Ask (UpdateLimits per_request daily monthly) initialised;
  runtime_summary r service.

(** [usize] counts fit a [u64]. *)
Definition detailed_summary (r : X402Runtime) (service : str) : call X402DetailedSpendingSummary :=
  _ ← lift (require_handle r service);
  now ← utc_now;
  with_ledger (fun l =>
    let summary := summary_at l now in
    mkDetailed (session_total_atomic summary) (daily_total_atomic summary) (monthly_total_atomic summary)
      (session_count summary) (daily_count summary) (monthly_count summary) (outstanding_atomic l)
      (per_request_max_atomic (budget l)) (daily_max_atomic (budget l)) (monthly_max_atomic (budget l))).
End Runtime.

(** * Preparing a payment *)

Section PrepareRuns.
Context `{Base64, HttpLaws, ClientSerde} (builder : PaymentBuilder)
  (pays : list deed -> PaymentRequired -> PaymentRequirements -> PaymentChain -> PaymentBuild -> deed -> Prop)
  `{!BuilderLaws builder pays}.

Abbreviation call := (program said str).

(** One approval, given. *)
Definition approved_once (owner : option QuoteOwner) (asks : list deed) : Prop :=
  exists terms d, asks = [Deed (Approve terms) (inr d)] /\ approved d = true /\ az_owner terms = owner.

Lemma host_approval_authorizer owner : authorizer (host_approval owner) (approved_once owner).
Proof.
  intros url req chain v past r. cbn in r. set (ask := Deed (Approve (mkAuthorize url (network req) (asset req) (pay_to req) v owner)) r).
  assert (Hd : deeds (past ++ [ask]) = deeds past ++ [ask]) by (apply effects_loud; reflexivity).
  assert (Ha : Forall (approval_of req v) [ask]) by (repeat constructor; eexists _, _; split_and!; reflexivity).
  assert (Hp : past `prefix_of` past ++ [ask]) by apply prefix_snoc.
  destruct r as [e|d]; [|destruct (approved d) eqn:Hok]; (split; [exact Hp|]; exists [ask]; split_and!; [exact Hd | exact Ha|]); cbn; auto.
  exists (mkAuthorize url (network req) (asset req) (pay_to req) v owner), d. auto.
Qed.

(** The record of a signed payment is the payment. *)
Definition records_payment (r : X402Runtime) (owner : option QuoteOwner) (req : PaymentRequirements) (bd : PaymentBuild)
    (response : X402PreparePaymentResponse) (rec : PaymentRecord) : Prop :=
  p_id rec = payment_id response /\ p_status rec = Pending /\ p_tx_signature rec = None /\
  p_amount_atomic rec = rs_amount_atomic response /\ p_asset rec = asset req /\ p_recipient rec = pay_to req /\
  p_network rec = network req /\ p_session_id rec = cfg_session_id (config r) /\ p_thread_id rec = thread_id <$> owner /\
  p_authorization_valid_until rec = bd_valid_until bd /\ p_solana_last_valid_block_height rec = bd_last_valid_height bd /\
  p_authorization_expired_at rec = None.

(** Hold, approval, signature, record: in that order, for the same terms. *)
Definition proof_handed_out (r : X402Runtime) (request : X402PreparePaymentRequest) (tr done : list deed)
    (response : X402PreparePaymentResponse) : Prop :=
  exists header challenge chain req v hold terms d s bd rec,
    header_from_str (payment_required request) = inr header /\
    challenge_of header = Ok challenge /\
    (exists i, select_requirement challenge = Ok (i, chain) /\ accepts challenge !! i = Some req) /\
    parse_u64 (amount req) = Ok v /\
    done = [Deed (ReserveBudget v) (Some (inr (inl hold))); Deed (Approve terms) (inr d); s;
            Deed (CommitHold hold rec) (Some (inr tt))] /\
    approved d = true /\ terms = mkAuthorize (az_url terms) (network req) (asset req) (pay_to req) v (pp_owner request) /\
    is_signing s /\ pays tr challenge req chain bd s /\ encode_payment (bd_payload bd) = Ok (payment_header response) /\
    response = mkPrepareResponse (payment_id response) (payment_header response) v (asset req) (pay_to req) (network req) /\
    records_payment r (pp_owner request) req bd response rec.

(** A record made durable. *)
Definition committed (e : deed) : bool :=
  match ev_request e as q return said q -> bool with
  | CommitHold _ _ => fun a => match a with Some (inr _) => true | _ => false end
  | _ => fun _ => false
  end (ev_answer e).

(** A failure holds nothing back: no hold was placed, or the last thing done was
    to release it. *)
Definition nothing_kept (done : list deed) : Prop :=
  done = [] \/ (exists v a, done = [Deed (ReserveBudget v) a] /\ forall id, a <> Some (inr (inl id))) \/
  exists v hold middle a, done = Deed (ReserveBudget v) (Some (inr (inl hold))) :: middle ++ [Deed (ReleaseHold hold) a] /\
    Forall (fun e => committed e = false) middle.

Lemma wp_admitted {A} (p : call A) past R :
  wp (admitted p) past R <-> wp p past (fun tr r => forall a, R (tr ++ [Deed LeavePreparing a]) r).
Proof.
  revert past. induction p as [r|q k IH]; intros past; [reflexivity|]. split; intros Hr x; apply IH, Hr.
Qed.

Lemma calm_capacity : calmly ensure_capacity (fun _ _ => True).
Proof.
  apply quietly_ask; [reflexivity|]. intros r. cbn in r.
  eapply quietly_bind; [apply quietly_lift; destruct r; discriminate|]. intros p tr0 _.
  eapply quietly_bind; [apply (calm_get UtcNow); reflexivity|]. intros now tr1 _.
  eapply quietly_bind; [apply calm_with_ledger|]. intros n tr2 _.
  eapply quietly_mono; [apply quietly_lift; unfold err_if; case_match; discriminate | auto].
Qed.

(** The ways a preparation ends, from [past]. *)
Definition prepared (r : X402Runtime) (request : X402PreparePaymentRequest) (past tr : list deed)
    (res_ : res str X402PreparePaymentResponse) : Prop :=
  past `prefix_of` tr /\ exists done, deeds tr = deeds past ++ done /\
  match res_ with Ok response => proof_handed_out r request tr done response | Err _ => nothing_kept done | Panic => False end.

Lemma signing_not_committed (s : deed) : is_signing s -> committed s = false.
Proof. destruct s as [[] ?]; intros []; reflexivity. Qed.

Lemma unpaid_keeps_nothing owner headers done e :
  unpaid (approved_once owner) headers done e -> nothing_kept done.
Proof.
  intros [->|(challenge & chain & req & v & _ & _ & [(a & -> & Ha)|(id & asks & signs & a & -> & Hap & Hsg)])].
  - left. reflexivity.
  - right. left. exists v, a. split; [reflexivity|]. intros id ->. exact Ha.
  - right. right. exists v, id, (asks ++ signs), a. rewrite <- app_assoc. split; [reflexivity|].
    apply Forall_app. split.
    + eapply list.Forall_impl; [exact Hap|]. intros e' (terms & a' & -> & _). reflexivity.
    + destruct Hsg as [->|(s & -> & Hs & _)]; repeat constructor. apply signing_not_committed, Hs.
Qed.

Lemma prepared_quiet r request past tr1 tr2 res_ :
  deeds tr2 = deeds tr1 -> tr1 `prefix_of` tr2 -> 
  prepared r request past tr1 res_ -> prepared r request past tr2 res_.
Proof.
  intros Hd Hp (Hp1 & done & Hd1 & Hres). split; [etransitivity; eassumption|]. exists done. rewrite Hd. split; [exact Hd1|].
  destruct res_ as [response|e|]; auto.
  destruct Hres as (header & challenge & chain & req & v & hold & terms & d & s & bd & rec & H1' & H2' & H2'' & H3' & H4' & H5' & H6' & H7' & H8' & H9').
  exists header, challenge, chain, req, v, hold, terms, d, s, bd, rec. split_and!; try assumption; try apply H9'.
  eapply pays_mono; eassumption.
Qed.

(** After the proof is built: its record is made durable, or its hold dropped. *)
Lemma commit_runs r request header (proof : X402PaymentResult) past done tr id now :
  past `prefix_of` tr -> deeds tr = deeds past ++ done ->
  header_from_str (payment_required request) = inr header ->
  paid pays (approved_once (pp_owner request)) (header_insert empty_headers (lit "payment-required") header) tr done proof ->
  wp (_ ← with_err (fun _ => NOT_RECORDED) (commit_durable (reservation proof) (pending_record r (pp_owner request) id proof now));
      mret (mkPrepareResponse id (header_value proof) (amount_atomic proof) (pr_asset proof) (pr_recipient proof) (pr_network proof)))
    tr (prepared r request past).
Proof.
  intros Hp Hd Hh (challenge & chain & req & hold & asks & s & bd & Hch & Hv & -> & Hap & Hgiven & Hs & Hpays & Henc & Hres & Ha & Hr & Hn & Hu & Hl).
  destruct Hch as [Hch Hsel]. unfold parse_402_headers in Hch. rewrite header_insert_get in Hch by reflexivity. cbn [or_else ok_or mbind res_bind] in Hch.
  destruct Hgiven as (terms & d & -> & Hok & How). apply Forall_inv in Hap as (terms' & ans & Heq & Ht1 & Ht2 & Ht3 & Ht4).
  assert (terms' = terms) as -> by (injection Heq; auto). clear Heq.
  cbn [app] in Hd. rewrite Hres. unfold commit_durable. cbn [r_id]. apply wp_bind, wp_with_err. intros c. cbn in c.
  set (rec := pending_record r (pp_owner request) id proof now).
  set (commit := Deed (CommitHold hold rec) c).
  assert (Hdc : deeds (tr ++ [commit]) = deeds past ++ [Deed (ReserveBudget (amount_atomic proof)) (Some (inr (inl hold))); Deed (Approve terms) (inr d); s; commit]).
  { rewrite effects_loud by reflexivity. rewrite Hd, <- app_assoc. reflexivity. }
  assert (Hdrop : committed commit = false -> forall a e,
    prepared r request past ((tr ++ [commit]) ++ [Deed (ReleaseHold hold) a]) (Err e)).
  { intros Hne a e. split.
    - etransitivity; [exact Hp|]. etransitivity; apply prefix_snoc.
    - exists [Deed (ReserveBudget (amount_atomic proof)) (Some (inr (inl hold))); Deed (Approve terms) (inr d); s; commit; Deed (ReleaseHold hold) a].
      rewrite effects_loud, Hdc by reflexivity. split; [rewrite <- app_assoc; reflexivity|]. right. right.
      exists (amount_atomic proof), hold, [Deed (Approve terms) (inr d); s; commit], a. split; [reflexivity|].
      repeat constructor; [apply signing_not_committed, Hs | exact Hne]. }
  destruct c as [[e|[]]|].
  - intros a. cbn. apply Hdrop. reflexivity.
  - cbn. split; [etransitivity; [exact Hp | apply prefix_snoc]|]. eexists. split; [exact Hdc|].
    exists header, challenge, chain, req, (amount_atomic proof), hold, terms, d, s, bd, rec. split_and!; auto.
    + destruct terms. cbn in *. congruence.
    + eapply pays_mono; [apply prefix_snoc | exact Hpays].
    + cbn. congruence.
    + unfold records_payment, rec, pending_record. cbn. split_and!; congruence.
  - intros a. cbn. apply Hdrop. reflexivity.
Qed.

Lemma prepare_runs r request past : wp (prepare builder r request) past (prepared r request past).
Proof.
  unfold prepare.
  assert (Hstop : forall tr e, past `prefix_of` tr -> deeds tr = deeds past -> prepared r request past tr (Err e)).
  { intros tr e Hp Hd. split; [exact Hp|]. exists []. rewrite app_nil_r. split; [exact Hd | left; reflexivity]. }
  destruct (require_handle r (pp_service request)) as [[]|e|] eqn:Hh; [|apply Hstop; reflexivity | unfold require_handle, err_if in Hh; case_match; discriminate].
  cbn [lift mbind io_bind io_then].
  destruct (take_request_secrets request) as [secrets|e|] eqn:Hsec; cbn [io_then];
    [|apply Hstop; reflexivity | unfold take_request_secrets in Hsec; case_match; discriminate].
  destruct (header_from_str (payment_required request)) as [e|header] eqn:Hf; cbn [io_then]; [apply Hstop; reflexivity|]. cbv zeta.
  intros entered. cbn in entered. set (enter := Deed EnterPreparing entered).
  assert (Hp0 : past `prefix_of` past ++ [enter]) by apply prefix_snoc.
  assert (Hd0 : deeds (past ++ [enter]) = deeds past) by (apply effects_quiet; reflexivity).
  destruct entered as [[]|]; cbn [io_then]; [|apply Hstop; assumption..].
  cbn [mret io_ret io_then]. apply wp_admitted.
  assert (Hleave : forall tr res_ a, prepared r request past tr res_ -> prepared r request past (tr ++ [Deed LeavePreparing a]) res_).
  { intros tr res_ a Hpr. eapply prepared_quiet; [|apply prefix_snoc | exact Hpr]. apply effects_quiet. reflexivity. }
  eapply wp_quietly; [exact (quietly_with_err _ _ _ (calm_refresh builder pays)) | intros tr e Hp Hd a; apply Hleave, Hstop; [etransitivity; eassumption | congruence]|].
  intros tr1 _ Hp1 Hd1 _.
  eapply wp_quietly; [apply calm_capacity | intros tr e Hp Hd a; apply Hleave, Hstop; [do 2 (etransitivity; [eassumption|]); assumption | congruence]|].
  intros tr2 _ Hp2 Hd2 _. assert (Hp02 : past `prefix_of` tr2) by (do 2 (etransitivity; [eassumption|]); assumption).
  apply wp_bind, wp_with_err. eapply wp_mono; [apply (client_runs builder pays _ _ _ _ _ (host_approval_authorizer (pp_owner request)))|].
  intros tr3 res_ (Hp3 & done & Hd3 & Hr). assert (Hd3' : deeds tr3 = deeds past ++ done) by congruence.
  assert (Hp03 : past `prefix_of` tr3) by (etransitivity; eassumption).
  destruct res_ as [proof|e|]; cbn [map_err]; [| |destruct Hr].
  2: { intros a. apply Hleave. split; [exact Hp03|]. exists done. split; [exact Hd3' | eapply unpaid_keeps_nothing, Hr]. }
  intros uuid. cbn [io_then]. intros now. cbn [io_then].
  eapply wp_mono; [|intros tr res_ Hpr a; apply Hleave; exact Hpr].
  assert (Hpaid : paid pays (approved_once (pp_owner request)) (header_insert empty_headers (lit "payment-required") header)
      ((tr3 ++ [Deed FreshUuid uuid]) ++ [Deed UtcNow now]) done proof).
  { destruct Hr as (challenge & chain & req & hold & asks & s & bd & Hr). exists challenge, chain, req, hold, asks, s, bd.
    destruct Hr as (? & ? & ? & ? & ? & ? & Hpay & Hrest). split_and!; try assumption; try apply Hrest.
    eapply pays_mono; [|exact Hpay]. etransitivity; apply prefix_snoc. }
  eapply commit_runs; [| |exact Hf | exact Hpaid].
  - etransitivity; [exact Hp03|]. etransitivity; apply prefix_snoc.
  - rewrite !effects_quiet by reflexivity. exact Hd3'.
Qed.
End PrepareRuns.

(** * Recording an outcome *)

Section RecordRuns.
Context `{Base64, HttpLib, ClientSerde}.

(** A payment whose outcome is open: pending, or expired in the old way. *)
Definition open_payment (p : PaymentRecord) : Prop :=
  p_status p = Pending \/ (p_status p = Failed /\ is_Some (p_authorization_valid_until p)).

(** The one record a report may write: the same payment, settled by a successful
    receipt, or an old expiry put back to pending. *)
Definition outcome_written (request : X402RecordPaymentRequest) (p rec : PaymentRecord) : Prop :=
  exists now tx status, rec = settle (rp_payment_id request) p tx status now /\
    match receipt_of (settlement_response request) with
    | Some receipt =>
        if success receipt
        then status = Settled /\ tx = (if is_nil (transaction receipt) then None else Some (transaction receipt))
        else status = Pending /\ tx = None /\ p_status p = Failed
    | None => status = Pending /\ tx = None /\ p_status p = Failed
    end.

Definition reported (r : X402Runtime) (request : X402RecordPaymentRequest) (tr done : list deed) (res_ : res str unit) : Prop :=
  (done = [] /\ res_ <> Panic /\
   (res_ = Ok tt -> handle r = rp_service request /\ exists l p, Deed ReadLedger (Some l) ∈ tr /\ payment l (rp_payment_id request) = Some p /\
      (p_status p = Settled \/ (p_status p = Pending /\ outcome_of (receipt_of (settlement_response request)) = Pending)))) \/
  (exists l p rec a, handle r = rp_service request /\ Deed ReadLedger (Some l) ∈ tr /\ payment l (rp_payment_id request) = Some p /\
     open_payment p /\ outcome_written request p rec /\ done = [Deed (RecordPayment rec) a] /\
     res_ = match a with None => Err NOT_INITIALISED | Some (inl e) => Err e | Some (inr _) => Ok tt end).

Lemma require_handle_ok r h : require_handle r h = Ok tt -> handle r = h.
Proof. unfold require_handle, err_if. destruct (bool_decide_reflect (h = handle r)); [auto | discriminate]. Qed.

Lemma outcome_written_by request p now :
  open_payment p -> outcome_of (receipt_of (settlement_response request)) <> p_status p ->
  outcome_written request p (settle (rp_payment_id request) p (signature_of (receipt_of (settlement_response request)))
    (outcome_of (receipt_of (settlement_response request))) now).
Proof.
  intros Hop Hne. eexists now, _, _. split; [reflexivity|].
  assert (Hf : outcome_of (receipt_of (settlement_response request)) = Pending -> p_status p = Failed).
  { intros Ho. destruct Hop as [Hp|[Hp _]]; congruence. }
  unfold outcome_of, signature_of in *. destruct (receipt_of (settlement_response request)) as [receipt|]; [|auto].
  destruct (success receipt); cbn; [|auto]. split; [reflexivity|]. destruct (is_nil (transaction receipt)); reflexivity.
Qed.

Lemma record_runs r request past :
  wp (record_outcome r request) past (fun tr res_ =>
    past `prefix_of` tr /\ exists done, deeds tr = deeds past ++ done /\ reported r request tr done res_).
Proof.
  assert (Hstop : forall tr res_, past `prefix_of` tr -> deeds tr = deeds past -> res_ <> Panic ->
    (res_ = Ok tt -> handle r = rp_service request /\ exists l p, Deed ReadLedger (Some l) ∈ tr /\ payment l (rp_payment_id request) = Some p /\
      (p_status p = Settled \/ (p_status p = Pending /\ outcome_of (receipt_of (settlement_response request)) = Pending))) ->
    past `prefix_of` tr /\ exists done, deeds tr = deeds past ++ done /\ reported r request tr done res_).
  { intros tr res_ Hp Hd Hnp Hok. split; [exact Hp|]. exists []. rewrite app_nil_r. split; [exact Hd|]. left. auto. }
  unfold record_outcome. destruct (require_handle r (rp_service request)) as [[]|e|] eqn:Hh.
  2: { apply Hstop; [reflexivity.. | discriminate | discriminate]. }
  2: { unfold require_handle, err_if in Hh. case_match; discriminate. }
  apply require_handle_ok in Hh. cbn [lift mbind io_bind io_then]. intros l. cbn in l.
  set (read := Deed ReadLedger l).
  assert (Hp0 : past `prefix_of` past ++ [read]) by apply prefix_snoc.
  assert (Hd0 : deeds (past ++ [read]) = deeds past) by (apply effects_quiet; reflexivity).
  destruct l as [l|]; cbn [mbind io_bind io_then mret io_ret]; [|apply Hstop; auto; discriminate].
  destruct (payment l (rp_payment_id request)) as [p|] eqn:Hpay; cbn [ok_or lift mbind io_bind io_then]; [|apply Hstop; auto; discriminate].
  assert (Hin : Deed ReadLedger (Some l) ∈ past ++ [read]) by (apply elem_of_app; right; left).
  destruct (bool_decide_reflect (p_status p = Settled)) as [Hset|Hset].
  { apply Hstop; [exact Hp0 | exact Hd0 | discriminate |]. intros _. split; [exact Hh|]. exists l, p. auto. }
  destruct (negb (bool_decide (p_status p = Pending)) && negb _) eqn:Hguard; [apply Hstop; auto; discriminate|].
  assert (Hop : open_payment p).
  { apply andb_false_iff in Hguard as [Hg|Hg]; apply negb_false_iff in Hg.
    - left. apply bool_decide_eq_true in Hg. exact Hg.
    - right. apply andb_prop in Hg as [Hg1 Hg2]. apply bool_decide_eq_true in Hg1, Hg2. auto. }
  cbv zeta. destruct (bool_decide_reflect (outcome_of (receipt_of (settlement_response request)) = p_status p)) as [Hsame|Hdiff].
  { apply Hstop; [exact Hp0 | exact Hd0 | discriminate |]. intros _. split; [exact Hh|]. exists l, p. split; [exact Hin|]. split; [exact Hpay|].
    right. assert (outcome_of (receipt_of (settlement_response request)) = Pending); [|split; congruence].
    unfold outcome_of in *. destruct (receipt_of _) as [[[]]|]; cbn in *; try reflexivity. congruence. }
  intros now. cbn [mbind io_bind io_then mret io_ret]. intros a. cbn in a.
  set (rec := settle _ _ _ _ _). set (write := Deed (RecordPayment rec) a).
  assert (Hpw : past `prefix_of` ((past ++ [read]) ++ [Deed UtcNow now]) ++ [write]) by (do 2 (etransitivity; [|apply prefix_snoc]); apply prefix_snoc).
  assert (Hdw : deeds (((past ++ [read]) ++ [Deed UtcNow now]) ++ [write]) = deeds past ++ [write]).
  { rewrite effects_loud by reflexivity. rewrite effects_quiet by reflexivity. rewrite Hd0. reflexivity. }
  assert (Hend : forall res_, res_ = match a with None => Err NOT_INITIALISED | Some (inl e) => Err e | Some (inr _) => Ok tt end ->
    past `prefix_of` ((past ++ [read]) ++ [Deed UtcNow now]) ++ [write] /\
    exists done, deeds (((past ++ [read]) ++ [Deed UtcNow now]) ++ [write]) = deeds past ++ done /\
      reported r request (((past ++ [read]) ++ [Deed UtcNow now]) ++ [write]) done res_).
  { intros res_ ->. split; [exact Hpw|]. exists [write]. split; [exact Hdw|]. right. exists l, p, rec, a.
    split_and!; auto; [|apply outcome_written_by; auto].
    rewrite !elem_of_app in *. tauto. }
  destruct a as [[e|[]]|]; apply Hend; reflexivity.
Qed.
End RecordRuns.

(** * Admission *)

(** How far a preparation has come: counted, let through, or recorded. *)
Inductive Stage := Entered | Checked | Recorded.
#[export] Instance Stage_eq_dec : EqDecision Stage.
Proof. solve_decision. Defined.

(** The runtime's shared count, its ledger, the time, and the preparations. *)
Record Desk := mkDesk { preparing : Z; book : PaymentLedger; clock : Z; stages : gmap nat Stage }.

Section Admission.

(** [ensure_capacity]'s condition, read under the count's lock. *)
Definition within_capacity (d : Desk) : bool :=
  negb (MAX_PENDING <? sat_add usize_max (Z.of_nat (usable_pending_count (book d) (clock d))) (preparing d)).

(** Preparations interleave; payments are resolved and time passes around them. *)
Inductive desk_step : Desk -> Desk -> Prop :=
  | desk_enter n l t st i n' : st !! i = None -> begin_count n = Some n' ->
      desk_step (mkDesk n l t st) (mkDesk n' l t (<[i := Entered]> st))
  | desk_check n l t st i : st !! i = Some Entered -> within_capacity (mkDesk n l t st) = true ->
      desk_step (mkDesk n l t st) (mkDesk n l t (<[i := Checked]> st))
  | desk_record n l t st i rec : st !! i = Some Checked ->
      desk_step (mkDesk n l t st) (mkDesk n (push_record l rec) t (<[i := Recorded]> st))
  | desk_leave n l t st i s : st !! i = Some s ->
      desk_step (mkDesk n l t st) (mkDesk (end_count n) l t (delete i st))
  | desk_resolve n l t st rec : is_pending rec = false ->
      desk_step (mkDesk n l t st) (mkDesk n (push_record l rec) t st)
  | desk_wait n l t st t' : t <= t' -> desk_step (mkDesk n l t st) (mkDesk n l t' st).

(** Let through and not yet recorded. *)
Definition let_through (st : gmap nat Stage) : nat := size (filter (fun x : nat * Stage => x.2 = Checked) st).

Definition desk_ok (d : Desk) : Prop :=
  preparing d = Z.of_nat (size (stages d)) /\ preparing d <= MAX_PENDING /\
  Z.of_nat (usable_pending_count (book d) (clock d) + let_through (stages d)) <= MAX_PENDING.

Definition usable_at (t : Z) (r : PaymentRecord) : bool := is_pending r && is_none_or (fun end_ => t <? end_) (authorization_window_end r).

Lemma usable_delete (m : gmap str PaymentRecord) t k r :
  m !! k = Some r ->
  length (filter (usable_at t) (map_to_list m).*2) =
  (length (filter (usable_at t) (map_to_list (delete k m)).*2) + if usable_at t r then 1 else 0)%nat.
Proof.
  intros Hk. rewrite <- (map_to_list_delete m k r Hk). cbn [fmap list_fmap fst snd]. rewrite filter_cons. case_decide as Hu; destruct (usable_at t r); cbn; try (exfalso; auto; fail); lia.
Qed.

Lemma usable_push l t rec :
  (usable_pending_count (push_record l rec) t <= usable_pending_count l t + if usable_at t rec then 1 else 0)%nat.
Proof.
  unfold usable_pending_count, latest_records, push_record, with_records. cbn [records]. unfold latest_of. rewrite latest_by_id_snoc.
  set (m := latest_by_id (records l)). fold (usable_at t).
  change (length (filter (usable_at t) (map_to_list (<[p_id rec:=rec]> m)).*2) <=
    length (filter (usable_at t) (map_to_list m).*2) + if usable_at t rec then 1 else 0)%nat.
  rewrite (usable_delete (<[p_id rec := rec]> m) t (p_id rec) rec) by apply lookup_insert_eq. rewrite delete_insert_eq.
  destruct (m !! p_id rec) as [old|] eqn:Hold; [rewrite (usable_delete m t _ _ Hold); lia | rewrite delete_id by exact Hold; lia].
Qed.

Lemma usable_later l t t' : t <= t' -> (usable_pending_count l t' <= usable_pending_count l t)%nat.
Proof.
  intros Ht. unfold usable_pending_count. induction (latest_records l) as [|r rs IH]; [reflexivity|].
  rewrite !filter_cons. case_decide as H1; case_decide as H2; cbn; try lia.
  exfalso. apply H2. apply Is_true_true in H1. apply Is_true_true.
  apply andb_prop in H1 as [-> H1]. destruct (authorization_window_end r); cbn in *; [|reflexivity]. lia.
Qed.

Lemma let_through_delete (st : gmap nat Stage) i s :
  st !! i = Some s ->
  let_through st = (let_through (delete i st) + if decide (s = Checked) then 1 else 0)%nat.
Proof.
  intros Hi. rewrite <- (insert_delete_id st i s Hi) at 1. unfold let_through. rewrite map_filter_insert. cbn [snd].
  assert (Hn : filter (fun x : nat * Stage => x.2 = Checked) (delete i st) !! i = None).
  { apply map_lookup_filter_None. left. apply lookup_delete_eq. }
  destruct (decide (s = Checked)).
  - rewrite map_size_insert_None by exact Hn. lia.
  - rewrite delete_delete_eq. lia.
Qed.

Lemma let_through_insert (st : gmap nat Stage) i s :
  let_through (<[i := s]> st) = (let_through (delete i st) + if decide (s = Checked) then 1 else 0)%nat.
Proof. rewrite (let_through_delete _ i s) by apply lookup_insert_eq. rewrite delete_insert_eq. reflexivity. Qed.

Lemma let_through_size (st : gmap nat Stage) : (let_through st <= size st)%nat.
Proof. apply map_subseteq_size, map_filter_subseteq. Qed.

Lemma stages_update (st : gmap nat Stage) i s s' : st !! i = Some s -> size (<[i := s']> st) = size st.
Proof. intros Hi. apply map_size_insert_Some. rewrite Hi. eauto. Qed.

Lemma stages_delete (st : gmap nat Stage) i s : st !! i = Some s -> size st = S (size (delete i st)).
Proof. intros Hi. rewrite <- (insert_delete_id st i s Hi) at 1. apply map_size_insert_None, lookup_delete_eq. Qed.

Lemma desk_step_ok d d' : desk_step d d' -> desk_ok d -> desk_ok d'.
Proof.
  unfold desk_ok. intros Hstep; inversion Hstep; subst; cbn [preparing book clock stages]; intros (Hn & Hmax & Hcap).
  - unfold begin_count in *. case_match; simplify_eq. rewrite let_through_insert. rewrite map_size_insert_None by assumption.
    rewrite delete_id by assumption. case_decide; [discriminate|]. unfold MAX_PENDING in *. lia.
  - rewrite let_through_insert, (stages_update st i Entered) by assumption.
    rewrite (let_through_delete st i Entered) in Hcap by assumption.
    split; [exact Hn|]. split; [exact Hmax|].
    match goal with Hc : within_capacity _ = true |- _ => unfold within_capacity in Hc; cbn [preparing book clock] in Hc; apply negb_true_iff in Hc end.
    pose proof (let_through_size (delete i st)). pose proof (stages_delete st i Entered ltac:(assumption)).
    unfold sat_add, usize_max, u64_max, MAX_PENDING in *. repeat case_decide; congruence || lia.
  - rewrite let_through_insert, (stages_update st i Checked) by assumption.
    rewrite (let_through_delete st i Checked) in Hcap by assumption.
    split; [exact Hn|]. split; [exact Hmax|]. pose proof (usable_push l t rec).
    repeat case_decide; try congruence. destruct (usable_at t rec); lia.
  - rewrite (stages_delete st i s) in Hn by assumption. rewrite (let_through_delete st i s) in Hcap by assumption.
    unfold end_count, sat_sub, MAX_PENDING in *. lia.
  - split; [exact Hn|]. split; [exact Hmax|]. pose proof (usable_push l t rec) as Hu. unfold usable_at in Hu.
    match goal with Hp : is_pending rec = false |- _ => rewrite Hp in Hu end. cbn in Hu. lia.
  - split; [exact Hn|]. split; [exact Hmax|]. pose proof (usable_later l t t' ltac:(assumption)). lia.
Qed.
End Admission.

(** * What the service promises *)

(** C16. A proof leaves the module only behind a durable record.  For every rail
    that keeps the builder's contract and whatever the host, ledger, wallet and
    nodes answer, a preparation that returns a payment header did exactly four
    things outside, in this order: it held the challenge's amount, was approved by
    the host for exactly the option's network, asset, recipient and amount (and
    the request's owner), made the rail's one signature, and turned the hold into
    a pending record of the same terms under the id it returns; the header is the
    proof that signature built.  A preparation that fails left no hold: none was
    placed, or the last thing it did was release it, with nothing recorded.  It
    never panics. *)
Theorem prepared_payment_recorded `{Base64, HttpLaws, ClientSerde} builder pays `{!BuilderLaws builder pays} r request
    (w : world) past :
  let '(tr, res_) := exec w past (prepare builder r request) in
  past `prefix_of` tr /\ exists done, deeds tr = deeds past ++ done /\
  match res_ with Ok response => proof_handed_out pays r request tr done response | Err _ => nothing_kept done | Panic => False end.
Proof.
  pose proof (wp_exec _ w past _ (prepare_runs builder pays r request past)) as Hrun.
  destruct (exec w past _) as [tr res_]. exact Hrun.
Qed.



(** * A concrete service *)

Definition demo_runtime : X402Runtime := mkRuntime (mkConfig [] (lit "session") 0 0 0) (lit "handle").
Definition demo_owner : QuoteOwner := mkOwner (lit "thread") (lit "client").
Definition demo_prepare : X402PreparePaymentRequest :=
  mkPreparePayment (lit "handle") (lit "https://x.example") (lit "00") (Some demo_owner) (mkSecret [] [] Solana) [].

Definition demo_record : PaymentRecord := mkRecord (lit "x402_1") [] [] 5 [] [] [] None Pending 1 None (Some 100) None None [] None.

(** Hold, approval, signature, record. *)
Lemma prepared_payment_recorded_witness :
  let run := exec toy_world [] (prepare (H0 := hex_base64) (H1 := toy_http) (H2 := toy_client_serde) demo_rail demo_runtime demo_prepare) in
  length (effects_of (ans := said (H := toy_http)) marks run.1) = 4%nat /\ is_ok run.2 = true /\
  exists done, effects_of marks run.1 = effects_of marks [] ++ done /\
    match run.2 with
    | Ok response => proof_handed_out (H := hex_base64) (H0 := toy_http) (H2 := toy_client_serde) demo_pays demo_runtime demo_prepare run.1 done response
    | Err _ => nothing_kept (H0 := toy_http) done
    | Panic => False
    end.
Proof.
  cbv zeta. split; [vm_compute; reflexivity|]. split; [vm_compute; reflexivity|].
  pose proof (prepared_payment_recorded (H := hex_base64) (H0 := toy_http) (H1 := toy_http_laws) (H2 := toy_client_serde) demo_rail demo_pays
    (BuilderLaws0 := demo_rail_laws) demo_runtime demo_prepare toy_world []) as Hrun.
  destruct (exec toy_world [] _) as [tr res_]. apply Hrun.
Defined.

