(* ===== verification/PaySigner.v ===== *)
(** The signer behind the module's payments, and the x402 members of the bus
    interface ([ModulePaymentSigner] and [take_request_secrets] of
    [crates/tinywallet-module/src/service/x402.rs], [clone_x402_secret] of
    [web3.rs], the [x402_*] members of [mod.rs]).

    The wallet that [PayHost] leaves open ([AccountOf], [SignPayment]) is here the
    module's own: [module_wallet] answers both from the secrets of the call.
    Shown: whatever the host, the ledger and the nodes answer, a payment is made
    and signed with the key derived from the request's one secret for the chain
    that pays, and with no other.  Wiping secrets from memory is not modelled. *)

From stdpp Require Import base list strings numbers.
From S2P Require Import Prelude Program Text Chain Codec Base58 Addr TronTx Json Wire Quotes X402Wire Eip712 SolWire Host NoPanic.
From S2P Require Import Keys LedgerTypes Ledger Signing EvmTx BtcTx Signer PayHost Rail PayClient PayService Runtime.

(** The secrets of a confidential payment, as the task carries them. *)
Abbreviation Secrets := (option (option (list SecretMaterial))).

(** * The module's signer *)

Section ModuleSigner.
Context `{Codecs, Secp256k1, SecpPublic, Ed25519Lib, Bip39, Bip32, KeyHashes}.

Definition wallet_chain (chain : PaymentChain) : Chain := match chain with PayEvm => Evm | PaySolana => Solana end.

Definition module_account (slot : Secrets) (chain : PaymentChain) : res str PaymentAccount :=
  secret ← clone_x402_secret slot (wallet_chain chain);
  derived ← map_err failure_message (derive_account secret);
  pubkey ← (if bool_decide (chain = PaySolana)
            then key ← map_err (fun error => lit "invalid derived Solana public key: " ++ error) (hex_decode (key_hex (da_public_key derived)));
                 if (length key =? 32)%nat then Ok (Some key) else Err (lit "derived Solana public key was not 32 bytes")
            else Ok None);
  Ok (mkAccount (da_address derived) pubkey).

Definition payment_scheme (chain : PaymentChain) (scheme : SignScheme) : res str (Chain * Scheme) :=
  match chain, scheme with
  | PayEvm, Secp256k1Digest => Ok (Evm, Secp256k1Prehash)
  | PaySolana, Ed25519 => Ok (Solana, SchemeEd25519)
  | _, _ => Err (lit "x402 payment requested an unsupported signing scheme")
  end.

Definition module_sign (slot : Secrets) (chain : PaymentChain) (message : list Z) (scheme : SignScheme) : res str (list Z) :=
  '(expected_chain, scheme) ← payment_scheme chain scheme;
  secret ← clone_x402_secret slot expected_chain;
  signature ← map_err failure_message (sign_message (mkSignMessage secret (hex_encode message) scheme));
  match signature with
  | SigSecp256k1 rs_hex recovery_id =>
      rs ← map_err (fun error => lit "invalid module secp256k1 signature: " ++ error) (hex_decode rs_hex);
      Ok (rs ++ [recovery_id])
  | SigEd25519 signature_hex => map_err (fun error => lit "invalid module Ed25519 signature: " ++ error) (hex_decode signature_hex)
  end.

#[export] Instance ModulePaymentSigner (slot : Secrets) : PaymentSigner := {|
  account := module_account slot;
  sign := module_sign slot
|}.
End ModuleSigner.

(** The signer returns; what it is asked is answered. *)
Section SignerTotal.
Context `{CodecLaws, Secp256k1, SecpPublic, Ed25519Lib, Bip39, Bip32, !Bip32Laws, KeyHashes, !KeyHashLaws}.

Lemma sderive_no_panic secret : sderive secret <> Panic.
Proof. unfold sderive. apply map_err_no_panic, derive_total. Qed.

Lemma sdecode_hex_no_panic s : sdecode_hex s <> Panic.
Proof.
  unfold sdecode_hex. cbv zeta. case_match; [discriminate|]. case_match; [discriminate|]. unfold pair_bytes.
  apply collect_no_panic. intros i _. unfold pair_byte. no_panic.
Qed.

Lemma module_account_no_panic slot chain : module_account slot chain <> Panic.
Proof.
  unfold module_account. apply bind_no_panic; [destruct slot as [[]|]; cbn; no_panic|]. intros secret.
  apply bind_no_panic; [|intros derived; no_panic]. apply map_err_no_panic. unfold derive_account.
  apply bind_no_panic; [apply sderive_no_panic|]. intros key. unfold public_key_hex, ed25519_key, scalar. no_panic.
Qed.

Lemma module_sign_no_panic slot chain message scheme : module_sign slot chain message scheme <> Panic.
Proof.
  unfold module_sign. apply bind_no_panic; [destruct chain, scheme; discriminate|]. intros [c sch].
  apply bind_no_panic; [destruct slot as [[]|]; cbn; no_panic|]. intros secret.
  apply bind_no_panic; [|intros sg; no_panic]. apply map_err_no_panic. unfold sign_message.
  apply bind_no_panic; [apply sderive_no_panic|]. intros key. unfold sign_payload, ed25519_key, scalar.
  apply bind_no_panic; [apply sdecode_hex_no_panic|]. intros bytes. destruct sch; cbn [Wire.scheme mm_scheme]; no_panic.
Qed.
End SignerTotal.

(** * The members *)

(** The secrets a preparation carries: taken from the request, none twice for a
    chain. *)
Definition request_secrets (request : X402PreparePaymentRequest) : Secrets :=
  match take_request_secrets request with Ok secrets => Some (Some secrets) | _ => None end.

Section Serving.
Context `{HttpLib}.

Definition said_of {A} (r : res str A) : str + A := match r with Ok a => inr a | Err e => inl e | Panic => inl [] end.

(** The outside of a call (the signer never panics): the wallet seam is the module's signer over the call's
    secrets, the rest is the host's, the ledger's and the nodes'. *)
Definition module_wallet `{PaymentSigner} (w : world) : world := fun past q =>
  match q as q return said q with
  | AccountOf chain => said_of (account chain)
  | SignPayment chain message scheme => said_of (sign chain message scheme)
  | q => w past q
  end.
End Serving.

Section Members.
Context `{Chrono, Base64, HttpLib, ClientSerde, ChronoText}.

Abbreviation served := (program said BusError).

(** Every member refuses while no service is open. *)
Definition x402_member {A} (active : option X402Runtime) (operation : X402Runtime -> program said str A) : served A :=
  match active with
  | None => Done (Err host_unavailable)
  | Some x402 => with_err x402_operation_failed (operation x402)
  end.

Definition x402_prepare_payment (builder : PaymentBuilder) (active : option X402Runtime) (request : X402PreparePaymentRequest)
  : served X402PreparePaymentResponse := x402_member active (fun x402 => prepare builder x402 request).
Definition x402_record_payment (active : option X402Runtime) (request : X402RecordPaymentRequest) : served unit :=
  x402_member active (fun x402 => record_outcome x402 request).
Definition x402_spending_summary (active : option X402Runtime) (service : str) : served X402SpendingSummary :=
  x402_member active (fun x402 => runtime_summary x402 service).
Definition x402_list_payments (active : option X402Runtime) (service : str) (limit : Z) : served (list X402PaymentRecord) :=
  x402_member active (fun x402 => PayService.list_payments x402 service limit).
Definition x402_update_budget (active : option X402Runtime) (service : str) (per_request daily monthly : option Z)
  : served X402SpendingSummary := x402_member active (fun x402 => runtime_update_budget x402 service per_request daily monthly).
Definition x402_spending_summary_detailed (active : option X402Runtime) (service : str) : served X402DetailedSpendingSummary :=
  x402_member active (fun x402 => detailed_summary x402 service).
End Members.

(** * One secret per chain *)

Lemma no_duplicate_chain secrets prior s s' :
  has_duplicate secrets prior = false -> s ∈ secrets -> s' ∈ secrets -> sm_chain s = sm_chain s' -> s = s'.
Proof.
  assert (Hprior : forall l prior x, has_duplicate l prior = false -> x ∈ l -> sm_chain x ∉ prior).
  { induction l as [|y l IH]; intros pr x; [intros _ Hx; inversion Hx|]. cbn.
    intros [Hy Hl]%orb_false_iff [->|Hx]%elem_of_cons; [apply bool_decide_eq_false in Hy; exact Hy|].
    specialize (IH _ _ Hl Hx). intros Hin. apply IH. right. exact Hin. }
  revert prior. induction secrets as [|y l IH]; intros pr; [intros _ Hs; inversion Hs|]. cbn.
  intros [_ Hl]%orb_false_iff [->|Hs]%elem_of_cons [->|Hs']%elem_of_cons Hc; [reflexivity|..].
  - destruct (Hprior _ _ _ Hl Hs'). rewrite <- Hc. left.
  - destruct (Hprior _ _ _ Hl Hs). rewrite Hc. left.
  - eapply IH; eassumption.
Qed.

(** The request's secret for a chain. *)
Definition own_secret (request : X402PreparePaymentRequest) (chain : PaymentChain) (secret : SecretMaterial) : Prop :=
  let secrets := pp_secret request :: additional_secrets request in
  secret ∈ secrets /\ sm_chain secret = wallet_chain chain /\
  forall other, other ∈ secrets -> sm_chain other = wallet_chain chain -> other = secret.

Lemma clone_own request chain secret :
  clone_x402_secret (request_secrets request) (wallet_chain chain) = Ok secret -> own_secret request chain secret.
Proof.
  unfold request_secrets, take_request_secrets, own_secret. cbv zeta. set (secrets := pp_secret request :: _).
  destruct (has_duplicate secrets []) eqn:Hd; [discriminate|]. cbn [clone_x402_secret].
  destruct (find_first _ secrets) as [s|] eqn:Hf; [|discriminate]. cbn [ok_or]. intros [= ->].
  apply find_first_some in Hf as [Hin Hc]. apply bool_decide_eq_true in Hc. split_and!; [exact Hin | exact Hc|].
  intros other Ho Hoc. eapply no_duplicate_chain; [exact Hd | exact Ho | exact Hin | congruence].
Qed.

Lemma own_secret_unique request chain s s' : own_secret request chain s -> own_secret request chain s' -> s' = s.
Proof. intros (_ & _ & H) (Hin & Hc & _). apply H; assumption. Qed.

Section OwnKeys.
Context `{CodecLaws, BitcoinLib, Secp256k1, SecpPublic, Ed25519Lib, !SignerLaws, !Ed25519Laws, Bip39, Bip32, KeyHashes}.

(** The key of a chain: what the request's secret for it derives. *)
Definition own_derived_key (request : X402PreparePaymentRequest) (chain : PaymentChain) (key : DerivedKey) : Prop :=
  exists secret, own_secret request chain secret /\ sderive secret = Ok key.

Lemma own_key_unique request chain k k' : own_derived_key request chain k -> own_derived_key request chain k' -> k' = k.
Proof. intros (s & Hs & Hk) (s' & Hs' & Hk'). rewrite (own_secret_unique _ _ _ _ Hs Hs') in Hk'. congruence. Qed.

(** The signature a payment carries: on EVM the compact signature and its
    recovery id. *)
Definition key_signature (chain : PaymentChain) (key message : list Z) : list Z :=
  match chain with
  | PayEvm => (sign_recoverable key message).2 ++ [(sign_recoverable key message).1]
  | PaySolana => ed25519_sign key message
  end.

Lemma hex_round bs : bytes_ok bs -> hex_decode (hex_string bs) = Ok bs.
Proof. intros Hb. apply hex_decode_text; [exact Hb|]. symmetry. apply hex_string_lower, Hb. Qed.

Lemma module_account_own request chain acct :
  module_account (request_secrets request) chain = Ok acct ->
  exists key, own_derived_key request chain key /\
    acct = mkAccount (dk_address key) (if bool_decide (chain = PaySolana) then Some (verifying_key (dk_secret key)) else None).
Proof.
  unfold module_account. intros Hm. apply bind_ok in Hm as (secret & Hs & Hm). apply bind_ok in Hm as (derived & Hd & Hm).
  apply bind_ok in Hm as (pubkey & Hp & Hm). injection Hm as <-. apply clone_own in Hs. apply map_err_ok in Hd.
  unfold derive_account in Hd. apply bind_ok in Hd as (key & Hk & Hd). apply bind_ok in Hd as (public & Hpub & Hd). injection Hd as <-.
  exists key. split; [exists secret; split; assumption|]. cbn [da_address da_public_key key_hex] in *. f_equal.
  case_bool_decide as Hchain; [subst chain|congruence].
  destruct Hs as (_ & Hc & _). cbn in Hc. rewrite Hc in Hpub. unfold public_key_hex in Hpub. cbn in Hpub.
  unfold ed25519_key in Hpub. destruct (length (dk_secret key) =? 32)%nat; [|discriminate]. injection Hpub as <-.
  rewrite hex_round in Hp by apply verifying_key_ok. cbn in Hp. rewrite verifying_key_length in Hp. cbn in Hp. congruence.
Qed.

Lemma module_sign_own request chain message scheme sg :
  module_sign (request_secrets request) chain message scheme = Ok sg ->
  exists key, own_derived_key request chain key /\ (bytes_ok message -> sg = key_signature chain (dk_secret key) message).
Proof.
  unfold module_sign. intros Hm. apply bind_ok in Hm as ([c sch] & Hsch & Hm). apply bind_ok in Hm as (secret & Hs & Hm).
  apply bind_ok in Hm as (sign & Hsg & Hm). apply map_err_ok in Hsg. unfold sign_message in Hsg. cbn [mm_secret message_hex mm_scheme] in Hsg.
  apply bind_ok in Hsg as (key & Hk & Hsg).
  assert (Hc : c = wallet_chain chain) by (destruct chain, scheme; first [discriminate | injection Hsch; auto]). subst c.
  exists key. split; [exists secret; split; [apply clone_own, Hs | exact Hk]|]. intros Hb.
  rewrite hex_encode_lower in Hsg by exact Hb. unfold sign_payload in Hsg. cbn [bytes_hex Wire.scheme] in Hsg.
  rewrite sdecode_hex_string in Hsg by exact Hb. cbn [mbind res_bind] in Hsg.
  destruct chain, scheme; cbn in Hsch; try discriminate; injection Hsch as <-; unfold key_signature.
  - apply bind_ok in Hsg as (k & Hk' & Hsg). unfold ed25519_key in Hk'.
    destruct (_ =? 32)%nat; [|discriminate]. injection Hk' as <-. injection Hsg as <-.
    apply map_err_ok in Hm. rewrite hex_round in Hm by apply ed25519_sign_bytes. congruence.
  - apply bind_ok in Hsg as (d & Hd & Hsg). destruct (_ =? 32)%nat; [|discriminate]. injection Hd as <-.
    apply bind_ok in Hsg as (k & Hk' & Hsg). unfold scalar in Hk'.
    destruct (secret_valid _); [|discriminate]. injection Hk' as <-.
    pose proof (sign_recoverable_bytes (dk_secret key) message) as [_ Hrs].
    destruct (sign_recoverable (dk_secret key) message) as [rid compact]. cbn [fst snd] in *.
    apply bind_ok in Hsg as (r & Hr & Hsg). destruct (_ && _); [|discriminate]. injection Hr as <-. injection Hsg as <-.
    apply bind_ok in Hm as (rs & Hrs' & Hm). apply map_err_ok in Hrs'. rewrite hex_round in Hrs' by exact Hrs. congruence.
Qed.
End OwnKeys.

(** * Paying with one's own key *)

Section OwnPayments.
Context `{CodecLaws, BitcoinLib, Secp256k1, SecpPublic, Ed25519Lib, !SignerLaws, !Ed25519Laws, Bip39, Bip32, KeyHashes}.
Context `{Curve25519, Base64, HttpLaws, ClientSerde, ChronoSeconds, RailReads}.

(** What was signed was signed with the request's own key. *)
Definition signed_own (request : X402PreparePaymentRequest) (tr : list deed) : Prop :=
  forall chain m scheme sg, Deed (SignPayment chain m scheme) (inr sg) ∈ tr ->
    exists key, own_derived_key request chain key /\ (bytes_ok m -> sg = key_signature chain (dk_secret key) m).

(** The payment proves a transfer from the key's account, by the key. *)
Definition paid_by (tr : list deed) (req : PaymentRequirements) (bd : PaymentBuild) (chain : PaymentChain) (key : DerivedKey) : Prop :=
  match chain with
  | PayEvm => exists a now fresh,
      asked req (dk_address key) a /\ Deed FreshNonce fresh ∈ tr /\ e_nonce a = fresh /\ Deed UnixSecs now ∈ tr /\
      let sg := sign_recoverable (dk_secret key) (digest_of a) in
      (is_u64 now -> is_u64 (max_timeout_seconds req) -> states (bd_payload bd) (lit "0x" ++ hex_encode (sg.2 ++ [sg.1 + 27])) a)
  | PaySolana => exists memo bh m,
      solana_message_pays (verifying_key (dk_secret key)) req memo bh m /\
      (bytes_ok m ->
       payload (bd_payload bd) = SolanaProof (b64_encode ([2] ++ replicate 64 0 ++ ed25519_sign (dk_secret key) m ++ m)))
  end.

Abbreviation wallet request := (module_wallet (H0 := ModulePaymentSigner (request_secrets request))).

Lemma said_of_inr {A} (r : res str A) a : inr a = said_of r -> r = Ok a.
Proof. destruct r; cbn; congruence. Qed.

Lemma wallet_signed_own {E A} request (w : world) (p : program said E A) : signed_own request (exec (wallet request w) [] p).1.
Proof.
  intros chain m scheme sg [Hn|[past Ha]]%exec_answered; [inversion Hn|]. cbn in Ha.
  apply said_of_inr in Ha. exact (module_sign_own _ _ _ _ _ Ha).
Qed.

Lemma wallet_account_own {E A} request (w : world) (p : program said E A) chain acct :
  Deed (AccountOf chain) (inr acct) ∈ (exec (wallet request w) [] p).1 ->
  exists key, own_derived_key request chain key /\
    acct = mkAccount (dk_address key) (if bool_decide (chain = PaySolana) then Some (verifying_key (dk_secret key)) else None).
Proof.
  intros [Hn|[past Ha]]%exec_answered; [inversion Hn|]. cbn in Ha. apply said_of_inr in Ha. exact (module_account_own _ _ _ Ha).
Qed.

Lemma own_payment request tr req bd chain s :
  signed_own request tr ->
  (forall acct, Deed (AccountOf chain) (inr acct) ∈ tr -> exists key, own_derived_key request chain key /\
     acct = mkAccount (dk_address key) (if bool_decide (chain = PaySolana) then Some (verifying_key (dk_secret key)) else None)) ->
  s ∈ tr -> match chain with PaySolana => solana_pays tr req bd s | PayEvm => evm_pays tr req bd s end ->
  exists key, own_derived_key request chain key /\ paid_by tr req bd chain key.
Proof.
  intros Hsigned Hacct Hs Hpays. destruct chain.
  - destruct Hpays as (acct & payer & memo & bh & latest & m & sg & Ha & Hpayer & _ & _ & _ & Hm & -> & _ & Hpl & _).
    apply Hacct in Ha as (key & Hkey & ->). change (payer = verifying_key (dk_secret key)) in Hpayer. subst payer. apply Hsigned in Hs as (key' & Hkey' & Hsg).
    rewrite (own_key_unique _ _ _ _ Hkey Hkey') in Hsg. exists key. split; [exact Hkey|]. exists memo, bh, m. split; [exact Hm|].
    intros Hb. rewrite (Hsg Hb) in Hpl. exact Hpl.
  - destruct Hpays as (acct & now & fresh & a & sg & Ha & Hnow & Hfresh & -> & Hl & Hasked & Hnonce & _ & _ & Hst).
    apply Hacct in Ha as (key & Hkey & ->). cbn [pa_address] in Hasked. apply Hsigned in Hs as (key' & Hkey' & Hsg).
    rewrite (own_key_unique _ _ _ _ Hkey Hkey') in Hsg. specialize (Hsg (keccak256_ok _)). cbn [key_signature] in Hsg.
    exists key. split; [exact Hkey|]. exists a, now, fresh. split_and!; [assumption..|]. cbv zeta. intros Hn Ht.
    destruct (Hst Hn Ht) as (Hstates & _). rewrite Hsg in Hstates.
    pose proof (sign_recoverable_bytes (dk_secret key) (digest_of a)) as [Hrs _].
    rewrite take_app_length' in Hstates by (symmetry; exact Hrs). rewrite app_nth2 in Hstates by lia. rewrite Hrs in Hstates. exact Hstates.
Qed.
End OwnPayments.

(** C36. The module pays with the payer's own key.  Whatever the host, the ledger
    and the nodes answer, in a whole run of the member that prepares a payment,
    every signature made is that of the key which the request's one secret for
    the paying chain derives (two secrets for a chain are refused, and without one
    nothing is signed).  A payment handed out is the encoding of a proof that
    accepts the challenge's own requirement; on EVM it states an authorization
    from that key's address, with that key's recoverable signature of exactly its
    digest; on Solana its message moves the amount from that key's own token
    account, and carries that key's signature of exactly that message.  The
    member never panics. *)
Theorem module_pays_with_own_key `{CodecLaws, BitcoinLib, Secp256k1, SecpPublic, Ed25519Lib, !SignerLaws, !Ed25519Laws, Bip39, Bip32, KeyHashes,
    Curve25519, Base64, HttpLaws, ClientSerde, ChronoSeconds, RailReads} active request (w : world) :
  let '(tr, res_) := exec (module_wallet (H0 := ModulePaymentSigner (request_secrets request)) w) []
                       (x402_prepare_payment crypto_payments active request) in
  signed_own request tr /\
  match res_ with
  | Ok response => exists header challenge i chain req bd key,
      header_from_str (payment_required request) = inr header /\ challenge_of header = Ok challenge /\
      select_requirement challenge = Ok (i, chain) /\ accepts challenge !! i = Some req /\
      encode_payment (bd_payload bd) = Ok (payment_header response) /\ accepted (bd_payload bd) = req /\
      own_derived_key request chain key /\ paid_by tr req bd chain key
  | Err _ => True
  | Panic => False
  end.
Proof.
  set (world := module_wallet _).
  pose proof (wallet_signed_own request w (x402_prepare_payment crypto_payments active request)) as Hsigned.
  pose proof (wallet_account_own request w (x402_prepare_payment crypto_payments active request)) as Hacct.
  fold world in Hsigned, Hacct.
  assert (Hrun : match active with Some r => wp (x402_prepare_payment crypto_payments active request) []
      (fun tr res_ => exists res', res_ = map_err x402_operation_failed res' /\ prepared crypto_pays r request [] tr res') | None => True end).
  { destruct active as [r|]; [|exact I]. apply wp_with_err. eapply wp_mono; [apply (prepare_runs crypto_payments crypto_pays)|]. eauto. }
  destruct active as [r|]; [|split; [exact Hsigned | exact I]].
  pose proof (wp_exec _ world [] _ Hrun) as Hres. destruct (exec world [] _) as [tr res_]. cbn [fst snd] in *.
  split; [exact Hsigned|]. destruct Hres as (res' & -> & _ & done & Hd & Hr). destruct res' as [response|e|]; [|exact I | exact Hr].
  destruct Hr as (header & challenge & chain & req & v & hold & terms & d & s & bd & rec & Hh & Hc & (i & Hsel & Hreq) & _ & -> & _ & _ & _ & Hpays & Henc & _).
  destruct Hpays as (Hacc & _ & Hpays).
  assert (Hs : s ∈ tr).
  { assert (Hin : s ∈ deeds tr) by (rewrite Hd; right; right; left). apply list_elem_of_In, List.filter_In in Hin as [Hin _]. apply list_elem_of_In, Hin. }
  destruct (own_payment request tr req bd chain s Hsigned (Hacct chain) Hs Hpays) as (key & Hkey & Hpaid).
  cbn [map_err]. exists header, challenge, i, chain, req, bd, key. split_and!; assumption.
Qed.

(** * A concrete payment *)

Lemma toy_payer_key_laws : Ed25519Laws (H := toy_signer_ed25519).
Proof.
  split; intros; [apply be_bytes_length | apply be_bytes_ok | exact (proj1 (toy_two_hashes _ _))].
Qed.

Definition solana_secret : SecretMaterial := mkSecret (lit "some phrase") (lit "m/44'/501'/0'/0'") Solana.
Definition both_secrets : X402PreparePaymentRequest :=
  mkPreparePayment (lit "handle") (lit "https://x.example") (lit "00") (Some demo_owner) demo_secret [solana_secret].

(** Two secrets in the request, a challenge on Solana: the Solana one pays. *)
Lemma module_pays_with_own_key_witness :
  let signer := ModulePaymentSigner (H := base58_codecs) (H0 := toy_signer_secp) (H1 := toy_secp_public) (H2 := toy_signer_ed25519)
                  (H3 := toy_bip39) (H4 := toy_bip32) (H5 := toy_key_hashes) (request_secrets both_secrets) in
  let run := exec (module_wallet (H0 := signer) toy_world) []
               (x402_prepare_payment (H0 := hex_base64) (H1 := toy_http) (H2 := toy_client_serde) demo_rail (Some demo_runtime) both_secrets) in
  is_ok run.2 = true /\ solana_secret ∈ additional_secrets both_secrets /\
  exists chain key, own_derived_key (H := base58_codecs) (H4 := toy_signer_ed25519) (H7 := toy_bip39) (H8 := toy_bip32) (H9 := toy_key_hashes)
    both_secrets chain key.
Proof.
  cbv zeta. set (signer := ModulePaymentSigner _).
  assert (Hok : is_ok (exec (module_wallet (H0 := signer) toy_world) [] (x402_prepare_payment (H0 := hex_base64) (H1 := toy_http)
    (H2 := toy_client_serde) demo_rail (Some demo_runtime) both_secrets)).2 = true) by (vm_compute; reflexivity).
  split; [exact Hok|]. split; [left|].
  pose proof (module_pays_with_own_key (H := base58_codecs) (H0 := base58_codec_laws) (H1 := toy_signer_bitcoin) (H2 := toy_signer_secp)
    (H3 := toy_secp_public) (H4 := toy_signer_ed25519) (H5 := toy_signer_laws) (H6 := toy_payer_key_laws)
    (H7 := toy_bip39) (H8 := toy_bip32) (H9 := toy_key_hashes) (H10 := toy_curve) (H11 := hex_base64) (H12 := toy_http) (H13 := toy_http_laws)
    (H14 := toy_client_serde) (H15 := toy_seconds) (H16 := toy_rail_reads) (Some demo_runtime) both_secrets toy_world) as Hrun.
  fold signer in Hrun. fold demo_rail in Hrun. destruct (exec (module_wallet toy_world) [] _) as [tr res_]. cbn [snd] in *.
  destruct Hrun as [_ Hr]. destruct res_ as [response|e|]; [|discriminate..].
  destruct Hr as (_ & _ & _ & chain & _ & _ & key & _ & _ & _ & _ & _ & _ & Hk & _). exists chain, key. exact Hk.
Defined.
