(* ===== verification/Members.v ===== *)
(** The bus interface and its typed client: names
    ([crates/tinywallet-bus/src/names/mod.rs]), the stateless members
    ([crates/tinywallet-module/src/service/mod.rs]) and [WalletClient]
    ([crates/tinywallet-client/src/lib.rs]).

    A member here is called with its request type and answers with its reply type;
    a confidential one also leaves what is left of its request once it has wiped
    it.  The client is a program whose requests are deliveries to the module.
    Shown: the names agree with what is served and which requests and replies
    carry secrets; the client never sends a secret but over the attested call, and
    keeps no phrase; and through a bus that delivers, the client gets what the
    library computes.  Attestation itself, the JSON frames and the cancellation of
    a call are the [tinybus] crate's. *)

From stdpp Require Import base list strings numbers sorting.
From S2P Require Import Prelude Program Text Chain Codec Base58 Addr EvmTx BtcTx TronTx Json Wire Quotes X402Wire Eip712 SolWire Host NoPanic.
From S2P Require Import Keys Signer PayHost HostPort Runtime PaySigner.

(** * Names *)

Definition ATTACH_SIGNATURE : str := lit "AttachSignature".
Definition BUILD_UNSIGNED : str := lit "BuildUnsigned".
Definition CONSTRUCT_EVM_TRANSACTION : str := lit "ConstructEvmTransaction".
Definition DERIVE_ACCOUNT : str := lit "DeriveAccount".
Definition DERIVE_MNEMONIC_SEED : str := lit "DeriveMnemonicSeed".
Definition ENCODE_ERC20_TRANSFER : str := lit "EncodeErc20Transfer".
Definition EXPORT_KEY : str := lit "ExportKey".
Definition GENERATE_MNEMONIC : str := lit "GenerateMnemonic".
Definition SIGN_MESSAGE : str := lit "SignMessage".
Definition SIGN_TRANSACTION : str := lit "SignTransaction".
Definition VALIDATE_ADDRESS : str := lit "ValidateAddress".
Definition NATIVE_WALLET_EXECUTE_PREPARED : str := lit "NativeWalletExecutePrepared".
Definition WEB3_EXECUTE : str := lit "Web3Execute".
Definition X402_PREPARE_PAYMENT : str := lit "X402PreparePayment".

(** "Every member, in the interface's sorted dispatch order." *)
Definition METHODS : list str :=
  [ATTACH_SIGNATURE; BUILD_UNSIGNED; CONSTRUCT_EVM_TRANSACTION; DERIVE_ACCOUNT; DERIVE_MNEMONIC_SEED; ENCODE_ERC20_TRANSFER;
   EXPORT_KEY; GENERATE_MNEMONIC; lit "NativeWalletBalances"; lit "NativeWalletChainStatus"; lit "NativeWalletClose";
   lit "NativeWalletConfigure"; NATIVE_WALLET_EXECUTE_PREPARED; lit "NativeWalletLookupTx"; lit "NativeWalletNetworkDefaults";
   lit "NativeWalletPrepareTransfer"; lit "NativeWalletSupportedAssets"; lit "NativeWalletTxReceipt"; lit "NativeWalletTxStatus";
   SIGN_MESSAGE; SIGN_TRANSACTION; VALIDATE_ADDRESS; lit "Web3BridgeQuote"; lit "Web3Close"; lit "Web3Configure";
   lit "Web3ConfigureWithEndpoints"; lit "Web3DappQuote"; WEB3_EXECUTE; lit "Web3Routes"; lit "Web3SwapQuote"; lit "X402Close";
   lit "X402Configure"; lit "X402ListPayments"; X402_PREPARE_PAYMENT; lit "X402RecordPayment"; lit "X402SpendingSummary";
   lit "X402SpendingSummaryDetailed"; lit "X402UpdateBudget"].

Definition CONFIDENTIAL_METHODS : list str :=
  [DERIVE_ACCOUNT; DERIVE_MNEMONIC_SEED; EXPORT_KEY; GENERATE_MNEMONIC; NATIVE_WALLET_EXECUTE_PREPARED; SIGN_MESSAGE;
   SIGN_TRANSACTION; WEB3_EXECUTE; X402_PREPARE_PAYMENT].

Definition HOST_METHODS : list str :=
  [lit "AuthorizeNativeWalletExecution"; lit "AuthorizeWeb3Execution"; lit "AuthorizeX402Payment"; lit "ChainTransport";
   lit "WalletAccounts"; lit "WalletBackend"].

(** The methods the module's manifest advertises, as it lists them. *)
Definition exported_methods : list str :=
  [lit "BuildUnsigned"; lit "AttachSignature"; lit "DeriveAccount"; lit "DeriveMnemonicSeed"; lit "EncodeErc20Transfer";
   lit "GenerateMnemonic"; lit "SignTransaction"; lit "ExportKey"; lit "SignMessage"; lit "ValidateAddress";
   lit "ConstructEvmTransaction"; lit "Web3Routes"; lit "Web3SwapQuote"; lit "Web3BridgeQuote"; lit "Web3DappQuote";
   lit "Web3Execute"; lit "Web3Configure"; lit "Web3ConfigureWithEndpoints"; lit "Web3Close"; lit "NativeWalletConfigure";
   lit "NativeWalletClose"; lit "NativeWalletNetworkDefaults"; lit "NativeWalletSupportedAssets"; lit "NativeWalletChainStatus";
   lit "NativeWalletBalances"; lit "NativeWalletPrepareTransfer"; lit "NativeWalletExecutePrepared"; lit "NativeWalletTxStatus";
   lit "NativeWalletTxReceipt"; lit "NativeWalletLookupTx"; lit "X402PreparePayment"; lit "X402RecordPayment";
   lit "X402SpendingSummary"; lit "X402SpendingSummaryDetailed"; lit "X402ListPayments"; lit "X402UpdateBudget";
   lit "X402Configure"; lit "X402Close"].

(** * The stateless members *)

(** [zeroize]: the text is overwritten and emptied. *)
Definition wipe (secret : SecretMaterial) : SecretMaterial := mkSecret [] [] (sm_chain secret).

Record GenerateMnemonicResponse := mkGenerated { phrase : str; gm_word_count : Z }.
Record ValidateAddressRequest := mkValidate { va_chain : Chain; va_address : str; va_sender : bool }.

(** A request of each stateless member. *)
Inductive WalletRequest :=
  | RqDeriveAccount (secret : SecretMaterial)
  | RqDeriveSeed (mnemonic : str)
  | RqEncodeErc20 (to_address amount_raw : str)
  | RqExportKey (secret : SecretMaterial)
  | RqGenerate (word_count : Z)
  | RqSignMessage (r : SignMessageRequest)
  | RqSignTransaction (r : SignRequest)
  | RqBuildUnsigned (r : SigningRequest)
  | RqAttachSignature (r : AttachRequest)
  | RqConstruct (r : EvmConstructionRequest)
  | RqValidateAddress (r : ValidateAddressRequest).

Definition method_of (q : WalletRequest) : str :=
  match q with
  | RqDeriveAccount _ => DERIVE_ACCOUNT
  | RqDeriveSeed _ => DERIVE_MNEMONIC_SEED
  | RqEncodeErc20 _ _ => ENCODE_ERC20_TRANSFER
  | RqExportKey _ => EXPORT_KEY
  | RqGenerate _ => GENERATE_MNEMONIC
  | RqSignMessage _ => SIGN_MESSAGE
  | RqSignTransaction _ => SIGN_TRANSACTION
  | RqBuildUnsigned _ => BUILD_UNSIGNED
  | RqAttachSignature _ => ATTACH_SIGNATURE
  | RqConstruct _ => CONSTRUCT_EVM_TRANSACTION
  | RqValidateAddress _ => VALIDATE_ADDRESS
  end.

Definition WalletReply (q : WalletRequest) : Type :=
  match q with
  | RqDeriveAccount _ => DerivedAccount
  | RqDeriveSeed _ => list Z
  | RqEncodeErc20 _ _ => str
  | RqExportKey _ => ExportedKey
  | RqGenerate _ => GenerateMnemonicResponse
  | RqSignMessage _ => Signature
  | RqSignTransaction _ | RqAttachSignature _ => SignedTransaction
  | RqBuildUnsigned _ => UnsignedTransaction
  | RqConstruct _ => ConstructedEvmTransaction
  | RqValidateAddress _ => res addr_error str
  end.

Section Served.
Context `{Codecs, BitcoinLib, Secp256k1, SecpPublic, Ed25519Lib, Bip39, Bip32, KeyHashes, RequestSize}.

Definition member_encode_erc20_transfer (to_address amount_raw : str) : res BusError str :=
  map_err (fun error => invalid_input (abi_error_text error)) (abi_encode_erc20_transfer addr_error_text to_address amount_raw).

(** [rng] is what the operating system's generator gives the call. *)
Definition member_generate_mnemonic (rng : list Z) (word_count : Z) : res BusError GenerateMnemonicResponse :=
  phrase ← map_err (fun error => invalid_input (key_error_text error)) (generate_mnemonic rng word_count);
  Ok (mkGenerated phrase word_count).

Definition member_derive_mnemonic_seed (mnemonic : str) : res BusError (list Z) :=
  map_err (fun error => invalid_input (key_error_text error)) (mnemonic_seed mnemonic).

Definition member_validate_address (request : ValidateAddressRequest) : res addr_error str :=
  validate_address (va_chain request) (va_address request) (va_sender request).

(** A member's answer. *)
Definition serve_member (rng : list Z) (q : WalletRequest) : res BusError (WalletReply q) :=
  match q return res BusError (WalletReply q) with
  | RqDeriveAccount secret => map_err into_bus_error (derive_account secret)
  | RqDeriveSeed mnemonic => member_derive_mnemonic_seed mnemonic
  | RqEncodeErc20 to_address amount_raw => member_encode_erc20_transfer to_address amount_raw
  | RqExportKey secret => map_err into_bus_error (export_key secret)
  | RqGenerate word_count => member_generate_mnemonic rng word_count
  | RqSignMessage r => map_err into_bus_error (sign_message r)
  | RqSignTransaction r => map_err into_bus_error (sign_transaction r)
  | RqBuildUnsigned r => map_err into_bus_error (build_unsigned r)
  | RqAttachSignature r => map_err into_bus_error (attach_signature r)
  | RqConstruct r => map_err into_bus_error (construct r)
  | RqValidateAddress r => Ok (member_validate_address r)
  end.

(** What a member leaves of its request: a confidential one wipes its secret
    before it returns, whatever it returns. *)
Definition left_by_member (q : WalletRequest) : WalletRequest :=
  match q with
  | RqDeriveAccount secret => RqDeriveAccount (wipe secret)
  | RqDeriveSeed _ => RqDeriveSeed []
  | RqExportKey secret => RqExportKey (wipe secret)
  | RqSignMessage r => RqSignMessage (mkSignMessage (wipe (mm_secret r)) (message_hex r) (mm_scheme r))
  | RqSignTransaction r => RqSignTransaction (mkSignRequest (wipe (sg_secret r)) (sg_transaction r))
  | q => q
  end.
End Served.

(** Recovery phrases in a request, and phrases, seeds and private keys in a reply. *)
Definition request_phrases (q : WalletRequest) : list str :=
  match q with
  | RqDeriveAccount secret | RqExportKey secret => [mnemonic secret]
  | RqDeriveSeed mnemonic => [mnemonic]
  | RqSignMessage r => [mnemonic (mm_secret r)]
  | RqSignTransaction r => [mnemonic (sg_secret r)]
  | _ => []
  end.

Definition reply_secrets (q : WalletRequest) : WalletReply q -> list str :=
  match q return WalletReply q -> list str with
  | RqDeriveSeed _ => fun seed => [seed]
  | RqExportKey _ => fun key => [secret_key_hex key]
  | RqGenerate _ => fun generated => [phrase generated]
  | _ => fun _ => []
  end.

(** * The client *)

Definition MODULE_ID : str := lit "tinywallet".

Definition is_confidential (member : str) : bool := bool_decide (member ∈ CONFIDENTIAL_METHODS).

(** One call of the host's module client: [call_detailed], or
    [call_attested_detailed], which proves the peer before it serializes. *)
Record Delivery := mkDelivery { attested : bool; dl_module : str; dl_member : str; dl_request : WalletRequest }.

Section Client.
(** [tinybus::module::ModuleCallFailure]. *)
Context {ModuleCallFailure : Type}.

Definition delivered (d : Delivery) : Type := ModuleCallFailure + WalletReply (dl_request d).

Inductive ClientError := ConfidentialRequired | NotConfidential | Remote (error : ModuleCallFailure).

Abbreviation client := (program delivered ClientError).

Definition or_remote {A} (r : ModuleCallFailure + A) : client A :=
  match r with inl error => Done (Err (Remote error)) | inr reply => Done (Ok reply) end.

Definition call (member : str) (request : WalletRequest) : client (WalletReply request) :=
  if is_confidential member then Done (Err ConfidentialRequired) else Ask (mkDelivery false MODULE_ID member request) or_remote.

Definition call_attested (member : str) (request : WalletRequest) : client (WalletReply request) :=
  if negb (is_confidential member) then Done (Err NotConfidential) else Ask (mkDelivery true MODULE_ID member request) or_remote.

(** [MnemonicRequestGuard]: once the call is over, however it ended, the phrase of
    the request kept is zeroized; what is left is told beside the result. *)
Definition guarded {T A} (zeroize_mnemonic : T -> T) (request : T) (p : client A) : client (res ClientError A * T) :=
  result ← attempt p; mret (result, zeroize_mnemonic request).

Definition zeroize_secret (s : SecretMaterial) : SecretMaterial := mkSecret [] (secret_path s) (sm_chain s).
Definition zeroize_sign_request (r : SignRequest) : SignRequest := mkSignRequest (zeroize_secret (sg_secret r)) (sg_transaction r).
Definition zeroize_sign_message (r : SignMessageRequest) : SignMessageRequest :=
  mkSignMessage (zeroize_secret (mm_secret r)) (message_hex r) (mm_scheme r).
Definition zeroize_seed_request (mnemonic : str) : str := [].

(** [hex]: two digits a byte, by table. *)
Definition HEX : str := lit "0123456789abcdef".
Definition hex (bytes : list Z) : str :=
  concat ((fun byte => [nth (Z.to_nat (Z.shiftr byte 4)) HEX 0; nth (Z.to_nat (Z.land byte 15)) HEX 0]) <$> bytes).

Definition client_derive_account (secret : SecretMaterial) : client (res ClientError DerivedAccount * SecretMaterial) :=
  guarded zeroize_secret secret (call_attested DERIVE_ACCOUNT (RqDeriveAccount secret)).

Definition client_sign_transaction (secret : SecretMaterial) (transaction : TransactionSpec)
  : client (res ClientError SignedTransaction * SignRequest) :=
  let request := mkSignRequest secret transaction in
  guarded zeroize_sign_request request (call_attested SIGN_TRANSACTION (RqSignTransaction request)).

Definition client_sign_message (secret : SecretMaterial) (message : list Z) (scheme : Scheme)
  : client (res ClientError Signature * SignMessageRequest) :=
  let request := mkSignMessage secret (hex message) scheme in
  guarded zeroize_sign_message request (call_attested SIGN_MESSAGE (RqSignMessage request)).

Definition client_export_key (secret : SecretMaterial) : client (res ClientError ExportedKey * SecretMaterial) :=
  guarded zeroize_secret secret (call_attested EXPORT_KEY (RqExportKey secret)).

Definition client_generate_mnemonic (word_count : Z) : client GenerateMnemonicResponse :=
  call_attested GENERATE_MNEMONIC (RqGenerate word_count).

Definition client_derive_mnemonic_seed (mnemonic : str) : client (res ClientError (list Z) * str) :=
  guarded zeroize_seed_request mnemonic (call_attested DERIVE_MNEMONIC_SEED (RqDeriveSeed mnemonic)).

Definition client_encode_erc20_transfer (to_address amount_raw : str) : client str :=
  call ENCODE_ERC20_TRANSFER (RqEncodeErc20 to_address amount_raw).

End Client.

(** * The names agree *)

(** Byte order of names, as [sort] has it. *)
Fixpoint name_ltb (a b : str) : bool :=
  match a, b with
  | _, [] => false
  | [], _ => true
  | x :: a', y :: b' => (x <? y) || ((x =? y) && name_ltb a' b')
  end.

Fixpoint sorted_names (l : list str) : bool :=
  match l with
  | a :: (b :: _) as rest => name_ltb a b && sorted_names rest
  | _ => true
  end.

Lemma in_names (m : str) (l : list str) : bool_decide (m ∈ l) = true -> m ∈ l.
Proof. apply bool_decide_eq_true. Qed.

Lemma permutation_names (l k : list str) :
  bool_decide (NoDup l) = true -> bool_decide (NoDup k) = true ->
  forallb (fun m => bool_decide (m ∈ k)) l = true -> forallb (fun m => bool_decide (m ∈ l)) k = true -> Permutation l k.
Proof.
  intros Hl%bool_decide_eq_true Hk%bool_decide_eq_true H1 H2. apply NoDup_Permutation; [assumption..|].
  rewrite List.forallb_forall in H1, H2. intros m. split; intros Hm%list_elem_of_In.
  - apply in_names, H1, Hm.
  - apply in_names, H2, Hm.
Qed.


(** * What the client sends, and keeps *)

(** Every operation of the client. *)
Inductive ClientOp :=
  | OpCall (member : str) (request : WalletRequest)
  | OpCallAttested (member : str) (request : WalletRequest)
  | OpDeriveAccount (secret : SecretMaterial)
  | OpSignTransaction (secret : SecretMaterial) (transaction : TransactionSpec)
  | OpSignMessage (secret : SecretMaterial) (message : list Z) (scheme : Scheme)
  | OpExportKey (secret : SecretMaterial)
  | OpGenerate (word_count : Z)
  | OpDeriveSeed (mnemonic : str)
  | OpEncodeErc20 (to_address amount_raw : str).

Section Sending.
Context {ModuleCallFailure : Type}.

(** An operation, with the phrases left in the request the client owned; of a
    borrowed request it owns nothing. *)
Definition perform_op (op : ClientOp) : program delivered (ClientError (ModuleCallFailure := ModuleCallFailure)) (list str) :=
  match op with
  | OpCall member request => _ ← call member request; mret []
  | OpCallAttested member request => _ ← call_attested member request; mret []
  | OpDeriveAccount secret => x ← client_derive_account secret; mret [mnemonic x.2]
  | OpSignTransaction secret transaction => x ← client_sign_transaction secret transaction; mret [mnemonic (sg_secret x.2)]
  | OpSignMessage secret message scheme => x ← client_sign_message secret message scheme; mret [mnemonic (mm_secret x.2)]
  | OpExportKey secret => x ← client_export_key secret; mret [mnemonic x.2]
  | OpGenerate word_count => _ ← client_generate_mnemonic word_count; mret []
  | OpDeriveSeed mnemonic => x ← client_derive_mnemonic_seed mnemonic; mret [x.2]
  | OpEncodeErc20 to_address amount_raw => _ ← client_encode_erc20_transfer to_address amount_raw; mret []
  end.

(** The request a typed operation is for; the two plain calls take any. *)
Definition op_request (op : ClientOp) : option WalletRequest :=
  match op with
  | OpCall _ _ | OpCallAttested _ _ => None
  | OpDeriveAccount secret => Some (RqDeriveAccount secret)
  | OpSignTransaction secret transaction => Some (RqSignTransaction (mkSignRequest secret transaction))
  | OpSignMessage secret message scheme => Some (RqSignMessage (mkSignMessage secret (hex message) scheme))
  | OpExportKey secret => Some (RqExportKey secret)
  | OpGenerate word_count => Some (RqGenerate word_count)
  | OpDeriveSeed mnemonic => Some (RqDeriveSeed mnemonic)
  | OpEncodeErc20 to_address amount_raw => Some (RqEncodeErc20 to_address amount_raw)
  end.

(** What an operation is refused for, before anything is sent. *)
Definition op_refusal (op : ClientOp) : option (ClientError (ModuleCallFailure := ModuleCallFailure)) :=
  match op with
  | OpCall member _ => if is_confidential member then Some ConfidentialRequired else None
  | OpCallAttested member _ => if is_confidential member then None else Some NotConfidential
  | _ => None
  end.
End Sending.

#[local] Arguments is_confidential : simpl never.
#[local] Arguments lit : simpl never.

Lemma answer_cases {F : Type} d (a : delivered (ModuleCallFailure := F) d) : (exists f, a = inl f) \/ exists reply, a = inr reply.
Proof. unfold delivered in a. destruct a; eauto. Qed.

(** What became of an answer: the failure reported, or what is kept. *)
Definition concluded {F : Type} {d : Delivery} (a : delivered (ModuleCallFailure := F) d) (r : res ClientError (list str)) : Prop :=
  match r with
  | Ok texts => Forall (fun text => text = []) texts
  | Err error => exists failure, a = inl failure /\ error = Remote failure
  | Panic => False
  end.

Lemma exec_typed {F : Type} op q k (bus : host_of (delivered (ModuleCallFailure := F))) past :
  perform_op op = Ask (mkDelivery (is_confidential (method_of q)) MODULE_ID (method_of q) q) k ->
  (request_phrases q <> [] -> is_confidential (method_of q) = true) ->
  (forall a, exists r, k a = Done r /\ concluded (F := F) a r) ->
  exists d (a : delivered d), (exec bus past (perform_op op)).1 = past ++ [Event d a] /\
    dl_module d = MODULE_ID /\ attested d = is_confidential (dl_member d) /\
    (dl_member d = method_of q /\ dl_request d = q /\ (request_phrases q <> [] -> attested d = true)) /\
    concluded a (exec bus past (perform_op op)).2.
Proof.
  intros -> Hp Hk. set (d := mkDelivery _ _ _ _) in *. exists d, (bus past d). cbn [exec].
  destruct (Hk (bus past d)) as (r & Hr & Hc). rewrite Hr. cbn [exec fst snd]. split_and!; auto.
Qed.

(** C37. The client sends one delivery, attested when it must be, and keeps no
    phrase.  Whatever the bus answers, an operation of the client sends nothing
    only when it is the plain call of a confidential member or the attested call
    of a public one, which it refuses; else it sends exactly one delivery, to the
    wallet module, attested precisely when the member is listed as confidential.
    A typed operation delivers its own request to that request's member, so a
    request with a phrase in it only ever goes attested; and however the call
    ends, the request the client owned has no phrase left in it.  A failure of the
    delivery is the error reported, and nothing panics. *)
Theorem client_attests_secrets {ModuleCallFailure : Type} op (bus : host_of (delivered (ModuleCallFailure := ModuleCallFailure))) past :
  let '(tr, r) := exec bus past (perform_op op) in
  match op_refusal op with
  | Some error => tr = past /\ r = Err error
  | None => exists d a, tr = past ++ [Event d a] /\ dl_module d = MODULE_ID /\ attested d = is_confidential (dl_member d) /\
      match op_request op with
      | Some q => dl_member d = method_of q /\ dl_request d = q /\ (request_phrases q <> [] -> attested d = true)
      | None => True
      end /\
      concluded a r
  end.
Proof.
  destruct op as [m q|m q|secret|secret t|secret message scheme|secret|n|m|to amount]; cbn [op_refusal op_request].
  1: { cbn [perform_op]. unfold call. destruct (is_confidential m) eqn:Hc; [split; reflexivity|]. cbn.
       set (d := mkDelivery false MODULE_ID m q). destruct (answer_cases d (bus past d)) as [[f Hf]|[reply Hf]]; rewrite Hf;
         exists d, (bus past d); rewrite Hf; cbn; split_and!; eauto. }
  1: { cbn [perform_op]. unfold call_attested. destruct (is_confidential m) eqn:Hc; cbn [negb]; [|split; reflexivity]. cbn.
       set (d := mkDelivery true MODULE_ID m q). destruct (answer_cases d (bus past d)) as [[f Hf]|[reply Hf]]; rewrite Hf;
         exists d, (bus past d); rewrite Hf; cbn; split_and!; eauto. }
  all: match goal with |- context [exec ?b ?p (perform_op ?op)] =>
         match goal with |- context [dl_request _ = ?q] => pose proof (exec_typed op q _ b p eq_refl) as Hsent end;
         destruct (exec b p _) as [tr r] end.
  all: apply Hsent; [first [reflexivity | intros Hn; destruct (Hn eq_refl)]|].
  all: intros a; destruct (answer_cases _ a) as [[f ->]|[reply ->]]; eexists; (split; [reflexivity|]); cbn; eauto; repeat constructor.
Qed.

(** * What the module answers it *)

Section Answers.
Context `{CodecLaws, BitcoinLib, Secp256k1, SecpPublic, Ed25519Lib, Bip39, Bip32, KeyHashes, RequestSize}.
Context {ModuleCallFailure : Type}.

(** A bus that takes deliveries to the module's member, and its answers back. *)
Definition delivers (rng : list Z) (failure : BusError -> ModuleCallFailure)
    (bus : host_of (delivered (ModuleCallFailure := ModuleCallFailure))) : Prop :=
  forall past d, dl_module d = MODULE_ID -> dl_member d = method_of (dl_request d) ->
    match serve_member rng (dl_request d) with
    | Ok reply => bus past d = inr reply
    | Err error => bus past d = inl (failure error)
    | Panic => exists f, bus past d = inl f
    end.

(** A blind signature of exactly these bytes. *)
Definition signs_message (key : list Z) (scheme : Scheme) (message : list Z) (signature : Signature) : Prop :=
  match scheme with
  | Secp256k1Prehash => length message = 32%nat /\ secret_valid key = true /\ 0 <= (sign_recoverable key message).1 <= 255 /\
      signature = SigSecp256k1 (hex_string (sign_recoverable key message).2) (sign_recoverable key message).1
  | SchemeEd25519 => length key = 32%nat /\ signature = SigEd25519 (hex_string (ed25519_sign key message))
  end.

Lemma client_hex message : bytes_ok message -> hex message = hex_string message.
Proof.
  induction 1 as [|b bs Hb _ IH]; [reflexivity|]. rewrite hex_string_cons. unfold hex in *. rewrite fmap_cons. cbn [concat].
  rewrite IH. f_equal. unfold hex_byte. change 15 with (Z.ones 4). rewrite Z.land_ones by lia. rewrite Z.shiftr_div_pow2 by lia.
  change (2 ^ 4) with 16.
  assert (Hdigit : forall d, 0 <= d < 16 -> nth (Z.to_nat d) HEX 0 = digit_char d).
  { intros d Hd. assert (Hin : Z.to_nat d ∈ seq 0 16) by (apply elem_of_seq; lia).
    assert (Hall : Forall (fun i => nth i HEX 0 = digit_char (Z.of_nat i)) (seq 0 16)) by (repeat constructor).
    rewrite List.Forall_forall in Hall. rewrite (Hall (Z.to_nat d)) by (apply list_elem_of_In, Hin). f_equal. lia. }
  unfold is_u8 in Hb. rewrite !Hdigit; [reflexivity | apply Z.mod_pos_bound; lia|].
  split; [apply Z.div_pos; lia | apply Z.div_lt_upper_bound; lia].
Qed.

Abbreviation Outcome A := (res (ClientError (ModuleCallFailure := ModuleCallFailure)) A).

(** The module's answer, as the client has it. *)
Definition answered (failure : BusError -> ModuleCallFailure) {A : Type} (r : res BusError A) (out : Outcome A) : Prop :=
  match r with
  | Ok a => out = Ok a
  | Err error => out = Err (Remote (failure error))
  | Panic => exists f, out = Err (Remote f)
  end.

(** A typed call's outcome, and what its guard leaves. *)
Definition returns {A T : Type} (r : Outcome (Outcome A * T)) (P : Outcome A -> Prop) (kept : T) : Prop :=
  exists out, r = Ok (out, kept) /\ P out.

Lemma answered_attested rng failure bus q past :
  delivers rng failure bus -> is_confidential (method_of q) = true ->
  answered failure (serve_member rng q) (exec bus past (call_attested (method_of q) q)).2.
Proof.
  intros Hbus Hc. unfold call_attested. rewrite Hc. cbn [negb exec]. set (d := mkDelivery _ _ _ _).
  specialize (Hbus past d eq_refl eq_refl). change (dl_request d) with q in Hbus. unfold answered.
  destruct (serve_member rng q) as [a|e|]; [| |destruct Hbus as [f Hbus]]; rewrite Hbus; cbn; eauto.
Qed.

Lemma returns_guarded {T} rng failure bus q past (z : T -> T) (request : T) :
  delivers rng failure bus -> is_confidential (method_of q) = true ->
  returns (exec bus past (guarded z request (call_attested (method_of q) q))).2 (answered failure (serve_member rng q)) (z request).
Proof.
  intros Hbus Hc. pose proof (answered_attested rng failure bus q past Hbus Hc) as Ha.
  unfold guarded, returns. rewrite exec_bind_ret, exec_attempt. unfold answered in Ha.
  destruct (serve_member rng q) as [a|e|]; [| |destruct Ha as [f Ha]]; rewrite Ha; eexists; split; cbn; eauto.
Qed.

Lemma sign_message_bytes secret message scheme sg :
  bytes_ok message ->
  sign_message (mkSignMessage secret (hex message) scheme) = Ok sg <->
  exists key, sderive secret = Ok key /\ signs_message (dk_secret key) scheme message sg.
Proof.
  intros Hb. unfold sign_message. cbn [mm_secret message_hex mm_scheme]. rewrite bind_ok. apply exist_proper. intros key.
  apply Morphisms_Prop.and_iff_morphism; [reflexivity|]. rewrite (client_hex _ Hb). unfold sign_payload. cbn [bytes_hex Wire.scheme].
  rewrite sdecode_hex_string by exact Hb. cbn [mbind res_bind]. destruct scheme; cbn [signs_message].
  - destruct (Nat.eqb_spec (length message) 32) as [Hl|Hl]; cbn [mbind res_bind]; [|split; [discriminate | tauto]].
    unfold scalar. destruct (secret_valid (dk_secret key)); cbn [mbind res_bind]; [|split; [discriminate | intros (_ & ? & _); discriminate]].
    destruct (sign_recoverable (dk_secret key) message) as [rid compact]. cbn [fst snd].
    destruct ((0 <=? rid) && (rid <=? 255)) eqn:Hr; cbn [mbind res_bind].
    + split; [intros [= <-]; split_and!; auto; lia | intros (_ & _ & _ & ->); reflexivity].
    + split; [discriminate | lia].
  - unfold ed25519_key. destruct (Nat.eqb_spec (length (dk_secret key)) 32) as [Hl|Hl]; cbn [mbind res_bind].
    + split; [intros [= <-]; auto | intros (_ & ->); reflexivity].
    + split; [discriminate | tauto].
Qed.
End Answers.

(** C38. Through a bus that delivers, the client gets what the library computes.
    A message signed through the client is signed, blind, over exactly the bytes
    the caller gave, by the key its secret derives: a signature comes back exactly
    when the key derives, fits the scheme and, for a prehash, the message is a
    32-byte digest.  Signing a transaction, deriving an account or a seed,
    exporting a key, generating a phrase and encoding a token transfer answer what
    the module's own functions answer for that request; an error of theirs is the
    remote error reported; and what the client's guard leaves is the request
    without its phrase. *)
Theorem client_gets_library_answers `{CodecLaws, BitcoinLib, Secp256k1, SecpPublic, Ed25519Lib, Bip39, Bip32, KeyHashes, RequestSize}
    {F : Type} rng (failure : BusError -> F) bus past secret message scheme transaction words word_count to amount :
  delivers rng failure bus -> bytes_ok message ->
  let run {A} (p : program delivered ClientError A) := (exec bus past p).2 in
  let signing := mkSignMessage secret (hex message) scheme in
  let request := mkSignRequest secret transaction in
  returns (run (client_sign_message secret message scheme))
    (fun out => answered failure (map_err into_bus_error (sign_message signing)) out /\
       forall sg, out = Ok sg <-> exists key, sderive secret = Ok key /\ signs_message (dk_secret key) scheme message sg)
    (zeroize_sign_message signing) /\
  returns (run (client_sign_transaction secret transaction))
    (answered failure (map_err into_bus_error (sign_transaction request))) (zeroize_sign_request request) /\
  returns (run (client_derive_account secret)) (answered failure (map_err into_bus_error (derive_account secret))) (zeroize_secret secret) /\
  returns (run (client_export_key secret)) (answered failure (map_err into_bus_error (export_key secret))) (zeroize_secret secret) /\
  returns (run (client_derive_mnemonic_seed words)) (answered failure (member_derive_mnemonic_seed words)) [] /\
  answered failure (member_generate_mnemonic rng word_count) (run (client_generate_mnemonic word_count)) /\
  answered failure (member_encode_erc20_transfer to amount) (run (client_encode_erc20_transfer to amount)).
Proof.
  intros Hbus Hb. cbv zeta. split; [|split_and!].
  - destruct (returns_guarded rng failure bus (RqSignMessage (mkSignMessage secret (hex message) scheme)) past zeroize_sign_message
      (mkSignMessage secret (hex message) scheme) Hbus eq_refl) as (out & Hrun & Hout).
    exists out. split; [exact Hrun|]. split; [exact Hout|]. intros sg. rewrite <- (sign_message_bytes secret message scheme sg Hb).
    cbn [serve_member] in Hout. unfold answered in Hout.
    destruct (sign_message _) as [sg'|e|]; cbn [map_err] in Hout; [rewrite Hout | rewrite Hout | destruct Hout as [f ->]];
      (split; intros Hx; [first [discriminate | injection Hx as ->; reflexivity]..]).
  - exact (returns_guarded rng failure bus (RqSignTransaction _) past zeroize_sign_request _ Hbus eq_refl).
  - exact (returns_guarded rng failure bus (RqDeriveAccount _) past zeroize_secret _ Hbus eq_refl).
  - exact (returns_guarded rng failure bus (RqExportKey _) past zeroize_secret _ Hbus eq_refl).
  - exact (returns_guarded rng failure bus (RqDeriveSeed _) past zeroize_seed_request _ Hbus eq_refl).
  - exact (answered_attested rng failure bus (RqGenerate _) past Hbus eq_refl).
  - specialize (Hbus past (mkDelivery false MODULE_ID ENCODE_ERC20_TRANSFER (RqEncodeErc20 to amount)) eq_refl eq_refl).
    cbn [serve_member dl_request] in Hbus. change (client_encode_erc20_transfer to amount) with
      (Ask (mkDelivery false MODULE_ID ENCODE_ERC20_TRANSFER (RqEncodeErc20 to amount)) (or_remote (ModuleCallFailure := F))).
    cbn [exec]. unfold answered.
    destruct (member_encode_erc20_transfer to amount) as [a|e|]; [| |destruct Hbus as [f Hbus]]; rewrite Hbus; cbn; eauto.
Qed.

(** * A concrete bus *)

Definition toy_request_size : RequestSize := {| request_bytes _ := 100 |}.

Definition demo_serve : forall q, res BusError (WalletReply q) :=
  serve_member (H := base58_codecs) (H0 := toy_signer_bitcoin) (H1 := toy_signer_secp) (H2 := toy_secp_public) (H3 := toy_signer_ed25519)
    (H4 := toy_bip39) (H5 := toy_bip32) (H6 := toy_key_hashes) (H7 := toy_request_size) (replicate 32 1).

Definition demo_bus : host_of (delivered (ModuleCallFailure := BusError)) := fun _ d =>
  match demo_serve (dl_request d) with Ok reply => inr reply | Err error => inl error | Panic => inl host_unavailable end.

(** A digest signed, and a message of the wrong length refused. *)
Lemma client_gets_library_answers_witness :
  let signed := (exec demo_bus [] (client_sign_message demo_secret (replicate 32 7) Secp256k1Prehash)).2 in
  let refused := (exec demo_bus [] (client_sign_message demo_secret (replicate 31 7) Secp256k1Prehash)).2 in
  (exists sg, signed = Ok (Ok sg, mkSignMessage (zeroize_secret demo_secret) (hex (replicate 32 7)) Secp256k1Prehash) /\
     exists key, sderive (H := base58_codecs) (H3 := toy_signer_ed25519) (H4 := toy_bip39) (H5 := toy_bip32) (H6 := toy_key_hashes) demo_secret = Ok key) /\
  refused = Ok (Err (Remote (mkBusError BUILD_FAILED_ERROR (lit "secp256k1 payload is not a 32-byte digest"))),
                mkSignMessage (zeroize_secret demo_secret) (hex (replicate 31 7)) Secp256k1Prehash).
Proof.
  cbv zeta. split; [|vm_compute; reflexivity].
  destruct (client_gets_library_answers (H := base58_codecs) (H0 := base58_codec_laws) (H1 := toy_signer_bitcoin) (H2 := toy_signer_secp)
    (H3 := toy_secp_public) (H4 := toy_signer_ed25519) (H5 := toy_bip39) (H6 := toy_bip32) (H7 := toy_key_hashes) (H8 := toy_request_size)
    (replicate 32 1) (fun e => e) demo_bus [] demo_secret (replicate 32 7) Secp256k1Prehash demo_spec [] 12 [] [])
    as [(out & Hrun & _ & Hiff) _]; [| |].
  { intros past d _ _. unfold demo_bus. fold demo_serve. destruct (demo_serve (dl_request d)); eauto. }
  { bytes_closed. }
  assert (Hgood : match (exec demo_bus [] (client_sign_message demo_secret (replicate 32 7) Secp256k1Prehash)).2 with
                  | Ok (Ok _, _) => true | _ => false end = true) by (vm_compute; reflexivity).
  rewrite Hrun in Hgood. destruct out as [sg|e|]; [|discriminate..]. exists sg. split; [exact Hrun|].
  destruct (proj1 (Hiff sg) eq_refl) as (key & Hk & _). eauto.
Defined.
