(* ===== verification/PayTool.v ===== *)
(** The agent's paid-request tool
    ([crates/tinywallet-x402/src/tools/request.rs], [thread/mod.rs]).

    A request proposed by a model is put to the host's policy, sent to the
    addresses the policy approved, and, when it is answered with a 402, paid and
    sent once more with the proof.  The payment is [PayClient]'s, the budget the
    ledger's; HTTP, URLs and the policy are requests.

    Shown: without a policy, an approved destination that matches the URL, or a
    direct connection, nothing is sent; what is sent is the approved request to
    the approved addresses, at most twice; a proof leaves only after its payment
    is on record; only a receipt settles it. *)

From stdpp Require Import base list strings numbers.
From S2P Require Import Prelude Program Text Chain Codec Base58 Addr Ip Json Quotes X402Wire Eip712 SolWire Host NoPanic.
From S2P Require Import LedgerTypes Ledger PayHost Rail PayClient PayService.

(** * Parameters *)

(** The HTTP methods and URLs of [reqwest]; [url_port] is [port_or_known_default]. *)
Class WebLib := {
  Method : Type;
  parse_method : str -> option Method;
  Url : Type;
  url_parse : str -> option Url;
  url_host : Url -> option str;
  url_port : Url -> option Z
}.

Record SocketAddr := mkSocket { sa_ip : IpAddr; sa_port : Z }.

Inductive ToolResult := ToolSuccess (text : str) | ToolError (text : str).

Section Requests.
Context `{HttpLib, WebLib}.

Record ProposedRequest := mkProposed { pq_url : str; pq_method : Method; pq_headers : list (str * str); pq_body : option str }.

Record AuthorizedRequest := mkAuthorized { au_request : ProposedRequest; au_host : str; au_addrs : list SocketAddr }.

(** The policy, the proxy rules, and HTTP through a client whose host resolves to
    the pinned addresses; [Pay] is anything the payment asks. *)
Inductive tool_ask :=
  | Pay (q : ask)
  | Authorize (request : ProposedRequest)
  | DirectAllowed
  | BuildClient (host : str) (addrs : list SocketAddr)
  | Fetch (host : str) (addrs : list SocketAddr) (request : ProposedRequest) (extra : option (str * str)).

Definition tool_said (q : tool_ask) : Type :=
  match q with
  | Pay q => said q
  | Authorize _ => str + AuthorizedRequest
  | DirectAllowed => bool
  | BuildClient _ _ => str + unit
  | Fetch _ _ _ _ => str + HttpResponse
  end.

(** What leaves a mark: the payment's, and what is sent. *)
Definition tool_marks (q : tool_ask) : bool :=
  match q with Pay q => marks q | Fetch _ _ _ _ => true | _ => false end.
End Requests.

Abbreviation tool := (program tool_said str).
Abbreviation act := (event_of tool_said).
Abbreviation Act := (@Event tool_ask tool_said).
Abbreviation acts := (effects_of (ans := tool_said) tool_marks).

(** * Arguments *)

Section Tool.
Context `{Base64, HttpLib, WebLib, ClientSerde}.

Definition parse_header_args (headers_val : option Json) : list (str * str) :=
  match headers_val ≫= as_object with
  | Some obj => omap (fun '(k, v) => (fun s => (k, s)) <$> as_str v) obj
  | None => []
  end.

Definition parse_request (args : Json) : res str ProposedRequest :=
  match jget (lit "url") args ≫= as_str with
  | None => Err (lit "Missing required 'url' parameter")
  | Some url =>
      let method_str := default (lit "GET") (jget (lit "method") args ≫= as_str) in
      match parse_method method_str with
      | None => Err (lit "Unsupported HTTP method: " ++ method_str)
      | Some method => Ok (mkProposed url method (parse_header_args (jget (lit "headers") args)) (jget (lit "body") args ≫= as_str))
      end
  end.

(** * The destination *)

(** [trim_start_matches('[')] and [trim_end_matches(']')]. *)
Fixpoint trim_left_of (c : Z) (s : str) : str :=
  match s with b :: rest => if b =? c then trim_left_of c rest else s | [] => [] end.
Definition strip_brackets (s : str) : str := rev (trim_left_of 93 (rev (trim_left_of 91 s))).

(** An approved destination must be the approved URL's: its host, its port at every
    address, and its address when the host is one. *)
Definition check_destination (target : AuthorizedRequest) : res str unit :=
  url ← ok_or (url_parse (pq_url (au_request target))) (lit "[policy-blocked] Invalid approved URL");
  host ← ok_or (url_host url) (lit "[policy-blocked] Approved URL has no host");
  let host := strip_brackets host in
  port ← ok_or (url_port url) (lit "[policy-blocked] Approved URL has no port");
  err_if (negb (eq_ignore_case host (au_host target))
          || existsb (fun addr => negb (sa_port addr =? port)) (au_addrs target)
          || match ip_parse host with
             | Some ip => existsb (fun addr => negb (bool_decide (sa_ip addr = ip))) (au_addrs target)
             | None => false
             end)
    (lit "[policy-blocked] Approved destination does not match URL").

(** * Answers *)

Definition MAX_BODY_BYTES : nat := Z.to_nat 50000.

(** [while !body.is_char_boundary(end) { end -= 1 }]. *)
Fixpoint boundary_before (s : str) (end_ : nat) : nat :=
  if is_char_boundary s end_ then end_ else match end_ with O => O | S e => boundary_before s e end.

Definition truncate_body (body : str) : str :=
  if (length body <=? MAX_BODY_BYTES)%nat then body
  else take (boundary_before body MAX_BODY_BYTES) body ++ lit "…(truncated)".

Definition newline : str := [10].

(** [response.text().await.unwrap_or_default()]. *)
Definition body_text (response : HttpResponse) : tool str :=
  Ask (Pay (ReadBody response)) (fun r => mret (match r with inr text => text | inl _ => [] end)).

Definition format_response (response : HttpResponse) (url : str) : tool ToolResult :=
  text ← body_text response;
  mret (ToolSuccess (lit "HTTP " ++ show_dec (response_status response) ++ lit " from " ++ url ++ newline ++ newline ++ truncate_body text)).

Definition chain_label (network : str) : str :=
  if starts_with network (lit "eip155:8453") then lit "Base"
  else if starts_with network (lit "eip155:1") then lit "Ethereum"
  else if starts_with network (lit "eip155:") then lit "EVM"
  else if starts_with network (lit "solana:") then lit "Solana"
  else network.

Definition format_response_with_payment (response : HttpResponse) (url amount_display network : str) (tx_sig : option str) : tool ToolResult :=
  text ← body_text response;
  let tx_line := match tx_sig with Some sig => newline ++ lit "Transaction: " ++ sig | None => [] end in
  mret (ToolSuccess (lit "HTTP " ++ show_dec (response_status response) ++ lit " from " ++ url ++ newline
    ++ lit "x402 payment: " ++ amount_display ++ lit " on " ++ chain_label network ++ tx_line ++ newline ++ newline ++ truncate_body text)).

(** * The loop *)

(** The payment's program, asking through the tool. *)
Fixpoint paying {E A} (p : program said E A) : program tool_said E A :=
  match p with
  | Done r => Done r
  | Ask q k => Ask (Pay q) (fun a => paying (k a))
  end.

(** The payment's error types are folded into the tool's answers. *)
Definition outcome_program {E A} (p : program said E A) : tool (res E A) :=
  with_err (fun _ : E => []) (attempt (paying p)).

(** [record(status, signature)], of the payment made. *)
Definition tool_record (id url session : str) (thread : option str) (payment : X402PaymentResult) (now : Z)
    (status : PaymentStatus) (tx_signature : option str) : PaymentRecord :=
  mkRecord id url (pr_asset payment) (amount_atomic payment) (format_usdc (amount_atomic payment)) (pr_recipient payment)
    (pr_network payment) tx_signature status now (pr_authorization_valid_until payment)
    (pr_solana_last_valid_block_height payment) None None session thread.

(** The receipt of a paid response, if it carries one. *)
Definition receipt_in (response : HttpResponse) : option SettlementResponse :=
  v ← header_get (response_headers response) HEADER_PAYMENT_RESPONSE;
  match header_to_str v with
  | inl _ => None
  | inr b64 =>
      match b64_decode b64 with
      | inl _ => None
      | inr bytes => match from_str bytes with inl _ => None | inr receipt => Some receipt end
      end
  end.

(** The host and addresses approved, and the request. *)
Definition send_approved (target : AuthorizedRequest) (extra : option (str * str)) : tool (str + HttpResponse) :=
  Ask (Fetch (au_host target) (au_addrs target) (au_request target) extra) mret.

Definition pay_and_retry (builder : PaymentBuilder) (target : AuthorizedRequest) (challenge_headers : HeaderMap) : tool ToolResult :=
  let url := pq_url (au_request target) in
  paid ← outcome_program (handle_402_and_pay builder challenge_headers url);
  match paid with
  | Err e => mret (ToolError (lit "x402 payment failed: " ++ X402Error_text e))
  | Panic => Done Panic
  | Ok payment =>
      session ← outcome_program (with_ledger session_id);
      thread ← Ask (Pay CurrentThread) mret;
      record_id ← Ask (Pay FreshUuid) mret;
      let session := match session with Ok s => s | _ => [] end in
      let record now status signature := tool_record record_id url session thread payment now status signature in
      now ← Ask (Pay UtcNow) mret;
      committed ← outcome_program (commit_durable (reservation payment) (record now Pending None));
      match committed with
      | Ok _ =>
          answer ← send_approved target (Some (HEADER_PAYMENT_SIGNATURE, header_value payment));
          match answer with
          | inl e => mret (ToolError (lit "x402 retry request failed: " ++ e))
          | inr paid_response =>
              let receipt := receipt_in paid_response in
              let tx_sig := signature_of receipt in
              _ ← (if bool_decide (outcome_of receipt = Pending) then mret tt
                   else
                     now' ← Ask (Pay UtcNow) mret;
                     Ask (Pay (RecordPayment (record now' (outcome_of receipt) tx_sig))) (fun _ => mret tt));
              format_response_with_payment paid_response url (format_usdc (amount_atomic payment)) (pr_network payment) tx_sig
          end
      | Err _ => mret (ToolError (lit "x402 payment budget could not be durably recorded"))
      | Panic => Done Panic
      end
  end.

Definition send_and_pay (builder : PaymentBuilder) (target : AuthorizedRequest) : tool ToolResult :=
  built ← Ask (BuildClient (au_host target) (au_addrs target)) mret;
  match built with
  | inl e => mret (ToolError (lit "Failed to build HTTP client: " ++ e))
  | inr _ =>
      answer ← send_approved target None;
      match answer with
      | inl e => mret (ToolError (lit "Initial request failed: " ++ e))
      | inr initial =>
          if negb (response_status initial =? 402) then format_response initial (pq_url (au_request target))
          else
            let headers := response_headers initial in
            if negb (bool_decide (is_Some (header_get headers HEADER_PAYMENT_REQUIRED)))
               && negb (bool_decide (is_Some (header_get headers HEADER_PAYMENT_REQUIRED_V1)))
            then mret (ToolError (lit "Server returned 402 but without a PAYMENT-REQUIRED header — not an x402 endpoint"))
            else pay_and_retry builder target headers
      end
  end.

Definition run_tool (builder : PaymentBuilder) (has_guard : bool) (call : ProposedRequest) : tool ToolResult :=
  if negb has_guard then mret (ToolError (lit "[policy-blocked] Network policy is unavailable"))
  else
    decision ← Ask (Authorize call) mret;
    match decision with
    | inl reason => mret (ToolError reason)
    | inr target =>
        if is_nil (au_addrs target) then mret (ToolError (lit "[policy-blocked] No approved destination"))
        else
          match check_destination target with
          | Err refusal => mret (ToolError refusal)
          | Panic => Done Panic
          | Ok _ =>
              direct ← Ask DirectAllowed mret;
              if negb direct then mret (ToolError (lit "[policy-blocked] Direct connection is not allowed by the host proxy policy"))
              else send_and_pay builder target
          end
    end.

Definition execute_tool (builder : PaymentBuilder) (has_guard : bool) (args : Json) : tool ToolResult :=
  match parse_request args with
  | Ok call => run_tool builder has_guard call
  | Err refusal => mret (ToolError refusal)
  | Panic => Done Panic
  end.
End Tool.

(** * What a run does *)

Section Runs.
Context `{Base64, HttpLib, WebLib, ClientSerde} (builder : PaymentBuilder)
  (pays : list deed -> PaymentRequired -> PaymentRequirements -> PaymentChain -> PaymentBuild -> deed -> Prop)
  `{!BuilderLaws builder pays}.

(** An event of the payment, as the tool's. *)
Definition pay_act (e : deed) : act := Act (Pay (ev_request e)) (ev_answer e).

Lemma acts_pay evs : acts (pay_act <$> evs) = pay_act <$> deeds evs.
Proof.
  induction evs as [|e evs IH]; [reflexivity|]. unfold effects_of in *. cbn. unfold is_loud in *. cbn.
  destruct (marks (ev_request e)); cbn; rewrite IH; reflexivity.
Qed.

Lemma wp_paying {E A} (p : program said E A) past opast R :
  wp p past R -> wp (paying p) opast (fun otr r => exists evs, otr = opast ++ (pay_act <$> evs) /\ R (past ++ evs) r).
Proof.
  revert past opast. induction p as [r|q k IH]; intros past opast Hp; cbn.
  - exists []. cbn. rewrite !app_nil_r. auto.
  - intros a. eapply wp_mono; [apply IH, (Hp a)|]. intros otr r (evs & -> & Hr). exists (Deed q a :: evs).
    cbn. rewrite <- !app_assoc in *. auto.
Qed.

(** A part of the payment run to its end, its error inspected. *)
Lemma wp_outcome {E A} (p : program said E A) opast R :
  wp p [] R ->
  wp (outcome_program p) opast (fun otr r => exists evs ir, otr = opast ++ (pay_act <$> evs) /\ R evs ir /\
    r = match ir with Panic => Panic | _ => Ok ir end).
Proof.
  intros Hp. unfold outcome_program. apply wp_with_err, wp_attempt. eapply wp_mono; [apply (wp_paying p []), Hp|].
  intros otr r (evs & -> & Hr). destruct r; exists evs; eexists; (split; [reflexivity|]); (split; [exact Hr|]); reflexivity.
Qed.

(** The destination is the URL's own: its host, its port at every address, and its
    address when the host is one. *)
Definition pinned (target : AuthorizedRequest) : Prop :=
  au_addrs target <> [] /\ exists url host port,
    url_parse (pq_url (au_request target)) = Some url /\ url_host url = Some host /\ url_port url = Some port /\
    eq_ignore_case (strip_brackets host) (au_host target) = true /\ Forall (fun addr => sa_port addr = port) (au_addrs target) /\
    forall ip, ip_parse (strip_brackets host) = Some ip -> Forall (fun addr => sa_ip addr = ip) (au_addrs target).

(** What was let through: the policy approved [target] for the proposed request,
    which is a destination of its own URL, directly connected to. *)
Definition let_through_by (has_guard : bool) (call : ProposedRequest) (target : AuthorizedRequest) (tr : list act) : Prop :=
  has_guard = true /\ Act (Authorize call) (inr target) ∈ tr /\ pinned target /\
  Act DirectAllowed true ∈ tr /\ Act (BuildClient (au_host target) (au_addrs target)) (inr tt) ∈ tr.

(** The approved request, sent to the approved addresses. *)
Definition fetched (target : AuthorizedRequest) (extra : option (str * str)) (a : str + HttpResponse) : act :=
  Act (Fetch (au_host target) (au_addrs target) (au_request target) extra) a.

Definition NOTHING_ASKED (asks : list deed) : Prop := asks = [].

(** After the record of a payment: the answer, and what it leaves in the ledger. *)
Definition answered_with (target : AuthorizedRequest) (record : Z -> PaymentStatus -> option str -> PaymentRecord)
    (a : str + HttpResponse) (rest : list deed) (r : ToolResult) : Prop :=
  match a with
  | inl e => rest = [] /\ r = ToolError (lit "x402 retry request failed: " ++ e)
  | inr response =>
      (exists text, r = ToolSuccess text) /\
      match receipt_in response with
      | Some receipt =>
          if success receipt
          then exists now x, rest = [Deed (RecordPayment (record now Settled (signature_of (Some receipt)))) x]
          else rest = []
      | None => rest = []
      end
  end.

(** What follows a 402 with a challenge. *)
Definition paid_or_not (target : AuthorizedRequest) (headers : HeaderMap) (done : list act) (r : ToolResult) : Prop :=
  (exists inner e, done = pay_act <$> inner /\ unpaid NOTHING_ASKED headers inner e /\
     r = ToolError (lit "x402 payment failed: " ++ X402Error_text e)) \/
  exists evs inner p hold id session thread now,
    let record := tool_record id (pq_url (au_request target)) session thread p in
    paid pays NOTHING_ASKED headers evs inner p /\ r_id (reservation p) = Some hold /\
    ((exists c x, done = pay_act <$> (inner ++ [Deed (CommitHold hold (record now Pending None)) c; Deed (ReleaseHold hold) x]) /\
        c <> Some (inr tt) /\ r = ToolError (lit "x402 payment budget could not be durably recorded")) \/
     exists a rest, done = (pay_act <$> (inner ++ [Deed (CommitHold hold (record now Pending None)) (Some (inr tt))]))
                           ++ fetched target (Some (HEADER_PAYMENT_SIGNATURE, header_value p)) a :: (pay_act <$> rest) /\
        answered_with target record a rest r).

Definition NO_CHALLENGE : str := lit "Server returned 402 but without a PAYMENT-REQUIRED header — not an x402 endpoint".

(** A whole run from nothing. *)
Definition tool_run (has_guard : bool) (call : ProposedRequest) (tr : list act) (r : res str ToolResult) : Prop :=
  (acts tr = [] /\ exists m, r = Ok (ToolError m)) \/
  exists target a rest, let_through_by has_guard call target tr /\ acts tr = fetched target None a :: rest /\
    match a with
    | inl e => rest = [] /\ r = Ok (ToolError (lit "Initial request failed: " ++ e))
    | inr response =>
        if response_status response =? 402
        then (rest = [] /\ header_get (response_headers response) HEADER_PAYMENT_REQUIRED = None /\
              header_get (response_headers response) HEADER_PAYMENT_REQUIRED_V1 = None /\ r = Ok (ToolError NO_CHALLENGE)) \/
             exists result, r = Ok result /\ paid_or_not target (response_headers response) rest result
        else rest = [] /\ exists text, r = Ok (ToolSuccess text)
    end.

Lemma existsb_negb_none {A} (p : A -> bool) l : existsb (fun x => negb (p x)) l = false <-> Forall (fun x => p x = true) l.
Proof.
  induction l as [|x l IH]; cbn; [split; constructor|]. rewrite orb_false_iff, negb_false_iff, IH, Forall_cons_iff. reflexivity.
Qed.

Lemma check_destination_ok target : au_addrs target <> [] -> check_destination target = Ok tt <-> pinned target.
Proof.
  intros Hne. unfold pinned, check_destination. split.
  - intros E. apply bind_ok in E as (url & Hu & E). apply bind_ok in E as (host & Hh & E). apply bind_ok in E as (port & Hp & E).
    apply ok_or_ok in Hu, Hh, Hp. apply err_if_ok in E. apply orb_false_iff in E as [E Hi]. apply orb_false_iff in E as [Hn Ho].
    apply negb_false_iff in Hn. apply existsb_negb_none in Ho. split; [exact Hne|]. exists url, host, port. split_and!; auto.
    + eapply list.Forall_impl; [exact Ho|]. intros a Ha. apply Z.eqb_eq, Ha.
    + intros ip Hip. rewrite Hip in Hi. apply existsb_negb_none in Hi. eapply list.Forall_impl; [exact Hi|].
      intros a Ha. apply bool_decide_eq_true in Ha. exact Ha.
  - intros (_ & url & host & port & Hu & Hh & Hp & Hn & Ho & Hi). rewrite Hu. cbn [ok_or mbind res_bind]. rewrite Hh. cbn [ok_or mbind res_bind]. rewrite Hp. cbn [ok_or mbind res_bind]. rewrite Hn. cbn [negb orb].
    assert (E1 : existsb (fun addr => negb (sa_port addr =? port)) (au_addrs target) = false).
    { apply existsb_negb_none. eapply list.Forall_impl; [exact Ho|]. intros a Ha. apply Z.eqb_eq, Ha. }
    rewrite E1. cbn [orb]. destruct (ip_parse (strip_brackets host)) as [ip|]; [|reflexivity].
    assert (E2 : existsb (fun addr => negb (bool_decide (sa_ip addr = ip))) (au_addrs target) = false).
    { apply existsb_negb_none. eapply list.Forall_impl; [exact (Hi ip eq_refl)|]. intros a Ha. apply bool_decide_eq_true, Ha. }
    rewrite E2. reflexivity.
Qed.

Lemma check_destination_no_panic target : check_destination target <> Panic.
Proof. unfold check_destination. no_panic. Qed.

(** Reading a body adds nothing and cannot fail. *)
Lemma wp_body response (k : str -> ToolResult) past R :
  (forall r text, R (past ++ [Act (Pay (ReadBody response)) r]) (Ok (k text))) ->
  wp (text ← body_text response; mret (k text)) past R.
Proof. intros HR r. cbn. apply HR. Qed.

Lemma acts_quiet tr q (a : tool_said q) : tool_marks q = false -> acts (tr ++ [Act q a]) = acts tr.
Proof. intros Hq. apply effects_quiet, Hq. Qed.
Lemma acts_loud tr q (a : tool_said q) : tool_marks q = true -> acts (tr ++ [Act q a]) = acts tr ++ [Act q a].
Proof. intros Hq. apply effects_loud, Hq. Qed.

(** After the record: the paid request, and what its receipt says. *)
Lemma retry_runs target record payment past :
  wp (answer ← send_approved target (Some (HEADER_PAYMENT_SIGNATURE, header_value payment));
      match answer with
      | inl e => mret (ToolError (lit "x402 retry request failed: " ++ e))
      | inr paid_response =>
          let receipt := receipt_in paid_response in
          let tx_sig := signature_of receipt in
          _ ← (if bool_decide (outcome_of receipt = Pending) then mret tt
               else
                 now' ← Ask (Pay UtcNow) mret;
                 Ask (Pay (RecordPayment (record now' (outcome_of receipt) tx_sig))) (fun _ => mret tt));
          format_response_with_payment paid_response (pq_url (au_request target)) (format_usdc (amount_atomic payment)) (pr_network payment) tx_sig
      end) past
    (fun tr r => past `prefix_of` tr /\ exists a rest result, r = Ok result /\
       acts tr = acts past ++ fetched target (Some (HEADER_PAYMENT_SIGNATURE, header_value payment)) a :: (pay_act <$> rest) /\
       answered_with target record a rest result).
Proof.
  intros a. cbn in a. cbn [mbind io_bind io_then mret io_ret]. set (sent := fetched target (Some (HEADER_PAYMENT_SIGNATURE, header_value payment)) a).
  assert (Hs : acts (past ++ [sent]) = acts past ++ [sent]) by (apply acts_loud; reflexivity).
  assert (Hp : past `prefix_of` past ++ [sent]) by apply prefix_snoc.
  destruct a as [e|response].
  { cbn. split; [exact Hp|]. exists (inl e), [], (ToolError (lit "x402 retry request failed: " ++ e)).
    split; [reflexivity|]. split; [exact Hs | split; reflexivity]. }
  cbv zeta. unfold answered_with. destruct (receipt_in response) as [receipt|] eqn:Hr; [destruct (success receipt) eqn:Hok|].
  - unfold outcome_of. rewrite Hok. rewrite bool_decide_eq_false_2 by discriminate. intros now. cbn [mbind io_bind io_then mret io_ret].
    intros x. cbn [mbind io_bind io_then mret io_ret]. unfold format_response_with_payment. apply wp_body. intros b text.
    set (recd := Act (Pay (RecordPayment _)) x). split.
    { etransitivity; [exact Hp|]. do 2 (etransitivity; [|apply prefix_snoc]). apply prefix_snoc. }
    eexists (inr response), [Deed (RecordPayment (record now Settled (signature_of (Some receipt)))) x], _. split; [reflexivity|]. split.
    { rewrite acts_quiet by reflexivity. unfold recd. rewrite acts_loud, acts_quiet, acts_loud by reflexivity. rewrite <- app_assoc. reflexivity. }
    rewrite Hr, Hok. eauto.
  - unfold outcome_of. rewrite Hok. cbn [bool_decide mbind io_bind io_then mret io_ret].
    rewrite bool_decide_eq_true_2 by reflexivity. cbn [mbind io_bind io_then]. unfold format_response_with_payment. apply wp_body. intros b text.
    split; [etransitivity; [exact Hp | apply prefix_snoc]|]. eexists (inr response), [], _. split; [reflexivity|]. split.
    { rewrite acts_quiet, acts_loud by reflexivity. reflexivity. }
    rewrite Hr, Hok. eauto.
  - cbn [outcome_of]. rewrite bool_decide_eq_true_2 by reflexivity. cbn [mbind io_bind io_then mret io_ret].
    unfold format_response_with_payment. apply wp_body. intros b text.
    split; [etransitivity; [exact Hp | apply prefix_snoc]|]. eexists (inr response), [], _. split; [reflexivity|]. split.
    { rewrite acts_quiet, acts_loud by reflexivity. reflexivity. }
    rewrite Hr. eauto.
Qed.

Lemma deeds_nil : deeds [] = [].
Proof. reflexivity. Qed.

Lemma wp_session opast :
  wp (outcome_program (with_ledger session_id)) opast (fun otr r =>
    opast `prefix_of` otr /\ acts otr = acts opast /\ (exists ir, r = Ok ir)).
Proof.
  eapply wp_mono; [apply wp_outcome, (calm_with_ledger session_id [])|].
  intros otr r (evs & ir & -> & (_ & Hd & Hr) & ->). split; [eexists; reflexivity|]. split.
  - rewrite effects_app, acts_pay, Hd. apply app_nil_r.
  - destruct ir; [eauto | eauto | destruct Hr].
Qed.

(** Turning the hold into a record. *)
Lemma wp_commit (rv : Reservation) hold rec opast :
  r_id rv = Some hold ->
  wp (outcome_program (commit_durable rv rec)) opast (fun otr r =>
    opast `prefix_of` otr /\
    ((r = Ok (Ok tt) /\ acts otr = acts opast ++ (pay_act <$> [Deed (CommitHold hold rec) (Some (inr tt))])) \/
     exists e c x, r = Ok (Err e) /\ c <> Some (inr tt) /\
       acts otr = acts opast ++ (pay_act <$> [Deed (CommitHold hold rec) c; Deed (ReleaseHold hold) x]))).
Proof.
  intros Hid. unfold commit_durable. rewrite Hid.
  eapply wp_mono; [apply (wp_outcome _ _ (fun evs ir =>
    (ir = Ok tt /\ evs = [Deed (CommitHold hold rec) (Some (inr tt))]) \/
    exists e c x, ir = Err e /\ c <> Some (inr tt) /\ evs = [Deed (CommitHold hold rec) c; Deed (ReleaseHold hold) x]))|].
  - intros c. unfold drop_reservation. rewrite Hid. destruct c as [[e|[]]|]; cbn; [intros x | auto | intros x]; right; eexists _, _, x; split_and!; try reflexivity; discriminate.
  - intros otr r (evs & ir & -> & [[-> ->]|(e & c & x & -> & Hc & ->)] & ->); (split; [eexists; reflexivity|]).
    + left. split; [reflexivity|]. rewrite effects_app, acts_pay. reflexivity.
    + right. exists e, c, x. split; [reflexivity|]. split; [exact Hc|]. rewrite effects_app, acts_pay. reflexivity.
Qed.

Lemma pay_and_retry_runs target headers past :
  wp (pay_and_retry builder target headers) past (fun tr r =>
    past `prefix_of` tr /\ exists done result, acts tr = acts past ++ done /\ r = Ok result /\ paid_or_not target headers done result).
Proof.
  unfold pay_and_retry. apply wp_bind.
  eapply wp_mono; [apply wp_outcome, (client_runs builder pays NOTHING_ASKED headers (pq_url (au_request target)) _ [] no_authorizer)|].
  intros tr0 r (evs & ir & -> & (_ & inner & Hd & Hir) & ->). rewrite deeds_nil in Hd. cbn [app] in Hd.
  assert (Ha : acts (past ++ (pay_act <$> evs)) = acts past ++ (pay_act <$> inner)) by (rewrite effects_app, acts_pay, Hd; reflexivity).
  assert (Hp : past `prefix_of` past ++ (pay_act <$> evs)) by (eexists; reflexivity).
  revert Ha Hp. generalize (past ++ (pay_act <$> evs)). intros tr1 Ha Hp.
  destruct ir as [payment|e|]; [| |destruct Hir].
  2: { cbn. split; [exact Hp|]. eexists _, _. split; [exact Ha|]. split; [reflexivity|]. left. eauto. }
  cbv iota. apply wp_bind. eapply wp_mono; [apply wp_session|]. intros tr2 r (Hp2 & Ha2 & session & ->). cbv iota.
  intros thread. cbn [mbind io_bind io_then mret io_ret]. intros id. cbn [mbind io_bind io_then mret io_ret]. cbv zeta.
  intros now. cbn [mbind io_bind io_then mret io_ret].
  set (sess := match session with Ok s => s | _ => [] end).
  set (tr3 := ((tr2 ++ _) ++ _) ++ _).
  assert (Ha3 : acts tr3 = acts past ++ (pay_act <$> inner)) by (unfold tr3; rewrite !acts_quiet by reflexivity; congruence).
  assert (Hp3 : past `prefix_of` tr3).
  { unfold tr3. do 3 (etransitivity; [|apply prefix_snoc]). etransitivity; eassumption. }
  pose proof Hir as (challenge & chain & req & hold & asks & s & bd & _ & _ & _ & _ & _ & _ & _ & _ & Hres & _).
  assert (Hid : r_id (reservation payment) = Some hold) by (rewrite Hres; reflexivity).
  apply wp_bind. eapply wp_mono; [apply (wp_commit _ hold), Hid|]. intros tr4 r (Hp4 & [[-> Ha4]|(e & c & x & -> & Hc & Ha4)]); cbv iota.
  - eapply wp_mono; [apply (retry_runs target (tool_record id (pq_url (au_request target)) sess thread payment) payment)|].
    intros tr5 r (Hp5 & a & rest & result & -> & Ha5 & Hans). split; [do 2 (etransitivity; [eassumption|]); assumption|].
    eexists _, result. split; [rewrite Ha5, Ha4, Ha3, <- !app_assoc; reflexivity|]. split; [reflexivity|]. right.
    exists evs, inner, payment, hold, id, sess, thread, now. split; [exact Hir|]. split; [exact Hid|]. right. exists a, rest.
    split; [rewrite fmap_app, <- app_assoc; reflexivity | exact Hans].
  - cbn. split; [etransitivity; eassumption|]. eexists _, _. split; [rewrite Ha4, Ha3, <- app_assoc; reflexivity|]. split; [reflexivity|]. right.
    exists evs, inner, payment, hold, id, sess, thread, now. split; [exact Hir|]. split; [exact Hid|]. left. exists c, x.
    split; [rewrite fmap_app; reflexivity|]. auto.
Qed.

Lemma send_and_pay_runs has_guard call target past :
  acts past = [] -> has_guard = true -> Act (Authorize call) (inr target) ∈ past -> au_addrs target <> [] ->
  check_destination target = Ok tt -> Act DirectAllowed true ∈ past ->
  wp (send_and_pay builder target) past (tool_run has_guard call).
Proof.
  intros Hq Hg Hauth Haddrs Hdest Hdirect. unfold send_and_pay. intros built. cbn [mbind io_bind io_then mret io_ret].
  set (tr0 := past ++ _). assert (Hq0 : acts tr0 = []) by (unfold tr0; rewrite acts_quiet by reflexivity; exact Hq).
  destruct built as [e|[]]; [left; eauto|].
  assert (Hlet : forall tr, tr0 `prefix_of` tr -> let_through_by has_guard call target tr).
  { intros tr Hp. unfold let_through_by. apply check_destination_ok in Hdest; [|exact Haddrs]. assert (Hin : forall e, e ∈ past -> e ∈ tr).
    { intros e He. eapply elem_of_prefix; [exact He|]. etransitivity; [apply prefix_snoc | exact Hp]. }
    split_and!; auto. eapply elem_of_prefix; [|exact Hp]. apply elem_of_app. right. left. }
  intros a. cbn in a. cbn [mbind io_bind io_then mret io_ret]. set (tr1 := tr0 ++ _).
  assert (Hq1 : acts tr1 = [fetched target None a]) by (unfold tr1; rewrite acts_loud, Hq0 by reflexivity; reflexivity).
  assert (Hp1 : tr0 `prefix_of` tr1) by apply prefix_snoc.
  destruct a as [e|response].
  { right. exists target, (inl e), []. auto. }
  destruct (response_status response =? 402) eqn:Hst; cbn [negb].
  2: { unfold format_response. apply wp_body. intros b text. right. exists target, (inr response), [].
       split; [apply Hlet; etransitivity; [exact Hp1 | apply prefix_snoc]|]. split; [rewrite acts_quiet by reflexivity; exact Hq1|].
       rewrite Hst. eauto. }
  destruct (header_get (response_headers response) HEADER_PAYMENT_REQUIRED) as [v|] eqn:H1';
    [|destruct (header_get (response_headers response) HEADER_PAYMENT_REQUIRED_V1) as [v|] eqn:H2'].
  3: { rewrite !bool_decide_eq_false_2 by apply is_Some_None. right. exists target, (inr response), [].
       split; [apply Hlet, Hp1|]. split; [exact Hq1|]. rewrite Hst. left. auto. }
  all: rewrite ?(bool_decide_eq_true_2 (is_Some (Some v))) by eauto; cbn [negb andb]; rewrite ?andb_false_r;
    (eapply wp_mono; [apply pay_and_retry_runs|]); intros tr r (Hp & done & result & Hd & -> & Hr);
    right; exists target, (inr response), done;
    (split; [apply Hlet; etransitivity; [exact Hp1 | exact Hp]|]); (split; [rewrite Hd, Hq1; reflexivity|]);
    rewrite Hst; right; exists result; auto.
Qed.

Lemma run_tool_runs has_guard call : wp (run_tool builder has_guard call) [] (tool_run has_guard call).
Proof.
  unfold run_tool. assert (Hrefuse : forall tr m, acts tr = [] -> tool_run has_guard call tr (Ok (ToolError m))) by (intros tr m Hq; left; eauto).
  destruct has_guard; cbn [negb]; [|apply Hrefuse; reflexivity].
  intros decision. cbn in decision. cbn [mbind io_bind io_then mret io_ret app]. destruct decision as [reason|target]; [apply Hrefuse; reflexivity|].
  destruct (is_nil (au_addrs target)) eqn:Haddrs; [apply Hrefuse; reflexivity|].
  pose proof (check_destination_no_panic target) as Hnp. destruct (check_destination target) as [[]|refusal|] eqn:Hdest;
    [|apply Hrefuse; reflexivity | congruence].
  intros direct. cbn in direct. cbn [mbind io_bind io_then mret io_ret app]. destruct direct; cbn [negb]; [|apply Hrefuse; reflexivity].
  apply send_and_pay_runs; auto.
  - left.
  - apply is_nil_false, Haddrs.
  - right. left.
Qed.
End Runs.

(** * Properties *)


(** A policy that lets [x.example] through at one address, and a server that asks
    for payment once. *)
Definition toy_web : WebLib := {|
  Method := str; parse_method s := Some s;
  Url := str; url_parse s := Some s; url_host _ := Some (lit "x.example"); url_port _ := Some 443
|}.

Definition demo_policy : host_of (tool_said (H := toy_http) (H0 := toy_web)) := fun past q =>
  match q with
  | Pay q => toy_world [] q
  | Authorize request => inr (mkAuthorized request (lit "X.example") [mkSocket (V4 [192; 0; 2; 1]) 443])
  | DirectAllowed => true
  | BuildClient _ _ => inr tt
  | Fetch _ _ _ None => inr (402, demo_headers)
  | Fetch _ _ _ (Some _) => inr (200, [(HEADER_PAYMENT_RESPONSE, lit "00")])
  end.

Definition demo_args : Json := jobj [(lit "url", JStr (lit "https://x.example/paid"))].


(** Any network whose name starts with "eip155:1" is labelled Ethereum, Optimism's
    and Polygon's too, and Base's test network is labelled Base. *)
Example networks_mislabelled :
  chain_label (lit "eip155:10") = lit "Ethereum" /\ chain_label (lit "eip155:137") = lit "Ethereum" /\
  chain_label (lit "eip155:84532") = lit "Base" /\ chain_label (lit "eip155:42161") = lit "EVM".
Proof. vm_compute. auto. Qed.
