(* ===== verification/Tools.v ===== *)
(** The agent tools over the engine and the swap service, and the declarations a
    host shows of them ([crates/tinywallet-web3/src/tools/],
    [crates/tinywallet-web3/src/quote/tool.rs], [crates/tinywallet-bus/src/tools.rs]).

    A tool is a program over the engine's seams: its arguments are decoded (by
    serde, a parameter), the operation runs, and what came of it, error included,
    is the tool's answer.  Shown: a tool always answers; only an execute tool
    signs, broadcasts or takes a quote, and only on arguments that say confirmed;
    the declarations are found by their distinct names, are consistent, and list
    the values the vocabularies have. *)

From stdpp Require Import base list strings numbers.
From S2P Require Import Prelude Program Text Chain Codec Base58 Addr BtcTx Json Wire Quotes Assets X402Wire SolWire Host NoPanic Engine.
From S2P Require Import Signing Transfer Service Queries Runtime PayTool.

(** * Declarations *)

Record ToolDeclaration := mkDeclaration { td_name : str; td_description : str; td_parameters : Json }.

Definition empty_parameters : Json :=
  jobj [(lit "type", JStr (lit "object"));
    (lit "properties", jobj []);
    (lit "additionalProperties", JBool false)].

Definition chain_values : Json :=
  JArr [JStr (lit "evm"); JStr (lit "btc"); JStr (lit "solana"); JStr (lit "tron")].

Definition evm_network_values : Json :=
  JArr [JStr (lit "ethereum_mainnet"); JStr (lit "base_mainnet"); JStr (lit "arbitrum_one"); JStr (lit "optimism_mainnet"); JStr (lit "polygon_mainnet"); JStr (lit "bsc_mainnet")].

Definition tx_query_parameters (verb : str) : Json :=
  jobj [(lit "type", JStr (lit "object"));
    (lit "properties", jobj [(lit "chain", jobj [(lit "type", JStr (lit "string"));
        (lit "enum", chain_values);
        (lit "description", JStr (lit "Blockchain network whose transaction to " ++ verb))]);
      (lit "hash", jobj [(lit "type", JStr (lit "string"));
        (lit "description", JStr (lit "Transaction hash / signature / txid to query"))]);
      (lit "evmNetwork", jobj [(lit "type", JStr (lit "string"));
        (lit "enum", evm_network_values);
        (lit "description", JStr (lit "Optional EVM network when chain='evm'. Defaults to ethereum_mainnet."))])]);
    (lit "required", JArr [JStr (lit "chain"); JStr (lit "hash")]);
    (lit "additionalProperties", JBool false)].

Definition execute_quote_parameters : Json :=
  jobj [(lit "type", JStr (lit "object"));
    (lit "properties", jobj [(lit "quoteId", jobj [(lit "type", JStr (lit "string"));
        (lit "description", JStr (lit "quoteId from a prior web3 quote/call."))]);
      (lit "confirmed", jobj [(lit "type", JStr (lit "boolean"));
        (lit "description", JStr (lit "Must be true to execute."))])]);
    (lit "required", JArr [JStr (lit "quoteId"); JStr (lit "confirmed")]);
    (lit "additionalProperties", JBool false)].

Definition wallet_declarations : list ToolDeclaration :=
  [mkDeclaration (lit "wallet_status")
     (lit "Check wallet configuration status — whether the wallet is set up, which chains are configured, and available accounts.")
     (empty_parameters);
   mkDeclaration (lit "wallet_chain_status")
     (lit "List blockchain chain readiness — which chains have a configured account and RPC provider.")
     (empty_parameters);
   mkDeclaration (lit "wallet_prepare_transfer")
     (lit "Prepare a cryptocurrency transfer. Returns a quote that must be confirmed before execution.")
     (jobj [(lit "type", JStr (lit "object"));
       (lit "properties", jobj [(lit "chain", jobj [(lit "type", JStr (lit "string"));
           (lit "enum", chain_values);
           (lit "description", JStr (lit "Blockchain network to use"))]);
         (lit "toAddress", jobj [(lit "type", JStr (lit "string"));
           (lit "description", JStr (lit "Destination wallet address"))]);
         (lit "amountRaw", jobj [(lit "type", JStr (lit "string"));
           (lit "description", JStr (lit "Transfer amount in the chain's smallest unit (e.g. wei for EVM)"))]);
         (lit "assetSymbol", jobj [(lit "type", JStr (lit "string"));
           (lit "description", JStr (lit "Asset symbol (e.g. ETH, USDC). Defaults to the native asset."))]);
         (lit "evmNetwork", jobj [(lit "type", JStr (lit "string"));
           (lit "enum", evm_network_values);
           (lit "description", JStr (lit "Optional EVM network when chain='evm'. Defaults to ethereum_mainnet."))])]);
       (lit "required", JArr [JStr (lit "chain"); JStr (lit "toAddress"); JStr (lit "amountRaw")]);
       (lit "additionalProperties", JBool false)]);
   mkDeclaration (lit "wallet_tx_status")
     (lit "Check the on-chain lifecycle state (pending / confirmed / failed / not_found) of a transaction by hash.")
     (tx_query_parameters (lit "check"));
   mkDeclaration (lit "wallet_tx_receipt")
     (lit "Fetch the receipt of a broadcast transaction (success flag, fee, block, gas used) by hash.")
     (tx_query_parameters (lit "fetch the receipt for"));
   mkDeclaration (lit "wallet_lookup_tx")
     (lit "Look up the raw transaction payload by hash on the target chain.")
     (tx_query_parameters (lit "look up"))].

Definition web3_declarations : list ToolDeclaration :=
  [mkDeclaration (lit "web3_swap_quote")
     (lit "Prepare a single-chain crypto swap via deBridge. Returns a quote + quoteId to confirm with web3_swap_execute. For cross-chain swaps use web3_bridge_quote.")
     (jobj [(lit "type", JStr (lit "object"));
       (lit "properties", jobj [(lit "chainId", jobj [(lit "type", JStr (lit "integer"));
           (lit "description", JStr (lit "deBridge chain id (1 ETH, 56 BNB, 137 Polygon, 8453 Base, 42161 Arbitrum, 10 Optimism, 7565164 Solana)."))]);
         (lit "tokenIn", jobj [(lit "type", JStr (lit "string"));
           (lit "description", JStr (lit "Input token address (zero address for native)."))]);
         (lit "tokenInAmount", jobj [(lit "type", JStr (lit "string"));
           (lit "description", JStr (lit "Input amount in the token's smallest unit."))]);
         (lit "tokenOut", jobj [(lit "type", JStr (lit "string"));
           (lit "description", JStr (lit "Output token address."))]);
         (lit "tokenOutRecipient", jobj [(lit "type", JStr (lit "string"));
           (lit "description", JStr (lit "Optional. Defaults to the wallet's own address."))]);
         (lit "senderAddress", jobj [(lit "type", JStr (lit "string"));
           (lit "description", JStr (lit "Optional. Defaults to the wallet's own address."))]);
         (lit "slippage", jobj [(lit "type", JStr (lit "string"));
           (lit "description", JStr (lit "Optional slippage percent or 'auto' (default 'auto')."))])]);
       (lit "required", JArr [JStr (lit "chainId"); JStr (lit "tokenIn"); JStr (lit "tokenInAmount"); JStr (lit "tokenOut")]);
       (lit "additionalProperties", JBool false)]);
   mkDeclaration (lit "web3_swap_execute")
     (lit "Confirm and execute a prepared web3_swap quote (signs + broadcasts).")
     (execute_quote_parameters);
   mkDeclaration (lit "web3_swap_routes")
     (lit "List the chains deBridge can swap/bridge between.")
     (empty_parameters);
   mkDeclaration (lit "web3_bridge_quote")
     (lit "Prepare a cross-chain bridge via deBridge DLN. Returns a quote + quoteId to confirm with web3_bridge_execute. Source and destination chains must differ.")
     (jobj [(lit "type", JStr (lit "object"));
       (lit "properties", jobj [(lit "srcChainId", jobj [(lit "type", JStr (lit "integer"));
           (lit "description", JStr (lit "Source deBridge chain id."))]);
         (lit "srcChainTokenIn", jobj [(lit "type", JStr (lit "string"));
           (lit "description", JStr (lit "Source token address."))]);
         (lit "srcChainTokenInAmount", jobj [(lit "type", JStr (lit "string"));
           (lit "description", JStr (lit "Source amount in the token's smallest unit."))]);
         (lit "dstChainId", jobj [(lit "type", JStr (lit "integer"));
           (lit "description", JStr (lit "Destination deBridge chain id (must differ from source)."))]);
         (lit "dstChainTokenOut", jobj [(lit "type", JStr (lit "string"));
           (lit "description", JStr (lit "Destination token address."))]);
         (lit "dstChainTokenOutAmount", jobj [(lit "type", JStr (lit "string"));
           (lit "description", JStr (lit "Optional. 'auto' for market rate (default)."))]);
         (lit "dstChainTokenOutRecipient", jobj [(lit "type", JStr (lit "string"));
           (lit "description", JStr (lit "Optional. Defaults to the wallet's own destination address."))]);
         (lit "srcChainOrderAuthorityAddress", jobj [(lit "type", JStr (lit "string"));
           (lit "description", JStr (lit "Optional. Defaults to the wallet's source address."))]);
         (lit "dstChainOrderAuthorityAddress", jobj [(lit "type", JStr (lit "string"));
           (lit "description", JStr (lit "Optional. Defaults to the wallet's destination address."))])]);
       (lit "required", JArr [JStr (lit "srcChainId"); JStr (lit "srcChainTokenIn"); JStr (lit "srcChainTokenInAmount"); JStr (lit "dstChainId"); JStr (lit "dstChainTokenOut")]);
       (lit "additionalProperties", JBool false)]);
   mkDeclaration (lit "web3_bridge_execute")
     (lit "Confirm and execute a prepared web3_bridge quote (signs + broadcasts the source-chain tx).")
     (execute_quote_parameters);
   mkDeclaration (lit "web3_dapp_call")
     (lit "Prepare a generic EVM dapp contract call from pre-encoded calldata. Returns a quoteId to confirm with web3_dapp_execute.")
     (jobj [(lit "type", JStr (lit "object"));
       (lit "properties", jobj [(lit "contractAddress", jobj [(lit "type", JStr (lit "string"));
           (lit "description", JStr (lit "Target contract address."))]);
         (lit "calldata", jobj [(lit "type", JStr (lit "string"));
           (lit "description", JStr (lit "0x-prefixed hex calldata."))]);
         (lit "valueRaw", jobj [(lit "type", JStr (lit "string"));
           (lit "description", JStr (lit "Optional native value (smallest unit). Defaults to '0'."))]);
         (lit "evmNetwork", jobj [(lit "type", JStr (lit "string"));
           (lit "enum", evm_network_values);
           (lit "description", JStr (lit "Optional EVM network. Defaults to ethereum_mainnet."))])]);
       (lit "required", JArr [JStr (lit "contractAddress"); JStr (lit "calldata")]);
       (lit "additionalProperties", JBool false)]);
   mkDeclaration (lit "web3_dapp_execute")
     (lit "Confirm and execute a prepared web3_dapp call (signs + broadcasts).")
     (execute_quote_parameters)].

Definition x402_tool_declaration : ToolDeclaration :=
   mkDeclaration (lit "x402_request")
     (lit "Make an HTTP request to an x402-payable API endpoint. Automatically handles the HTTP 402 payment challenge by signing a payment (EVM EIP-3009 on Base/Ethereum, or Solana SPL transfer) with the wallet and retrying with the payment proof. Returns the API response after payment. Use this for x402-enabled APIs like twit.sh. The wallet must be set up with USDC on the target chain.")
     (jobj [(lit "type", JStr (lit "object"));
       (lit "properties", jobj [(lit "url", jobj [(lit "type", JStr (lit "string"));
           (lit "description", JStr (lit "URL of the x402-payable API endpoint (e.g. https://x402.twit.sh/tweets/by/id?id=1110302988)"))]);
         (lit "method", jobj [(lit "type", JStr (lit "string"));
           (lit "description", JStr (lit "HTTP method (default: GET)"));
           (lit "default", JStr (lit "GET"));
           (lit "enum", JArr [JStr (lit "GET"); JStr (lit "POST"); JStr (lit "PUT"); JStr (lit "DELETE"); JStr (lit "PATCH")])]);
         (lit "headers", jobj [(lit "type", JStr (lit "object"));
           (lit "description", JStr (lit "Optional HTTP headers as key-value pairs"));
           (lit "default", jobj [])]);
         (lit "body", jobj [(lit "type", JStr (lit "string"));
           (lit "description", JStr (lit "Optional request body (for POST/PUT/PATCH)"))])]);
       (lit "required", JArr [JStr (lit "url")])]).

Definition named (name : str) (d : ToolDeclaration) : bool := bool_decide (td_name d = name).

Definition find_wallet_tool_declaration (name : str) : option ToolDeclaration := find_first (named name) wallet_declarations.
Definition find_web3_tool_declaration (name : str) : option ToolDeclaration := find_first (named name) web3_declarations.

Definition shipped_tool_declarations : list ToolDeclaration := wallet_declarations ++ web3_declarations ++ [x402_tool_declaration].

Definition find_tool_declaration (name : str) : option ToolDeclaration :=
  match find_wallet_tool_declaration name with
  | Some d => Some d
  | None =>
      match find_web3_tool_declaration name with
      | Some d => Some d
      | None => if named name x402_tool_declaration then Some x402_tool_declaration else None
      end
  end.

(** * The tools *)

Record TxQueryArgs := mkTxQuery { tq_chain : WalletChain; tq_evm_network : option EvmNetwork; tq_hash : str }.

(** The tools that drive an engine or a service. *)
Inductive AgentTool :=
  | WalletStatusTool | WalletChainStatusTool | WalletPrepareTransferTool | WalletTxStatusTool | WalletTxReceiptTool | WalletLookupTxTool
  | Web3SwapQuoteTool | Web3SwapExecuteTool | Web3BridgeQuoteTool | Web3BridgeExecuteTool | Web3DappCallTool | Web3DappExecuteTool.

(** The declaration a tool takes its name, description and schema from: looked up
    by name, which panics ([expect]) on a name that is not shipped. *)
Definition shipped (found : option ToolDeclaration) : res str ToolDeclaration :=
  match found with Some d => Ok d | None => Panic end.

Definition tool_declaration (t : AgentTool) : res str ToolDeclaration :=
  match t with
  | WalletStatusTool => shipped (find_wallet_tool_declaration (lit "wallet_status"))
  | WalletChainStatusTool => shipped (find_wallet_tool_declaration (lit "wallet_chain_status"))
  | WalletPrepareTransferTool => shipped (find_wallet_tool_declaration (lit "wallet_prepare_transfer"))
  | WalletTxStatusTool => shipped (find_wallet_tool_declaration (lit "wallet_tx_status"))
  | WalletTxReceiptTool => shipped (find_wallet_tool_declaration (lit "wallet_tx_receipt"))
  | WalletLookupTxTool => shipped (find_wallet_tool_declaration (lit "wallet_lookup_tx"))
  | Web3SwapQuoteTool => shipped (find_web3_tool_declaration (lit "web3_swap_quote"))
  | Web3SwapExecuteTool => shipped (find_web3_tool_declaration (lit "web3_swap_execute"))
  | Web3BridgeQuoteTool => shipped (find_web3_tool_declaration (lit "web3_bridge_quote"))
  | Web3BridgeExecuteTool => shipped (find_web3_tool_declaration (lit "web3_bridge_execute"))
  | Web3DappCallTool => shipped (find_web3_tool_declaration (lit "web3_dapp_call"))
  | Web3DappExecuteTool => shipped (find_web3_tool_declaration (lit "web3_dapp_execute"))
  end.

Definition swap_routes_declaration : res str ToolDeclaration := shipped (find_web3_tool_declaration (lit "web3_swap_routes")).
Definition execute_tool_schema : res str Json := td_parameters <$> tool_declaration Web3SwapExecuteTool.

(** [serde_json]: the arguments read, and results printed ([to_string_pretty]). *)
Class Pretty (T : Type) := { to_string_pretty : T -> str + str }.
Class ToolSerde := {
  tool_params :: ParamSerde;
  transfer_args :: Deserialize PrepareTransferParams;
  query_args :: Deserialize TxQueryArgs;
  execute_args :: Deserialize ExecuteQuoteParams;
  pretty_status :: Pretty WalletStatus;
  pretty_chains :: Pretty (list ChainStatus);
  pretty_prepared :: Pretty PreparedTransaction;
  pretty_tx_status :: Pretty TxStatusInfo;
  pretty_receipt :: Pretty TxReceiptInfo;
  pretty_lookup :: Pretty TxLookupInfo;
  pretty_quote :: Pretty Web3Quote;
  pretty_execution :: Pretty Web3ExecutionResult;
  pretty_json :: Pretty Json
}.

Definition to_tool_result {T} `{Pretty T} (result : res str T) : res str ToolResult :=
  match result with
  | Ok value =>
      match to_string_pretty value with
      | inr text => Ok (ToolSuccess text)
      | inl e => Ok (ToolError (lit "failed to serialize web3 result: " ++ e))
      end
  | Err e => Ok (ToolError e)
  | Panic => Panic
  end.

Section Tools.
Context `{Codecs, Curve25519, Serde, Base64, SerdeReads, ToolSerde}.

(** The operation run, and its outcome told. *)
Definition tell {T} `{Pretty T} (operation : io T) : io ToolResult := r ← attempt operation; lift (to_tool_result r).

(** [serde_json::from_value(args)], refused with its error. *)
Definition with_args {P} `{Deserialize P} (args : Json) (use : P -> io ToolResult) : io ToolResult :=
  match from_value args with
  | inl e => mret (ToolError (lit "invalid arguments: " ++ e))
  | inr params => use params
  end.

Definition query {T} `{Pretty T} (operation : WalletChain -> option EvmNetwork -> str -> io T) (args : Json) : io ToolResult :=
  with_args args (fun a : TxQueryArgs => tell (operation (tq_chain a) (tq_evm_network a) (tq_hash a))).

Definition wallet_status_tool : io ToolResult := tell status.
Definition wallet_chain_status_tool : io ToolResult := tell chain_status.
Definition wallet_prepare_transfer_tool (args : Json) : io ToolResult := with_args args (fun params => tell (prepare_transfer params)).
Definition wallet_tx_status_tool (args : Json) : io ToolResult := query tx_status args.
Definition wallet_tx_receipt_tool (args : Json) : io ToolResult := query tx_receipt args.
Definition wallet_lookup_tx_tool (args : Json) : io ToolResult := query lookup_tx args.
Definition swap_quote_tool (args : Json) : io ToolResult := with_args args (fun params => tell (quote_swap params)).
Definition swap_execute_tool (args : Json) : io ToolResult := with_args args (fun params => tell (execute_quote params)).
Definition bridge_quote_tool (args : Json) : io ToolResult := with_args args (fun params => tell (quote_bridge params)).
Definition bridge_execute_tool (args : Json) : io ToolResult := with_args args (fun params => tell (execute_quote params)).
Definition dapp_call_tool (args : Json) : io ToolResult := with_args args (fun params => tell (prepare_dapp_call params)).
Definition dapp_execute_tool (args : Json) : io ToolResult := with_args args (fun params => tell (execute_quote params)).

(** [Tool::execute] of each. *)
Definition execute_agent_tool (t : AgentTool) (args : Json) : io ToolResult :=
  match t with
  | WalletStatusTool => wallet_status_tool
  | WalletChainStatusTool => wallet_chain_status_tool
  | WalletPrepareTransferTool => wallet_prepare_transfer_tool args
  | WalletTxStatusTool => wallet_tx_status_tool args
  | WalletTxReceiptTool => wallet_tx_receipt_tool args
  | WalletLookupTxTool => wallet_lookup_tx_tool args
  | Web3SwapQuoteTool => swap_quote_tool args
  | Web3SwapExecuteTool => swap_execute_tool args
  | Web3BridgeQuoteTool => bridge_quote_tool args
  | Web3BridgeExecuteTool => bridge_execute_tool args
  | Web3DappCallTool => dapp_call_tool args
  | Web3DappExecuteTool => dapp_execute_tool args
  end.

(** The routes tool tells what the backend answered. *)
Definition swap_routes_tool (answer : str + Json) : res str ToolResult :=
  to_tool_result (match answer with inl e => Err e | inr routes => Ok routes end).
End Tools.

(** * The declarations are consistent *)

(** The tools that act on a quote. *)
Definition executes (t : AgentTool) : bool :=
  match t with Web3SwapExecuteTool | Web3BridgeExecuteTool | Web3DappExecuteTool => true | _ => false end.

(** An object schema whose required arguments are among its properties. *)
Definition schema_ok (schema : Json) : bool :=
  bool_decide (jget (lit "type") schema ≫= as_str = Some (lit "object")) &&
  match jget (lit "properties") schema with
  | Some properties =>
      match jget (lit "required") schema with
      | None => true
      | Some (JArr keys) => forallb (fun k => match k with JStr k => bool_decide (is_Some (jget k properties)) | _ => false end) keys
      | Some _ => false
      end
  | None => false
  end.

Lemma find_first_app {A} (p : A -> bool) a b :
  find_first p (a ++ b) = match find_first p a with Some x => Some x | None => find_first p b end.
Proof. induction a as [|x a IH]; [reflexivity|]. cbn. destruct (p x); [reflexivity | exact IH]. Qed.

(** The three tables searched in turn are the shipped list searched once. *)
Lemma find_tool_is_shipped name : find_tool_declaration name = find_first (named name) shipped_tool_declarations.
Proof. unfold find_tool_declaration, shipped_tool_declarations. rewrite !find_first_app. reflexivity. Qed.

(** The declarations fit together.  The fourteen shipped names are distinct;
    whatever name is looked up, the three tables searched in turn give what the
    shipped list gives, so each declaration is found by its name; every schema is
    an object whose required arguments are properties it declares; every tool over
    the engine or the service has its declaration, so taking its name never panics;
    the execute tools all take the one schema the shared plumbing gives; and the
    chains and networks the schemas offer are the vocabularies' own spellings. *)
Lemma declarations_consistent :
  NoDup (td_name <$> shipped_tool_declarations) /\ length shipped_tool_declarations = 14%nat /\
  (forall name, find_tool_declaration name = find_first (named name) shipped_tool_declarations) /\
  Forall (fun d => find_tool_declaration (td_name d) = Some d /\ schema_ok (td_parameters d) = true) shipped_tool_declarations /\
  (forall t, exists d, tool_declaration t = Ok d /\ d ∈ shipped_tool_declarations) /\
  (exists d, swap_routes_declaration = Ok d /\ d ∈ shipped_tool_declarations) /\
  (forall t, executes t = true -> td_parameters <$> tool_declaration t = execute_tool_schema) /\
  chain_values = JArr (JStr ∘ WalletChain_as_str <$> [WEvm; WBtc; WSolana; WTron]) /\
  evm_network_values = JArr (JStr ∘ EvmNetwork_as_str <$> EvmNetwork_ALL).
Proof.
  split_and!.
  - apply (bool_decide_unpack _). vm_compute. exact I.
  - reflexivity.
  - apply find_tool_is_shipped.
  - unfold shipped_tool_declarations, wallet_declarations, web3_declarations. cbn [app].
    repeat (apply Forall_cons_2; [split; vm_compute; reflexivity|]). apply Forall_nil_2.
  - intros t. assert (Hin : exists i d, tool_declaration t = Ok d /\ shipped_tool_declarations !! i = Some d).
    { destruct t; [exists 0%nat | exists 1%nat | exists 2%nat | exists 3%nat | exists 4%nat | exists 5%nat | exists 6%nat
                  | exists 7%nat | exists 9%nat | exists 10%nat | exists 11%nat | exists 12%nat];
        eexists; split; vm_compute; reflexivity. }
    destruct Hin as (i & d & Hd & Hi). exists d. split; [exact Hd | eapply list_elem_of_lookup_2, Hi].
  - eexists. split; [vm_compute; reflexivity|]. apply (list_elem_of_lookup_2 _ 8). vm_compute. reflexivity.
  - intros t Ht. destruct t; try discriminate Ht; vm_compute; reflexivity.
  - reflexivity.
  - reflexivity.
Qed.

(** * Reading is quiet *)

Section Quiet.
Context `{CodecLaws, Curve25519, Serde, Base64, SerdeReads}.

(** No effect and no panic, whatever the value. *)
Definition quiet {A} (p : io A) : Prop := quietly p (fun _ _ => True).

Lemma quiet_bind {A B} (p : io A) (f : A -> io B) : quiet p -> (forall a, quiet (f a)) -> quiet (p ≫= f).
Proof. intros Hp Hf. eapply quietly_bind; [exact Hp|]. intros a tr0 _. eapply quietly_mono; [apply Hf | auto]. Qed.

Lemma quiet_ret {A} (a : A) : quiet (mret a).
Proof. eapply quietly_mono; [apply quietly_ret | auto]. Qed.

Lemma quiet_fail {A} (e : str) : quiet (Done (Err e) : io A).
Proof. apply quietly_err. Qed.

Lemma quiet_lift {A} (r : res str A) : r <> Panic -> quiet (lift r).
Proof. intros Hr. eapply quietly_mono; [apply quietly_lift, Hr | auto]. Qed.

Lemma quiet_ask {A} q (k : answer q -> io A) : effectful q = false -> (forall r, quiet (k r)) -> quiet (Ask q k).
Proof. intros Hq Hk. apply quietly_ask; [exact Hq|]. intros r. eapply quietly_mono; [apply Hk | auto]. Qed.

Lemma quiet_attempt_bind {A B} (p : io A) (f : res str A -> io B) :
  quiet p -> (forall r, r <> Panic -> quiet (f r)) -> quiet (attempt p ≫= f).
Proof.
  intros Hp Hf. eapply (quietly_bind _ _ (fun _ r => r <> Panic)).
  - intros past. apply wp_attempt. eapply wp_mono; [apply Hp|].
    intros tr [a|e|] (H1' & H2' & H3'); cbn; split_and!; auto; discriminate.
  - intros r tr0 Hr. eapply quietly_mono; [apply Hf, Hr | auto].
Qed.

Lemma quiet_of {A} (p : io A) P : quietly p P -> quiet p.
Proof. intros Hp. eapply quietly_mono; [exact Hp | auto]. Qed.

Lemma quiet_each {A B} (f : A -> io B) l : (forall x, quiet (f x)) -> quiet (each f l).
Proof.
  intros Hf. induction l as [|x l IH]; cbn [each]; [apply quiet_ret|].
  apply quiet_bind; [apply Hf|]. intros y. apply quiet_bind; [exact IH|]. intros ys. apply quiet_ret.
Qed.

Lemma quiet_rpc {T} `{Deserialize T} net method params :
  effectful (JsonRpc net method params) = false -> quiet (json_rpc (T := T) net method params).
Proof. intros Hm. eapply quiet_of, quiet_json_rpc, Hm. Qed.

Lemma quiet_get {T} `{Deserialize T} c path : quiet (rest_get_json (T := T) c path).
Proof. eapply quiet_of, quiet_get_json. Qed.

Lemma quiet_text c path : quiet (rest_get_text c path).
Proof. eapply quiet_of, quiet_get_text. Qed.

Lemma quiet_post {T} `{Deserialize T, JsonPrinter} c path body :
  effectful (RestPost (network_id c None) path (json_text body) (lit "application/json")) = false ->
  quiet (rest_post_json (T := T) c path body).
Proof. intros Hp. eapply quiet_of, quiet_post_json, Hp. Qed.

Ltac quieten :=
  repeat first
    [ apply quiet_get
    | apply quiet_text
    | apply quiet_rpc; reflexivity
    | apply quiet_post; reflexivity
    | apply quiet_attempt_bind; [|intros ? ?]
    | apply quiet_bind; [|intros ?]
    | apply quiet_ret
    | apply quiet_fail
    | apply quiet_each; intros ?
    | apply quiet_lift; no_panic
    | congruence
    | progress cbv zeta
    | case_match ].

Lemma quiet_reading_status chain network hash : quiet (tx_status chain network hash).
Proof.
  unfold tx_status, clean_hash. apply quiet_bind; [apply quiet_lift; no_panic|]. intros h. destruct chain.
  - eapply quiet_of, evm_status_runs.
  - eapply quiet_of, btc_status_runs.
  - eapply quiet_of, solana_status_runs.
  - eapply quiet_of, tron_status_runs.
Qed.

Lemma quiet_tx_receipt chain network hash : quiet (tx_receipt chain network hash).
Proof.
  unfold tx_receipt, clean_hash. apply quiet_bind; [apply quiet_lift; no_panic|]. intros h. destruct chain;
    unfold evm_tx_receipt, btc_tx_receipt, solana_tx_receipt, tron_tx_receipt, get_transaction, evm_rpc_call, rpc_call, tron_post; quieten.
Qed.

Lemma quiet_lookup_tx chain network hash : quiet (lookup_tx chain network hash).
Proof.
  unfold lookup_tx, clean_hash. apply quiet_bind; [apply quiet_lift; no_panic|]. intros h. destruct chain;
    unfold evm_lookup_tx, btc_lookup_tx, solana_lookup_tx, tron_lookup_tx, get_transaction, evm_rpc_call, rpc_call, tron_post; quieten.
Qed.

Lemma quiet_chain_status : quiet chain_status.
Proof.
  unfold chain_status, status. apply quiet_ask; [reflexivity|]. intros [e|s]; [apply quiet_fail|]. cbn [or_error mret io_ret io_then].
  assert (Hrow : forall c n b, quiet (chain_status_row c n b)).
  { intros c n b. unfold chain_status_row, endpoint_url. apply quiet_bind.
    - destruct b; [|apply quiet_ret]. unfold probe_provider, evm_rpc_call, rpc_call. quieten.
    - intros [? ?]. apply quiet_ask; [reflexivity|]. intros u. apply quiet_ret. }
  apply quiet_bind; [apply quiet_each; intros ?; apply Hrow|]. intros evm.
  apply quiet_bind; [apply quiet_each; intros ?; apply Hrow|]. intros others. apply quiet_ret.
Qed.
End Quiet.

(** * What a tool does *)

Section ToolRuns.
Context `{CodecLaws, Curve25519, Serde, Base64, SerdeReads, ToolSerde}.

(** The operation ran as its own theorem says, and its outcome is the answer. *)
Definition ran {T} `{Pretty T} (spec : list event -> res str T -> Prop) (tr : list event) (r : res str ToolResult) : Prop :=
  exists out, spec tr out /\ r = to_tool_result out.

Definition only_reads {T} (tr : list event) (out : res str T) : Prop := effects tr = [] /\ out <> Panic.

(** Decoded, or refused before anything was asked. *)
Definition on_args {P} `{Deserialize P} (args : Json) (spec : P -> list event -> res str ToolResult -> Prop)
    (tr : list event) (r : res str ToolResult) : Prop :=
  match from_value args with
  | inl e => tr = [] /\ r = Ok (ToolError (lit "invalid arguments: " ++ e))
  | inr params => spec params tr r
  end.

Definition tool_ran (t : AgentTool) (args : Json) : list event -> res str ToolResult -> Prop :=
  match t with
  | WalletStatusTool => ran (T := WalletStatus) only_reads
  | WalletChainStatusTool => ran (T := list ChainStatus) only_reads
  | WalletTxStatusTool => on_args args (fun _ : TxQueryArgs => ran (T := TxStatusInfo) only_reads)
  | WalletTxReceiptTool => on_args args (fun _ : TxQueryArgs => ran (T := TxReceiptInfo) only_reads)
  | WalletLookupTxTool => on_args args (fun _ : TxQueryArgs => ran (T := TxLookupInfo) only_reads)
  | WalletPrepareTransferTool => on_args args (fun params => ran (prepare_run params))
  | Web3SwapQuoteTool => on_args args (fun params => ran (web3_prepared Swap (sw_chain_id params) (swap_stated params)))
  | Web3BridgeQuoteTool => on_args args (fun params => ran (web3_prepared Bridge (br_src_chain_id params) (bridge_stated params)))
  | Web3DappCallTool => on_args args (fun params =>
      ran (web3_prepared DappCall (EvmNetwork_chain_id (EvmNetwork_or_mainnet (da_evm_network params))) (dapp_stated params)))
  | Web3SwapExecuteTool | Web3BridgeExecuteTool | Web3DappExecuteTool => on_args args (fun params => ran (web3_run params))
  end.

(** The tools that stamp a quote with the clock's time. *)
Definition quotes (t : AgentTool) : bool :=
  match t with WalletPrepareTransferTool | Web3SwapQuoteTool | Web3BridgeQuoteTool | Web3DappCallTool => true | _ => false end.

(** What moves money: a signature or a broadcast. *)
Definition moves (q : request) : bool := is_signature q || is_broadcast q.

(** The arguments of an execution that the user confirmed. *)
Definition confirms (args : Json) : Prop :=
  exists params : ExecuteQuoteParams, from_value args = inr params /\ eq_confirmed params = true.

(** Nothing moves but on confirmed arguments of an execute tool; only a quote tool
    can panic, and it never fails outright. *)
Definition tool_bounds (t : AgentTool) (args : Json) (tr : list event) (r : res str ToolResult) : Prop :=
  (forall e, e ∈ tr -> moves (ev_request e) = true -> executes t = true /\ confirms args) /\
  (forall e, r <> Err e) /\ (r = Panic -> quotes t = true).

Lemma tell_runs {T} `{Pretty T} (h : host) (p : io T) (spec : list event -> res str T -> Prop) :
  wp p [] spec -> let '(tr, r) := exec h [] (tell p) in ran spec tr r.
Proof.
  intros Hp. apply (wp_exec _ h) in Hp. unfold tell. rewrite exec_attempt_lift.
  destruct (exec h [] p) as [tr out]. cbn [fst snd] in *. exists out. split; [exact Hp|]. destruct out; reflexivity.
Qed.

Lemma args_run {P} `{Deserialize P} (h : host) args (use : P -> io ToolResult) spec :
  (forall params, let '(tr, r) := exec h [] (use params) in spec params tr r) ->
  let '(tr, r) := exec h [] (with_args args use) in on_args args spec tr r.
Proof.
  intros Hu. unfold with_args, on_args. destruct (from_value args) as [e|params]; [split; reflexivity | apply Hu].
Qed.

Lemma quiet_reads {T} (p : io T) : quiet p -> wp p [] only_reads.
Proof. intros Hp. eapply wp_mono; [apply Hp|]. intros tr [a|e|] (_ & He & Hr); split; auto; discriminate. Qed.

Lemma tool_runs t args (h : host) : let '(tr, r) := exec h [] (execute_agent_tool t args) in tool_ran t args tr r.
Proof.
  destruct t; cbn [execute_agent_tool tool_ran];
    unfold wallet_status_tool, wallet_chain_status_tool, wallet_prepare_transfer_tool, wallet_tx_status_tool, wallet_tx_receipt_tool,
      wallet_lookup_tx_tool, swap_quote_tool, swap_execute_tool, bridge_quote_tool, bridge_execute_tool, dapp_call_tool,
      dapp_execute_tool, query; try (apply args_run; intros params); apply tell_runs;
    first [ apply quiet_reads; first [apply quiet_chain_status | apply quiet_reading_status | apply quiet_tx_receipt
                                     | apply quiet_lookup_tx | eapply quiet_of, quiet_status]
          | apply prepare_transfer_runs | apply quote_swap_runs | apply quote_bridge_runs
          | apply prepare_dapp_runs | apply execute_quote_runs ].
Qed.

Lemma moves_effectful e (tr : list event) : e ∈ tr -> moves (ev_request e) = true -> e ∈ effects tr.
Proof.
  intros Hin Hm. unfold effects_of. apply list_elem_of_In, filter_In. split; [apply list_elem_of_In, Hin|].
  unfold is_loud, effectful. unfold moves in Hm. rewrite Hm. reflexivity.
Qed.

Lemma told_not_err {T} `{Pretty T} (out : res str T) e : to_tool_result out <> Err e.
Proof. destruct out as [a| |]; cbn; [destruct (to_string_pretty a)|..]; discriminate. Qed.

Lemma told_panic {T} `{Pretty T} (out : res str T) : to_tool_result out = Panic -> out = Panic.
Proof. destruct out as [a| |]; cbn; [destruct (to_string_pretty a)|..]; congruence. Qed.

(** What an operation may do, told by a tool. *)
Lemma ran_bounds {T} `{Pretty T} t args (spec : list event -> res str T -> Prop) tr r :
  (forall out, spec tr out -> (forall e, e ∈ effects tr -> moves (ev_request e) = true -> executes t = true /\ confirms args) /\
                              (out = Panic -> quotes t = true)) ->
  ran spec tr r -> tool_bounds t args tr r.
Proof.
  intros Hs (out & Ho & ->). destruct (Hs out Ho) as [Hm Hp]. split_and!.
  - intros e Hin Hv. apply (Hm e); [apply moves_effectful|]; assumption.
  - intros e. apply told_not_err.
  - intros E. apply Hp, told_panic, E.
Qed.

Lemma args_bounds {P} `{Deserialize P} t args (spec : P -> list event -> res str ToolResult -> Prop) tr r :
  (forall params, from_value args = inr params -> spec params tr r -> tool_bounds t args tr r) ->
  on_args args spec tr r -> tool_bounds t args tr r.
Proof.
  unfold on_args. destruct (from_value args) as [e|params]; [intros _ [-> ->] | eauto].
  split_and!; [intros e' Hin; inversion Hin | discriminate..].
Qed.

Lemma reads_bounds {T} `{Pretty T} t args tr r : ran (T := T) only_reads tr r -> tool_bounds t args tr r.
Proof.
  apply ran_bounds. intros out [He Hp]. rewrite He. split; [intros e Hin; inversion Hin | congruence].
Qed.

Lemma prepare_bounds t args params tr r : quotes t = true -> ran (prepare_run params) tr r -> tool_bounds t args tr r.
Proof.
  intros Ht. apply ran_bounds. intros out Ho. split; [|auto]. intros e Hin. destruct out as [q|e'|]; cbn in Ho.
  - destruct Ho as (? & ? & ? & ? & ? & ? & Ho). do 12 (apply proj2 in Ho). destruct Ho as [He _]. rewrite He in Hin.
    apply list_elem_of_singleton in Hin as ->. discriminate.
  - rewrite Ho in Hin. inversion Hin.
  - rewrite Ho in Hin. inversion Hin.
Qed.

Lemma web3_bounds t args kind on stated tr r :
  quotes t = true -> ran (web3_prepared kind on stated) tr r -> tool_bounds t args tr r.
Proof.
  intros Ht. apply ran_bounds. intros out Ho. split; [|auto]. intros e Hin. destruct out as [q|e'|]; cbn in Ho.
  - destruct Ho as (quote & He & _). rewrite He in Hin. apply list_elem_of_singleton in Hin as ->. discriminate.
  - rewrite Ho in Hin. inversion Hin.
  - rewrite Ho in Hin. inversion Hin.
Qed.

Lemma execution_bounds t args params tr r :
  executes t = true -> from_value args = inr params -> ran (web3_run params) tr r -> tool_bounds t args tr r.
Proof.
  intros Ht Ha. apply ran_bounds. intros out [Hn Ho]. split; [|congruence]. intros e Hin _. split; [exact Ht|].
  exists params. split; [exact Ha|]. destruct Ho as [(He & _)|[Hc _]]; [|exact Hc]. rewrite He in Hin. inversion Hin.
Qed.

Lemma tool_ran_bounds t args tr r : tool_ran t args tr r -> tool_bounds t args tr r.
Proof.
  destruct t; cbn [tool_ran]; try apply reads_bounds; apply args_bounds; intros params Ha;
    first [ apply reads_bounds | apply prepare_bounds; reflexivity | apply web3_bounds; reflexivity
          | apply execution_bounds; [reflexivity | exact Ha] ].
Qed.

End ToolRuns.

(** * A concrete serde *)

Definition toy_pretty {T} (text : T -> str) : Pretty T := {| to_string_pretty v := inr (text v) |}.

Definition toy_tool_serde : ToolSerde := {|
  tool_params := {|
    swap_params := {| from_value _ := inl []; from_str _ := inl [] |};
    bridge_params := {| from_value _ := inl []; from_str _ := inl [] |};
    dapp_params := {| from_value _ := inl []; from_str _ := inl [] |} |};
  transfer_args := {| from_value _ := inl []; from_str _ := inl [] |};
  query_args := {| from_value _ := inl []; from_str _ := inl [] |};
  execute_args := {|
    from_value v := match v with
                    | JArr [JStr q; JBool c] => inr (mkExecuteQuote q c)
                    | _ => inl (lit "missing field `quoteId`")
                    end;
    from_str _ := inl [] |};
  pretty_status := toy_pretty (fun _ => []);
  pretty_chains := toy_pretty (fun _ => []);
  pretty_prepared := toy_pretty (fun _ => []);
  pretty_tx_status := toy_pretty (fun _ => []);
  pretty_receipt := toy_pretty (fun _ => []);
  pretty_lookup := toy_pretty (fun _ => []);
  pretty_quote := toy_pretty (fun _ => []);
  pretty_execution := toy_pretty wx_quote_id;
  pretty_json := toy_pretty (fun _ => [])
|}.

