(* ===== verification/Lifecycle.v ===== *)
(** Opening, replacing and closing the module's services
    ([crates/tinywallet-module/src/service/mod.rs], [web3.rs],
    [native_wallet.rs], [x402.rs] and
    [crates/tinywallet-x402/src/ledger/global.rs]).

    The served [Wallet] holds at most one service of each kind, under a lock its
    lifecycle members take for writing: each member is one step.  Opening the
    x402 service opens the process-wide ledger, the program of [LedgerOps] over
    the host's storage.  Shown: which handle a member accepts is decided by the
    history of openings and closings alone; a failed one changes nothing; the
    ledger is open exactly with the service that opened it; and a configured
    service sends a chain's requests to the reference drawn for it. *)

From stdpp Require Import base list strings numbers gmap.
From S2P Require Import Prelude Program Text Chain Json Assets X402Wire Wire Quotes Host LedgerTypes Ledger Store LedgerOps.
From S2P Require Import Signer PayHost PayService HostPort Runtime.

(** * What the members ask *)

(** A module call; whether the host's storage can be used; a new ledger's
    generation and owner's name; a call on the storage.  [Forever] is a call that
    is never answered. *)
Inductive need :=
  | Module (q : HostPort.call)
  | LedgerStorage
  | NameOwner
  | Storage {R : Type} (c : Store.call R)
  | Forever.

Definition met (n : need) : Type :=
  match n with
  | Module q => returned q
  | LedgerStorage => str + unit
  | NameOwner => Z * str
  | @Storage R _ => str + R
  | Forever => Empty_set
  end.

Abbreviation life := (program met).
Abbreviation lived := (event_of met).
Abbreviation Lived := (@Event need met).

(** A module task inside a member. *)
Fixpoint in_module {E A} (p : program returned E A) : life E A :=
  match p with
  | Done r => Done r
  | Ask q k => Ask (Module q) (fun a => in_module (k a))
  end.

(** A ledger operation run on the storage. *)
Fixpoint on_storage {A} (p : prog (res str A)) : life str A :=
  match p with
  | Ret r => Done r
  | Call c k => Ask (Storage c) (fun a => on_storage (k a))
  | Spin => Ask Forever (fun a : Empty_set => match a with end)
  end.

(** * The wallet *)

(** [callbacks] is there once the module is set up; the ledger is the
    process-wide one. *)
Record Wallet := mkWallet {
  w_callbacks : bool;
  w_web3 : option Web3Runtime;
  w_native : option NativeWalletRuntime;
  w_x402 : option X402Runtime;
  w_ledger : option PaymentLedger
}.

(** [setup_with_callbacks]. *)
Definition served : Wallet := mkWallet true None None None None.

Definition with_web3 (w : Wallet) (s : option Web3Runtime) : Wallet := mkWallet (w_callbacks w) s (w_native w) (w_x402 w) (w_ledger w).
Definition with_native (w : Wallet) (s : option NativeWalletRuntime) : Wallet :=
  mkWallet (w_callbacks w) (w_web3 w) s (w_x402 w) (w_ledger w).
Definition with_x402 (w : Wallet) (s : option X402Runtime) : Wallet := mkWallet (w_callbacks w) (w_web3 w) (w_native w) s (w_ledger w).
(** [init_global_current]'s and [clear_global]'s assignment. *)
Definition with_global (w : Wallet) (l : option PaymentLedger) : Wallet :=
  mkWallet (w_callbacks w) (w_web3 w) (w_native w) (w_x402 w) l.

Section Lifecycle.
Context `{Chrono}.

(** [self.callbacks.clone().ok_or_else(host_unavailable)?]. *)
Definition callbacks (w : Wallet) : life BusError unit := lift (err_if (negb (w_callbacks w)) host_unavailable).
Definition new_uuid {E} : program returned E str := Ask NewUuid mret.

(** ** The swap service *)

(** [Web3Runtime::new] and [new_with_endpoints]. *)
Definition Web3Runtime_new (endpoints : RpcEndpoints) : task Web3Runtime :=
  handle ← new_uuid; mret (mkWeb3Runtime handle endpoints).

(** [Web3Runtime::configured]. *)
Definition Web3Runtime_configured (request : Web3ConfigureRequest) : task (Web3Runtime * list HostEndpointReference) :=
  drawn ← draw_references (wc_overridden request) ∅;
  r ← Web3Runtime_new (web3_endpoints (mkConfigured (wc_cluster request) drawn));
  mret (r, advertised drawn).

Definition web3_configure (w : Wallet) : life BusError (Wallet * str) :=
  _ ← callbacks w;
  next ← with_err web3_operation_failed (in_module (Web3Runtime_new DefaultEndpoints));
  mret (with_web3 w (Some next), w3_handle next).

Definition web3_configure_with_endpoints (w : Wallet) (request : Web3ConfigureRequest)
  : life BusError (Wallet * (str * list HostEndpointReference)) :=
  _ ← callbacks w;
  '(next, told) ← with_err web3_operation_failed (in_module (Web3Runtime_configured request));
  mret (with_web3 w (Some next), (w3_handle next, told)).

Definition web3_close (w : Wallet) (service : str) : life BusError Wallet :=
  current ← lift (ok_or (w_web3 w) host_unavailable);
  _ ← lift (map_err web3_operation_failed (require_web3_handle current service));
  mret (with_web3 w None).

(** ** The native wallet *)

(** [NativeWalletRuntime::new]. *)
Definition NativeWalletRuntime_new (request : NativeWalletConfigRequest) : task (NativeWalletRuntime * list HostEndpointReference) :=
  '(references, told) ← draw_native (nc_overridden request) ∅ [];
  handle ← new_uuid;
  mret (mkNativeRuntime handle (native_endpoints (mkConfigured (nc_cluster request) references)), told).

Definition native_wallet_configure (w : Wallet) (request : NativeWalletConfigRequest)
  : life BusError (Wallet * (str * list HostEndpointReference)) :=
  _ ← callbacks w;
  '(next, told) ← with_err native_wallet_operation_failed (in_module (NativeWalletRuntime_new request));
  mret (with_native w (Some next), (nw_handle next, told)).

Definition native_wallet_close (w : Wallet) (service : str) : life BusError Wallet :=
  current ← lift (ok_or (w_native w) host_unavailable);
  _ ← lift (map_err native_wallet_operation_failed (require_native_handle current service));
  mret (with_native w None).

(** ** The x402 service *)

Definition budget_of (c : X402ConfigResponse) : SpendingBudget :=
  mkBudget (cfg_per_request_max c) (cfg_daily_max c) (cfg_monthly_max c).

(** [init_global_current]: the ledger is replaced once the new one is open. *)
Definition init_global_current (w : Wallet) (session_id : str) (budget : SpendingBudget) : life str Wallet :=
  '(generation, owner) ← Ask NameOwner mret;
  ledger ← on_storage (open_current session_id owner budget generation);
  mret (with_global w (Some ledger)).

Definition clear_global (w : Wallet) : Wallet := with_global w None.

(** [X402Runtime::new]; its lease-renewal task apart. *)
Definition X402Runtime_new (w : Wallet) (c : X402ConfigResponse) : life str (Wallet * X402Runtime) :=
  w ← init_global_current w (cfg_session_id c) (budget_of c);
  handle ← in_module new_uuid;
  mret (w, mkRuntime c handle).

(** [X402Runtime::close]. *)
Definition X402Runtime_close (w : Wallet) (r : X402Runtime) (service : str) : life str Wallet :=
  _ ← lift (PayService.require_handle r service);
  mret (clear_global w).

(** [HostCallbacks::ledger_storage]. *)
Definition ledger_storage : life str unit :=
  Ask LedgerStorage (fun s : str + unit => match s with inl e => Done (Err e) | inr _ => mret tt end).

Definition x402_configure (w : Wallet) (c : X402ConfigResponse) : life BusError (Wallet * str) :=
  _ ← callbacks w;
  _ ← with_err x402_operation_failed ledger_storage;
  '(w, next) ← with_err x402_operation_failed (X402Runtime_new w c);
  mret (with_x402 w (Some next), PayService.handle next).

Definition x402_close (w : Wallet) (service : str) : life BusError Wallet :=
  current ← lift (ok_or (w_x402 w) host_unavailable);
  w ← with_err x402_operation_failed (X402Runtime_close w current service);
  mret (with_x402 w None).

(** ** Every lifecycle member *)

Inductive Service := Web3 | Native | X402.
#[export] Instance Service_eq_dec : EqDecision Service.
Proof. solve_decision. Defined.

Inductive Member :=
  | MWeb3Configure
  | MWeb3ConfigureWithEndpoints (request : Web3ConfigureRequest)
  | MNativeConfigure (request : NativeWalletConfigRequest)
  | MX402Configure (config : X402ConfigResponse)
  | MClose (service : Service) (handle : str).

(** What a member answers. *)
Inductive Outcome :=
  | Opened (service : Service) (handle : str) (told : list HostEndpointReference)
  | Closed (service : Service).

Definition perform (w : Wallet) (m : Member) : life BusError (Wallet * Outcome) :=
  match m with
  | MWeb3Configure => '(w, h) ← web3_configure w; mret (w, Opened Web3 h [])
  | MWeb3ConfigureWithEndpoints request =>
      '(w, (h, told)) ← web3_configure_with_endpoints w request; mret (w, Opened Web3 h told)
  | MNativeConfigure request => '(w, (h, told)) ← native_wallet_configure w request; mret (w, Opened Native h told)
  | MX402Configure config => '(w, h) ← x402_configure w config; mret (w, Opened X402 h [])
  | MClose Web3 h => w ← web3_close w h; mret (w, Closed Web3)
  | MClose Native h => w ← native_wallet_close w h; mret (w, Closed Native)
  | MClose X402 h => w ← x402_close w h; mret (w, Closed X402)
  end.
End Lifecycle.

(** * Runs of the parts *)

(** The random ids a run drew. *)
Definition uuid_of (e : lived) : option str :=
  (match ev_request e as n return met n -> option str with
   | Module q => match q as q return returned q -> option str with NewUuid => fun u => Some u | _ => fun _ => None end
   | _ => fun _ => None
   end) (ev_answer e).
Abbreviation uuids := (omap uuid_of).

Definition module_event (e : mevent) : lived := Lived (Module (ev_request e)) (ev_answer e).

Lemma in_module_runs {E A} (p : program returned E A) evs r :
  runs (in_module p) evs r -> exists evs', evs = module_event <$> evs' /\ runs p evs' r.
Proof.
  revert evs. induction p as [r'|q k IH]; intros evs; cbn.
  - intros [-> ->]. exists []. auto.
  - intros (a & evs' & -> & Hr). apply IH in Hr as (evs'' & -> & Hr). exists (Mev q a :: evs''). split; [reflexivity|]. cbn. eauto.
Qed.

(** What every completed run of a storage program returns. *)
Fixpoint yields {A} (p : prog A) (P : A -> Prop) : Prop :=
  match p with
  | Ret a => P a
  | Call _ k => forall r, yields (k r) P
  | Spin => True
  end.

Lemma yields_bind {A B} (p : prog A) (f : A -> prog B) (P : A -> Prop) (R : B -> Prop) :
  yields p P -> (forall a, P a -> yields (f a) R) -> yields (p ≫= f) R.
Proof. intros Hp Hf. induction p as [a|T c k IH|]; cbn in *; [auto | intros r; apply IH, Hp | exact I]. Qed.

Lemma yields_any {A} (p : prog A) : yields p (fun _ => True).
Proof. induction p; cbn; auto. Qed.

Lemma on_storage_runs {A} (p : prog (res str A)) evs r P : yields p P -> runs (on_storage p) evs r -> P r.
Proof.
  revert evs. induction p as [a|T c k IH|]; intros evs; cbn.
  - intros HP [_ ->]. exact HP.
  - intros HP (a & evs' & _ & Hr). exact (IH a evs' (HP a) Hr).
  - intros _ ([] & _).
Qed.

Section Proofs.
Context `{Chrono}.

(** An opened ledger is its session's, under its budget. *)
Lemma open_current_yields session owner b g :
  yields (open_current session owner b g) (fun r => forall l, r = Ok l -> session_id l = session /\ budget l = b).
Proof.
  unfold open_current. eapply yields_bind; [apply yields_any|]. intros [[]|e|] _; cbn [on_ok yields]; try (intros l He; discriminate).
  unfold from_persist. eapply yields_bind; [apply yields_any|]. intros [[entries next]|e|] _; cbn [on_ok yields]; try (intros l He; discriminate).
  intros l [= <-]. split; reflexivity.
Qed.

(** ** What a member does *)

Definition handle_of (w : Wallet) (s : Service) : option str :=
  match s with
  | Web3 => w3_handle <$> w_web3 w
  | Native => nw_handle <$> w_native w
  | X402 => PayService.handle <$> w_x402 w
  end.

(** The ledger is the x402 service's own. *)
Definition ledger_matches (w : Wallet) : Prop :=
  match w_x402 w, w_ledger w with
  | Some r, Some l => session_id l = cfg_session_id (PayService.config r) /\ budget l = budget_of (PayService.config r)
  | None, None => True
  | _, _ => False
  end.

(** The handle of a service after an outcome. *)
Definition after (s : Service) (h : option str) (o : Outcome) : option str :=
  match o with
  | Opened s' h' _ => if decide (s = s') then Some h' else h
  | Closed s' => if decide (s = s') then None else h
  end.

Definition done_by (w : Wallet) (m : Member) (evs : list lived) (w' : Wallet) (o : Outcome) : Prop :=
  (forall s, handle_of w' s = after s (handle_of w s) o) /\
  (ledger_matches w -> ledger_matches w') /\
  w_callbacks w' = w_callbacks w /\
  match o with
  | Opened s h _ => h ∈ uuids evs /\ forall s' h', m <> MClose s' h'
  | Closed s => exists h, m = MClose s h /\ handle_of w s = Some h
  end.

(** A member that failed was not a closing of the open service. *)
Definition not_closing (w : Wallet) (m : Member) : Prop := forall s h, m = MClose s h -> handle_of w s <> Some h.

Lemma callbacks_runs {A} w (k : unit -> life BusError A) evs r :
  runs (callbacks w ≫= k) evs r -> (w_callbacks w = true /\ runs (k tt) evs r) \/ is_ok r = false.
Proof.
  unfold callbacks. destruct (w_callbacks w); cbn; [auto|]. intros [_ ->]. auto.
Qed.

Lemma uuid_drawn (evs : list mevent) (u : str) : Mev NewUuid u ∈ evs -> u ∈ uuids (module_event <$> evs).
Proof.
  intros Hin. apply list_elem_of_omap. exists (module_event (Mev NewUuid u)). split; [|reflexivity]. apply list_elem_of_fmap. eauto.
Qed.
End Proofs.

Section Steps.
Context `{Chrono}.

(** How a sequence succeeded. *)
Lemma runs_ok {Q} {ans : Q -> Type} {E A B} (p : program ans E A) (f : A -> program ans E B) evs b :
  runs (p ≫= f) evs (Ok b) -> exists a evs1 evs2, evs = evs1 ++ evs2 /\ runs p evs1 (Ok a) /\ runs (f a) evs2 (Ok b).
Proof. intros [Hr | [(e & _ & [=]) | [_ [=]]]]%runs_bind. exact Hr. Qed.

Lemma runs_ok_lift {Q} {ans : Q -> Type} {E A B} (x : res E A) (f : A -> program ans E B) evs b :
  runs (lift x ≫= f) evs (Ok b) -> exists a, x = Ok a /\ runs (f a) evs (Ok b).
Proof. intros [Hr | [(e & _ & _ & [=]) | (_ & _ & [=])]]%runs_lift. exact Hr. Qed.

Lemma runs_ok_err {Q} {ans : Q -> Type} {E F A} (f : E -> F) (p : program ans E A) evs a :
  runs (with_err f p) evs (Ok a) -> runs p evs (Ok a).
Proof. intros (r & Hr & He)%runs_with_err. destruct r; cbn in He; congruence. Qed.

Lemma web3_opened request evs r told :
  runs (Web3Runtime_configured request) evs (Ok (r, told)) ->
  Mev NewUuid (w3_handle r) ∈ evs /\
  exists refs m, evs = drawn refs ++ [Mev NewUuid (w3_handle r)] /\ configured_as (wc_overridden request) refs ∅ m /\
    w3_endpoints r = web3_endpoints (mkConfigured (wc_cluster request) m) /\ told = advertised m.
Proof.
  unfold Web3Runtime_configured. intros (m & e1 & e2 & -> & H1 & H2)%runs_ok. apply draw_references_runs in H1 as (refs & -> & Hc).
  apply runs_ok in H2 as (r' & e3 & e4 & -> & H3 & [-> [= -> ->]]).
  cbn in H3. destruct H3 as (h & e5 & -> & -> & [= ->]). split; [apply elem_of_app; right; left|].
  exists refs, m. split_and!; [reflexivity | exact Hc | reflexivity | reflexivity].
Qed.

Lemma native_opened request evs r told :
  runs (NativeWalletRuntime_new request) evs (Ok (r, told)) ->
  Mev NewUuid (nw_handle r) ∈ evs /\
  exists refs m, evs = drawn refs ++ [Mev NewUuid (nw_handle r)] /\ configured_as (nc_overridden request) refs ∅ m /\
    nw_endpoints r = native_endpoints (mkConfigured (nc_cluster request) m) /\
    told = zip_with mkEndpointReference (nc_overridden request) refs.
Proof.
  unfold NativeWalletRuntime_new. intros ([m told'] & e1 & e2 & -> & H1 & H2)%runs_ok.
  apply draw_native_runs in H1 as (refs & -> & Hc & ->). cbn in H2. destruct H2 as (h & e5 & -> & -> & [= -> ->]).
  split; [apply elem_of_app; right; left|]. exists refs, m. split_and!; [reflexivity | exact Hc | reflexivity | reflexivity].
Qed.

Lemma x402_opened w c evs w' r :
  runs (X402Runtime_new w c) evs (Ok (w', r)) ->
  PayService.config r = c /\ PayService.handle r ∈ uuids evs /\
  exists l, w' = with_global w (Some l) /\ session_id l = cfg_session_id c /\ budget l = budget_of c.
Proof.
  unfold X402Runtime_new, init_global_current. intros (w1 & e1 & e2 & -> & H1 & H2)%runs_ok.
  apply runs_ok in H1 as ([g owner] & e3 & e4 & -> & _ & H1). apply runs_ok in H1 as (l & e5 & e6 & -> & H1 & [_ [= ->]]).
  pose proof (on_storage_runs _ _ _ _ (open_current_yields _ _ _ _) H1 l eq_refl) as [Hs Hb].
  cbn in H2. destruct H2 as (h & e7 & -> & _ & [= -> ->]). split_and!; [reflexivity | | eauto].
  apply list_elem_of_omap. exists (Lived (Module NewUuid) h). split; [|reflexivity]. apply elem_of_app. right. left.
Qed.
End Steps.

Section History.
Context `{Chrono}.

Lemma member_done w m evs w' o : runs (perform w m) evs (Ok (w', o)) -> done_by w m evs w' o.
Proof.
  unfold done_by. destruct m as [|request|request|c|[] h]; cbn [perform];
    intros (x & e1 & e2 & -> & H1 & H2)%runs_ok.
  - destruct x as [w1 h]. destruct H2 as [-> [= -> ->]]. apply callbacks_runs in H1 as [[_ H1]|[=]].
    apply runs_ok in H1 as (next & e3 & e4 & -> & H1 & [-> [= -> ->]]).
    apply runs_ok_err, in_module_runs in H1 as (e5 & -> & H1). cbn in H1. destruct H1 as (h & e6 & -> & -> & [= ->]).
    split_and!; [intros []; reflexivity | auto | reflexivity | cbn; left | discriminate].
  - destruct x as [w1 [h told]]. destruct H2 as [-> [= -> ->]]. apply callbacks_runs in H1 as [[_ H1]|[=]].
    apply runs_ok in H1 as ([next told'] & e3 & e4 & -> & H1 & [-> [= -> -> ->]]).
    apply runs_ok_err, in_module_runs in H1 as (e5 & -> & H1). apply web3_opened in H1 as [Hin _].
    split_and!; [intros []; reflexivity | auto | reflexivity | rewrite !app_nil_r; exact (uuid_drawn _ _ Hin) | discriminate].
  - destruct x as [w1 [h told]]. destruct H2 as [-> [= -> ->]]. apply callbacks_runs in H1 as [[_ H1]|[=]].
    apply runs_ok in H1 as ([next told'] & e3 & e4 & -> & H1 & [-> [= -> -> ->]]).
    apply runs_ok_err, in_module_runs in H1 as (e5 & -> & H1). apply native_opened in H1 as [Hin _].
    split_and!; [intros []; reflexivity | auto | reflexivity | rewrite !app_nil_r; exact (uuid_drawn _ _ Hin) | discriminate].
  - destruct x as [w1 h]. destruct H2 as [-> [= -> ->]]. apply callbacks_runs in H1 as [[_ H1]|[=]].
    apply runs_ok in H1 as (u & e3 & e4 & -> & _ & H1). apply runs_ok in H1 as ([w2 next] & e5 & e6 & -> & H1 & [-> [= -> ->]]).
    apply runs_ok_err, x402_opened in H1 as (<- & Hin & l & -> & Hs & Hb).
    split_and!; [intros []; reflexivity | intros _; split; assumption | reflexivity | | discriminate].
    rewrite !omap_app, !app_nil_r. apply elem_of_app. right. exact Hin.
  - destruct H2 as [-> [= -> ->]]. apply runs_ok_lift in H1 as (r & Hr & H1). apply runs_ok_lift in H1 as (u & Hh & [-> [= ->]]).
    destruct (w_web3 w) as [r'|] eqn:Hw; cbn in Hr; [injection Hr as <-|discriminate].
    unfold require_web3_handle in Hh. case_bool_decide as Heq; [|discriminate]. subst h.
    split_and!; [intros []; reflexivity | auto | reflexivity | exists (w3_handle r'); cbn; rewrite Hw; auto].
  - destruct H2 as [-> [= -> ->]]. apply runs_ok_lift in H1 as (r & Hr & H1). apply runs_ok_lift in H1 as (u & Hh & [-> [= ->]]).
    destruct (w_native w) as [r'|] eqn:Hw; cbn in Hr; [injection Hr as <-|discriminate].
    unfold require_native_handle in Hh. case_bool_decide as Heq; [|discriminate]. subst h.
    split_and!; [intros []; reflexivity | auto | reflexivity | exists (nw_handle r'); cbn; rewrite Hw; auto].
  - destruct H2 as [-> [= -> ->]]. apply runs_ok_lift in H1 as (r & Hr & H1).
    apply runs_ok in H1 as (w2 & e3 & e4 & -> & H1 & [-> [= ->]]). apply runs_ok_err, runs_ok_lift in H1 as (u & Hh & [-> [= ->]]).
    destruct (w_x402 w) as [r'|] eqn:Hw; cbn in Hr; [injection Hr as <-|discriminate].
    unfold PayService.require_handle in Hh. case_bool_decide as Heq; [|discriminate]. subst h.
    split_and!; [intros []; reflexivity | exact (fun _ => I) | reflexivity | exists (PayService.handle r'); cbn; rewrite Hw; auto].
Qed.

(** Closing the open service cannot fail. *)
Lemma member_refused w m evs r : runs (perform w m) evs r -> is_ok r = false -> not_closing w m.
Proof.
  intros Hr Hno s h -> Hh. destruct s; cbn in Hh; cbn [perform] in Hr;
    unfold web3_close, native_wallet_close, x402_close, X402Runtime_close, require_web3_handle, require_native_handle,
      PayService.require_handle in Hr;
    [destruct (w_web3 w) as [r'|] | destruct (w_native w) as [r'|] | destruct (w_x402 w) as [r'|]]; try discriminate;
    injection Hh as <-; cbn in Hr; rewrite bool_decide_true in Hr by reflexivity; destruct Hr as [_ ->]; discriminate.
Qed.

(** ** Histories *)

(** One member's call: what it asked, and how it ended. *)
Record Turn := mkTurn { tn_member : Member; tn_events : list lived; tn_result : res BusError (Wallet * Outcome) }.

Definition turn_outcome (t : Turn) : option Outcome := match tn_result t with Ok (_, o) => Some o | _ => None end.
Definition wallet_after (w : Wallet) (t : Turn) : Wallet := match tn_result t with Ok (w', _) => w' | _ => w end.

(** Members one after the other: a failed one leaves the wallet as it was. *)
Fixpoint lifetime (w : Wallet) (h : list Turn) (w' : Wallet) : Prop :=
  match h with
  | [] => w' = w
  | t :: h => runs (perform w (tn_member t)) (tn_events t) (tn_result t) /\ lifetime (wallet_after w t) h w'
  end.

(** The handle a service answers to, by its history alone. *)
Definition current_from (s : Service) (h : option str) (hist : list Turn) : option str :=
  foldl (after s) h (omap turn_outcome hist).
Abbreviation current s := (current_from s None).

Definition turn_uuids (hist : list Turn) : list str := t ← hist; uuids (tn_events t).

Lemma lifetime_app h1 : forall w h2 w', lifetime w (h1 ++ h2) w' <-> exists w1, lifetime w h1 w1 /\ lifetime w1 h2 w'.
Proof.
  induction h1 as [|t h1 IH]; intros w h2 w'; cbn.
  - split; [eauto | intros (w1 & -> & H2); exact H2].
  - split; [intros [Hr (w1 & H1 & H2)%IH]; eauto | intros (w1 & [Hr H1] & H2); split; [exact Hr | apply IH; eauto]].
Qed.

Lemma turn_done w t : runs (perform w (tn_member t)) (tn_events t) (tn_result t) ->
  (forall s, handle_of (wallet_after w t) s = current_from s (handle_of w s) [t]) /\
  (ledger_matches w -> ledger_matches (wallet_after w t)).
Proof.
  unfold wallet_after, current_from. cbn. unfold turn_outcome. destruct (tn_result t) as [[w1 o]|e|]; intros Hr; [|auto..].
  apply member_done in Hr as (Hh & Hl & _). auto.
Qed.

Lemma current_cons s h t hist : current_from s h (t :: hist) = current_from s (current_from s h [t]) hist.
Proof. unfold current_from. cbn. destruct (turn_outcome t); reflexivity. Qed.

Lemma lifetime_handles hist : forall w w', lifetime w hist w' ->
  (forall s, handle_of w' s = current_from s (handle_of w s) hist) /\ (ledger_matches w -> ledger_matches w').
Proof.
  induction hist as [|t hist IH]; intros w w'; [cbn [lifetime]; intros ->; split; [reflexivity | auto]|]. intros [Hr Hl].
  apply turn_done in Hr as [Hh Hm]. destruct (IH _ _ Hl) as [Hh' Hm']. split; [|auto].
  intros s. rewrite Hh', current_cons, Hh. reflexivity.
Qed.

(** What a service answers to was not touched since, or was drawn since. *)
Definition touches (s : Service) (t : Turn) : Prop :=
  match turn_outcome t with Some (Opened s' _ _) | Some (Closed s') => s' = s | None => False end.

#[local] Instance touches_dec s t : Decision (touches s t).
Proof. unfold touches. destruct (turn_outcome t) as [[s' h told|s']|]; apply _. Defined.

Lemma untouched s t u : ~ touches s t -> current_from s u [t] = u.
Proof.
  unfold touches, current_from. cbn. destruct (turn_outcome t) as [[s' h told|s']|]; cbn; intros Hn; [| |reflexivity];
    rewrite decide_False by congruence; reflexivity.
Qed.

Lemma touched s t w u h : runs (perform w (tn_member t)) (tn_events t) (tn_result t) ->
  touches s t -> current_from s u [t] = Some h -> h ∈ uuids (tn_events t).
Proof.
  unfold touches, current_from. cbn. unfold turn_outcome. destruct (tn_result t) as [[w1 o]|e|]; [|tauto..]. intros Hr.
  destruct (member_done _ _ _ _ _ Hr) as (_ & _ & _ & Ho). destruct o as [s' h' told|s']; cbn; intros <-; rewrite decide_True by reflexivity;
    [intros [= <-]; apply Ho | discriminate].
Qed.

Lemma current_source s h hist : forall w w' u, lifetime w hist w' -> current_from s u hist = Some h -> u = Some h \/ h ∈ turn_uuids hist.
Proof.
  induction hist as [|t hist IH]; intros w w' u; [cbn; auto|]. intros [Hr Hl]. rewrite current_cons. intros Hc.
  destruct (IH _ _ _ Hl Hc) as [He|Hin]; [|right; apply elem_of_app; auto].
  destruct (decide (touches s t)) as [Ht|Hn]; [right; apply elem_of_app; left; eapply touched; eassumption|].
  rewrite untouched in He by exact Hn. auto.
Qed.

Lemma current_drawn s h hist : forall w w', lifetime w hist w' ->
  current_from s (Some h) hist = Some h -> Forall (fun t => ~ touches s t) hist \/ h ∈ turn_uuids hist.
Proof.
  induction hist as [|t hist IH]; intros w w'; [left; constructor|]. intros [Hr Hl]. rewrite current_cons. intros Hc.
  destruct (decide (touches s t)) as [Ht|Hn].
  - right. apply elem_of_app. destruct (current_source _ _ _ _ _ _ Hl Hc); [left; eapply touched; eassumption | auto].
  - rewrite untouched in Hc by exact Hn. destruct (IH _ _ Hl Hc); [left; constructor; assumption | right; apply elem_of_app; auto].
Qed.

Lemma current_snoc s pre t : current s (pre ++ [t]) = current_from s (current s pre) [t].
Proof. unfold current_from. rewrite omap_app, foldl_app. reflexivity. Qed.

Lemma current_mid s pre t post : current s (pre ++ t :: post) = current_from s (current s (pre ++ [t])) post.
Proof. rewrite cons_middle, (assoc_L (++)). unfold current_from. rewrite omap_app, foldl_app. reflexivity. Qed.

Lemma served_current w hist : lifetime served hist w -> (forall s, handle_of w s = current s hist) /\ ledger_matches w.
Proof.
  intros [Hh Hm]%lifetime_handles. split; [|apply Hm; exact I]. intros s. rewrite Hh. destruct s; reflexivity.
Qed.

(** What a turn of a history shows of it. *)
Definition turn_exact (pre : list Turn) (t : Turn) : Prop :=
  match tn_result t with
  | Ok (_, Opened s h _) => current s (pre ++ [t]) = Some h
  | Ok (_, Closed s) => (exists h, tn_member t = MClose s h /\ current s pre = Some h) /\ current s (pre ++ [t]) = None
  | _ => (forall s h, tn_member t = MClose s h -> current s pre <> Some h) /\ forall s, current s (pre ++ [t]) = current s pre
  end.

Lemma turn_is_exact w hist pre t post : lifetime served hist w -> hist = pre ++ t :: post -> turn_exact pre t.
Proof.
  intros Hlife ->. apply lifetime_app in Hlife as (w1 & [Hc _]%served_current & Hr & _). unfold turn_exact.
  assert (Hs : forall s, current s (pre ++ [t]) = from_option (after s (current s pre)) (current s pre) (turn_outcome t)).
  { intros s. rewrite current_snoc. unfold current_from. cbn. destruct (turn_outcome t); reflexivity. }
  unfold turn_outcome in Hs. destruct (tn_result t) as [[w2 [s h told|s]]|e|]; try (setoid_rewrite Hs; cbn).
  - rewrite decide_True by reflexivity. reflexivity.
  - apply member_done in Hr as (_ & _ & _ & h & Hm & Hd). rewrite Hc in Hd. rewrite decide_True by reflexivity. eauto.
  - split; [|reflexivity]. intros s h Hm. rewrite <- Hc. exact (member_refused _ _ _ _ Hr eq_refl s h Hm).
  - split; [|reflexivity]. intros s h Hm. rewrite <- Hc. exact (member_refused _ _ _ _ Hr eq_refl s h Hm).
Qed.

(** With ids never drawn twice, an opening whose handle is still answered to is
    the service's last turn. *)
Lemma last_opening w hist pre t post s h told w1 : lifetime served hist w -> hist = pre ++ t :: post -> NoDup (turn_uuids hist) ->
  tn_result t = Ok (w1, Opened s h told) -> handle_of w s = Some h -> Forall (fun t' => ~ touches s t') post.
Proof.
  intros Hlife -> Hnd Ht Hw. pose proof (served_current _ _ Hlife) as [Hc _]. rewrite Hc in Hw.
  pose proof (turn_is_exact _ _ _ _ _ Hlife eq_refl) as He. unfold turn_exact in He. rewrite Ht in He.
  apply lifetime_app in Hlife as (w0 & _ & Hr & Hl).
  assert (Hpost : current_from s (Some h) post = Some h).
  { rewrite current_mid, He in Hw. exact Hw. }
  destruct (current_drawn _ _ _ _ _ Hl Hpost) as [Hf|Hin]; [exact Hf|]. exfalso.
  rewrite Ht in Hr. apply member_done in Hr as (_ & _ & _ & Hd & _).
  unfold turn_uuids in Hnd. rewrite bind_app in Hnd. apply NoDup_app in Hnd as (_ & _ & Hnd). cbn in Hnd.
  apply NoDup_app in Hnd as (_ & Hnd & _). exact (Hnd _ Hd Hin).
Qed.

(** Whether a member that names a handle goes on. *)
Definition accepts (w : Wallet) (s : Service) (h : str) : bool :=
  match s with
  | Web3 => match active_web3 (w_web3 w) h with Done (Ok _) => true | _ => false end
  | Native => match active_native (w_native w) h with Done (Ok _) => true | _ => false end
  | X402 => match w_x402 w with Some r => is_ok (PayService.require_handle r h) | None => false end
  end.

Lemma accepts_current w s h : accepts w s h = true <-> handle_of w s = Some h.
Proof.
  destruct s; cbn; unfold active_web3, active_native, require_web3_handle, require_native_handle, PayService.require_handle;
    [destruct (w_web3 w) | destruct (w_native w) | destruct (w_x402 w)]; cbn; try (split; discriminate);
    case_bool_decide; cbn; split; congruence.
Qed.


Lemma advertised_told keys refs m :
  configured_as keys refs ∅ m -> advertised m ≡ₚ zip_with mkEndpointReference keys refs.
Proof.
  intros (Hl & Hn & _ & ->). rewrite (right_id_L ∅ (∪)). unfold advertised.
  rewrite map_to_list_to_map by (rewrite fst_zip by lia; exact Hn). clear.
  revert refs. induction keys as [|k keys IH]; intros [|r refs]; cbn; [reflexivity..|]. rewrite <- IH. reflexivity.
Qed.

Lemma clashes_empty keys : clashes keys ∅ -> ~ NoDup keys.
Proof. intros [Hn|(k & _ & Hk)]; [exact Hn|]. rewrite lookup_empty in Hk. destruct Hk. discriminate. Qed.

Lemma web3_routed w request evs w' h told : runs (web3_configure_with_endpoints w request) evs (Ok (w', (h, told))) ->
  exists refs r m, w_web3 w' = Some r /\ w3_handle r = h /\ NoDup (wc_overridden request) /\
    evs = module_event <$> drawn refs ++ [Mev NewUuid h] /\
    told ≡ₚ zip_with mkEndpointReference (wc_overridden request) refs /\
    (forall chain network, ep_url (w3_endpoints r) chain network = builtin_url (wc_cluster request) chain network /\
       routed (wc_overridden request) refs (mkConfigured (wc_cluster request) m) chain network
         (network_request (Host.network_id chain network) (Some (w3_endpoints r)))).
Proof.
  intros [[_ H1]|[=]]%callbacks_runs. apply runs_ok in H1 as ([next told'] & e1 & e2 & -> & H1 & [-> [= -> -> ->]]).
  apply runs_ok_err, in_module_runs in H1 as (e3 & -> & H1). apply web3_opened in H1 as (_ & refs & m & -> & Hc & He & ->).
  exists refs, next, m. rewrite app_nil_r. pose proof Hc as (_ & Hn & _). split_and!; auto using advertised_told.
  intros chain network. rewrite He. split; [reflexivity|]. apply configured_routed; auto.
Qed.

Lemma native_routed w request evs w' h told : runs (native_wallet_configure w request) evs (Ok (w', (h, told))) ->
  exists refs r m, w_native w' = Some r /\ nw_handle r = h /\ NoDup (nc_overridden request) /\
    evs = module_event <$> drawn refs ++ [Mev NewUuid h] /\
    told = zip_with mkEndpointReference (nc_overridden request) refs /\
    forall chain network,
      routed (nc_overridden request) refs (mkConfigured (nc_cluster request) m) chain network
        (network_request (Host.network_id chain network) (Some (nw_endpoints r))).
Proof.
  intros [[_ H1]|[=]]%callbacks_runs. apply runs_ok in H1 as ([next told'] & e1 & e2 & -> & H1 & [-> [= -> -> ->]]).
  apply runs_ok_err, in_module_runs in H1 as (e3 & -> & H1). apply native_opened in H1 as (_ & refs & m & -> & Hc & He & ->).
  exists refs, next, m. rewrite app_nil_r. pose proof Hc as (_ & Hn & _). split_and!; auto.
  intros chain network. rewrite He. apply configured_routed; auto using native_url.
Qed.

(** A configuration succeeds as its part that draws does. *)
Lemma configure_succeeds {A B} w (p : task A) f (k : A -> life BusError B) (keys : list RpcEndpointKey) evs r :
  (forall a evs r, runs (k a) evs r -> is_ok r = true) ->
  (forall evs r, runs p evs r -> is_ok r = bool_decide (NoDup keys)) ->
  runs (_ ← callbacks w; a ← with_err f (in_module p); k a) evs r ->
  is_ok r = bool_decide (w_callbacks w = true /\ NoDup keys).
Proof.
  intros Hk Hp. unfold callbacks. destruct (w_callbacks w); cbn.
  - rewrite (bool_decide_ext (true = true /\ NoDup keys) (NoDup keys)) by tauto.
    intros [(a & e1 & e2 & _ & H1 & H2)|[(e & H1 & ->)|[H1 ->]]]%runs_bind;
      apply runs_with_err in H1 as (x & (e3 & _ & H1)%in_module_runs & Hx); apply Hp in H1; rewrite <- H1;
      destruct x; try discriminate; [eapply Hk, H2 | reflexivity..].
  - intros [_ ->]. symmetry. apply bool_decide_eq_false. intros [[=] _].
Qed.

Lemma web3_drawn request evs r : runs (Web3Runtime_configured request) evs r -> is_ok r = bool_decide (NoDup (wc_overridden request)).
Proof.
  intros [(m & e1 & e2 & -> & H1 & H2)|[(e & H1 & ->)|[H1 ->]]]%runs_bind; apply draw_references_runs in H1; [| |contradiction].
  - destruct H1 as (refs & _ & _ & Hn & _). rewrite bool_decide_true by exact Hn. cbn in H2. destruct H2 as (u & e3 & _ & _ & ->). reflexivity.
  - rewrite bool_decide_false by (apply clashes_empty, H1). reflexivity.
Qed.

Lemma native_drawn request evs r : runs (NativeWalletRuntime_new request) evs r -> is_ok r = bool_decide (NoDup (nc_overridden request)).
Proof.
  intros [([m told] & e1 & e2 & -> & H1 & H2)|[(e & H1 & ->)|[H1 ->]]]%runs_bind; apply draw_native_runs in H1; [| |contradiction].
  - destruct H1 as (refs & _ & (_ & Hn & _) & _). rewrite bool_decide_true by exact Hn. cbn in H2. destruct H2 as (u & e3 & _ & _ & ->). reflexivity.
  - rewrite bool_decide_false by (apply clashes_empty, H1). reflexivity.
Qed.

(** A configured service sends a request on any network the engine names to
    the reference drawn for that network's own key, when the key was overridden,
    and to the public endpoint otherwise; never to both.  It refuses exactly the
    configurations that repeat a key, and tells the host each key's reference.
    The swap service never shows a reference as a URL. *)
Theorem endpoints_routed :
  (forall w request evs w' h told, runs (web3_configure_with_endpoints w request) evs (Ok (w', (h, told))) ->
     exists refs r m, w_web3 w' = Some r /\ w3_handle r = h /\ NoDup (wc_overridden request) /\
       evs = module_event <$> drawn refs ++ [Mev NewUuid h] /\
       told ≡ₚ zip_with mkEndpointReference (wc_overridden request) refs /\
       (forall chain network, ep_url (w3_endpoints r) chain network = builtin_url (wc_cluster request) chain network /\
          routed (wc_overridden request) refs (mkConfigured (wc_cluster request) m) chain network
            (network_request (Host.network_id chain network) (Some (w3_endpoints r))))) /\
  (forall w request evs w' h told, runs (native_wallet_configure w request) evs (Ok (w', (h, told))) ->
     exists refs r m, w_native w' = Some r /\ nw_handle r = h /\ NoDup (nc_overridden request) /\
       evs = module_event <$> drawn refs ++ [Mev NewUuid h] /\
       told = zip_with mkEndpointReference (nc_overridden request) refs /\
       forall chain network,
         routed (nc_overridden request) refs (mkConfigured (nc_cluster request) m) chain network
           (network_request (Host.network_id chain network) (Some (nw_endpoints r)))) /\
  (forall w request evs r, runs (web3_configure_with_endpoints w request) evs r ->
     is_ok r = bool_decide (w_callbacks w = true /\ NoDup (wc_overridden request))) /\
  (forall w request evs r, runs (native_wallet_configure w request) evs r ->
     is_ok r = bool_decide (w_callbacks w = true /\ NoDup (nc_overridden request))).
Proof.
  split_and!; [exact web3_routed | exact native_routed | |]; intros w request evs r Hr; eapply configure_succeeds; try exact Hr;
    try (intros [? ?] evs' r' [_ ->]; reflexivity); [apply web3_drawn | apply native_drawn].
Qed.
End History.

(** * Instances *)

Section Instances.
#[local] Existing Instance toy_chrono.

Definition drawn_uuid (u : string) : lived := Lived (Module NewUuid) (lit u).

(** Two openings, a closing by the first handle, a closing by the second. *)
Definition example_history : list Turn :=
  let first := with_web3 served (Some (mkWeb3Runtime (lit "one") DefaultEndpoints)) in
  let second := with_web3 first (Some (mkWeb3Runtime (lit "two") DefaultEndpoints)) in
  [mkTurn MWeb3Configure [drawn_uuid "one"] (Ok (first, Opened Web3 (lit "one") []));
   mkTurn MWeb3Configure [drawn_uuid "two"] (Ok (second, Opened Web3 (lit "two") []));
   mkTurn (MClose Web3 (lit "one")) [] (Err (web3_operation_failed (lit "web3 service handle is unavailable")));
   mkTurn (MClose Web3 (lit "two")) [] (Ok (with_web3 second None, Closed Web3))].

Lemma example_opens w u : w_callbacks w = true ->
  runs (perform w MWeb3Configure) [drawn_uuid u]
    (Ok (with_web3 w (Some (mkWeb3Runtime (lit u) DefaultEndpoints)), Opened Web3 (lit u) [])).
Proof.
  intros Hw. unfold perform, web3_configure, callbacks. rewrite Hw. exists (lit u), []. split; [reflexivity | split; reflexivity].
Qed.


Lemma endpoints_routed_witness :
  exists evs w', runs (web3_configure_with_endpoints served (mkWeb3Configure ClusterMainnet [KeyEvm BaseMainnet])) evs
    (Ok (w', (lit "service", [mkEndpointReference (KeyEvm BaseMainnet) (lit "ref")]))) /\
  exists r, w_web3 w' = Some r /\
    endpoint_ref (network_request (Host.network_id WEvm (Some BaseMainnet)) (Some (w3_endpoints r))) = Some (lit "ref") /\
    endpoint_ref (network_request (Host.network_id WSolana None) (Some (w3_endpoints r))) = None.
Proof.
  set (c := mkConfigured ClusterMainnet {[ KeyEvm BaseMainnet := lit "ref" ]}).
  exists [drawn_uuid "ref"; drawn_uuid "service"], (with_web3 served (Some (mkWeb3Runtime (lit "service") (web3_endpoints c)))).
  assert (Hr : runs (web3_configure_with_endpoints served (mkWeb3Configure ClusterMainnet [KeyEvm BaseMainnet]))
    [drawn_uuid "ref"; drawn_uuid "service"]
    (Ok (with_web3 served (Some (mkWeb3Runtime (lit "service") (web3_endpoints c))), (lit "service", [mkEndpointReference (KeyEvm BaseMainnet) (lit "ref")])))).
  { cbn. do 2 (eexists _, _; split; [reflexivity|]). split; reflexivity. }
  split; [exact Hr|]. destruct endpoints_routed as (Hweb3 & _ & _ & _).
  destruct (Hweb3 _ _ _ _ _ _ Hr) as (refs & r & m & Hw & _ & _ & Hevs & _ & Hroutes).
  exists r. split; [exact Hw|].
  assert (Hrefs : refs = [lit "ref"]).
  { apply (f_equal (fun es => uuids es)) in Hevs. unfold drawn in Hevs.
    destruct refs as [|x [|y refs]]; cbn -[lit] in Hevs; [discriminate | injection Hevs as <-; reflexivity |].
    injection Hevs as _ _ He. destruct refs; discriminate. }
  subst refs. destruct (Hroutes WEvm (Some BaseMainnet)) as [_ Hb]. destruct (Hroutes WSolana None) as [_ Hs].
  split.
  - destruct Hb as [(i & key & ref & Hk & Hi & _ & He & _)|[Hn _]]; [|destruct Hn; left].
    destruct i; cbn in Hi; [injection Hi as <-; exact He | discriminate].
  - destruct Hs as [(i & key & ref & Hk & Hi & Hkey & _)|(_ & He & _)]; [|exact He].
    destruct i; cbn in Hk; [subst key; discriminate | discriminate].
Defined.
End Instances.
